(** * ai-invoice-bot: a shallow embedding of the API routes and their properties

    The development follows the TypeScript sources of the repository:
    - [auth.ts]                         (credentials [authorize], [signIn] callback)
    - [app/api/chat/route.ts]           (chat [POST], [cosineSimilarity],
                                         [findSimilarInvoices], chat [DELETE])
    - [app/api/dashboard/route.ts]      (dashboard [GET], [extractAmount])
    - [app/api/invoices/upload]         (upload [POST])
    - [app/api/invoices/search/route.ts] (search [GET])

    JavaScript numbers are IEEE 754 binary64 values, embedded as primitive
    floats.  JavaScript strings are sequences of UTF-16 code units.  The
    database behind Prisma is a record of tables; every Prisma call may throw,
    which is driven by a fault schedule carried in the world. *)

From Stdlib Require Import String Ascii.
From Stdlib Require Import List Bool Arith ZArith NArith Lia.
From Stdlib Require Import Floats Permutation Sorted.
Import ListNotations.

Set Implicit Arguments.
Set Warnings "-register-all,-inexact-float".

(** ** JavaScript strings *)

Module Js.

(** A string is the list of its UTF-16 code units. *)
Definition jsstring := list N.

(** An ASCII literal of the source. *)
Definition lit (s : string) : jsstring :=
  List.map N_of_ascii (list_ascii_of_string s).
Arguments lit s%_string.

Definition str_eqb (a b : jsstring) : bool :=
  if list_eq_dec N.eq_dec a b then true else false.

(** [s.length === 0], the falsy string. *)
Definition is_empty (s : jsstring) : bool :=
  match s with [] => true | _ => false end.

Fixpoint startsWith (s p : jsstring) : bool :=
  match p, s with
  | [], _ => true
  | _ :: _, [] => false
  | c :: p', d :: s' => N.eqb c d && startsWith s' p'
  end.

(** [s.includes(p)] *)
Fixpoint includes (s p : jsstring) : bool :=
  startsWith s p ||
  match s with
  | [] => false
  | _ :: s' => includes s' p
  end.

(** [s.slice(0, n)] for [n >= 0]. *)
Definition slice0 (n : nat) (s : jsstring) : jsstring := firstn n s.

(** The characters matched by [\s] in a regular expression, which are also
    those removed by [trim()]. *)
Definition is_whitespace (c : N) : bool :=
  ((9 <=? c) && (c <=? 13) || (c =? 32) || (c =? 160) || (c =? 5760)
   || (8192 <=? c) && (c <=? 8202) || (c =? 8232) || (c =? 8233)
   || (c =? 8239) || (c =? 8287) || (c =? 12288) || (c =? 65279))%N.

(** [s.trim()] is a non-empty string. *)
Definition trim_truthy (s : jsstring) : bool :=
  existsb (fun c => negb (is_whitespace c)) s.

(** Decimal rendering of a non-negative integer, as a template literal
    prints it. *)
Definition digit (d : N) : N := (48 + d)%N.

Fixpoint decimal_fuel (fuel : nat) (n : N) (acc : jsstring) : jsstring :=
  match fuel with
  | O => acc
  | S fuel' =>
      let acc' := digit (n mod 10) :: acc in
      if (n <? 10)%N then acc' else decimal_fuel fuel' (n / 10) acc'
  end.

Definition decimal (n : N) : jsstring :=
  decimal_fuel (S (N.to_nat (N.log2 n))) n [].

(** ** JavaScript numbers *)

Definition number := float.

(** [isNaN(x)] *)
Definition isNaN (x : number) : bool := PrimFloat.is_nan x.

(** Truthiness of a number: neither zero nor NaN. *)
Definition number_truthy (x : number) : bool :=
  negb (PrimFloat.eqb x 0 || isNaN x).

(** A non-negative integer (an array length, an index) as a number. *)
Definition of_nat (n : nat) : number :=
  PrimFloat.of_uint63 (Uint63.of_Z (Z.of_nat n)).

(** ** JSON values, as stored in Prisma [Json] columns and produced by
    [JSON.parse] *)

Inductive json : Type :=
| JNull
| JBool (b : bool)
| JNum (x : number)
| JStr (s : jsstring)
| JArr (items : list json)
| JObj (fields : list (jsstring * json)).

(** [!!v] *)
Definition truthy (v : json) : bool :=
  match v with
  | JNull => false
  | JBool b => b
  | JNum x => number_truthy x
  | JStr s => negb (is_empty s)
  | JArr _ | JObj _ => true
  end.

Fixpoint assoc (fields : list (jsstring * json)) (k : jsstring) : option json :=
  match fields with
  | [] => None
  | (k', v) :: rest => if str_eqb k' k then Some v else assoc rest k
  end.

(** [v[k]] for a key that is not a built-in property name: [None] stands for
    [undefined]. *)
Definition get (v : json) (k : jsstring) : option json :=
  match v with
  | JObj fields => assoc fields k
  | _ => None
  end.

(** Truthiness of a possibly undefined value. *)
Definition otruthy (v : option json) : bool :=
  match v with
  | Some v => truthy v
  | None => false
  end.

(** ** Completion of a computation: a value, or a thrown [Error] with its
    [message]. *)

Inductive Outcome (A : Type) : Type :=
| Ok (a : A)
| Throw (message : jsstring).
Arguments Ok {A} a.
Arguments Throw {A} message.

(** ** Built-ins of the host that the routes call

    These functions belong to the JavaScript runtime and to libraries, not to
    the repository; the routes are modelled over any implementation. *)

Class Host : Type := {
  (** [parseFloat(s)] *)
  parseFloat : jsstring -> number;
  (** [Number(s)], the coercion of a string in arithmetic *)
  StringToNumber : jsstring -> number;
  (** [Array.prototype.toString] *)
  ArrayToString : list json -> jsstring;
  (** [JSON.parse(s)], which throws a [SyntaxError] on malformed text *)
  JSON_parse : jsstring -> Outcome json;
  (** [JSON.stringify(v)] *)
  JSON_stringify : json -> jsstring;
  (** [s.toLowerCase()] *)
  toLowerCase : jsstring -> jsstring;
  (** [bcrypt.compare(password, hash)] *)
  bcrypt_compare : option jsstring -> jsstring -> Outcome bool;
  (** the identifier Prisma gives to the [n]-th created row *)
  cuid : nat -> jsstring;
  (** [crypto.randomUUID()] at its [n]-th call *)
  randomUUID : nat -> jsstring;
  (** [new Date(t).toISOString()] *)
  toISOString : Z -> jsstring
}.

(** [ToString(v)] completes.  An object is converted by its [toString]; a
    property [toString] of its own is a JSON value, which cannot be called,
    and the conversion then throws a [TypeError].  An array is converted by
    joining the conversions of its items. *)
Fixpoint printable (v : json) : bool :=
  match v with
  | JArr items => forallb printable items
  | JObj fields =>
      match assoc fields (lit "toString") with
      | Some _ => false
      | None => true
      end
  | JNull | JBool _ | JNum _ | JStr _ => true
  end.

Definition not_primitive : jsstring := lit "Cannot convert object to primitive value".

(** [ToNumber(v)], the coercion applied by [*] to a JSON value: an array and
    an object are first converted to a string, an object without a
    [toString] of its own to [[object Object]], which is not a number. *)
Definition ToNumber `{Host} (v : json) : Outcome number :=
  match v with
  | JNull => Ok 0%float
  | JBool b => Ok (if b then 1%float else 0%float)
  | JNum x => Ok x
  | JStr s => Ok (StringToNumber s)
  | JArr items =>
      if forallb printable items then Ok (StringToNumber (ArrayToString items))
      else Throw not_primitive
  | JObj _ => if printable v then Ok nan else Throw not_primitive
  end.

(** The rest of an evaluation after a step that completed. *)
Definition and_then {A B} (o : Outcome A) (k : A -> Outcome B) : Outcome B :=
  match o with
  | Ok a => k a
  | Throw e => Throw e
  end.

(** The results of a list of evaluations, up to the first that throws. *)
Fixpoint sequence {A} (l : list (Outcome A)) : Outcome (list A) :=
  match l with
  | [] => Ok []
  | Ok a :: rest =>
      match sequence rest with
      | Ok others => Ok (a :: others)
      | Throw e => Throw e
      end
  | Throw e :: _ => Throw e
  end.

(** [s.trim()] *)
Fixpoint drop_space (s : jsstring) : jsstring :=
  match s with
  | c :: rest => if is_whitespace c then drop_space rest else s
  | [] => []
  end.

Definition trim (s : jsstring) : jsstring := rev (drop_space (rev (drop_space s))).

(** [s.split(sep)] for a separator of one character. *)
Fixpoint split (sep : N) (s : jsstring) : list jsstring :=
  match s with
  | [] => [[]]
  | c :: rest =>
      if N.eqb c sep then [] :: split sep rest
      else
        match split sep rest with
        | part :: parts => (c :: part) :: parts
        | [] => [[c]]
        end
  end.

(** The order of strings by their code units, which [sort()] without a
    comparator uses: [a] comes strictly before [b]. *)
Fixpoint str_ltb (a b : jsstring) : bool :=
  match a, b with
  | _, [] => false
  | [], _ :: _ => true
  | x :: a', y :: b' => N.ltb x y || (N.eqb x y && str_ltb a' b')
  end.

(** ** Regular expressions *)

(** The regular expressions of the sources, as syntax trees. *)
Inductive regex : Type :=
| Lit (c : N)                 (* a pattern character *)
| OneOf (cs : list N)         (* [...], a class of listed characters *)
| Digit                       (* \d *)
| Space                       (* \s *)
| Dot                         (* . *)
| End_                        (* $, without the flag m *)
| Seq (r1 r2 : regex)
| Alt (r1 r2 : regex)         (* r1|r2 *)
| Opt (r : regex)             (* r? *)
| Star (r : regex)            (* r* *)
| Plus (r : regex)            (* r+ *)
| PlusLazy (r : regex)        (* r+? *)
| Capture (r : regex)         (* ( r ), the one capturing group of a pattern *)
| NoCapture (r : regex).      (* (?: r ) *)

(** [Canonicalize(ch)] under the flag [i], for the characters these patterns
    are compared with: an ASCII letter is compared in upper case, and a
    character outside ASCII never equals an ASCII one. *)
Definition canonicalize (ignoreCase : bool) (c : N) : N :=
  if ignoreCase && (97 <=? c)%N && (c <=? 122)%N then (c - 32)%N else c.

(** The characters [.] does not match: the line terminators. *)
Definition is_line_terminator (c : N) : bool :=
  ((c =? 10) || (c =? 13) || (c =? 8232) || (c =? 8233))%N.

Section Matching.
Variable ignoreCase : bool.
Variable A : Type.

Definition one (p : N -> bool) (s : jsstring) (cap : option jsstring)
    (k : jsstring -> option jsstring -> option A) : option A :=
  match s with
  | c :: rest => if p c then k rest cap else None
  | [] => None
  end.

(** Backtracking matcher: [run r s cap k] matches [r] at the start of [s]
    and hands what is left of [s], with the capture, to the continuation
    [k]; it tries the alternatives in the order of priority until [k]
    accepts.  An iteration of a quantifier that consumes nothing is
    rejected once the minimum is reached. *)
Fixpoint run (r : regex) (s : jsstring) (cap : option jsstring)
    (k : jsstring -> option jsstring -> option A) {struct r} : option A :=
  let shorter (s1 s0 : jsstring) := Nat.ltb (length s1) (length s0) in
  match r with
  | Lit c =>
      one (fun x => N.eqb (canonicalize ignoreCase x) (canonicalize ignoreCase c)) s cap k
  | OneOf cs =>
      one (fun x => existsb (fun c => N.eqb (canonicalize ignoreCase x)
                                            (canonicalize ignoreCase c)) cs) s cap k
  | Digit => one (fun x => (48 <=? x)%N && (x <=? 57)%N) s cap k
  | Space => one is_whitespace s cap k
  | Dot => one (fun x => negb (is_line_terminator x)) s cap k
  | End_ => if is_empty s then k s cap else None
  | Seq r1 r2 => run r1 s cap (fun s1 c1 => run r2 s1 c1 k)
  | Alt r1 r2 =>
      match run r1 s cap k with
      | Some a => Some a
      | None => run r2 s cap k
      end
  | Opt r1 =>
      match run r1 s cap (fun s1 c1 => if shorter s1 s then k s1 c1 else None) with
      | Some a => Some a
      | None => k s cap
      end
  | Star r1 =>
      (fix greedy (n : nat) (s0 : jsstring) (c0 : option jsstring) : option A :=
         match n with
         | O => k s0 c0
         | S n' =>
             match run r1 s0 c0 (fun s1 c1 => if shorter s1 s0 then greedy n' s1 c1
                                              else None) with
             | Some a => Some a
             | None => k s0 c0
             end
         end) (length s) s cap
  | Plus r1 =>
      run r1 s cap
        ((fix greedy (n : nat) (s0 : jsstring) (c0 : option jsstring) : option A :=
           match n with
           | O => k s0 c0
           | S n' =>
               match run r1 s0 c0 (fun s1 c1 => if shorter s1 s0 then greedy n' s1 c1
                                                else None) with
               | Some a => Some a
               | None => k s0 c0
               end
           end) (length s))
  | PlusLazy r1 =>
      run r1 s cap
        ((fix reluctant (n : nat) (s0 : jsstring) (c0 : option jsstring) : option A :=
            match k s0 c0 with
            | Some a => Some a
            | None =>
                match n with
                | O => None
                | S n' =>
                    run r1 s0 c0 (fun s1 c1 => if shorter s1 s0 then reluctant n' s1 c1
                                               else None)
                end
            end) (length s))
  | Capture r1 =>
      run r1 s cap (fun s1 _ => k s1 (Some (firstn (length s - length s1) s)))
  | NoCapture r1 => run r1 s cap k
  end.

End Matching.

(** A match: the matched text, the capture and what follows the match. *)
Record Match : Type := mkMatch {
  matched : jsstring;
  captured : option jsstring;
  following : jsstring
}.

Definition match_here (ignoreCase : bool) (r : regex) (s : jsstring) : option Match :=
  run ignoreCase r s None
      (fun rest cap => Some (mkMatch (firstn (length s - length rest) s) cap rest)).

(** The leftmost match of [r] in [s]. *)
Fixpoint exec (ignoreCase : bool) (r : regex) (s : jsstring) : option Match :=
  match match_here ignoreCase r s with
  | Some m => Some m
  | None =>
      match s with
      | [] => None
      | _ :: rest => exec ignoreCase r rest
      end
  end.

(** [s.match(r)] for [r] with the flag [g]: the matched texts, one after
    the other; [n] bounds their number. *)
Fixpoint match_all (n : nat) (ignoreCase : bool) (r : regex) (s : jsstring)
  : list jsstring :=
  match n with
  | O => []
  | S n' =>
      match exec ignoreCase r s with
      | None => []
      | Some m =>
          matched m
          :: match_all n' ignoreCase r
               (if is_empty (matched m) then tl (following m) else following m)
      end
  end.

(** The pattern that matches the characters of [text] and then [r]. *)
Fixpoint literal (text : jsstring) (r : regex) : regex :=
  match text with
  | [] => r
  | c :: rest => Seq (Lit c) (literal rest r)
  end.

End Js.
Import Js.

(** ** The database behind Prisma *)

Module Prisma.

Inductive InvoiceStatus : Type := st_processing | st_processed | st_error.

Definition status_eqb (a b : InvoiceStatus) : bool :=
  match a, b with
  | st_processing, st_processing | st_processed, st_processed
  | st_error, st_error => true
  | _, _ => false
  end.

(** The text of a status, as the column stores it. *)
Definition status_text (s : InvoiceStatus) : jsstring :=
  match s with
  | st_processing => lit "processing"
  | st_processed => lit "processed"
  | st_error => lit "error"
  end.

Inductive Role : Type := role_user | role_assistant.

Record Account : Type := mkAccount {
  account_provider : jsstring
}.

Record User : Type := mkUser {
  user_id : jsstring;
  user_email : jsstring;
  user_name : option jsstring;
  user_passwordHash : option jsstring;
  user_accounts : list Account
}.

Record ChatSession : Type := mkChatSession {
  chat_id : jsstring;
  chat_userId : jsstring;
  chat_title : jsstring
}.

Record Message : Type := mkMessage {
  message_id : jsstring;
  message_chatId : jsstring;
  message_role : Role;
  message_content : jsstring
}.

Record Invoice : Type := mkInvoice {
  invoice_id : jsstring;
  invoice_userId : jsstring;
  invoice_filename : jsstring;
  invoice_status : InvoiceStatus;
  invoice_extractedData : json;          (* [JNull] when the column is null *)
  invoice_classifiedData : json;
  invoice_embeddings : option jsstring;  (* serialized vector, or null *)
  invoice_createdAt : Z
}.

Record InvoiceSearch : Type := mkInvoiceSearch {
  search_userId : jsstring;
  search_query : jsstring;
  search_results : json
}.

Record DB : Type := mkDB {
  users : list User;
  chatSessions : list ChatSession;
  messages : list Message;
  invoices : list Invoice;
  invoiceSearches : list InvoiceSearch
}.

(** The world a request runs in: the database, the faults its next Prisma
    calls will meet ([Some m]: the call throws an error with message [m]; an
    exhausted schedule means no fault), the number of Prisma calls issued so
    far, the number of rows created so far, the clock, and the source of
    [Math.random()] with the number of draws taken from it. *)
Record World : Type := mkWorld {
  db : DB;
  faults : list (option jsstring);
  queries : nat;
  created : nat;
  uuids : nat;
  now : Z;
  random : nat -> number;
  draws : nat
}.

Definition set_db (w : World) (d : DB) : World :=
  mkWorld d (faults w) (queries w) (created w) (uuids w) (now w) (random w) (draws w).

(** ** Computations of a route: state over the world, with exceptions *)

Definition M (A : Type) : Type := World -> Outcome A * World.

Definition ret {A} (a : A) : M A := fun w => (Ok a, w).

Definition throw {A} (message : jsstring) : M A := fun w => (Throw message, w).

Definition bind {A B} (m : M A) (k : A -> M B) : M B :=
  fun w =>
    match m w with
    | (Ok a, w') => k a w'
    | (Throw e, w') => (Throw e, w')
    end.

(** [try { m } catch (error) { handler error }] *)
Definition try_catch {A} (m : M A) (handler : jsstring -> M A) : M A :=
  fun w =>
    match m w with
    | (Ok a, w') => (Ok a, w')
    | (Throw e, w') => handler e w'
    end.

(** A pure step that may throw. *)
Definition lift {A} (o : Outcome A) : M A := fun w => (o, w).

(** A computation that keeps the identifiers of the invoice rows. *)
Definition keeps_invoices {A} (m : M A) : Prop :=
  forall w r w', m w = (r, w') ->
    map invoice_id (invoices (db w')) = map invoice_id (invoices (db w)).

(** [wp m Q w]: run in the world [w], the computation [m] returns normally
    with a value and a world that satisfy [Q]. *)
Definition wp {A} (m : M A) (Q : A -> World -> Prop) (w : World) : Prop :=
  exists a w', m w = (Ok a, w') /\ Q a w'.

End Prisma.
Import Prisma.

Declare Scope route_scope.
Delimit Scope route_scope with route.
Notation "x <- m ;; k" := (bind m (fun x => k))
  (at level 100, m at next level, right associativity) : route_scope.
Notation "m ;;; k" := (bind m (fun _ => k))
  (at level 100, right associativity) : route_scope.
Open Scope route_scope.

(** ** The Prisma client calls the routes make *)

Module Client.
Section WithHost.
Context `{Host}.

(** The fault, if any, that the next Prisma call meets. *)
Definition next_fault (w : World) : option jsstring :=
  match faults w with
  | Some e :: _ => Some e
  | _ => None
  end.

(** The world once a Prisma call has been issued. *)
Definition advance (w : World) : World :=
  mkWorld (db w) (tl (faults w)) (S (queries w)) (created w) (uuids w) (now w)
          (random w) (draws w).

(** One Prisma call: it is counted, it takes the next entry of the fault
    schedule, and unless that entry is a fault it runs [op] on the database. *)
Definition prisma {A} (op : DB -> Outcome A * DB) : M A :=
  fun w =>
    match next_fault w with
    | Some e => (Throw e, advance w)
    | None => let '(r, d) := op (db w) in (r, set_db (advance w) d)
    end.

(** A Prisma [create]: the row gets the next identifier and the current time. *)
Definition prisma_create {A} (row : jsstring -> Z -> A) (store : A -> DB -> DB) : M A :=
  fun w =>
    match next_fault w with
    | Some e => (Throw e, advance w)
    | None =>
        let r := row (cuid (created w)) (now w) in
        (Ok r, mkWorld (store r (db w)) (tl (faults w)) (S (queries w))
                       (S (created w)) (uuids w) (now w) (random w) (draws w))
    end.

(** [crypto.randomUUID()] *)
Definition crypto_randomUUID : M jsstring :=
  fun w =>
    (Ok (randomUUID (uuids w)),
     mkWorld (db w) (faults w) (queries w) (created w) (S (uuids w)) (now w)
             (random w) (draws w)).

(** [Math.random()] *)
Definition Math_random : M number :=
  fun w =>
    (Ok (random w (draws w)),
     mkWorld (db w) (faults w) (queries w) (created w) (uuids w) (now w)
             (random w) (S (draws w))).

(** [prisma.user.findUnique({ where: { email } })]; an undefined [email] is
    rejected by Prisma's argument validation. *)
Definition user_findUnique (email : option jsstring) : M (option User) :=
  prisma (fun d =>
    match email with
    | None => (Throw (lit "Argument `where` needs at least one argument"), d)
    | Some e => (Ok (find (fun u => str_eqb (user_email u) e) (users d)), d)
    end).

(** [prisma.user.create({ data: { email, name, passwordHash } })] *)
Definition user_create (email : jsstring) (name : jsstring) (passwordHash : jsstring)
  : M User :=
  prisma_create
    (fun id _ => mkUser id email (Some name) (Some passwordHash) [])
    (fun u d => mkDB (users d ++ [u]) (chatSessions d) (messages d) (invoices d)
                     (invoiceSearches d)).

(** [prisma.chatSession.findFirst({ where: { id, userId } })] *)
Definition chatSession_findFirst (id userId : jsstring) : M (option ChatSession) :=
  prisma (fun d =>
    (Ok (find (fun c => str_eqb (chat_id c) id && str_eqb (chat_userId c) userId)
              (chatSessions d)), d)).

(** [prisma.chatSession.create({ data: { userId, title } })] *)
Definition chatSession_create (userId title : jsstring) : M ChatSession :=
  prisma_create
    (fun id _ => mkChatSession id userId title)
    (fun c d => mkDB (users d) (chatSessions d ++ [c]) (messages d) (invoices d)
                     (invoiceSearches d)).

(** [prisma.chatSession.delete({ where: { id } })]: throws when no row has
    this id. *)
Definition chatSession_delete (id : jsstring) : M unit :=
  prisma (fun d =>
    if existsb (fun c => str_eqb (chat_id c) id) (chatSessions d)
    then (Ok tt, mkDB (users d)
                      (filter (fun c => negb (str_eqb (chat_id c) id)) (chatSessions d))
                      (messages d) (invoices d) (invoiceSearches d))
    else (Throw (lit "Record to delete does not exist."), d)).

(** [prisma.message.create({ data: { chatId, role, content } })] *)
Definition message_create (chatId : jsstring) (role : Role) (content : jsstring)
  : M Message :=
  prisma_create
    (fun id _ => mkMessage id chatId role content)
    (fun m d => mkDB (users d) (chatSessions d) (messages d ++ [m]) (invoices d)
                     (invoiceSearches d)).

(** [prisma.message.deleteMany({ where: { chatId } })] *)
Definition message_deleteMany (chatId : jsstring) : M unit :=
  prisma (fun d =>
    (Ok tt, mkDB (users d) (chatSessions d)
                 (filter (fun m => negb (str_eqb (message_chatId m) chatId)) (messages d))
                 (invoices d) (invoiceSearches d))).

(** A stable insertion sort: [before y x] says that the order puts [y]
    strictly ahead of [x]; elements that are not ordered keep their places.
    For an order that is consistent (a strict weak order) the sorted list is
    determined by the input, and it is the one that [Array.prototype.sort],
    which is stable, and [orderBy] return.  For a comparator that is not
    consistent, as [(a, b) => b - a] is on numbers that include NaN,
    ECMAScript leaves the order to the implementation; the list is then a
    permutation of the input, and this definition gives the one that an
    insertion from the right end produces. *)
Section Sort.
Variable A : Type.
Variable before : A -> A -> bool.

Fixpoint insert (x : A) (l : list A) : list A :=
  match l with
  | [] => [x]
  | y :: l' => if before y x then y :: insert x l' else x :: l
  end.

Definition sort (l : list A) : list A := fold_right insert [] l.
End Sort.

(** [orderBy: { createdAt: 'desc' }] *)
Definition newer (a b : Invoice) : bool :=
  (invoice_createdAt b <? invoice_createdAt a)%Z.

(** [prisma.invoice.findMany({ where, orderBy: { createdAt: 'desc' } })] *)
Definition invoice_findMany_desc (where_ : Invoice -> bool) : M (list Invoice) :=
  prisma (fun d => (Ok (sort newer (filter where_ (invoices d))), d)).

(** [prisma.invoice.findMany({ where })] *)
Definition invoice_findMany (where_ : Invoice -> bool) : M (list Invoice) :=
  prisma (fun d => (Ok (filter where_ (invoices d)), d)).

(** [prisma.invoice.findUnique({ where: { id } })] *)
Definition invoice_findUnique (id : jsstring) : M (option Invoice) :=
  prisma (fun d => (Ok (find (fun i => str_eqb (invoice_id i) id) (invoices d)), d)).

(** [prisma.invoice.create({ data: { userId, filename, status, extractedData } })] *)
Definition invoice_create (userId filename : jsstring) (status : InvoiceStatus)
    (extractedData : json) : M Invoice :=
  prisma_create
    (fun id t => mkInvoice id userId filename status extractedData JNull None t)
    (fun i d => mkDB (users d) (chatSessions d) (messages d) (invoices d ++ [i])
                     (invoiceSearches d)).

(** [prisma.invoice.update({ where: { id }, data })]: throws when no row has
    this id. *)
Definition invoice_update (id : jsstring) (data : Invoice -> Invoice) : M unit :=
  prisma (fun d =>
    if existsb (fun i => str_eqb (invoice_id i) id) (invoices d)
    then (Ok tt, mkDB (users d) (chatSessions d) (messages d)
                      (map (fun i => if str_eqb (invoice_id i) id then data i else i)
                           (invoices d))
                      (invoiceSearches d))
    else (Throw (lit "Record to update not found."), d)).

(** [prisma.invoiceSearch.create({ data: { userId, query, results } })] *)
Definition invoiceSearch_create (userId query : jsstring) (results : json) : M unit :=
  prisma (fun d =>
    (Ok tt, mkDB (users d) (chatSessions d) (messages d) (invoices d)
                 (invoiceSearches d ++ [mkInvoiceSearch userId query results]))).

End WithHost.
End Client.
Import Client.

(** ** HTTP *)

Module Http.

(** A frame of the chat event stream, [data: {...}\n\n]. *)
Inductive Frame : Type :=
| FStart (chatId messageId : jsstring)
| FChunk (content chatId : jsstring)
| FDone (messageId fullText chatId : jsstring)
| FError (error details : jsstring).

(** [dashboardData.summary] *)
Record Summary : Type := mkSummary {
  totalInvoices : nat;
  totalSpend : number;
  averageInvoiceValue : number
}.

Inductive Body : Type :=
| BText (text : jsstring)
| BJson (value : json)
| BStream (frames : list Frame)
| BDashboard (summary : Summary).

Record Response : Type := mkResponse {
  status : nat;
  body : Body
}.

(** [auth()]: the session, if any, with [session.user.email] and
    [session.user.name]. *)
Record Session : Type := mkSession {
  session_email : option jsstring;
  session_name : option jsstring
}.

(** [session?.user?.email] when it is truthy. *)
Definition session_user_email (session : option Session) : option jsstring :=
  match session with
  | Some s =>
      match session_email s with
      | Some e => if is_empty e then None else Some e
      | None => None
      end
  | None => None
  end.

(** [new Response("Unauthorized", { status: 401 })] *)
Definition unauthorized : Response := mkResponse 401 (BText (lit "Unauthorized")).

(** [NextResponse.json({ error: message }, { status: code })] *)
Definition json_error (code : nat) (message : string) : Response :=
  mkResponse code (BJson (JObj [(lit "error", JStr (lit message))])).

End Http.
Import Http.

(** ** auth.ts *)

Module Auth.
Section WithHost.
Context `{Host}.

(** [process.env] *)
Record Env : Type := mkEnv {
  DEMO_EMAIL : option jsstring;
  DEMO_PASSWORD : option jsstring
}.

(** [process.env.X || fallback] *)
Definition env_or (v : option jsstring) (fallback : jsstring) : jsstring :=
  match v with
  | Some s => if is_empty s then fallback else s
  | None => fallback
  end.

(** The submitted form; a missing field reads as [undefined]. *)
Record Credentials : Type := mkCredentials {
  creds_email : option jsstring;
  creds_password : option jsstring
}.

(** The object [authorize] resolves to. *)
Record AuthUser : Type := mkAuthUser {
  auth_id : jsstring;
  auth_name : option jsstring;
  auth_email : jsstring
}.

(** [a === b] for a possibly undefined [a] and a string [b]. *)
Definition strict_eq (a : option jsstring) (b : jsstring) : bool :=
  match a with
  | Some x => str_eqb x b
  | None => false
  end.

Definition demoEmail (env : Env) : jsstring :=
  env_or (DEMO_EMAIL env) (lit "demo@chat.app").

Definition demoPassword (env : Env) : jsstring :=
  env_or (DEMO_PASSWORD env) (lit "demo1234").

Definition demoUser (env : Env) : AuthUser :=
  mkAuthUser (lit "demo-user-id") (Some (lit "Demo User")) (demoEmail env).

(** [creds?.email] and [creds?.password] *)
Definition email_of (creds : option Credentials) : option jsstring :=
  match creds with Some c => creds_email c | None => None end.

Definition password_of (creds : option Credentials) : option jsstring :=
  match creds with Some c => creds_password c | None => None end.

(** [email === demoEmail && password === demoPassword] *)
Definition is_demo_pair (env : Env) (creds : option Credentials) : bool :=
  strict_eq (email_of creds) (demoEmail env)
  && strict_eq (password_of creds) (demoPassword env).

(** [Credentials({ authorize: async (creds) => ... })] *)
Definition authorize (env : Env) (creds : option Credentials) : M (option AuthUser) :=
  let email := email_of creds in
  let password := password_of creds in
  if is_demo_pair env creds then
    ret (Some (demoUser env))
  else
    try_catch
      (found <- user_findUnique email ;;
       match found with
       | None => ret None
       | Some u =>
           match user_passwordHash u with
           | None => ret None
           | Some hash =>
               if is_empty hash then ret None
               else
                 ok <- lift (bcrypt_compare password hash) ;;
                 ret (if ok : bool
                      then Some (mkAuthUser (user_id u) (user_name u) (user_email u))
                      else None)
           end
       end)
      (fun _ => ret None).

(** [callbacks.signIn({ user, account, profile })]: [email] is [user.email],
    [provider] is [account?.provider]. *)
Definition signIn (email : option jsstring) (provider : option jsstring) : M bool :=
  if strict_eq provider (lit "google") then
    try_catch
      (existingUser <- user_findUnique email ;;
       match existingUser with
       | Some u =>
           let hasGoogleAccount :=
             existsb (fun acc => str_eqb (account_provider acc) (lit "google"))
                     (user_accounts u) in
           if hasGoogleAccount then ret true else ret true
       | None => ret true
       end)
      (fun _ => ret true)
  else ret true.

End WithHost.
End Auth.

(** ** app/api/chat/route.ts *)

Module Chat.
Section WithHost.
Context `{Host}.

Local Open Scope float_scope.

(** The loop of [cosineSimilarity]: [n] iterations remain, [i] is the index;
    an index past the end of an array reads [undefined], which is [NaN] in
    arithmetic. *)
Fixpoint cosine_loop (n i : nat) (vecA vecB : list number)
    (acc : number * number * number) : number * number * number :=
  match n with
  | O => acc
  | S n' =>
      let '(dotProduct, normA, normB) := acc in
      let a := nth i vecA nan in
      let b := nth i vecB nan in
      cosine_loop n' (S i) vecA vecB
        (dotProduct + a * b, normA + a * a, normB + b * b)
  end.

(** [const cosineSimilarity = (vecA: number[], vecB: number[]): number] *)
Definition cosineSimilarity (vecA vecB : list number) : Outcome number :=
  if negb (Nat.eqb (length vecA) (length vecB)) then
    Throw (lit "Vectors must have same length")
  else
    let '(dotProduct, normA, normB) :=
      cosine_loop (length vecA) 0 vecA vecB (0, 0, 0) in
    if (normA =? 0) || (normB =? 0) then Ok 0
    else Ok (dotProduct / (sqrt normA * sqrt normB)).

(** What [vecB.length] and [vecB[i]] give when [vecB] is the value
    [JSON.parse] returned and [vecA] has [n] elements: an array gives its
    items, a string its characters, an object whatever it stores under
    [length] and under the decimal keys; [null] has no properties, and the
    other values have no [length], so that the length test throws.  The
    loop multiplies the elements, which converts each to a number and throws
    where that conversion does. *)
Definition vector_of (n : nat) (v : json) : Outcome (list number) :=
  match v with
  | JNull => Throw (lit "Cannot read properties of null (reading 'length')")
  | JArr items => sequence (map ToNumber items)
  | JStr s => Ok (map (fun c => StringToNumber [c]) s)
  | JObj fields =>
      match assoc fields (lit "length") with
      | Some (JNum x) =>
          if x =? of_nat n then
            sequence (map (fun i => match assoc fields (decimal (N.of_nat i)) with
                                    | Some item => ToNumber item
                                    | None => Ok nan
                                    end) (seq 0 n))
          else Throw (lit "Vectors must have same length")
      | _ => Throw (lit "Vectors must have same length")
      end
  | JNum _ | JBool _ => Throw (lit "Vectors must have same length")
  end.

(** An invoice with its [similarity_score]. *)
Record Scored : Type := mkScored {
  scored_invoice : Invoice;
  similarity_score : number
}.

(** The body of the [map] callback of [findSimilarInvoices]: [None] is the
    [null] of the [catch] branch. *)
Definition score (queryEmbedding : list number) (invoice : Invoice) : option Scored :=
  match invoice_embeddings invoice with
  | None => None
  | Some text =>
      match JSON_parse text with
      | Throw _ => None
      | Ok v =>
          match vector_of (length queryEmbedding) v with
          | Throw _ => None
          | Ok invoiceEmbedding =>
              match cosineSimilarity queryEmbedding invoiceEmbedding with
              | Throw _ => None
              | Ok similarity => Some (mkScored invoice similarity)
              end
          end
      end
  end.

(** [(a, b) => b.similarity_score - a.similarity_score] is positive: [b] goes
    ahead of [a]. *)
Definition ahead (b a : Scored) : bool :=
  0 <? similarity_score b - similarity_score a.

Definition has_embeddings (i : Invoice) : bool :=
  match invoice_embeddings i with Some _ => true | None => false end.

(** [invoices.map(...).filter(item => item !== null)] *)
Definition similarities (queryEmbedding : list number) (found : list Invoice)
  : list Scored :=
  flat_map (fun invoice => match score queryEmbedding invoice with
                           | Some item => [item]
                           | None => []
                           end) found.

(** The [where] clause of [findSimilarInvoices]. *)
Definition searchable (userId : jsstring) (i : Invoice) : bool :=
  str_eqb (invoice_userId i) userId
  && status_eqb (invoice_status i) st_processed
  && has_embeddings i.

(** [const findSimilarInvoices = async (queryEmbedding, userId)] *)
Definition findSimilarInvoices (queryEmbedding : list number) (userId : jsstring)
  : M (list Scored) :=
  found <- invoice_findMany (searchable userId) ;;
  ret (firstn 10 (sort ahead (similarities queryEmbedding found))).

(** The request body [{ chatId, prompt }]. *)
Record ChatRequest : Type := mkChatRequest {
  req_chatId : option jsstring;
  req_prompt : option json
}.

(** The [for] loop of the stream: [n] iterations remain, [i] is the index,
    the state is [fullText] and the frames enqueued so far. *)
Fixpoint stream_chars (n i : nat) (hardcodedResponse chatId : jsstring)
    (st : jsstring * list Frame) : jsstring * list Frame :=
  match n with
  | O => st
  | S n' =>
      let '(fullText, queue) := st in
      let char := match nth_error hardcodedResponse i with
                  | Some c => [c]
                  | None => []
                  end in
      stream_chars n' (S i) hardcodedResponse chatId
        ((fullText ++ char)%list, (queue ++ [FChunk char chatId])%list)
  end.

(** [new ReadableStream({ async start(controller) { ... } })]: the frames the
    controller has received when it is closed. *)
Definition stream_start (chat : ChatSession) (messageId hardcodedResponse : jsstring)
  : M (list Frame) :=
  let started := [FStart (chat_id chat) messageId] in
  let '(fullText, queue) :=
    stream_chars (length hardcodedResponse) 0 hardcodedResponse (chat_id chat)
                 ([], started) in
  try_catch
    (message_create (chat_id chat) role_assistant fullText ;;;
     ret (queue ++ [FDone messageId fullText (chat_id chat)])%list)
    (fun details =>
       ret (queue ++ [FError (lit "Failed to process message") details])%list).

(** [export async function POST(req)] for a given reply: [hardcodedResponse]
    is the text [getHardcodedResponse(prompt)] resolves to.  That function
    catches its own failures and only reads the database; it is modelled
    with the replies, where [Reply.POST] is the handler that computes the
    reply in place. *)
Definition POST (session : option Session) (req : ChatRequest)
    (hardcodedResponse : jsstring) : M Response :=
  match session_user_email session with
  | None => ret unauthorized
  | Some email =>
      match req_prompt req with
      | Some (JStr prompt) =>
          if is_empty prompt then ret (mkResponse 400 (BText (lit "Invalid prompt")))
          else
            found <- user_findUnique (Some email) ;;
            u <- match found with
                 | Some u => ret u
                 | None =>
                     let name := match session with
                                 | Some s => match session_name s with
                                             | Some n => if is_empty n then lit "Demo User" else n
                                             | None => lit "Demo User"
                                             end
                                 | None => lit "Demo User"
                                 end in
                     user_create email name []
                 end ;;
            existing <- match req_chatId req with
                        | Some chatId =>
                            if is_empty chatId then ret None
                            else chatSession_findFirst chatId (user_id u)
                        | None => ret None
                        end ;;
            chat <- match existing with
                    | Some c => ret c
                    | None =>
                        let title := slice0 32 prompt in
                        chatSession_create (user_id u)
                          (if is_empty title then lit "New chat" else title)
                    end ;;
            message_create (chat_id chat) role_user prompt ;;;
            messageId <- crypto_randomUUID ;;
            frames <- stream_start chat messageId hardcodedResponse ;;
            ret (mkResponse 200 (BStream frames))
      | None | Some JNull => ret (mkResponse 400 (BText (lit "Invalid prompt")))
      | Some _ =>
          (* the request is logged with [prompt?.substring(0, 50)] before it
             is validated *)
          throw (lit "prompt?.substring is not a function")
      end
  end.

(** [export async function DELETE(req, { params })], with [chatId] for
    [params.chatId]. *)
Definition DELETE (session : option Session) (chatId : jsstring) : M Response :=
  try_catch
    (match session_user_email session with
     | None => ret (json_error 401 "Unauthorized")
     | Some email =>
         found <- user_findUnique (Some email) ;;
         match found with
         | None =>
             ret (json_error 404 "User not found")
         | Some u =>
             chat <- chatSession_findFirst chatId (user_id u) ;;
             match chat with
             | None =>
                 ret (json_error 404 "Chat not found")
             | Some _ =>
                 message_deleteMany chatId ;;;
                 chatSession_delete chatId ;;;
                 ret (mkResponse 200 (BJson (JObj [(lit "success", JBool true)])))
             end
         end
     end)
    (fun _ => ret (json_error 500 "Failed to delete chat")).

End WithHost.
End Chat.

(** ** app/api/dashboard/route.ts *)

Module Dashboard.
Section WithHost.
Context `{Host}.

Local Open Scope float_scope.

(** The class [[₹$€£,\s]] of the regular expression in [extractAmount]. *)
Definition is_amount_noise (c : N) : bool :=
  ((c =? 8377) || (c =? 36) || (c =? 8364) || (c =? 163) || (c =? 44))%N
  || is_whitespace c.

(** [amount.replace(/[₹$€£,\s]/g, '')] *)
Definition cleanAmount (amount : jsstring) : jsstring :=
  filter (fun c => negb (is_amount_noise c)) amount.

Definition amountFields : list jsstring :=
  [lit "total_amount"; lit "totalAmount"; lit "grand_total"; lit "grandTotal";
   lit "amount"].

(** The [for (const field of amountFields)] loop of [extractAmount]. *)
Fixpoint extractAmount_fields (extractedData : json) (fields : list jsstring)
  : option number :=
  match fields with
  | [] => None
  | field :: rest =>
      match get extractedData field with
      | Some amount =>
          if truthy amount then
            match amount with
            | JStr text =>
                let clean := cleanAmount text in
                if isNaN (parseFloat clean) || is_empty clean then
                  extractAmount_fields extractedData rest
                else
                  let parsed := parseFloat clean in
                  if negb (isNaN parsed) then Some parsed
                  else extractAmount_fields extractedData rest
            | JNum x => Some x
            | _ => extractAmount_fields extractedData rest
            end
          else extractAmount_fields extractedData rest
      | None => extractAmount_fields extractedData rest
      end
  end.

(** [function extractAmount(extractedData: any): number | null] *)
Definition extractAmount (extractedData : json) : option number :=
  if negb (truthy extractedData) then None
  else extractAmount_fields extractedData amountFields.

(** [amount || 0] *)
Definition or_zero (amount : option number) : number :=
  match amount with
  | Some a => if number_truthy a then a else 0
  | None => 0
  end.

(** The keyword ladder of [extractCategories]. *)
Definition category_of (desc : jsstring) : jsstring :=
  if includes desc (lit "travel") || includes desc (lit "flight")
     || includes desc (lit "air") then lit "Travel"
  else if includes desc (lit "office") || includes desc (lit "supplies")
  then lit "Office Supplies"
  else if includes desc (lit "software") || includes desc (lit "subscription")
  then lit "Software"
  else if includes desc (lit "food") || includes desc (lit "meal")
          || includes desc (lit "restaurant") then lit "Food & Dining"
  else lit "Other".

(** [extractedData.line_items.forEach((item) => ...)]: reading a property of
    [null] throws, and so does calling [toLowerCase] on a description that
    is not a string. *)
Fixpoint categories_of_items (items : list json) (categories : list jsstring)
  : Outcome (list jsstring) :=
  match items with
  | [] => Ok categories
  | item :: rest =>
      match item with
      | JNull => Throw (lit "Cannot read properties of null (reading 'description')")
      | _ =>
          match get item (lit "description") with
          | Some description =>
              if truthy description then
                match description with
                | JStr text =>
                    categories_of_items rest
                      (categories ++ [category_of (toLowerCase text)])%list
                | _ => Throw (lit "item.description.toLowerCase is not a function")
                end
              else categories_of_items rest categories
          | None => categories_of_items rest categories
          end
      end
  end.

(** [Array.from(new Set(categories))]: the first occurrence of each is kept. *)
Fixpoint dedupe (seen categories : list jsstring) : list jsstring :=
  match categories with
  | [] => []
  | c :: rest =>
      if existsb (str_eqb c) seen then dedupe seen rest
      else c :: dedupe (c :: seen) rest
  end.

(** [function extractCategories(extractedData: any): string[]] *)
Definition extractCategories (extractedData : json) : Outcome (list jsstring) :=
  if negb (truthy extractedData) then Ok []
  else
    match get extractedData (lit "line_items") with
    | Some (JArr items) =>
        match categories_of_items items [] with
        | Ok categories => Ok (dedupe [] categories)
        | Throw e => Throw e
        end
    | _ => Ok []
    end.

(** [function extractVendorName(extractedData: any): string | null]: the first
    of the three fields that is truthy; [None] stands for [null] and for
    [undefined]. *)
Definition extractVendorName (extractedData : json) : option json :=
  if negb (truthy extractedData) then None
  else
    let vendor_name := get extractedData (lit "vendor_name") in
    let vendorName := get extractedData (lit "vendorName") in
    let vendor := get extractedData (lit "vendor") in
    if otruthy vendor_name then vendor_name
    else if otruthy vendorName then vendorName
    else if otruthy vendor then vendor
    else None.

(** [extractVendorName(invoice.extractedData) || 'Unknown Vendor'] *)
Definition vendorName_of (invoice : Invoice) : json :=
  match extractVendorName (invoice_extractedData invoice) with
  | Some v => if truthy v then v else JStr (lit "Unknown Vendor")
  | None => JStr (lit "Unknown Vendor")
  end.

(** The loop that fills [vendorSpend]; the table it builds is not part of
    the summary, its exceptions are: the line it logs converts [vendorName]
    to a string. *)
Fixpoint vendorSpend (found : list Invoice) : Outcome unit :=
  match found with
  | [] => Ok tt
  | invoice :: rest =>
      if printable (vendorName_of invoice) then vendorSpend rest
      else Throw not_primitive
  end.

(** The loop that fills [spendCategories]; the map it builds is not part of
    the summary, its exceptions are. *)
Fixpoint spendCategories (found : list Invoice) : Outcome unit :=
  match found with
  | [] => Ok tt
  | invoice :: rest =>
      match extractCategories (invoice_extractedData invoice) with
      | Ok _ => spendCategories rest
      | Throw e => Throw e
      end
  end.

(** The [reduce] that computes [totalSpend]. *)
Definition sum_spend (found : list Invoice) : number :=
  fold_left
    (fun sum invoice =>
       let amount := extractAmount (invoice_extractedData invoice) in
       sum + or_zero amount)
    found 0.

(** [export async function GET(request)].  Of [dashboardData] the model keeps
    the fields of [summary] computed from the invoice list alone.  The vendor
    table is kept by its exceptions; the month table is built by code that
    cannot throw, and the table of recent invoices logs the vendor names that
    the vendor loop has logged before. *)
Definition GET (session : option Session) : M Response :=
  match session_user_email session with
  | None => ret unauthorized
  | Some email =>
      try_catch
        (found <- user_findUnique (Some email) ;;
         match found with
         | None => ret (json_error 404 "User not found")
         | Some u =>
             found_invoices <-
               invoice_findMany_desc
                 (fun i => str_eqb (invoice_userId i) (user_id u)
                           && status_eqb (invoice_status i) st_processed) ;;
             let n := length found_invoices in
             let spend := sum_spend found_invoices in
             lift (vendorSpend found_invoices) ;;;
             lift (spendCategories found_invoices) ;;;
             ret (mkResponse 200
                    (BDashboard
                       (mkSummary n spend
                          (if Nat.ltb 0 n then spend / of_nat n else 0))))
         end)
        (fun _ => ret (json_error 500 "Failed to load dashboard data"))
  end.

End WithHost.
End Dashboard.

(** ** app/api/invoices/upload/route.ts *)

Module Upload.
Section WithHost.
Context `{Host}.

(** The uploaded [File]; [file_arrayBuffer] is the completion of
    [await file.arrayBuffer()]. *)
Record File : Type := mkFile {
  file_name : jsstring;
  file_size : N;
  file_type : jsstring;
  file_arrayBuffer : Outcome unit
}.

(** What [fetch(`${pythonServiceUrl}/parse-invoices`)] resolves to. *)
Record FetchResponse : Type := mkFetchResponse {
  resp_ok : bool;
  resp_status : N;
  resp_statusText : jsstring;
  resp_contentType : option jsstring;   (* header [content-type] *)
  resp_invoiceId : option jsstring;     (* header [x-invoice-id] *)
  resp_text : Outcome jsstring;         (* [await response.text()] *)
  resp_json : Outcome json              (* [await response.json()] *)
}.

(** What [fetch('https://api.openai.com/v1/embeddings')] resolves to. *)
Record EmbeddingResponse : Type := mkEmbeddingResponse {
  emb_ok : bool;
  emb_json : Outcome json                (* [await embeddingResponse.json()] *)
}.

(** What surrounds the route: the invoice service, the directory of its
    logs, and the OpenAI API. *)
Record PythonService : Type := mkPythonService {
  py_fetch : Outcome FetchResponse;
  (** [fs.readdirSync(logDir)] *)
  py_logFiles : Outcome (list jsstring);
  (** [fs.readFileSync(path.join(logDir, name), 'utf8')] *)
  py_readFile : jsstring -> Outcome jsstring;
  (** the embeddings request *)
  py_embedding : Outcome EmbeddingResponse
}.

Definition encrypted_error : jsstring :=
  lit "PDF file is encrypted or password-protected".

Definition encrypted_details : jsstring :=
  lit "Cannot process encrypted PDFs. Please provide an unprotected PDF file.".

Definition set_status_data (st : InvoiceStatus) (extractedData : json) (i : Invoice)
  : Invoice :=
  mkInvoice (invoice_id i) (invoice_userId i) (invoice_filename i) st extractedData
            (invoice_classifiedData i) (invoice_embeddings i) (invoice_createdAt i).

Definition set_processed (extractedData classifiedData : json)
    (embeddings : option jsstring) (i : Invoice) : Invoice :=
  mkInvoice (invoice_id i) (invoice_userId i) (invoice_filename i) st_processed
            extractedData classifiedData embeddings (invoice_createdAt i).

(** What the route stores in [extractedData] for an encrypted PDF, and what
    it answers. *)
Definition encrypted_data : json :=
  JObj [(lit "error", JStr encrypted_error);
        (lit "details", JStr encrypted_details)].

Definition encrypted_response (invoice : Invoice) : Response :=
  mkResponse 400
    (BJson (JObj [(lit "error", JStr encrypted_error);
                  (lit "details", JStr encrypted_details);
                  (lit "id", JStr (invoice_id invoice));
                  (lit "status", JStr (lit "error"))])).

(** The two branches shared by both [catch] blocks of the route: mark the
    invoice as failed and answer 400 for an encrypted PDF, 500 otherwise. *)
Definition fail_invoice (invoice : Invoice) (message : jsstring) : M Response :=
  if includes message (lit "PDF_ENCRYPTED") then
    invoice_update (invoice_id invoice) (set_status_data st_error encrypted_data) ;;;
    ret (encrypted_response invoice)
  else
    invoice_update (invoice_id invoice)
      (set_status_data st_error
         (JObj [(lit "error", JStr (lit "Processing failed"));
                (lit "details", JStr message)])) ;;;
    ret (mkResponse 500
           (BJson (JObj [(lit "error", JStr (lit "Processing failed"));
                         (lit "details", JStr message);
                         (lit "id", JStr (invoice_id invoice));
                         (lit "status", JStr (lit "error"))]))).

(** [v || fallback] on JSON values. *)
Definition or_else (v : option json) (fallback : json) : json :=
  match v with
  | Some x => if truthy x then x else fallback
  | None => fallback
  end.

(** The JSON answer describing an invoice row. *)
Definition invoice_json (i : Invoice) (extra : list (jsstring * json)) : json :=
  JObj ([(lit "id", JStr (invoice_id i));
         (lit "filename", JStr (invoice_filename i));
         (lit "status", JStr (status_text (invoice_status i)));
         (lit "extracted_data", invoice_extractedData i);
         (lit "classified_data", invoice_classifiedData i);
         (lit "created_at", JStr (toISOString (invoice_createdAt i)))] ++ extra).

(** [v?.[0]] *)
Definition first_item (v : option json) : option json :=
  match v with
  | Some (JArr (x :: _)) => Some x
  | Some (JStr (c :: _)) => Some (JStr [c])
  | Some (JObj fields) => assoc fields (lit "0")
  | _ => None
  end.

(** [x?.data] *)
Definition data_of (x : option json) : option json :=
  match x with
  | Some v => get v (lit "data")
  | None => None
  end.

(** [processedData[key]?.[0]?.data || ''], as the receiver of [substring]
    and [match]: a value that is not a string has neither method. *)
Definition section_text (processedData : json) (key : string) : Outcome jsstring :=
  match or_else (data_of (first_item (get processedData (lit key)))) (JStr []) with
  | JStr text => Ok text
  | _ => Throw (lit "match is not a function")
  end.

(** [/<label>[,;]\s*(.+?)(?:\n|$)/i] *)
Definition labelled (label : string) : regex :=
  literal (lit label)
    (Seq (OneOf [44; 59]%N)
       (Seq (Star Space)
          (Seq (Capture (PlusLazy Dot)) (NoCapture (Alt (Lit 10) End_))))).

(** [\d+(?:,\d+)*(?:\.\d+)?] *)
Definition amount_digits : regex :=
  Seq (Plus Digit)
      (Seq (Star (NoCapture (Seq (Lit 44) (Plus Digit))))
           (Opt (NoCapture (Seq (Lit 46) (Plus Digit))))).

(** [/Total Amount Due[,;]\s*([₹$]?\d+(?:,\d+)*(?:\.\d+)?)/i] *)
Definition total_due : regex :=
  literal (lit "Total Amount Due")
    (Seq (OneOf [44; 59]%N)
       (Seq (Star Space)
          (Capture (Seq (Opt (OneOf [8377; 36]%N)) amount_digits)))).

(** [/(.+?),\d+(?:,\d+)*(?:\.\d+)?/g] *)
Definition line_item : regex :=
  Seq (Capture (PlusLazy Dot)) (Seq (Lit 44) amount_digits).

(** [m ? m[1].trim() : fallback] for [m = text.match(r)] *)
Definition capture_or (r : regex) (text fallback : jsstring) : Outcome jsstring :=
  match exec true r text with
  | Some m => match captured m with
              | Some group => Ok (trim group)
              | None => Throw (lit "Cannot read properties of undefined (reading 'trim')")
              end
  | None => Ok fallback
  end.

(** The callback that turns a matched line item into a record:
    [const [desc, amount] = item.split(',').map(s => s.trim())]. *)
Definition parse_line_item (item : jsstring) : json :=
  let parts := map trim (split 44 item) in
  JObj [(lit "description", JStr (hd [] parts));
        (lit "amount",
         JStr ([8377%N] ++ match nth_error parts 1 with
                           | Some amount => amount
                           | None => lit "undefined"
                           end))].

(** [new Date().toISOString().split('T')[0]] *)
Definition today (now : Z) : jsstring := hd [] (split 84 (toISOString now)).

Definition download_path (invoiceId : jsstring) (kind : string) : json :=
  JStr (lit "/api/invoices/" ++ invoiceId ++ lit "/download?type=" ++ lit kind).

(** The properties [raw_...: processedData[key]]; a property whose value is
    [undefined] is not stored. *)
Definition raw_field (processedData : json) (name key : string)
  : list (jsstring * json) :=
  match get processedData (lit key) with
  | Some v => [(lit name, v)]
  | None => []
  end.

(** [logFiles[0]] for
    [fs.readdirSync(logDir).filter(file => file.includes('processed_data.json')).sort().reverse()] *)
Definition latest_log (names : list jsstring) : option jsstring :=
  hd_error (rev (sort str_ltb
                      (filter (fun file => includes file (lit "processed_data.json")) names))).

(** The [try] block that reads the processed data from the logs of the
    service; it throws when there is no log, when the log cannot be read or
    parsed, and when a section of it is not text. *)
Definition extracted_from_logs (invoiceIdFromPython : jsstring) (now : Z)
    (py : PythonService) : Outcome json :=
  and_then (py_logFiles py) (fun names =>
  match latest_log names with
  | None => Throw (lit "No processed data files found")
  | Some name =>
  and_then (py_readFile py name) (fun content =>
  and_then (JSON_parse content) (fun processedData =>
  match processedData with
  | JNull => Throw (lit "Cannot read properties of null (reading 'vendor_info')")
  | _ =>
  and_then (section_text processedData "vendor_info") (fun vendorInfo =>
  and_then (capture_or (labelled "Vendor Name") vendorInfo (lit "Unknown Vendor"))
    (fun vendorName =>
  and_then (section_text processedData "invoice_details") (fun invoiceDetails =>
  and_then (capture_or (labelled "Invoice Number") invoiceDetails (lit "Unknown"))
    (fun invoiceNumber =>
  and_then (capture_or (labelled "Invoice Date") invoiceDetails (today now))
    (fun invoiceDate =>
  and_then (section_text processedData "payment_info") (fun paymentInfo =>
  and_then (capture_or total_due paymentInfo (lit "0")) (fun totalAmount =>
  and_then (section_text processedData "line_items") (fun lineItems =>
  let lineItemMatches := match_all (S (length lineItems)) false line_item lineItems in
  let parsedLineItems := map parse_line_item (firstn 5 lineItemMatches) in
  Ok (JObj ([(lit "invoice_number", JStr invoiceNumber);
             (lit "vendor_name", JStr vendorName);
             (lit "total_amount", JStr totalAmount);
             (lit "date", JStr invoiceDate);
             (lit "status", JStr (lit "Successfully processed by AI"));
             (lit "file_processed", JBool true);
             (lit "excel_generated", JBool true);
             (lit "line_items", JArr parsedLineItems)]
            ++ raw_field processedData "raw_vendor_info" "vendor_info"
            ++ raw_field processedData "raw_invoice_details" "invoice_details"
            ++ raw_field processedData "raw_line_items" "line_items"
            ++ raw_field processedData "raw_payment_info" "payment_info"
            ++ raw_field processedData "raw_taxes_fees" "taxes_fees"
            ++ raw_field processedData "raw_compliance_flags" "compliance_flags"
            ++ [(lit "original_file_path", download_path invoiceIdFromPython "original");
                (lit "processed_file_path",
                 download_path invoiceIdFromPython "processed");
                (lit "invoice_id", JStr invoiceIdFromPython)]))))))))))
  end))
  end).

(** The record of the [catch (extractError)] block. *)
Definition basic_data (invoiceIdFromPython : jsstring) (now : Z) : json :=
  JObj [(lit "invoice_number", JStr (lit "Processed"));
        (lit "vendor_name", JStr (lit "AI Extracted"));
        (lit "total_amount", JStr (lit "Processing Complete"));
        (lit "date", JStr (today now));
        (lit "status", JStr (lit "Successfully processed by AI"));
        (lit "file_processed", JBool true);
        (lit "excel_generated", JBool true);
        (lit "original_file_path", download_path invoiceIdFromPython "original");
        (lit "processed_file_path", download_path invoiceIdFromPython "processed");
        (lit "invoice_id", JStr invoiceIdFromPython)].

(** [embeddingData.data[0].embedding] of an answer that is [ok]; [None] is
    [undefined]. *)
Definition api_embedding (py : PythonService) : Outcome (option json) :=
  match py_embedding py with
  | Throw e => Throw e
  | Ok embeddingResponse =>
      if emb_ok embeddingResponse then
        match emb_json embeddingResponse with
        | Throw e => Throw e
        | Ok JNull => Throw (lit "Cannot read properties of null (reading 'data')")
        | Ok embeddingData =>
            match get embeddingData (lit "data") with
            | None | Some JNull =>
                Throw (lit "Cannot read properties of undefined (reading '0')")
            | Some data =>
                match first_item (Some data) with
                | None | Some JNull =>
                    Throw (lit "Cannot read properties of undefined (reading 'embedding')")
                | Some item => Ok (get item (lit "embedding"))
                end
            end
        end
      else Throw (lit "Embedding API call failed")
  end.

(** [Array.from({ length: n }, () => Math.random() - 0.5)] *)
Fixpoint mock_embedding (n : nat) : M (list number) :=
  match n with
  | O => ret []
  | S n' =>
      r <- Math_random ;;
      rest <- mock_embedding n' ;;
      ret ((r - 0.5)%float :: rest)
  end.

(** [obj.embeddings = v] on a record that has no such property yet. *)
Definition with_embeddings (data : json) (v : option json) : json :=
  match data, v with
  | JObj fields, Some e => JObj (fields ++ [(lit "embeddings", e)])
  | _, _ => data
  end.

(** [realProcessedData] when the invoice is updated: the record read from
    the logs, or the basic one, with its [embeddings].  The texts sent with
    the embeddings request are built from strings, so that the
    [catch (embeddingError)] block is never entered. *)
Definition realProcessedData (invoice : Invoice) (response : FetchResponse)
    (py : PythonService) : M json :=
  fun w =>
    let invoiceIdFromPython :=
      match resp_invoiceId response with
      | Some id => if is_empty id then invoice_id invoice else id
      | None => invoice_id invoice
      end in
    let data :=
      match extracted_from_logs invoiceIdFromPython (now w) py with
      | Ok extracted => extracted
      | Throw _ => basic_data invoiceIdFromPython (now w)
      end in
    match api_embedding py with
    | Ok embedding => (Ok (with_embeddings data embedding), w)
    | Throw _ =>
        match mock_embedding 1536 w with
        | (Ok mock, w') => (Ok (with_embeddings data (Some (JArr (map JNum mock)))), w')
        | (Throw e, w') => (Throw e, w')
        end
    end.

(** [JSON.stringify(realProcessedData.embeddings || [])] *)
Definition embeddings_text (data : json) : jsstring :=
  JSON_stringify (or_else (get data (lit "embeddings")) (JArr [])).

(** The body of the inner [try]: [Some r] when it returns the response [r],
    [None] when control falls through to the code after the [try]. *)
Definition processing (invoice : Invoice) (py : PythonService) : M (option Response) :=
  response <- lift (py_fetch py) ;;
  if negb (resp_ok response) then
    errorText <- lift (resp_text response) ;;
    throw (lit "Python service returned " ++ decimal (resp_status response)
           ++ lit ": " ++ resp_statusText response ++ lit " - " ++ errorText)
  else
    let is_sheet :=
      match resp_contentType response with
      | Some contentType =>
          includes contentType (lit "spreadsheet")
          || includes contentType (lit "application/vnd.openxmlformats")
      | None => false
      end in
    if is_sheet then
      data <- realProcessedData invoice response py ;;
      try_catch
        (invoice_update (invoice_id invoice)
           (set_processed data data (Some (embeddings_text data))))
        (fun _ => ret tt) ;;;
      updatedInvoice <- invoice_findUnique (invoice_id invoice) ;;
      match updatedInvoice with
      | None => throw (lit "Cannot read properties of null (reading 'id')")
      | Some updated =>
          ret (Some (mkResponse 200
                       (BJson (invoice_json updated
                                 [(lit "message",
                                   JStr (lit "Invoice processed successfully with AI"))]))))
      end
    else
      try_catch
        (pythonResult <- lift (resp_json response) ;;
         match pythonResult with
         | JNull => throw (lit "Cannot read properties of null (reading 'error')")
         | _ =>
             if otruthy (get pythonResult (lit "error")) then
               (* the message of this error is replaced by the [catch] below *)
               throw (match get pythonResult (lit "error") with
                      | Some (JStr text) => text
                      | _ => []
                      end)
             else
               invoice_update (invoice_id invoice)
                 (set_processed
                    (or_else (get pythonResult (lit "extracted_data")) pythonResult)
                    (or_else (get pythonResult (lit "classified_data")) pythonResult)
                    (match get pythonResult (lit "embeddings") with
                     | Some e => if truthy e then Some (JSON_stringify e) else None
                     | None => None
                     end)) ;;;
               ret None
         end)
        (fun _ => throw (lit "Invalid response from Python service")).

(** The outer [catch (error)]: [invoice] is the local variable of the route,
    still [null] when the row was never created. *)
Definition outer_catch (invoice : option Invoice) (message : jsstring) : M Response :=
  match invoice with
  | Some i => fail_invoice i message
  | None =>
      ret (mkResponse 500
             (BJson (JObj [(lit "error", JStr (lit "Upload failed"));
                           (lit "details", JStr message)])))
  end.

(** How far the outer [try] got before the invoice row existed. *)
Inductive Started : Type :=
| Respond (r : Response)
| Created (invoice : Invoice) (file : File).

(** The outer [try] up to and including [prisma.invoice.create]. *)
Definition start (email : jsstring) (form : Outcome (option File)) : M Started :=
  found <- user_findUnique (Some email) ;;
  match found with
  | None => ret (Respond (json_error 404 "User not found"))
  | Some u =>
      formData <- lift form ;;
      match formData with
      | None => ret (Respond (json_error 400 "No file provided"))
      | Some file =>
          invoice <- invoice_create (user_id u) (file_name file) st_processing
                       (JObj [(lit "message",
                               JStr (lit "Invoice uploaded, sending to AI processing service..."));
                              (lit "file_size", JNum (of_nat (N.to_nat (file_size file))));
                              (lit "mime_type", JStr (file_type file))]) ;;
          ret (Created invoice file)
      end
  end.

(** The outer [try] after the row exists. *)
Definition finish (invoice : Invoice) (file : File) (py : PythonService) : M Response :=
  lift (file_arrayBuffer file) ;;;
  returned <- try_catch (processing invoice py)
                        (fun message => r <- fail_invoice invoice message ;; ret (Some r)) ;;
  match returned with
  | Some r => ret r
  | None =>
      updatedInvoice <- invoice_findUnique (invoice_id invoice) ;;
      match updatedInvoice with
      | None => throw (lit "Cannot read properties of null (reading 'id')")
      | Some updated => ret (mkResponse 200 (BJson (invoice_json updated [])))
      end
  end.

(** [export async function POST(request)] of the upload route.  The single
    outer [try ... catch] is split at the assignment of [invoice], which is
    what its [catch] block inspects. *)
Definition POST (session : option Session) (form : Outcome (option File))
    (py : PythonService) : M Response :=
  match session_user_email session with
  | None => ret unauthorized
  | Some email =>
      fun w =>
        match start email form w with
        | (Throw e, w1) => outer_catch None e w1
        | (Ok (Respond r), w1) => (Ok r, w1)
        | (Ok (Created invoice file), w1) =>
            try_catch (finish invoice file py) (outer_catch (Some invoice)) w1
        end
  end.

End WithHost.
End Upload.

(** ** app/api/invoices/search/route.ts *)

Module Search.
Section WithHost.
Context `{Host}.

Local Open Scope float_scope.

(** [Array.from({ length: n }, () => Math.random() - 0.5)] *)
Fixpoint mock_embedding (n : nat) : M (list number) :=
  match n with
  | O => ret []
  | S n' =>
      r <- Math_random ;;
      rest <- mock_embedding n' ;;
      ret ((r - 0.5) :: rest)
  end.

(** [x || 0] for a possibly undefined number [x]. *)
Definition num_or_zero (x : option number) : number :=
  match x with
  | Some a => if number_truthy a then a else 0
  | None => 0
  end.

(** [invoiceEmbeddings.reduce((sum, val, i) => sum + val * (mockQueryEmbedding[i] || 0), 0)],
    from index [i] on. *)
Fixpoint dot_from (i : nat) (invoiceEmbeddings : list json)
    (mockQueryEmbedding : list number) (sum : number) : Outcome number :=
  match invoiceEmbeddings with
  | [] => Ok sum
  | val :: rest =>
      match ToNumber val with
      | Ok x =>
          dot_from (S i) rest mockQueryEmbedding
            (sum + x * num_or_zero (nth_error mockQueryEmbedding i))
      | Throw e => Throw e
      end
  end.

(** [invoiceEmbeddings.reduce((sum, val) => sum + val * val, 0)], from the
    accumulator [sum] on. *)
Fixpoint squares_from (invoiceEmbeddings : list json) (sum : number) : Outcome number :=
  match invoiceEmbeddings with
  | [] => Ok sum
  | val :: rest =>
      match ToNumber val with
      | Ok x => squares_from rest (sum + x * x)
      | Throw e => Throw e
      end
  end.

Record ScoredInvoice : Type := mkScoredInvoice {
  invoice : Invoice;
  similarity : number;
  matchedContent : jsstring
}.

(** [invoice.extractedData || {}] *)
Definition data_or_empty (v : json) : json :=
  if truthy v then v else JObj [].

(** The callback of [invoices.map] that scores one invoice. *)
Definition score_invoice (query : jsstring) (mockQueryEmbedding : list number)
    (i : Invoice) : ScoredInvoice :=
  match invoice_embeddings i with
  | None => mkScoredInvoice i 0 []
  | Some text =>
      if is_empty text then mkScoredInvoice i 0 []
      else
        match JSON_parse text with
        | Throw _ => mkScoredInvoice i 0 (lit "Invoice: " ++ invoice_filename i)
        | Ok (JArr invoiceEmbeddings) =>
            match dot_from 0 invoiceEmbeddings mockQueryEmbedding 0,
                  squares_from invoiceEmbeddings 0 with
            | Ok dotProduct, Ok squares =>
                let invoiceNorm := sqrt squares in
                let queryNorm :=
                  sqrt (fold_left (fun sum val => sum + val * val) mockQueryEmbedding 0) in
                let sim :=
                  if number_truthy invoiceNorm && number_truthy queryNorm
                  then dotProduct / (invoiceNorm * queryNorm) else 0 in
                let extractedText :=
                  toLowerCase (JSON_stringify (data_or_empty (invoice_extractedData i))) in
                let searchLower := toLowerCase query in
                if includes extractedText searchLower then
                  mkScoredInvoice i (sim + 0.3)
                    (lit "Found " ++ [34%N] ++ query ++ [34%N] ++ lit " in invoice data")
                else
                  mkScoredInvoice i sim (lit "Similar invoice: " ++ invoice_filename i)
            | _, _ =>
                (* a conversion threw: the [catch] of the callback *)
                mkScoredInvoice i 0 (lit "Invoice: " ++ invoice_filename i)
            end
        | Ok _ => mkScoredInvoice i 0 []
        end
  end.

(** [(a, b) => b.similarity - a.similarity] is positive: [b] goes ahead of [a]. *)
Definition ahead (b a : ScoredInvoice) : bool :=
  0 <? similarity b - similarity a.

(** [Math.max(a, b)] of two numbers that are not NaN. *)
Definition Math_max (a b : number) : number := if a <? b then b else a.

(** The callback of [searchResults.map] that formats one result. *)
Definition format_result (query : jsstring) (index : nat) (i : Invoice) : json :=
  JObj [(lit "id", JStr (invoice_id i));
        (lit "filename", JStr (invoice_filename i));
        (lit "relevance_score",
         JNum (if is_empty query then 0.8 else Math_max 0.1 (1 - of_nat index * 0.1)));
        (lit "matched_content", JStr (lit "Invoice: " ++ invoice_filename i));
        (lit "extracted_data", data_or_empty (invoice_extractedData i))].

Fixpoint format_from (query : jsstring) (index : nat) (results : list Invoice)
  : list json :=
  match results with
  | [] => []
  | i :: rest => format_result query index i :: format_from query (S index) rest
  end.

(** [export async function GET(request)], with [query] for
    [searchParams.get('q') || '']. *)
Definition GET (session : option Session) (query : jsstring) : M Response :=
  match session_user_email session with
  | None => ret unauthorized
  | Some email =>
      try_catch
        (found <- user_findUnique (Some email) ;;
         match found with
         | None => ret (json_error 404 "User not found")
         | Some u =>
             found_invoices <-
               invoice_findMany_desc
                 (fun i => str_eqb (invoice_userId i) (user_id u)
                           && status_eqb (invoice_status i) st_processed) ;;
             searchResults <-
               (if negb (is_empty query) && trim_truthy query then
                  mockQueryEmbedding <- mock_embedding 1536 ;;
                  let scoredInvoices :=
                    map (score_invoice query mockQueryEmbedding) found_invoices in
                  ret (map invoice
                         (firstn 10
                            (sort ahead
                               (filter (fun item => 0.1 <? similarity item)
                                       scoredInvoices))))
                else ret found_invoices) ;;
             let formattedResults := JArr (format_from query 0 searchResults) in
             invoiceSearch_create (user_id u) query formattedResults ;;;
             ret (mkResponse 200 (BJson formattedResults))
         end)
        (fun _ => ret (json_error 500 "Search failed"))
  end.

End WithHost.
End Search.

(** ** A reference host

    An executable implementation of the built-ins, used to run the routes on
    concrete requests: numerals are read and numbers printed as ECMAScript
    prescribes, with the shortest digits that read back as the number;
    [JSON.parse] and [JSON.stringify] follow the JSON grammar; lower case is
    that of the ASCII letters, and bcrypt and the identifiers are stand-ins.
    The general theorems below do not depend on it. *)

Module Reference.

Local Open Scope float_scope.

Definition is_digit (c : N) : bool := ((48 <=? c) && (c <=? 57))%N.

Fixpoint take_digits (s : jsstring) : list N * jsstring :=
  match s with
  | c :: rest =>
      if is_digit c then
        let '(ds, tail) := take_digits rest in ((c - 48)%N :: ds, tail)
      else ([], s)
  | [] => ([], [])
  end.

Fixpoint drop_whitespace (s : jsstring) : jsstring :=
  match s with
  | c :: rest => if is_whitespace c then drop_whitespace rest else s
  | [] => []
  end.

Definition digits_value (ds : list N) : Z :=
  fold_left (fun acc d => (10 * acc + Z.of_N d)%Z) ds 0%Z.

(** The binary64 value nearest to [m * 10 ^ e10], ties to even. *)
Definition decimal_to_number (negative : bool) (m : Z) (e10 : Z) : number :=
  SF2Prim
    (match m with
     | Zpos _ =>
         if (0 <=? e10)%Z then
           binary_round prec emax negative (Z.to_pos (m * 10 ^ e10)) 0%Z
         else
           let '(q, e, l) :=
             SFdiv_core_binary prec emax m 0%Z (10 ^ (- e10))%Z 0%Z in
           binary_round_aux prec emax negative q e l
     | _ => S754_zero negative
     end).

(** The exponent part [[eE][+-]digits], if there is one. *)
Definition scan_exponent (s : jsstring) : Z * jsstring :=
  match s with
  | c :: rest =>
      if ((c =? 101) || (c =? 69))%N then
        let '(negative, s1) :=
          match rest with
          | 45%N :: more => (true, more)
          | 43%N :: more => (false, more)
          | _ => (false, rest)
          end in
        let '(ds, tail) := take_digits s1 in
        if is_empty ds then (0%Z, s)
        else ((if negative then - digits_value ds else digits_value ds)%Z, tail)
      else (0%Z, s)
  | [] => (0%Z, s)
  end.

(** The longest prefix that is a [StrDecimalLiteral],
    [[+-]Infinity] or [[+-]digits[.digits][e[+-]digits]], and what follows
    it. *)
Definition scan_decimal (s : jsstring) : option number * jsstring :=
  let '(negative, s1) :=
    match s with
    | 45%N :: rest => (true, rest)
    | 43%N :: rest => (false, rest)
    | _ => (false, s)
    end in
  if startsWith s1 (lit "Infinity") then
    (Some (if negative then neg_infinity else infinity), skipn 8 s1)
  else
  let '(whole, s2) := take_digits s1 in
  let '(fraction, s3) :=
    match s2 with
    | 46%N :: rest =>
        let '(ds, tail) := take_digits rest in
        if is_empty whole && is_empty ds then ([], s2) else (ds, tail)
    | _ => ([], s2)
    end in
  if is_empty whole && is_empty fraction then (None, s)
  else
    let '(e10, s4) := scan_exponent s3 in
    (Some (decimal_to_number negative (digits_value (whole ++ fraction))
             (e10 - Z.of_nat (length fraction))), s4).

Definition ref_parseFloat (s : jsstring) : number :=
  match fst (scan_decimal (drop_whitespace s)) with
  | Some x => x
  | None => nan
  end.

(** The value of a digit in a base up to sixteen. *)
Definition digit_in (base : N) (c : N) : option N :=
  let d :=
    if ((48 <=? c) && (c <=? 57))%N then Some (c - 48)%N
    else if ((97 <=? c) && (c <=? 102))%N then Some (c - 87)%N
    else if ((65 <=? c) && (c <=? 70))%N then Some (c - 55)%N
    else None in
  match d with
  | Some n => if (n <? base)%N then Some n else None
  | None => None
  end.

(** The integer written by the digits [s] in a base, [s] being followed by
    white space only; [acc] is the value of the digits read so far and
    [seen] tells whether there is one. *)
Fixpoint scan_integer (base : N) (s : jsstring) (acc : Z) (seen : bool) : option Z :=
  match s with
  | [] => if seen then Some acc else None
  | c :: rest =>
      match digit_in base c with
      | Some d => scan_integer base rest (Z.of_N base * acc + Z.of_N d)%Z true
      | None => if seen && negb (trim_truthy s) then Some acc else None
      end
  end.

(** A [NonDecimalIntegerLiteral]: [0x], [0o] or [0b] and digits. *)
Definition non_decimal (s : jsstring) : option (option Z) :=
  match s with
  | 48%N :: c :: rest =>
      if ((c =? 120) || (c =? 88))%N then Some (scan_integer 16 rest 0 false)
      else if ((c =? 111) || (c =? 79))%N then Some (scan_integer 8 rest 0 false)
      else if ((c =? 98) || (c =? 66))%N then Some (scan_integer 2 rest 0 false)
      else None
  | _ => None
  end.

Definition ref_StringToNumber (s : jsstring) : number :=
  if trim_truthy s then
    match non_decimal (drop_whitespace s) with
    | Some (Some n) => decimal_to_number false n 0
    | Some None => nan
    | None =>
        match scan_decimal (drop_whitespace s) with
        | (Some x, rest) => if trim_truthy rest then nan else x
        | (None, _) => nan
        end
    end
  else 0.

(** Lower case of the ASCII letters. *)
Definition ref_toLowerCase (s : jsstring) : jsstring :=
  map (fun c => if ((65 <=? c) && (c <=? 90))%N then (c + 32)%N else c) s.

Fixpoint drop_zeros (s : jsstring) : jsstring :=
  match s with
  | 48%N :: rest => drop_zeros rest
  | _ => s
  end.

(** ** Printing numbers: [Number::toString] *)

(** A positive finite number as a fraction. *)
Definition fraction_of (m : positive) (e : Z) : Z * Z :=
  match e with
  | Zneg k => (Zpos m, 2 ^ Zpos k)%Z
  | _ => (Zpos m * 2 ^ e, 1)%Z
  end.

(** [10 ^ p <= num / den] *)
Definition pow10_le (p : Z) (v : Z * Z) : bool :=
  let '(num, den) := v in
  if (0 <=? p)%Z then (10 ^ p * den <=? num)%Z else (den <=? num * 10 ^ (- p))%Z.

(** The integer [E] with [10 ^ E <= v < 10 ^ (E + 1)]. *)
Definition exponent10 (v : Z * Z) : Z :=
  let '(num, den) := v in
  let guess := ((Z.log2 num - Z.log2 den) * 30103 / 100000 - 1)%Z in
  let step (E : Z) := if pow10_le (E + 1) v then (E + 1)%Z else E in
  step (step (step guess)).

(** [floor (v / 10 ^ p)] *)
Definition scaled_floor (v : Z * Z) (p : Z) : Z :=
  let '(num, den) := v in
  if (0 <=? p)%Z then (num / (den * 10 ^ p))%Z else (num * 10 ^ (- p) / den)%Z.

(** Where [v] lies between [q * 10 ^ p] and [(q + 1) * 10 ^ p]: [-1] when
    nearer to the first, [1] when nearer to the second, [0] in the middle. *)
Definition side (v : Z * Z) (q p : Z) : Z :=
  let '(num, den) := v in
  let '(a, b) :=
    if (0 <=? p)%Z then (2 * num, (2 * q + 1) * 10 ^ p * den)%Z
    else (2 * num * 10 ^ (- p), (2 * q + 1) * den)%Z in
  match (a ?= b)%Z with Lt => (-1)%Z | Eq => 0%Z | Gt => 1%Z end.

Definition same_number (x y : number) : bool :=
  match SFcompare (Prim2SF x) (Prim2SF y) with
  | Some Eq => true
  | _ => false
  end.

(** The digits [d] of the shortest decimal that reads back as [x], with
    their number [k] and the exponent [E] of the first digit, for a positive
    finite [x] with [10 ^ E0 <= x < 10 ^ (E0 + 1)]; rounding up may carry
    into the next power of ten. *)
Fixpoint shortest (n : nat) (k : Z) (x : number) (v : Z * Z) (E0 : Z) : Z * Z * Z :=
  match n with
  | O => (scaled_floor v (E0 - 16), 17%Z, E0)
  | S n' =>
      let p := (E0 - k + 1)%Z in
      let q := scaled_floor v p in
      let reads d := (10 ^ (k - 1) <=? d)%Z && (d <=? 10 ^ k)%Z
                     && same_number (decimal_to_number false d p) x in
      let given d := if (d =? 10 ^ k)%Z then (10 ^ (k - 1), k, E0 + 1)%Z else (d, k, E0) in
      match reads q, reads (q + 1)%Z with
      | true, true =>
          match side v q p with
          | Z0 => given (if Z.even q then q else (q + 1)%Z)
          | Zneg _ => given q
          | Zpos _ => given (q + 1)%Z
          end
      | true, false => given q
      | false, true => given (q + 1)%Z
      | false, false => shortest n' (k + 1)%Z x v E0
      end
  end.

Definition zeros (n : Z) : jsstring := repeat 48%N (Z.to_nat n).

Definition positive_text (x : number) (m : positive) (e : Z) : jsstring :=
  let v := fraction_of m e in
  let '(d, k, E) := shortest 17 1%Z x v (exponent10 v) in
  let digits := firstn (Z.to_nat k) (decimal (Z.to_N d)) in
  let digits := rev (drop_zeros (rev digits)) in
  let k := Z.of_nat (length digits) in
  let n := (E + 1)%Z in
  if (k <=? n)%Z && (n <=? 21)%Z then digits ++ zeros (n - k)
  else if (0 <? n)%Z && (n <=? 21)%Z then
    firstn (Z.to_nat n) digits ++ lit "." ++ skipn (Z.to_nat n) digits
  else if (-6 <? n)%Z && (n <=? 0)%Z then lit "0." ++ zeros (- n) ++ digits
  else
    let exponent :=
      (if (0 <=? n - 1)%Z then lit "e+" else lit "e-") ++ decimal (Z.to_N (Z.abs (n - 1))) in
    if (k =? 1)%Z then digits ++ exponent
    else firstn 1 digits ++ lit "." ++ skipn 1 digits ++ exponent.

Definition number_text (x : number) : jsstring :=
  match Prim2SF x with
  | S754_zero _ => lit "0"
  | S754_nan => lit "NaN"
  | S754_infinity s => if s then lit "-Infinity" else lit "Infinity"
  | S754_finite s m e =>
      (if s then lit "-" else []) ++ positive_text (abs x) m e
  end.

(** ** [JSON.stringify] *)

Definition hex_digit (d : N) : N := if (d <? 10)%N then (48 + d)%N else (87 + d)%N.

(** [\uXXXX] *)
Definition unicode_escape (c : N) : jsstring :=
  [92; 117; hex_digit (c / 4096 mod 16); hex_digit (c / 256 mod 16);
   hex_digit (c / 16 mod 16); hex_digit (c mod 16)]%N.

Definition is_high_surrogate (c : N) : bool := ((55296 <=? c) && (c <=? 56319))%N.
Definition is_low_surrogate (c : N) : bool := ((56320 <=? c) && (c <=? 57343))%N.

(** [QuoteJSONString], without the quotes around it. *)
Fixpoint escaped (s : jsstring) : jsstring :=
  match s with
  | [] => []
  | c :: rest =>
      if (c =? 34)%N then [92; 34]%N ++ escaped rest
      else if (c =? 92)%N then [92; 92]%N ++ escaped rest
      else if (c =? 8)%N then [92; 98]%N ++ escaped rest
      else if (c =? 12)%N then [92; 102]%N ++ escaped rest
      else if (c =? 10)%N then [92; 110]%N ++ escaped rest
      else if (c =? 13)%N then [92; 114]%N ++ escaped rest
      else if (c =? 9)%N then [92; 116]%N ++ escaped rest
      else if (c <? 32)%N then unicode_escape c ++ escaped rest
      else if is_high_surrogate c then
        match rest with
        | d :: rest' =>
            if is_low_surrogate d then c :: d :: escaped rest'
            else unicode_escape c ++ escaped rest
        | [] => unicode_escape c
        end
      else if is_low_surrogate c then unicode_escape c ++ escaped rest
      else c :: escaped rest
  end.

Definition quote (s : jsstring) : jsstring := [34%N] ++ escaped s ++ [34%N].

Definition is_finite (x : number) : bool :=
  match Prim2SF x with
  | S754_zero _ | S754_finite _ _ _ => true
  | _ => false
  end.

Fixpoint ref_JSON_stringify (v : json) : jsstring :=
  match v with
  | JNull => lit "null"
  | JBool b => if b then lit "true" else lit "false"
  | JNum x => if is_finite x then number_text x else lit "null"
  | JStr s => quote s
  | JArr items =>
      lit "["
      ++ (fix items_text (l : list json) : jsstring :=
            match l with
            | [] => []
            | [x] => ref_JSON_stringify x
            | x :: rest => ref_JSON_stringify x ++ lit "," ++ items_text rest
            end) items
      ++ lit "]"
  | JObj fields =>
      lit "{"
      ++ (fix fields_text (l : list (jsstring * json)) : jsstring :=
            match l with
            | [] => []
            | [(k, x)] => quote k ++ lit ":" ++ ref_JSON_stringify x
            | (k, x) :: rest =>
                quote k ++ lit ":" ++ ref_JSON_stringify x ++ lit "," ++ fields_text rest
            end) fields
      ++ lit "}"
  end.

(** [ToString(v)] for a value whose conversion completes. *)
Fixpoint ref_ToString (v : json) : jsstring :=
  match v with
  | JNull => lit "null"
  | JBool b => if b then lit "true" else lit "false"
  | JNum x => number_text x
  | JStr s => s
  | JArr items =>
      (fix join (l : list json) : jsstring :=
         let item x := match x with JNull => [] | _ => ref_ToString x end in
         match l with
         | [] => []
         | [x] => item x
         | x :: rest => item x ++ lit "," ++ join rest
         end) items
  | JObj _ => lit "[object Object]"
  end.

Definition ref_ArrayToString (items : list json) : jsstring := ref_ToString (JArr items).

(** ** [JSON.parse] *)

Definition is_json_space (c : N) : bool :=
  ((c =? 32) || (c =? 9) || (c =? 10) || (c =? 13))%N.

Fixpoint skip_space (s : jsstring) : jsstring :=
  match s with
  | c :: rest => if is_json_space c then skip_space rest else s
  | [] => []
  end.

(** A JSON numeral: [-? (0 | [1-9] digits) (. digits)? ([eE] [+-]? digits)?]. *)
Definition json_numeral (s : jsstring) : option (number * jsstring) :=
  let '(negative, s1) :=
    match s with
    | 45%N :: rest => (true, rest)
    | _ => (false, s)
    end in
  let '(whole, s2) := take_digits s1 in
  match whole with
  | [] => None
  | 0%N :: _ :: _ => None
  | _ =>
      let fraction :=
        match s2 with
        | 46%N :: rest =>
            let '(ds, tail) := take_digits rest in
            if is_empty ds then None else Some (ds, tail)
        | _ => Some ([], s2)
        end in
      match fraction with
      | None => None
      | Some (ds, s3) =>
          let exponent :=
            match s3 with
            | c :: rest =>
                if ((c =? 101) || (c =? 69))%N then
                  let '(minus, s4) :=
                    match rest with
                    | 45%N :: more => (true, more)
                    | 43%N :: more => (false, more)
                    | _ => (false, rest)
                    end in
                  let '(es, tail) := take_digits s4 in
                  if is_empty es then None
                  else Some ((if minus then - digits_value es else digits_value es)%Z, tail)
                else Some (0%Z, s3)
            | [] => Some (0%Z, s3)
            end in
          match exponent with
          | None => None
          | Some (e10, s5) =>
              Some (decimal_to_number negative (digits_value (whole ++ ds))
                      (e10 - Z.of_nat (length ds)), s5)
          end
      end
  end.

Definition hex_value (c : N) : option N :=
  if ((48 <=? c) && (c <=? 57))%N then Some (c - 48)%N
  else if ((97 <=? c) && (c <=? 102))%N then Some (c - 87)%N
  else if ((65 <=? c) && (c <=? 70))%N then Some (c - 55)%N
  else None.

(** The characters of a JSON string after its opening quote, and what
    follows the closing quote. *)
Fixpoint json_string (fuel : nat) (s : jsstring) : option (jsstring * jsstring) :=
  match fuel with
  | O => None
  | S fuel' =>
      let more (c : N) (rest : jsstring) :=
        match json_string fuel' rest with
        | Some (text, tail) => Some (c :: text, tail)
        | None => None
        end in
      match s with
      | [] => None
      | 34%N :: rest => Some ([], rest)
      | 92%N :: e :: rest =>
          if (e =? 34)%N then more 34%N rest
          else if (e =? 92)%N then more 92%N rest
          else if (e =? 47)%N then more 47%N rest
          else if (e =? 98)%N then more 8%N rest
          else if (e =? 102)%N then more 12%N rest
          else if (e =? 110)%N then more 10%N rest
          else if (e =? 114)%N then more 13%N rest
          else if (e =? 116)%N then more 9%N rest
          else if (e =? 117)%N then
            match rest with
            | a :: b :: c :: d :: rest' =>
                match hex_value a, hex_value b, hex_value c, hex_value d with
                | Some x, Some y, Some z, Some t =>
                    more (4096 * x + 256 * y + 16 * z + t)%N rest'
                | _, _, _, _ => None
                end
            | _ => None
            end
          else None
      | c :: rest => if (c <? 32)%N then None else more c rest
      end
  end.

(** The number a key names when it is an array index: such keys come first
    in an object, in ascending order. *)
Definition index_of (k : jsstring) : option N :=
  match k with
  | [] => None
  | [48%N] => Some 0%N
  | 48%N :: _ => None
  | _ =>
      if forallb is_digit k && (length k <=? 10)%nat then
        let n := Z.to_N (digits_value (map (fun c => (c - 48)%N) k)) in
        if (n <? 4294967295)%N then Some n else None
      else None
  end.

(** [CreateDataProperty(obj, k, v)] on the list of the properties of an
    object in their order of enumeration. *)
Fixpoint set_field (k : jsstring) (v : json) (fields : list (jsstring * json))
  : list (jsstring * json) :=
  match fields with
  | [] => [(k, v)]
  | (k', v') :: rest =>
      if str_eqb k' k then (k, v) :: rest
      else
        match index_of k, index_of k' with
        | Some n, Some n' =>
            if (n <? n')%N then (k, v) :: fields else (k', v') :: set_field k v rest
        | Some _, None =>
            if existsb (fun f => str_eqb (fst f) k) rest
            then (k', v') :: set_field k v rest
            else (k, v) :: fields
        | None, _ => (k', v') :: set_field k v rest
        end
  end.

Fixpoint json_value (fuel : nat) (s : jsstring) : option (json * jsstring) :=
  match fuel with
  | O => None
  | S fuel' =>
      let s0 := skip_space s in
      match s0 with
      | 110%N :: 117%N :: 108%N :: 108%N :: rest => Some (JNull, rest)
      | 116%N :: 114%N :: 117%N :: 101%N :: rest => Some (JBool true, rest)
      | 102%N :: 97%N :: 108%N :: 115%N :: 101%N :: rest => Some (JBool false, rest)
      | 34%N :: rest =>
          match json_string (S (length rest)) rest with
          | Some (text, tail) => Some (JStr text, tail)
          | None => None
          end
      | 91%N :: rest =>
          match skip_space rest with
          | 93%N :: tail => Some (JArr [], tail)
          | _ =>
              match json_elements fuel' rest with
              | Some (items, tail) => Some (JArr items, tail)
              | None => None
              end
          end
      | 123%N :: rest =>
          match skip_space rest with
          | 125%N :: tail => Some (JObj [], tail)
          | _ =>
              match json_members fuel' rest [] with
              | Some (fields, tail) => Some (JObj fields, tail)
              | None => None
              end
          end
      | _ =>
          match json_numeral s0 with
          | Some (x, tail) => Some (JNum x, tail)
          | None => None
          end
      end
  end
with json_elements (fuel : nat) (s : jsstring) : option (list json * jsstring) :=
  match fuel with
  | O => None
  | S fuel' =>
      match json_value fuel' s with
      | Some (v, tail) =>
          match skip_space tail with
          | 44%N :: more =>
              match json_elements fuel' more with
              | Some (vs, tail') => Some (v :: vs, tail')
              | None => None
              end
          | 93%N :: tail' => Some ([v], tail')
          | _ => None
          end
      | None => None
      end
  end
with json_members (fuel : nat) (s : jsstring) (fields : list (jsstring * json))
  : option (list (jsstring * json) * jsstring) :=
  match fuel with
  | O => None
  | S fuel' =>
      match skip_space s with
      | 34%N :: rest =>
          match json_string (S (length rest)) rest with
          | Some (k, tail) =>
              match skip_space tail with
              | 58%N :: more =>
                  match json_value fuel' more with
                  | Some (v, tail') =>
                      let fields' := set_field k v fields in
                      match skip_space tail' with
                      | 44%N :: more' => json_members fuel' more' fields'
                      | 125%N :: tail'' => Some (fields', tail'')
                      | _ => None
                      end
                  | None => None
                  end
              | _ => None
              end
          | None => None
          end
      | _ => None
      end
  end.

Definition ref_JSON_parse (s : jsstring) : Outcome json :=
  match json_value (2 * S (length s)) s with
  | Some (v, tail) =>
      if is_empty (skip_space tail) then Ok v else Throw (lit "Unexpected non-whitespace character after JSON")
  | None => Throw (lit "Unexpected token in JSON")
  end.

(** A stand-in for bcrypt: the hash of [p] is ["hash:" ++ p]. *)
Definition ref_bcrypt_compare (password : option jsstring) (hash : jsstring)
  : Outcome bool :=
  match password with
  | Some p => Ok (str_eqb hash (lit "hash:" ++ p))
  | None => Throw (lit "Illegal arguments: undefined, string")
  end.

(** ** [Date.prototype.toISOString] *)

Definition padded (width : nat) (n : Z) : jsstring :=
  let ds := decimal (Z.to_N n) in
  repeat 48%N (width - length ds) ++ ds.

(** The year, month and day of the [days]-th day after 1 January 1970, in
    the proleptic Gregorian calendar. *)
Definition civil_of_days (days : Z) : Z * Z * Z :=
  let z := (days + 719468)%Z in
  let era := (z / 146097)%Z in
  let doe := (z - era * 146097)%Z in
  let yoe := ((doe - doe / 1460 + doe / 36524 - doe / 146096) / 365)%Z in
  let doy := (doe - (365 * yoe + yoe / 4 - yoe / 100))%Z in
  let mp := ((5 * doy + 2) / 153)%Z in
  let d := (doy - (153 * mp + 2) / 5 + 1)%Z in
  let m := (if mp <? 10 then mp + 3 else mp - 9)%Z in
  let y := (yoe + era * 400 + (if m <=? 2 then 1 else 0))%Z in
  (y, m, d).

(** [new Date(t).toISOString()] for a time value [t] in milliseconds. *)
Definition ref_toISOString (t : Z) : jsstring :=
  let '(y, m, d) := civil_of_days (t / 86400000) in
  let ms := (t mod 86400000)%Z in
  let year :=
    if ((0 <=? y) && (y <=? 9999))%Z then padded 4 y
    else (if (y <? 0)%Z then lit "-" else lit "+") ++ padded 6 (Z.abs y) in
  year ++ lit "-" ++ padded 2 m ++ lit "-" ++ padded 2 d
  ++ lit "T" ++ padded 2 (ms / 3600000) ++ lit ":" ++ padded 2 (ms / 60000 mod 60)
  ++ lit ":" ++ padded 2 (ms / 1000 mod 60) ++ lit "." ++ padded 3 (ms mod 1000)
  ++ lit "Z".

Definition host : Host := {|
  parseFloat := ref_parseFloat;
  StringToNumber := ref_StringToNumber;
  ArrayToString := ref_ArrayToString;
  JSON_parse := ref_JSON_parse;
  JSON_stringify := ref_JSON_stringify;
  toLowerCase := ref_toLowerCase;
  bcrypt_compare := ref_bcrypt_compare;
  cuid := fun n => lit "c" ++ decimal (N.of_nat n);
  randomUUID := fun n => lit "uuid-" ++ decimal (N.of_nat n);
  toISOString := ref_toISOString
|}.

Definition empty_db : DB := mkDB [] [] [] [] [].

(** A world with no scheduled fault and a constant random source. *)
Definition world (d : DB) : World :=
  mkWorld d [] 0 0 0 0%Z (fun _ => 0.5) 0.

End Reference.

(** ** The order of binary64 numbers

    Numbers are IEEE 754 binary64 values; their specification in [SpecFloat]
    gives a sign, a mantissa and an exponent to each finite one. *)

Module Binary64.

(** The least exponent of a binary64 number, and the bound on mantissas. *)
Definition emin64 : Z := (-1074)%Z.
Definition P53 : Z := (2 ^ 53)%Z.

(** The integer a finite number stands for, in units of [2 ^ ez]. *)
Definition scaled (s : bool) (m : positive) (e ez : Z) : Z :=
  cond_Zopp s (Zpos (fst (shl_align m e ez))).

(** Is the number strictly positive? *)
Definition SFpos (x : spec_float) : bool := SFltb (S754_zero false) x.

Definition not_nan (x : spec_float) : bool :=
  match x with S754_nan => false | _ => true end.

(** An integer that orders the numbers other than NaN as [<] does. *)
Definition order_key (x : spec_float) : Z :=
  match x with
  | S754_zero _ => 0%Z
  | S754_infinity s => cond_Zopp s (3000 * P53)%Z
  | S754_nan => 0%Z
  | S754_finite s m e => cond_Zopp s ((e + 1075) * P53 + Zpos m)%Z
  end.

End Binary64.
Import Binary64.

(** ** The vocabulary of the specification *)

Module Glossary.

Local Open Scope float_scope.

(** The dot product of two vectors. *)
Definition dot_product (a b : list number) : number :=
  fold_left (fun sum p => sum + fst p * snd p) (combine a b) 0.

(** The magnitude (Euclidean norm) of a vector. *)
Definition magnitude (a : list number) : number := sqrt (dot_product a a).

(** Cosine similarity: dot product of two vectors divided by the product of
    their magnitudes. *)
Definition cosine (a b : list number) : number :=
  dot_product a b / (magnitude a * magnitude b).

(** What an invoice adds to the total spend: its parsed amount, and zero when
    no amount could be parsed; an amount of zero, of either sign, adds [+0]. *)
Definition contribution `{Host} (i : Invoice) : number :=
  match Dashboard.extractAmount (invoice_extractedData i) with
  | Some a => if a =? 0 then 0 else a
  | None => 0
  end.

(** The user's invoices whose status is [processed]. *)
Definition processed_of (d : DB) (userId : jsstring) : list Invoice :=
  filter (fun i => str_eqb (invoice_userId i) userId
                   && status_eqb (invoice_status i) st_processed)
         (invoices d).

(** The contents of the [chunk] frames of a stream, concatenated. *)
Definition chunk_text (frames : list Frame) : jsstring :=
  flat_map (fun f => match f with FChunk content _ => content | _ => [] end) frames.

(** A comparator is consistent on a list when "strictly ahead" is
    asymmetric and "not ahead" is transitive on its elements; this is what
    [Array.prototype.sort] needs for a defined order. *)
Definition consistent {A} (before : A -> A -> bool) (l : list A) : Prop :=
  (forall x y, In x l -> In y l -> before x y = true -> before y x = false)
  /\ (forall x y z, In x l -> In y l -> In z l ->
        before y x = false -> before z y = false -> before z x = false).

(** A list of scored invoices in non-increasing order of similarity. *)
Definition non_increasing (l : list Chat.Scored) : Prop :=
  StronglySorted
    (fun a b => (Chat.similarity_score b <=? Chat.similarity_score a) = true) l.

(** A source of [Math.random()] draws, each in the interval [0, 1). *)
Definition random_source (r : nat -> number) : Prop :=
  forall n, (0 <=? r n) = true /\ (r n <? 1) = true.

End Glossary.
Import Glossary.

(** ** Sample data *)

Module Examples.
Import Reference.

Local Open Scope float_scope.

Definition alice : User :=
  mkUser (lit "u1") (lit "alice@example.com") (Some (lit "Alice"))
         (Some (lit "hash:secret")) [].

(** A user who only signs in with Google and has no password hash. *)
Definition bob : User :=
  mkUser (lit "u2") (lit "bob@example.com") (Some (lit "Bob")) None
         [mkAccount (lit "google")].

Definition alice_session : option Session :=
  Some (mkSession (Some (lit "alice@example.com")) (Some (lit "Alice"))).

Definition bob_session : option Session :=
  Some (mkSession (Some (lit "bob@example.com")) (Some (lit "Bob"))).

Definition rupees : jsstring := [8377%N] ++ lit "7,468.00".

Definition invoice1 : Invoice :=
  mkInvoice (lit "i1") (lit "u1") (lit "flight.pdf") st_processed
            (JObj [(lit "total_amount", JStr rupees)]) JNull
            (Some (lit "[1,0]")) 3.

(** The fallback record of the upload route: no amount can be parsed. *)
Definition invoice2 : Invoice :=
  mkInvoice (lit "i2") (lit "u1") (lit "scan.pdf") st_processed
            (JObj [(lit "total_amount", JStr (lit "Processing Complete"))]) JNull
            (Some (lit "not json")) 2.

Definition invoice3 : Invoice :=
  mkInvoice (lit "i3") (lit "u1") (lit "locked.pdf") st_error
            (JObj [(lit "error", JStr (lit "Processing failed"))]) JNull None 4.

Definition invoice4 : Invoice :=
  mkInvoice (lit "i4") (lit "u2") (lit "hotel.pdf") st_processed
            (JObj [(lit "amount", JNum 10)]) JNull (Some (lit "[0,1]")) 5.

Definition invoice5 : Invoice :=
  mkInvoice (lit "i5") (lit "u1") (lit "laptop.pdf") st_processed
            (JObj [(lit "grand_total", JStr (lit "$1,250.50"))]) JNull
            (Some (lit "[1,1]")) 1.

Definition chat1 : ChatSession := mkChatSession (lit "c1") (lit "u1") (lit "hello").
Definition chat2 : ChatSession := mkChatSession (lit "c2") (lit "u2") (lit "bills").
Definition chat3 : ChatSession := mkChatSession (lit "c3") (lit "u1") (lit "flights").

Definition sample_messages : list Message :=
  [mkMessage (lit "m1") (lit "c1") role_user (lit "hello");
   mkMessage (lit "m2") (lit "c1") role_assistant (lit "Hello!");
   mkMessage (lit "m3") (lit "c2") role_user (lit "bills");
   mkMessage (lit "m4") (lit "c3") role_user (lit "flights")].

Definition sample_db : DB :=
  mkDB [alice; bob] [chat1; chat2; chat3] sample_messages
       [invoice1; invoice2; invoice3; invoice4; invoice5] [].

Definition sample_world : World := world sample_db.

(** The same world with a database that is down: every Prisma call fails. *)
Definition broken_world : World :=
  mkWorld sample_db (repeat (Some (lit "Can't reach database server")) 8)
          0 0 0 0%Z (fun _ => 0.5) 0.

(** An invoice whose stored vector makes the dot product overflow. *)
Definition invoice_huge : Invoice :=
  mkInvoice (lit "i6") (lit "u1") (lit "huge.pdf") st_processed JNull JNull
            (Some (lit "[1.7e308,1.7e308]")) 6.

Definition overflow_db : DB :=
  mkDB [alice] [] [] [invoice1; invoice_huge; invoice5] [].

(** Two invoices with orthogonal vectors and no extracted data. *)
Definition east : Invoice :=
  mkInvoice (lit "e") (lit "u1") (lit "east.pdf") st_processed JNull JNull
            (Some (lit "[1,0]")) 2.

Definition north : Invoice :=
  mkInvoice (lit "n") (lit "u1") (lit "north.pdf") st_processed JNull JNull
            (Some (lit "[0,1]")) 1.

Definition compass_db : DB := mkDB [alice] [] [] [east; north] [].

(** A random source whose first two draws are [a] and [b]; every later draw
    is [0.5]. *)
Definition draws_of (a b : number) (n : nat) : number :=
  match n with
  | O => a
  | S O => b
  | _ => 0.5
  end.

Definition compass_world (a b : number) : World :=
  mkWorld compass_db [] 0 0 0 0%Z (draws_of a b) 0.

(** The identifiers of the results in a search answer. *)
Definition result_ids (r : Outcome Response) : list jsstring :=
  match r with
  | Ok (mkResponse _ (BJson (JArr items))) =>
      flat_map (fun item => match get item (lit "id") with
                            | Some (JStr id) => [id]
                            | _ => []
                            end) items
  | _ => []
  end.

(** An upload of [locked.pdf] that the invoice service rejects. *)
Definition locked_pdf : Upload.File :=
  Upload.mkFile (lit "locked.pdf") 1024 (lit "application/pdf") (Ok tt).

(** There is no directory of logs, and the OpenAI API cannot be reached. *)
Definition no_logs : Outcome (list jsstring) :=
  Throw (lit "ENOENT: no such file or directory, scandir").

Definition unreadable (name : jsstring) : Outcome jsstring :=
  Throw (lit "ENOENT: no such file or directory, open").

Definition no_embedding : Outcome Upload.EmbeddingResponse := Throw (lit "fetch failed").

Definition rejects_encrypted : Upload.PythonService :=
  Upload.mkPythonService
    (Ok (Upload.mkFetchResponse false 400 (lit "Bad Request")
           (Some (lit "application/json")) None
           (Ok (lit "{" ++ quote (lit "detail") ++ lit ":"
                ++ quote (lit "PDF_ENCRYPTED: file is password protected") ++ lit "}"))
           (Throw (lit "body already read"))))
    no_logs unreadable no_embedding.

(** Alice continues her chat [c1]; the fourth Prisma call of the request,
    which saves the assistant message, fails. *)
Definition continue_c1 : Chat.ChatRequest :=
  Chat.mkChatRequest (Some (lit "c1")) (Some (JStr (lit "hi"))).

Definition save_fails_world : World :=
  mkWorld sample_db [None; None; None; Some (lit "Can't reach database server")]
          0 0 0 0%Z (fun _ => 0.5) 0.

(** Alice opens a new chat with a prompt of 45 characters. *)
Definition long_prompt : jsstring :=
  lit "which invoice has the most expense this month".

Definition open_chat : Chat.ChatRequest :=
  Chat.mkChatRequest None (Some (JStr long_prompt)).

End Examples.

(** ** Further vocabulary and sample data *)

Module Cases.
Import Reference Examples.
Local Open Scope float_scope.

(** An invoice whose second line item is [null]. *)
Definition invoice_null_item : Invoice :=
  mkInvoice (lit "i7") (lit "u1") (lit "items.pdf") st_processed
            (JObj [(lit "total_amount", JStr (lit "12"));
                   (lit "line_items",
                    JArr [JObj [(lit "description", JStr (lit "Flight to Pune"))];
                          JNull])])
            JNull None 7.

Definition null_item_db : DB :=
  mkDB [alice] [] [] [invoice1; invoice_null_item] [].

(** Line items of an office order. *)
Definition office_order : json :=
  JObj [(lit "line_items",
         JArr [JObj [(lit "description", JStr (lit "Flight ticket"))];
               JObj [(lit "description", JStr (lit "Office Chairs"))];
               JObj [(lit "description", JStr (lit "Printer paper, office"))];
               JObj [(lit "amount", JNum 3)];
               JObj [(lit "description", JStr (lit "Flight meal"))];
               JObj [(lit "description", JStr (lit "Sundries"))]])].

End Cases.

Module Vocabulary.

(** The five categories of [extractCategories]. *)
Definition category_names : list jsstring :=
  [lit "Travel"; lit "Office Supplies"; lit "Software"; lit "Food & Dining"; lit "Other"].

(** Two fields with the same key whose values are equal, or are amount texts
    that differ only in currency symbols, commas and white space. *)
Definition same_amount_text (a b : jsstring * json) : Prop :=
  fst a = fst b
  /\ (snd a = snd b
      \/ exists s t, snd a = JStr s /\ snd b = JStr t
                     /\ Dashboard.cleanAmount s = Dashboard.cleanAmount t).

End Vocabulary.
Import Vocabulary.

(** ** What an upload amounts to *)

Module Verdicts.
Section WithHost.
Context `{Host}.

(** What the upload route makes of a file once its row exists: the row is
    marked as processed with these columns (and the answer carries these
    further fields), or it is marked as failed with this error message. *)
Inductive Verdict : Type :=
| Processed (extractedData classifiedData : json) (embeddings : option jsstring)
            (extra : list (jsstring * json))
| Failed (message : jsstring).

(** The message of the error thrown for an HTTP status that is not 2xx. *)
Definition not_ok_message (response : Upload.FetchResponse) (errorText : jsstring)
  : jsstring :=
  lit "Python service returned " ++ decimal (Upload.resp_status response)
  ++ lit ": " ++ Upload.resp_statusText response ++ lit " - " ++ errorText.

Definition is_sheet (response : Upload.FetchResponse) : bool :=
  match Upload.resp_contentType response with
  | Some contentType =>
      includes contentType (lit "spreadsheet")
      || includes contentType (lit "application/vnd.openxmlformats")
  | None => false
  end.

Definition invalid_response : jsstring := lit "Invalid response from Python service".

(** [response.headers.get('x-invoice-id') || invoice.id] *)
Definition sheet_id (invoice : Invoice) (response : Upload.FetchResponse) : jsstring :=
  match Upload.resp_invoiceId response with
  | Some id => if is_empty id then invoice_id invoice else id
  | None => invoice_id invoice
  end.

(** The record read from the logs, or the basic one when reading fails. *)
Definition sheet_record (invoice : Invoice) (response : Upload.FetchResponse)
    (py : Upload.PythonService) (now : Z) : json :=
  match Upload.extracted_from_logs (sheet_id invoice response) now py with
  | Ok extracted => extracted
  | Throw _ => Upload.basic_data (sheet_id invoice response) now
  end.

(** The numbers that take the place of an embedding that the API did not
    give: the next [n] draws of [Math.random()], each less a half. *)
Definition mock_vector (n : nat) (w : World) : json :=
  JArr (map (fun k => JNum (random w k - 0.5)%float) (seq (draws w) n)).

(** The embedding given to the record: that of the API, or the mock one. *)
Definition sheet_embedding (py : Upload.PythonService) (w : World) : option json :=
  match Upload.api_embedding py with
  | Ok embedding => embedding
  | Throw _ => Some (mock_vector 1536 w)
  end.

(** The processed data that the route assembles for [invoice] in the world
    [w], and the world once it is assembled. *)
Definition sheet_data (invoice : Invoice) (response : Upload.FetchResponse)
    (py : Upload.PythonService) (w : World) : json :=
  Upload.with_embeddings (sheet_record invoice response py (now w)) (sheet_embedding py w).

Definition after_sheet (py : Upload.PythonService) (w : World) : World :=
  match Upload.api_embedding py with
  | Ok _ => w
  | Throw _ =>
      mkWorld (db w) (faults w) (queries w) (created w) (uuids w) (now w) (random w)
              (1536 + draws w)
  end.

(** The world in which the row is updated: the processed data are assembled
    only for a spreadsheet. *)
Definition before_update (file : Upload.File) (py : Upload.PythonService)
    (invoice : Invoice) (w : World) : World :=
  match Upload.file_arrayBuffer file, Upload.py_fetch py with
  | Ok _, Ok response =>
      if Upload.resp_ok response && is_sheet response
      then after_sheet py w
      else w
  | _, _ => w
  end.

Definition verdict (file : Upload.File) (py : Upload.PythonService)
    (invoice : Invoice) (w : World) : Verdict :=
  match Upload.file_arrayBuffer file with
  | Throw e => Failed e
  | Ok _ =>
      match Upload.py_fetch py with
      | Throw e => Failed e
      | Ok response =>
          if negb (Upload.resp_ok response) then
            match Upload.resp_text response with
            | Throw e => Failed e
            | Ok errorText => Failed (not_ok_message response errorText)
            end
          else if is_sheet response then
            let data := sheet_data invoice response py w in
            Processed data data (Some (Upload.embeddings_text data))
                      [(lit "message", JStr (lit "Invoice processed successfully with AI"))]
          else
            match Upload.resp_json response with
            | Throw _ | Ok JNull => Failed invalid_response
            | Ok pythonResult =>
                if otruthy (get pythonResult (lit "error")) then Failed invalid_response
                else
                  Processed
                    (Upload.or_else (get pythonResult (lit "extracted_data")) pythonResult)
                    (Upload.or_else (get pythonResult (lit "classified_data")) pythonResult)
                    (match get pythonResult (lit "embeddings") with
                     | Some e => if truthy e then Some (JSON_stringify e) else None
                     | None => None
                     end)
                    []
            end
      end
  end.

(** What a failed upload stores in [extractedData], and what it answers. *)
Definition failure_data (message : jsstring) : json :=
  if includes message (lit "PDF_ENCRYPTED") then Upload.encrypted_data
  else JObj [(lit "error", JStr (lit "Processing failed"));
             (lit "details", JStr message)].

Definition failure_response (invoice : Invoice) (message : jsstring) : Response :=
  if includes message (lit "PDF_ENCRYPTED") then Upload.encrypted_response invoice
  else mkResponse 500
         (BJson (JObj [(lit "error", JStr (lit "Processing failed"));
                       (lit "details", JStr message);
                       (lit "id", JStr (invoice_id invoice));
                       (lit "status", JStr (lit "error"))])).

(** The database once [data] is applied to the invoice rows with this id. *)
Definition update_rows (id : jsstring) (data : Invoice -> Invoice) (d : DB) : DB :=
  mkDB (users d) (chatSessions d) (messages d)
       (map (fun i => if str_eqb (invoice_id i) id then data i else i) (invoices d))
       (invoiceSearches d).

(** The row that the upload of [file] by the user [u] creates in [w]. *)
Definition new_row (u : User) (file : Upload.File) (w : World) : Invoice :=
  mkInvoice (cuid (created w)) (user_id u) (Upload.file_name file) st_processing
    (JObj [(lit "message",
            JStr (lit "Invoice uploaded, sending to AI processing service..."));
           (lit "file_size", JNum (of_nat (N.to_nat (Upload.file_size file))));
           (lit "mime_type", JStr (Upload.file_type file))])
    JNull None (now w).

(** What identifies an invoice row and is never rewritten. *)
Definition identity_of (i : Invoice) : jsstring * jsstring * jsstring * Z :=
  (invoice_id i, invoice_userId i, invoice_filename i, invoice_createdAt i).

(** Between [d] and [d'] only columns of invoice rows may have changed:
    the other tables are the same, and so are the identities of the rows. *)
Definition same_identities (d d' : DB) : Prop :=
  users d' = users d /\ chatSessions d' = chatSessions d
  /\ messages d' = messages d /\ invoiceSearches d' = invoiceSearches d
  /\ map identity_of (invoices d') = map identity_of (invoices d).

(** A computation all of whose runs, normal or not, relate the database
    before to the database after by [R]. *)
Definition preserves {A} (R : DB -> DB -> Prop) (m : M A) : Prop :=
  forall w r w', m w = (r, w') -> R (db w) (db w').

End WithHost.
End Verdicts.
Import Verdicts.

Module UploadCases.
Import Reference Examples.

Definition report_pdf : Upload.File :=
  Upload.mkFile (lit "report.pdf") 2048 (lit "application/pdf") (Ok tt).

(** The invoice service is down. *)
Definition service_down : Upload.PythonService :=
  Upload.mkPythonService
    (Ok (Upload.mkFetchResponse false 503 (lit "Service Unavailable")
           (Some (lit "text/plain")) None (Ok (lit "upstream down"))
           (Throw (lit "Unexpected token"))))
    no_logs unreadable no_embedding.

(** The invoice service answers 200 with a JSON body that reports an
    encrypted PDF. *)
Definition reports_encrypted : Upload.PythonService :=
  Upload.mkPythonService
    (Ok (Upload.mkFetchResponse true 200 (lit "OK")
           (Some (lit "application/json")) None (Ok [])
           (Ok (JObj [(lit "error", JStr (lit "PDF_ENCRYPTED: password required"))]))))
    no_logs unreadable no_embedding.

(** The invoice service answers with a spreadsheet, after it has written
    its log; the embeddings API gives a vector. *)
Definition sheet_response : Upload.FetchResponse :=
  Upload.mkFetchResponse true 200 (lit "OK")
    (Some (lit "application/vnd.openxmlformats-officedocument.spreadsheetml.sheet"))
    None (Ok []) (Throw (lit "Unexpected token")).

Definition newline : jsstring := [10%N].

(** A section of the log: one sheet with its text. *)
Definition section (text : jsstring) : json := JArr [JObj [(lit "data", JStr text)]].

Definition vendor_section : json :=
  section (lit "Vendor Name,Acme Air" ++ newline ++ lit "GSTIN,29ABCDE").

Definition details_section : json :=
  section (lit "Invoice Number;INV-7" ++ newline ++ lit "Invoice Date, 2024-03-05").

Definition items_section : json :=
  section (lit "Flight ticket,7000" ++ newline ++ lit "Meal,468.00").

Definition payment_section : json := section (lit "Total Amount Due,$7,468.00").

Definition processed_log : json :=
  JObj [(lit "vendor_info", vendor_section);
        (lit "invoice_details", details_section);
        (lit "line_items", items_section);
        (lit "payment_info", payment_section)].

Definition log_files : list jsstring :=
  [lit "2024-03-05_processed_data.json"; lit "service.log";
   lit "2024-01-01_processed_data.json"].

Definition read_log (name : jsstring) : Outcome jsstring :=
  if str_eqb name (lit "2024-03-05_processed_data.json")
  then Ok (ref_JSON_stringify processed_log)
  else Throw (lit "ENOENT: no such file or directory").

Definition embedding_answer : Upload.EmbeddingResponse :=
  Upload.mkEmbeddingResponse true
    (Ok (JObj [(lit "data",
                JArr [JObj [(lit "embedding", JArr [JNum 0.25%float; JNum (-0.5)%float])]])])).

Definition returns_sheet : Upload.PythonService :=
  Upload.mkPythonService (Ok sheet_response) (Ok log_files) read_log (Ok embedding_answer).

(** The record that the route stores for this answer. *)
Definition sheet_data : json :=
  JObj [(lit "invoice_number", JStr (lit "INV-7"));
        (lit "vendor_name", JStr (lit "Acme Air"));
        (lit "total_amount", JStr (lit "$7,468.00"));
        (lit "date", JStr (lit "2024-03-05"));
        (lit "status", JStr (lit "Successfully processed by AI"));
        (lit "file_processed", JBool true);
        (lit "excel_generated", JBool true);
        (lit "line_items",
         JArr [JObj [(lit "description", JStr (lit "Flight ticket"));
                     (lit "amount", JStr ([8377%N] ++ lit "7000"))];
               JObj [(lit "description", JStr (lit "Meal"));
                     (lit "amount", JStr ([8377%N] ++ lit "468.00"))]]);
        (lit "raw_vendor_info", vendor_section);
        (lit "raw_invoice_details", details_section);
        (lit "raw_line_items", items_section);
        (lit "raw_payment_info", payment_section);
        (lit "original_file_path", JStr (lit "/api/invoices/c0/download?type=original"));
        (lit "processed_file_path", JStr (lit "/api/invoices/c0/download?type=processed"));
        (lit "invoice_id", JStr (lit "c0"));
        (lit "embeddings", JArr [JNum 0.25%float; JNum (-0.5)%float])].

End UploadCases.

Module SearchTerms.
Section WithHost.
Context `{Host}.
Local Open Scope float_scope.

(** Is the query neither empty nor blank? *)
Definition nonblank (query : jsstring) : bool :=
  negb (is_empty query) && trim_truthy query.

(** The invoices a search returns, out of the invoices [found] by the
    Prisma query, when the world is [w] at the time the mock embedding is
    drawn. *)
Definition search_results (query : jsstring) (found : list Invoice) (w : World)
  : list Invoice :=
  if nonblank query then
    let mock := map (fun k => random w k - 0.5) (seq (draws w) 1536) in
    map Search.invoice
        (firstn 10
           (sort Search.ahead
              (filter (fun item => 0.1 <? Search.similarity item)
                      (map (Search.score_invoice query mock) found))))
  else found.

(** The database with one more row in the search log. *)
Definition logged (d : DB) (row : InvoiceSearch) : DB :=
  mkDB (users d) (chatSessions d) (messages d) (invoices d) (invoiceSearches d ++ [row]).

(** The world once [n] random numbers have been drawn. *)
Definition drawn (n : nat) (w : World) : World :=
  mkWorld (db w) (faults w) (queries w) (created w) (uuids w) (now w) (random w)
          (n + draws w).

(** The world once the query embedding, if any, has been drawn. *)
Definition after_embedding (query : jsstring) (w : World) : World :=
  if nonblank query then drawn 1536 w else w.

(** Newest first. *)
Definition newest_first (l : list Invoice) : Prop :=
  StronglySorted (fun a b => (invoice_createdAt b <= invoice_createdAt a)%Z) l.

End WithHost.
End SearchTerms.
Import SearchTerms.

Module ChatTerms.
Section WithHost.
Context `{Host}.

(** [session.user.name || "Demo User"] *)
Definition display_name (session : option Session) : jsstring :=
  match session with
  | Some s => match session_name s with
              | Some n => if is_empty n then lit "Demo User" else n
              | None => lit "Demo User"
              end
  | None => lit "Demo User"
  end.

(** The user a chat request runs as: the row with the email of the session,
    or the row the request creates when there is none. *)
Definition acting_user (session : option Session) (email : jsstring) (w : World) : User :=
  match find (fun x => str_eqb (user_email x) email) (users (db w)) with
  | Some u => u
  | None => mkUser (cuid (created w)) email (Some (display_name session)) (Some []) []
  end.

(** The chat of this user that the request names, if any. *)
Definition requested_chat (req : Chat.ChatRequest) (u : User) (d : DB)
  : option ChatSession :=
  match Chat.req_chatId req with
  | Some chatId =>
      if is_empty chatId then None
      else find (fun c => str_eqb (chat_id c) chatId && str_eqb (chat_userId c) (user_id u))
                (chatSessions d)
  | None => None
  end.

(** What a run has made of the world so far: no fault is scheduled, the
    database is [d], [n] rows have been created and [k] UUIDs drawn. *)
Definition facts (w : World) (d : DB) (n k : nat) : Prop :=
  faults w = [] /\ db w = d /\ created w = n /\ uuids w = k.

End WithHost.
End ChatTerms.
Import ChatTerms.

Module ChatCases.
Import Reference Examples.

(** Carol has a session but no row in the database, and no display name. *)
Definition carol_session : option Session :=
  Some (mkSession (Some (lit "carol@example.com")) None).

(** Bob names a chat of Alice. *)
Definition bob_names_c1 : Chat.ChatRequest :=
  Chat.mkChatRequest (Some (lit "c1")) (Some (JStr (lit "show me this chat"))).

Definition no_prompt : Chat.ChatRequest := Chat.mkChatRequest (Some (lit "c1")) None.

End ChatCases.

(** ** app/api/chat/route.ts: the reply to a prompt *)

Module Reply.

(** Built-ins of the runtime that print numbers and read the calendar. *)
Class Runtime : Type := {
  (** [String(x)] for a number, as a template literal prints it *)
  Number_toString : number -> jsstring;
  (** [x.toFixed(digits)] *)
  toFixed : nat -> number -> jsstring;
  (** for the clock [now] and a value [v]: [new Date(v)] has the month and
      the year of [new Date()], by [getMonth()] and [getFullYear()]; building
      the date may throw *)
  same_month : Z -> json -> Outcome bool;
  (** [new Date().toLocaleDateString('en-US', { month: 'long', year: 'numeric' })] *)
  month_label : Z -> jsstring
}.

(** The two calls to the OpenAI API, as the route sees them: what
    [generateQueryEmbedding(query)] resolves to or throws, its result being
    of the declared type [number[]]; and, for the completion call on a
    prompt, the text [aiResult.choices[0]?.message?.content?.trim()] when the
    call succeeds and that text is not empty. *)
Record OpenAI : Type := mkOpenAI {
  embedding_of : jsstring -> Outcome (list number);
  completion_of : jsstring -> option jsstring
}.

Section WithHost.
Context `{Host} `{Runtime}.

Local Open Scope float_scope.

Local Notation "x <-- o ;; k" := (and_then o (fun x => k))
  (at level 100, o at next level, right associativity).

Definition nl : jsstring := [10%N].
Definition dquote : jsstring := [34%N].
Definition chart : jsstring := [55357%N; 56522%N].   (* U+1F4CA *)
Definition bulb : jsstring := [55357%N; 56481%N].    (* U+1F4A1 *)
Definition smile : jsstring := [55357%N; 56836%N].   (* U+1F604 *)

(** [String(v)] of a value read from a [Json] column, as a template literal
    and [v.toString()] compute it: an array joins its elements with commas,
    [null] elements printing as nothing; an object prints as
    [[object Object]], unless it has a property [toString] of its own, which
    cannot be called. *)
Fixpoint ToString (v : json) : Outcome jsstring :=
  match v with
  | JNull => Ok (lit "null")
  | JBool b => Ok (if b then lit "true" else lit "false")
  | JNum x => Ok (Number_toString x)
  | JStr s => Ok s
  | JArr items =>
      (fix join (l : list json) : Outcome jsstring :=
         match l with
         | [] => Ok []
         | x :: rest =>
             first <-- match x with JNull => Ok [] | _ => ToString x end ;;
             match rest with
             | [] => Ok first
             | _ :: _ => others <-- join rest ;; Ok (first ++ lit "," ++ others)
             end
         end) items
  | JObj fields =>
      match assoc fields (lit "toString") with
      | Some _ => Throw (lit "Cannot convert object to primitive value")
      | None => Ok (lit "[object Object]")
      end
  end.

(** [${v || fallback}] *)
Definition text_or (v : option json) (fallback : string) : Outcome jsstring :=
  ToString (Upload.or_else v (JStr (lit fallback))).

(** [const isInvoiceQuery = (userPrompt: string) => ...] *)
Definition invoiceKeywords : list jsstring :=
  [lit "invoice"; lit "bill"; lit "receipt"; lit "payment"; lit "vendor"; lit "supplier";
   lit "spend"; lit "expense"; lit "amount"; lit "total"; lit "cost"; lit "price";
   lit "purchase"; lit "transaction"; lit "interglobe"; lit "indigo"; lit "airlines";
   lit "travel"; lit "flight"; lit "pnr"; lit "booking"].

Definition isInvoiceQuery (userPrompt : jsstring) : bool :=
  let prompt := toLowerCase userPrompt in
  existsb (fun keyword => includes prompt keyword) invoiceKeywords.

(** The class [[^0-9.-]] is removed: digits, dots and dashes are kept. *)
Definition is_amount_char (c : N) : bool :=
  ((48 <=? c) && (c <=? 57) || (c =? 46) || (c =? 45))%N.

Definition keep_amount_chars (s : jsstring) : jsstring := filter is_amount_char s.

(** An element of [invoicesWithAmounts]: the invoice with its [parsedAmount]
    and its [data]. *)
Record Parsed : Type := mkParsed {
  parsed_invoice : Invoice;
  parsedAmount : number;
  parsed_data : json
}.

(** The callback of the [map] in [handleExpenseAnalysisQuery]. *)
Definition parse_amount (invoice : Invoice) : Outcome Parsed :=
  let data := Search.data_or_empty (invoice_extractedData invoice) in
  let amountStr :=
    Upload.or_else (get data (lit "total_amount"))
      (Upload.or_else (get data (lit "amount")) (JStr (lit "0"))) in
  text <-- ToString amountStr ;;
  let cleanedAmount := keep_amount_chars text in
  Ok (mkParsed invoice (Search.num_or_zero (Some (parseFloat cleanedAmount))) data).

Fixpoint parse_amounts (invoices : list Invoice) : Outcome (list Parsed) :=
  match invoices with
  | [] => Ok []
  | invoice :: rest =>
      p <-- parse_amount invoice ;;
      ps <-- parse_amounts rest ;;
      Ok (p :: ps)
  end.

(** [invoices.map(...).filter(inv => inv.parsedAmount > 0)] *)
Definition invoicesWithAmounts (invoices : list Invoice) : Outcome (list Parsed) :=
  ps <-- parse_amounts invoices ;;
  Ok (filter (fun inv => 0 <? parsedAmount inv) ps).

(** [invoicesWithAmounts.reduce((max, current) =>
       current.parsedAmount > max.parsedAmount ? current : max)] *)
Definition highestInvoice (withAmounts : list Parsed) : option Parsed :=
  match withAmounts with
  | [] => None
  | first :: rest =>
      Some (fold_left (fun max current =>
                         if parsedAmount max <? parsedAmount current then current else max)
                      rest first)
  end.

(** [l.reduce((sum, invoice) => sum + invoice.parsedAmount, 0)] *)
Definition total_of (l : list Parsed) : number :=
  fold_left (fun sum invoice => sum + parsedAmount invoice) l 0.

(** The filter that keeps the invoices dated in the current month. *)
Fixpoint thisMonthInvoices (now : Z) (l : list Parsed) : Outcome (list Parsed) :=
  match l with
  | [] => Ok []
  | invoice :: rest =>
      keep <-- match get (parsed_data invoice) (lit "date") with
               | Some date => if truthy date then same_month now date else Ok false
               | None => Ok false
               end ;;
      kept <-- thisMonthInvoices now rest ;;
      Ok (if keep : bool then invoice :: kept else kept)
  end.

(** [const handleExpenseAnalysisQuery = (userPrompt: string, invoices: any[]) => ...],
    with the clock [now] read by [new Date()]. *)
Definition handleExpenseAnalysisQuery (now : Z) (userPrompt : jsstring)
    (invoices : list Invoice) : Outcome jsstring :=
  let prompt := toLowerCase userPrompt in
  withAmounts <-- invoicesWithAmounts invoices ;;
  let count := decimal (N.of_nat (length withAmounts)) in
  if includes prompt (lit "most") || includes prompt (lit "highest")
     || includes prompt (lit "biggest") || includes prompt (lit "which") then
    match highestInvoice withAmounts with
    | None => Ok (lit "I couldn't find any invoices with valid amount data to analyze.")
    | Some highest =>
        vendor <-- text_or (get (parsed_data highest) (lit "vendor_name")) "N/A" ;;
        number <-- text_or (get (parsed_data highest) (lit "invoice_number")) "N/A" ;;
        date <-- text_or (get (parsed_data highest) (lit "date")) "N/A" ;;
        Ok (chart ++ lit " **Most Expensive Invoice:**" ++ nl ++ nl
            ++ lit "**" ++ invoice_filename (parsed_invoice highest) ++ lit "**" ++ nl
            ++ lit "- Amount: $" ++ toFixed 2 (parsedAmount highest) ++ nl
            ++ lit "- Vendor: " ++ vendor ++ nl
            ++ lit "- Invoice: " ++ number ++ nl
            ++ lit "- Date: " ++ date ++ nl ++ nl
            ++ lit "This is your highest expense among " ++ count ++ lit " invoices.")
    end
  else if includes prompt (lit "total") || includes prompt (lit "spend")
          || includes prompt (lit "sum") then
    let totalAmount := total_of withAmounts in
    let response :=
      chart ++ lit " **Total Spending Analysis:**" ++ nl ++ nl
      ++ lit "- Total Amount: $" ++ toFixed 2 totalAmount ++ nl
      ++ lit "- Number of Invoices: " ++ count ++ nl
      ++ lit "- Average per Invoice: $"
      ++ toFixed 2 (totalAmount / of_nat (length withAmounts)) ++ nl ++ nl in
    if includes prompt (lit "month") || includes prompt (lit "this month") then
      inMonth <-- thisMonthInvoices now withAmounts ;;
      let thisMonthTotal := total_of inMonth in
      Ok (response
          ++ lit "**This Month (" ++ month_label now ++ lit ") :**" ++ nl
          ++ lit "- Amount: $" ++ toFixed 2 thisMonthTotal ++ nl
          ++ lit "- Invoices: " ++ decimal (N.of_nat (length inMonth)) ++ nl ++ nl)
    else Ok response
  else
    Ok (chart ++ lit " **Expense Analysis:**" ++ nl ++ nl
        ++ lit "I analyzed " ++ count ++ lit " invoices with valid amounts." ++ nl ++ nl
        ++ bulb ++ lit " Try asking:" ++ nl
        ++ lit "- " ++ dquote ++ lit "which invoice has the most expense" ++ dquote ++ nl
        ++ lit "- " ++ dquote ++ lit "my total spends for this month" ++ dquote ++ nl
        ++ lit "- " ++ dquote ++ lit "what's my highest invoice amount" ++ dquote).

(** The properties of a result of [findSimilarInvoices] that hold JSON
    values: the columns of the invoice row and [similarity_score]. *)
Definition scored_fields (s : Chat.Scored) : list (jsstring * json) :=
  let i := Chat.scored_invoice s in
  [(lit "id", JStr (invoice_id i));
   (lit "userId", JStr (invoice_userId i));
   (lit "filename", JStr (invoice_filename i));
   (lit "status", JStr (status_text (invoice_status i)));
   (lit "extractedData", invoice_extractedData i);
   (lit "classifiedData", invoice_classifiedData i);
   (lit "embeddings", match invoice_embeddings i with Some e => JStr e | None => JNull end);
   (lit "similarity_score", JNum (Chat.similarity_score s))].

(** [invoice.extracted_data || invoice.data || {}] *)
Definition legacy_data (s : Chat.Scored) : json :=
  Upload.or_else (assoc (scored_fields s) (lit "extracted_data"))
    (Upload.or_else (assoc (scored_fields s) (lit "data")) (JObj [])).

(** [parseFloat((data.total_amount || '0').replace(/[^0-9.-]/g, '')) || 0] *)
Definition legacy_amount (s : Chat.Scored) : Outcome number :=
  match Upload.or_else (get (legacy_data s) (lit "total_amount")) (JStr (lit "0")) with
  | JStr text => Ok (Search.num_or_zero (Some (parseFloat (keep_amount_chars text))))
  | _ => Throw (lit "(intermediate value).replace is not a function")
  end.

(** The loop that looks for the most expensive invoice: the state is
    [maxAmount] and [maxInvoice]. *)
Fixpoint most_expensive (invoices : list Chat.Scored)
    (st : number * option Chat.Scored) : Outcome (number * option Chat.Scored) :=
  match invoices with
  | [] => Ok st
  | invoice :: rest =>
      amount <-- legacy_amount invoice ;;
      most_expensive rest (if fst st <? amount then (amount, Some invoice) else st)
  end.

(** The loop that adds up the amounts: the state is [total] and
    [validInvoices]. *)
Fixpoint spending (invoices : list Chat.Scored) (st : number * nat)
  : Outcome (number * nat) :=
  match invoices with
  | [] => Ok st
  | invoice :: rest =>
      amount <-- legacy_amount invoice ;;
      spending rest (if 0 <? amount then (fst st + amount, S (snd st)) else st)
  end.

(** The loop of the default list, from index [index]. *)
Fixpoint basic_lines (index : nat) (invoices : list Chat.Scored) : Outcome jsstring :=
  match invoices with
  | [] => Ok []
  | invoice :: rest =>
      let data := legacy_data invoice in
      amount <-- text_or (get data (lit "total_amount")) "N/A" ;;
      vendor <-- text_or (get data (lit "vendor_name")) "N/A" ;;
      others <-- basic_lines (S index) rest ;;
      Ok (decimal (N.of_nat (S index)) ++ lit ". **"
          ++ invoice_filename (Chat.scored_invoice invoice) ++ lit "**" ++ nl
          ++ lit "   - Amount: " ++ amount ++ nl
          ++ lit "   - Vendor: " ++ vendor ++ nl ++ nl
          ++ others)
  end.

(** What follows the first branch of [formatBasicInvoiceResponse]. *)
Definition basic_rest (prompt : jsstring) (invoices : list Chat.Scored)
  : Outcome jsstring :=
  if includes prompt (lit "total") || includes prompt (lit "spend") then
    st <-- spending invoices (0, O) ;;
    let '(total, validInvoices) := st in
    Ok (chart ++ lit " **Spending Summary:**" ++ nl ++ nl
        ++ lit "- Total Amount: $" ++ toFixed 2 total ++ nl
        ++ lit "- Valid Invoices: " ++ decimal (N.of_nat validInvoices) ++ nl
        ++ lit "- Average: $" ++ toFixed 2 (total / of_nat validInvoices))
  else
    lines <-- basic_lines 0 (firstn 5 invoices) ;;
    Ok (lit "I found " ++ decimal (N.of_nat (length invoices))
        ++ lit " relevant invoice(s):" ++ nl ++ nl ++ lines).

(** [const formatBasicInvoiceResponse = (userPrompt: string, invoices: any[]) => ...] *)
Definition formatBasicInvoiceResponse (userPrompt : jsstring)
    (invoices : list Chat.Scored) : Outcome jsstring :=
  let prompt := toLowerCase userPrompt in
  if includes prompt (lit "most") || includes prompt (lit "highest")
     || includes prompt (lit "expensive") then
    st <-- most_expensive invoices (0, None) ;;
    match snd st with
    | Some maxInvoice =>
        let data := legacy_data maxInvoice in
        vendor <-- text_or (get data (lit "vendor_name")) "N/A" ;;
        date <-- text_or (get data (lit "date")) "N/A" ;;
        Ok (chart ++ lit " **Most Expensive Invoice:**" ++ nl ++ nl
            ++ lit "**" ++ invoice_filename (Chat.scored_invoice maxInvoice) ++ lit "**" ++ nl
            ++ lit "- Amount: $" ++ toFixed 2 (fst st) ++ nl
            ++ lit "- Vendor: " ++ vendor ++ nl
            ++ lit "- Date: " ++ date)
    | None => basic_rest prompt invoices
    end
  else basic_rest prompt invoices.

(** One entry of the context of the RAG prompt. *)
Definition context_entry (index : nat) (result : Chat.Scored) : Outcome jsstring :=
  let i := Chat.scored_invoice result in
  let data := Search.data_or_empty (invoice_extractedData i) in
  amount <-- text_or (get data (lit "total_amount")) "N/A" ;;
  vendor <-- text_or (get data (lit "vendor_name")) "N/A" ;;
  number <-- text_or (get data (lit "invoice_number")) "N/A" ;;
  date <-- text_or (get data (lit "date")) "N/A" ;;
  Ok (lit "Invoice " ++ decimal (N.of_nat (S index)) ++ lit ":" ++ nl
      ++ lit "- Filename: "
      ++ (if is_empty (invoice_filename i) then lit "Unknown" else invoice_filename i) ++ nl
      ++ lit "- Amount: " ++ amount ++ nl
      ++ lit "- Vendor: " ++ vendor ++ nl
      ++ lit "- Invoice Number: " ++ number ++ nl
      ++ lit "- Date: " ++ date ++ nl
      ++ lit "- Status: " ++ status_text (invoice_status i) ++ nl
      ++ lit "- Relevance Score: " ++ toFixed 1 (Chat.similarity_score result * 100)
      ++ lit "%").

(** [searchResults.map(...).join('\n\n')], from index [index]. *)
Fixpoint context_from (index : nat) (searchResults : list Chat.Scored)
  : Outcome jsstring :=
  match searchResults with
  | [] => Ok []
  | result :: rest =>
      entry <-- context_entry index result ;;
      match rest with
      | [] => Ok entry
      | _ :: _ =>
          others <-- context_from (S index) rest ;;
          Ok (entry ++ nl ++ nl ++ others)
      end
  end.

Definition ragPrompt (userPrompt context : jsstring) : jsstring :=
  lit "You are an intelligent invoice assistant. Use the following invoice search results to answer the user's query."
  ++ nl ++ nl
  ++ lit "USER QUERY: " ++ dquote ++ userPrompt ++ dquote ++ nl ++ nl
  ++ lit "SEARCH RESULTS:" ++ nl
  ++ context ++ nl ++ nl
  ++ lit "INSTRUCTIONS:" ++ nl
  ++ lit "1. Analyze the search results and provide a helpful, accurate response" ++ nl
  ++ lit "2. If the query asks for specific information (like " ++ dquote
  ++ lit "most expensive" ++ dquote ++ lit "), calculate and provide it" ++ nl
  ++ lit "3. If the query asks for totals or summaries, compute them from the available data"
  ++ nl
  ++ lit "4. Be conversational and helpful" ++ nl
  ++ lit "5. If no relevant information is found, say so clearly" ++ nl
  ++ lit "6. Always reference specific invoices when possible" ++ nl
  ++ lit "7. Provide actionable insights when relevant" ++ nl ++ nl
  ++ lit "RESPONSE:".

(** [const generateRAGResponse = async (userPrompt: string, searchResults: any[]) => ...] *)
Definition generateRAGResponse (api : OpenAI) (userPrompt : jsstring)
    (searchResults : list Chat.Scored) : Outcome jsstring :=
  match context_from 0 searchResults with
  | Ok context =>
      match completion_of api (ragPrompt userPrompt context) with
      | Some response => Ok response
      | None => formatBasicInvoiceResponse userPrompt searchResults
      end
  | Throw _ => formatBasicInvoiceResponse userPrompt searchResults
  end.

(** The loop that lists the first invoices of the fallback reply, from index
    [index]. *)
Fixpoint listed_lines (index : nat) (invoices : list Invoice) : Outcome jsstring :=
  match invoices with
  | [] => Ok []
  | invoice :: rest =>
      let data := invoice_extractedData invoice in
      number <-- text_or (get data (lit "invoice_number")) "N/A" ;;
      vendor <-- text_or (get data (lit "vendor_name")) "N/A" ;;
      amount <-- text_or (get data (lit "total_amount")) "N/A" ;;
      date <-- text_or (get data (lit "date")) "N/A" ;;
      others <-- listed_lines (S index) rest ;;
      Ok (decimal (N.of_nat (S index)) ++ lit ". **" ++ invoice_filename invoice
          ++ lit "**" ++ nl
          ++ lit "   - Invoice: " ++ number ++ nl
          ++ lit "   - Vendor: " ++ vendor ++ nl
          ++ lit "   - Amount: " ++ amount ++ nl
          ++ lit "   - Date: " ++ date ++ nl ++ nl
          ++ others)
  end.

(** The reply that lists [relevantInvoices]. *)
Definition listed (relevantInvoices : list Invoice) : Outcome jsstring :=
  lines <-- listed_lines 0 (firstn 3 relevantInvoices) ;;
  Ok (lit "I found " ++ decimal (N.of_nat (length relevantInvoices))
      ++ lit " relevant invoice(s) related to your query:" ++ nl ++ nl
      ++ lines
      ++ (if Nat.ltb 3 (length relevantInvoices)
          then lit "... and " ++ decimal (N.of_nat (length relevantInvoices - 3))
               ++ lit " more results." ++ nl ++ nl
          else [])
      ++ lit "You can view these invoices in your dashboard for more details!").

(** The filter of a specific search. *)
Definition mentions (searchLower : jsstring) (invoice : Invoice) : bool :=
  let extractedText :=
    toLowerCase (JSON_stringify (Search.data_or_empty (invoice_extractedData invoice))) in
  let classifiedText :=
    toLowerCase (JSON_stringify (Search.data_or_empty (invoice_classifiedData invoice))) in
  let filename := toLowerCase (invoice_filename invoice) in
  includes extractedText searchLower || includes classifiedText searchLower
  || includes filename searchLower.

Definition no_account : jsstring :=
  lit "I couldn't find your user account. Please try signing in again.".

Definition no_invoices : jsstring :=
  lit "You don't have any processed invoices yet. Try uploading some invoices first!".

Definition no_match : jsstring :=
  lit "I couldn't find any invoices matching your query. Try uploading some invoices first, or check your dashboard for existing invoices.".

Definition trouble : jsstring :=
  lit "I had trouble accessing your invoice data. Please check your dashboard for invoice information.".

(** The reply computed from the invoices read by the fallback query. *)
Definition fallback_reply (userPrompt : jsstring) (invoices : list Invoice) : M jsstring :=
  match invoices with
  | [] => ret no_invoices
  | _ :: _ =>
      let searchLower := toLowerCase userPrompt in
      let isGeneralListQuery :=
        includes searchLower (lit "list") || includes searchLower (lit "all")
        || includes searchLower (lit "show") || includes searchLower (lit "give")
        || includes searchLower (lit "my invoices") in
      let isExpenseQuery :=
        includes searchLower (lit "expense") || includes searchLower (lit "spend")
        || includes searchLower (lit "cost") || includes searchLower (lit "amount")
        || includes searchLower (lit "total") || includes searchLower (lit "most")
        || includes searchLower (lit "highest") || includes searchLower (lit "biggest")
        || includes searchLower (lit "month") || includes searchLower (lit "which") in
      if isGeneralListQuery then lift (listed invoices)
      else if isExpenseQuery then
        fun w => lift (handleExpenseAnalysisQuery (now w) userPrompt invoices) w
      else
        match filter (mentions searchLower) invoices with
        | [] => ret no_match
        | relevantInvoices => lift (listed relevantInvoices)
        end
  end.

(** [const getInvoiceResponse = async (userPrompt: string) => ...], with
    [email] for [session.user.email]. *)
Definition getInvoiceResponse (api : OpenAI) (email userPrompt : jsstring) : M jsstring :=
  try_catch
    (found <- user_findUnique (Some email) ;;
     match found with
     | None => ret no_account
     | Some u =>
         answered <-
           try_catch
             (queryEmbedding <- lift (embedding_of api userPrompt) ;;
              similarInvoices <- Chat.findSimilarInvoices queryEmbedding (user_id u) ;;
              match similarInvoices with
              | [] => ret None
              | _ :: _ =>
                  response <- lift (generateRAGResponse api userPrompt similarInvoices) ;;
                  ret (Some response)
              end)
             (fun _ => ret None) ;;
         match answered with
         | Some response => ret response
         | None =>
             invoices <-
               invoice_findMany_desc
                 (fun i => str_eqb (invoice_userId i) (user_id u)
                           && status_eqb (invoice_status i) st_processed) ;;
             fallback_reply userPrompt invoices
         end
     end)
    (fun _ => ret trouble).

(** The replies to a prompt that is not about invoices. *)
Definition greeting : jsstring :=
  lit "Hello! I'm your AI assistant. How can I help you today?".

Definition canned (prompt : jsstring) : jsstring :=
  if includes prompt (lit "hello") || includes prompt (lit "hi") then greeting
  else if includes prompt (lit "how are you") then
    lit "I'm doing great, thank you for asking! I'm here and ready to assist you with anything you need."
  else if includes prompt (lit "what can you do") then
    lit "I can help you with a wide variety of tasks! I can answer questions about your invoices, provide information, help with coding, explain concepts, and much more. What would you like to know about?"
  else if includes prompt (lit "tell me a joke") then
    lit "Why don't scientists trust atoms? Because they make up everything! " ++ smile
  else if includes prompt (lit "weather") then
    lit "I don't have access to real-time weather data, but I can suggest checking a weather app or website for the most current information in your area."
  else if includes prompt (lit "code") || includes prompt (lit "programming") then
    lit "I'd be happy to help you with programming! I can assist with various languages like JavaScript, Python, React, and more. What specific coding task are you working on?"
  else if includes prompt (lit "time") then
    lit "I don't have access to the current time, but you can check your device's clock or use a time website for the most accurate information."
  else
    lit "That's an interesting question! While I don't have specific information about that topic right now, I'd be happy to help you explore related concepts or answer any other questions you might have. What else would you like to know?".

(** [const getHardcodedResponse = async (userPrompt: string) => ...] *)
Definition getHardcodedResponse (api : OpenAI) (email userPrompt : jsstring) : M jsstring :=
  let prompt := toLowerCase userPrompt in
  if isInvoiceQuery userPrompt then getInvoiceResponse api email userPrompt
  else ret (canned prompt).

(** [export async function POST(req)], with the reply computed in place:
    after the message of the user is saved and the message id drawn,
    [getHardcodedResponse(prompt)] is awaited, and its text is streamed. *)
Definition POST (api : OpenAI) (session : option Session) (req : Chat.ChatRequest)
  : M Response :=
  match session_user_email session with
  | None => ret unauthorized
  | Some email =>
      match Chat.req_prompt req with
      | Some (JStr prompt) =>
          if is_empty prompt then ret (mkResponse 400 (BText (lit "Invalid prompt")))
          else
            found <- user_findUnique (Some email) ;;
            u <- match found with
                 | Some u => ret u
                 | None =>
                     let name := match session with
                                 | Some s => match session_name s with
                                             | Some n => if is_empty n then lit "Demo User" else n
                                             | None => lit "Demo User"
                                             end
                                 | None => lit "Demo User"
                                 end in
                     user_create email name []
                 end ;;
            existing <- match Chat.req_chatId req with
                        | Some chatId =>
                            if is_empty chatId then ret None
                            else chatSession_findFirst chatId (user_id u)
                        | None => ret None
                        end ;;
            chat <- match existing with
                    | Some c => ret c
                    | None =>
                        let title := slice0 32 prompt in
                        chatSession_create (user_id u)
                          (if is_empty title then lit "New chat" else title)
                    end ;;
            message_create (chat_id chat) role_user prompt ;;;
            messageId <- crypto_randomUUID ;;
            hardcodedResponse <- getHardcodedResponse api email prompt ;;
            frames <- Chat.stream_start chat messageId hardcodedResponse ;;
            ret (mkResponse 200 (BStream frames))
      | None | Some JNull => ret (mkResponse 400 (BText (lit "Invalid prompt")))
      | Some _ => throw (lit "prompt?.substring is not a function")
      end
  end.

End WithHost.
End Reply.
Import Reply.

(** ** A reference runtime for the printing built-ins *)

Module ReferenceRuntime.
Import Reference.

(** An executable implementation of the printing built-ins, used to run the
    replies on concrete data; the calendar is a stand-in for which no date
    falls in the current month. *)

(** The digits of [n], padded with zeros on the left to [width] digits. *)
Definition padded (width : nat) (n : N) : jsstring :=
  let ds := decimal n in repeat 48%N (width - length ds) ++ ds.

(** [x.toFixed(digits)]: for a number below [1e21] in absolute value, the
    nearest multiple of [10 ^ -digits], the larger one in case of a tie; for
    the others, the number as [ToString] prints it. *)
Definition ref_toFixed (digits : nat) (x : number) : jsstring :=
  let fraction (scaled : N) : jsstring :=
    let unit := (10 ^ N.of_nat digits)%N in
    decimal (scaled / unit)
    ++ (if Nat.eqb digits 0 then []
        else lit "." ++ padded digits (scaled mod unit)) in
  match Prim2SF x with
  | S754_nan => lit "NaN"
  | S754_infinity s => if s then lit "-Infinity" else lit "Infinity"
  | S754_zero _ => fraction 0%N
  | S754_finite s m e =>
      if (1e21 <=? abs x)%float then number_text x
      else
        let numerator := (N.pos m * 10 ^ N.of_nat digits)%N in
        let scaled :=
          match e with
          | Zneg k => ((2 * numerator + 2 ^ N.pos k) / (2 * 2 ^ N.pos k))%N
          | _ => (numerator * 2 ^ Z.to_N e)%N
          end in
        (if s then lit "-" else []) ++ fraction scaled
  end.

Definition runtime : Runtime := {|
  Number_toString := number_text;
  toFixed := ref_toFixed;
  same_month := fun _ _ => Ok false;
  month_label := fun _ => lit "January 1970"
|}.

(** The OpenAI API is unreachable. *)
Definition offline : OpenAI :=
  mkOpenAI (fun _ => Throw (lit "Failed to generate embedding")) (fun _ => None).

(** The embeddings call answers with a fixed vector; the completion call
    fails. *)
Definition embeds_only : OpenAI :=
  mkOpenAI (fun _ => Ok [1%float; 0%float]) (fun _ => None).

End ReferenceRuntime.

Module ReplyCases.
Import Reference Examples ReferenceRuntime.

(** Dana has an account and no invoice. *)
Definition dana : User :=
  mkUser (lit "u4") (lit "dana@example.com") (Some (lit "Dana")) None [].

Definition dana_db : DB := mkDB [alice; dana] [] [] [invoice1; invoice3] [].

(** The sample database without Bob, his invoice, the chats and the messages. *)
Definition alice_db : DB := mkDB [alice] [] [] [invoice1; invoice2; invoice3; invoice5] [].

End ReplyCases.

Module ReplyTerms.

(** The database is as it was. *)
Definition unchanged (d d' : DB) : Prop := d' = d.

Section WithHost.
Context `{Host} `{Runtime}.

(** The answer of the vector search over the rows [found], if it gives one. *)
Definition vector_answer (api : OpenAI) (userPrompt : jsstring) (found : list Invoice)
  : option jsstring :=
  match embedding_of api userPrompt with
  | Ok queryEmbedding =>
      match firstn 10 (sort Chat.ahead (Chat.similarities queryEmbedding found)) with
      | [] => None
      | s :: rest =>
          match generateRAGResponse api userPrompt (s :: rest) with
          | Ok response => Some response
          | Throw _ => None
          end
      end
  | Throw _ => None
  end.

(** The reply to a prompt about invoices of a user whose rows are
    [invoices], at time [now]. *)
Definition invoice_answer (api : OpenAI) (userPrompt : jsstring) (now : Z)
    (userId : jsstring) (invoices : list Invoice) : jsstring :=
  match vector_answer api userPrompt (filter (Chat.searchable userId) invoices) with
  | Some response => response
  | None =>
      let processed :=
        filter (fun i => str_eqb (invoice_userId i) userId
                         && status_eqb (invoice_status i) st_processed) invoices in
      match fst (fallback_reply userPrompt (sort newer processed)
                   (mkWorld (mkDB [] [] [] [] []) [] 0 0 0 now (fun _ => 0%float) 0)) with
      | Ok response => response
      | Throw _ => trouble
      end
  end.

End WithHost.
End ReplyTerms.
Import ReplyTerms.

Module DeleteCases.
Import Reference Examples.

(** The database answers three calls and fails at the fourth. *)
Definition flaky_world : World :=
  mkWorld sample_db [None; None; None; Some (lit "Can't reach database server")]
          0 0 0 0%Z (fun _ => 0.5%float) 0.

End DeleteCases.

Module SignInCases.
Import Reference Examples.

Definition alice_credentials : option Auth.Credentials :=
  Some (Auth.mkCredentials (Some (lit "alice@example.com")) (Some (lit "secret"))).

End SignInCases.

Module ChatReplyTerms.
Section WithHost.
Context `{Host} `{Runtime}.

(** The reply to a prompt of the user [userId] whose rows are [invoices], at
    time [now]. *)
Definition reply_text (api : OpenAI) (userPrompt : jsstring) (now : Z)
    (userId : jsstring) (invoices : list Invoice) : jsstring :=
  if isInvoiceQuery userPrompt then invoice_answer api userPrompt now userId invoices
  else canned (toLowerCase userPrompt).

(** The id Prisma gives to the chat a request creates: the next id, or the
    one after it when the request first creates the user. *)
Definition new_chat_id (email : jsstring) (w : World) : jsstring :=
  cuid (match find (fun x => str_eqb (user_email x) email) (users (db w)) with
        | Some _ => 0
        | None => 1
        end + created w).

(** A computation that, started without scheduled faults, ends without any
    and leaves the database, the counters and the clock as they were. *)
Definition steady {A} (m : M A) : Prop :=
  forall w r w',
    faults w = [] -> m w = (r, w') ->
    faults w' = [] /\ db w' = db w /\ created w' = created w
    /\ uuids w' = uuids w /\ now w' = now w.

(** [facts] at the time [t]. *)
Definition facts_at (t : Z) (w : World) (d : DB) (n k : nat) : Prop :=
  facts w d n k /\ now w = t.

End WithHost.
End ChatReplyTerms.
Import ChatReplyTerms.

(** * Properties *)

(** ** Cosine similarity *)

Section CosineSimilarity.

Local Open Scope float_scope.

(** The loop computes the three sums over the elements it has not visited
    yet. *)
Lemma cosine_loop_sums (sa sb pa pb : list number) (d na nb : number) :
  length pa = length pb ->
  length sa = length sb ->
  Chat.cosine_loop (length sa) (length pa) (pa ++ sa) (pb ++ sb) (d, na, nb) =
  (fold_left (fun sum p => sum + fst p * snd p) (combine sa sb) d,
   fold_left (fun sum p => sum + fst p * snd p) (combine sa sa) na,
   fold_left (fun sum p => sum + fst p * snd p) (combine sb sb) nb).
Proof.
  revert sb pa pb d na nb.
  induction sa as [| x sa IH]; intros [| y sb] pa pb d na nb Hp Hs;
    try discriminate; [reflexivity |].
  injection Hs as Hs.
  cbn [length Chat.cosine_loop].
  rewrite (nth_middle pa sa x nan).
  replace (nth (length pa) (pb ++ y :: sb) nan) with y
    by (rewrite Hp; symmetry; apply nth_middle).
  replace (pa ++ x :: sa) with ((pa ++ [x]) ++ sa) by (rewrite <- app_assoc; reflexivity).
  replace (pb ++ y :: sb) with ((pb ++ [y]) ++ sb) by (rewrite <- app_assoc; reflexivity).
  replace (S (length pa)) with (length (pa ++ [x]))
    by (rewrite length_app; simpl; lia).
  rewrite IH; [reflexivity | | assumption].
  rewrite !length_app. simpl. lia.
Qed.

Lemma cosine_loop_spec (vecA vecB : list number) :
  length vecA = length vecB ->
  Chat.cosine_loop (length vecA) 0 vecA vecB (0, 0, 0) =
  (dot_product vecA vecB, dot_product vecA vecA, dot_product vecB vecB).
Proof.
  intro Hlen.
  exact (cosine_loop_sums vecA vecB [] [] 0 0 0 eq_refl Hlen).
Qed.

(** C7, as amended.  For vectors of equal length, [cosineSimilarity] returns
    the dot product divided by the product of the magnitudes, except that it
    returns 0 when the squared norm of either vector is zero. *)
Theorem cosineSimilarity_formula (vecA vecB : list number) :
  length vecA = length vecB ->
  Chat.cosineSimilarity vecA vecB =
  Ok (if (dot_product vecA vecA =? 0) || (dot_product vecB vecB =? 0)
      then 0 else cosine vecA vecB).
Proof.
  intro Hlen.
  unfold Chat.cosineSimilarity.
  rewrite Hlen, Nat.eqb_refl. cbn [negb].
  rewrite <- Hlen, (cosine_loop_spec _ _ Hlen).
  destruct ((dot_product vecA vecA =? 0) || (dot_product vecB vecB =? 0));
    reflexivity.
Qed.

Lemma cosineSimilarity_formula_witness :
  Chat.cosineSimilarity [3; 4] [4; 3] = Ok 0.96.
Proof.
  rewrite (cosineSimilarity_formula [3; 4] [4; 3] eq_refl).
  reflexivity.
Defined.

(** Vectors of different lengths are rejected. *)
Lemma cosineSimilarity_length_mismatch (vecA vecB : list number) :
  length vecA <> length vecB ->
  Chat.cosineSimilarity vecA vecB = Throw (lit "Vectors must have same length").
Proof.
  intro Hne. unfold Chat.cosineSimilarity.
  destruct (Nat.eqb_spec (length vecA) (length vecB)); [contradiction | reflexivity].
Qed.

(** C7, as stated, fails on the zero vector: the quotient of the glossary is
    0/0, which is NaN, and the function answers 0. *)
Lemma cosineSimilarity_zero_vector :
  ~ (forall vecA vecB : list number,
        length vecA = length vecB ->
        Chat.cosineSimilarity vecA vecB = Ok (cosine vecA vecB)).
Proof.
  intro Hall.
  specialize (Hall [0] [0] eq_refl).
  apply (f_equal (fun o => match o with
                            | Ok x => PrimFloat.is_nan x
                            | Throw _ => false
                            end)) in Hall.
  vm_compute in Hall. discriminate.
Qed.

End CosineSimilarity.

(** ** The stable insertion sort *)

Section SortFacts.

Variable A : Type.
Variable before : A -> A -> bool.

Lemma insert_perm (x : A) (l : list A) : Permutation (x :: l) (insert before x l).
Proof.
  induction l as [| y l IH]; simpl; [apply Permutation_refl |].
  destruct (before y x); [| apply Permutation_refl].
  eapply perm_trans; [apply perm_swap |].
  apply perm_skip, IH.
Qed.

Lemma sort_perm (l : list A) : Permutation l (sort before l).
Proof.
  induction l as [| x l IH]; simpl; [constructor |].
  eapply perm_trans; [apply perm_skip, IH | apply insert_perm].
Qed.

Lemma sort_In (l : list A) (x : A) : In x (sort before l) <-> In x l.
Proof.
  split; apply Permutation_in;
    [apply Permutation_sym |]; apply sort_perm.
Qed.

Lemma sort_length (l : list A) : length (sort before l) = length l.
Proof. symmetry. apply Permutation_length, sort_perm. Qed.

(** In the output, [a] may stand before [b] when [b] is not strictly ahead
    of [a]. *)
Definition in_order (a b : A) : Prop := before b a = false.

Lemma insert_sorted (x : A) (l : list A) :
  consistent before (x :: l) ->
  StronglySorted in_order l ->
  StronglySorted in_order (insert before x l).
Proof.
  intros [Hasym Htrans].
  induction l as [| y l IH]; intro Hs; simpl.
  - repeat constructor.
  - inversion Hs as [| ? ? Hs' Hy]; subst.
    destruct (before y x) eqn:Hyx.
    + constructor.
      * apply IH; [| | assumption].
        -- intros a b Ha Hb. apply Hasym; simpl in *; tauto.
        -- intros a b c Ha Hb Hc. apply Htrans; simpl in *; tauto.
      * rewrite Forall_forall. intros z Hz.
        apply (Permutation_in _ (Permutation_sym (insert_perm x l))) in Hz.
        destruct Hz as [<- | Hz].
        -- apply Hasym; simpl; auto.
        -- rewrite Forall_forall in Hy. apply Hy, Hz.
    + constructor; [assumption |].
      constructor; [exact Hyx |].
      rewrite Forall_forall in Hy |- *. intros z Hz.
      apply (Htrans x y z); simpl; auto.
      apply Hy, Hz.
Qed.

Lemma consistent_tail (x : A) (l : list A) :
  consistent before (x :: l) -> consistent before l.
Proof.
  intros [Hasym Htrans]. split.
  - intros a b Ha Hb. apply Hasym; simpl; auto.
  - intros a b c Ha Hb Hc. apply Htrans; simpl; auto.
Qed.

Lemma consistent_perm (l l' : list A) :
  Permutation l l' -> consistent before l -> consistent before l'.
Proof.
  intros Hp [Hasym Htrans].
  assert (Hin : forall a, In a l' -> In a l)
    by (intro a; apply Permutation_in, Permutation_sym, Hp).
  split.
  - intros a b Ha Hb. apply Hasym; auto.
  - intros a b c Ha Hb Hc. apply Htrans; auto.
Qed.

Lemma sort_sorted (l : list A) :
  consistent before l -> StronglySorted in_order (sort before l).
Proof.
  induction l as [| x l IH]; intro Hc; simpl; [constructor |].
  apply insert_sorted.
  - apply (consistent_perm (l := x :: l)); [| assumption].
    apply perm_skip, sort_perm.
  - apply IH, (consistent_tail Hc).
Qed.

Lemma firstn_In (n : nat) (l : list A) (x : A) : In x (firstn n l) -> In x l.
Proof.
  intro Hin. rewrite <- (firstn_skipn n l). apply in_or_app. left. exact Hin.
Qed.

Lemma firstn_sorted (R : A -> A -> Prop) (n : nat) (l : list A) :
  StronglySorted R l -> StronglySorted R (firstn n l).
Proof.
  revert n. induction l as [| x l IH]; intros [| n] Hs; simpl; try constructor.
  - inversion Hs; subst. apply IH; assumption.
  - inversion Hs as [| ? ? _ Hx]; subst.
    rewrite Forall_forall in Hx |- *. intros z Hz.
    apply Hx. exact (firstn_In n l z Hz).
Qed.

End SortFacts.

(** ** Binary64 arithmetic *)

Section Binary64Facts.

Local Open Scope Z_scope.

Lemma digits2_pos_bounds (m : positive) :
  2 ^ (Zpos (digits2_pos m) - 1) <= Zpos m < 2 ^ Zpos (digits2_pos m).
Proof.
  induction m as [m IH | m IH |]; cbn [digits2_pos].
  - rewrite Pos2Z.inj_succ.
    replace (Z.succ (Zpos (digits2_pos m)) - 1) with (Z.succ (Zpos (digits2_pos m) - 1)) by lia.
    rewrite !Z.pow_succ_r by lia. lia.
  - rewrite Pos2Z.inj_succ.
    replace (Z.succ (Zpos (digits2_pos m)) - 1) with (Z.succ (Zpos (digits2_pos m) - 1)) by lia.
    rewrite !Z.pow_succ_r by lia. lia.
  - simpl. lia.
Qed.

Lemma canonical_bounds (m : positive) (e : Z) :
  canonical_mantissa prec emax m e = true ->
  emin64 <= e /\ Zpos m < P53 /\ (emin64 < e -> 2 ^ 52 <= Zpos m).
Proof.
  unfold canonical_mantissa, fexp, SpecFloat.emin, prec, emax, emin64, P53.
  intro Hc. apply Z.eqb_eq in Hc.
  pose proof (digits2_pos_bounds m) as [Hlo Hhi].
  set (d := Zpos (digits2_pos m)) in *.
  assert (Hd : 0 < d) by (unfold d; lia).
  split; [lia |]. split.
  - assert (d <= 53) by lia.
    apply Z.lt_le_trans with (2 ^ d); [exact Hhi |].
    apply Z.pow_le_mono_r; lia.
  - intro He. assert (d = 53) by lia.
    replace (d - 1) with 52 in Hlo by lia. exact Hlo.
Qed.

Lemma shl_align_fst (m : positive) (e ez : Z) :
  ez <= e -> Zpos (fst (shl_align m e ez)) = Zpos m * 2 ^ (e - ez).
Proof.
  intro Hle. unfold shl_align.
  destruct (ez - e) as [| p | p] eqn:Hd; try lia.
  - replace (e - ez) with 0 by lia. cbn [fst]. lia.
  - cbn [fst]. change (Pos.iter xO m p) with (Zpower.shift_pos p m).
    rewrite Zpower.shift_pos_correct.
    replace (e - ez) with (Zpos p) by lia.
    rewrite Z.pow_pos_fold. lia.
Qed.

Lemma scaled_eq (s : bool) (m : positive) (e ez : Z) :
  ez <= e -> scaled s m e ez = cond_Zopp s (Zpos m * 2 ^ (e - ez)).
Proof. intro Hle. unfold scaled. rewrite shl_align_fst by exact Hle. reflexivity. Qed.

Lemma pow2_ge_2 (k : Z) : 1 <= k -> 2 <= 2 ^ k.
Proof.
  intro Hk. replace k with (Z.succ (k - 1)) by lia.
  rewrite Z.pow_succ_r by lia.
  assert (0 < 2 ^ (k - 1)) by (apply Z.pow_pos_nonneg; lia). lia.
Qed.

(** Comparison of finite numbers is comparison of their scaled integers. *)
Lemma SFcompare_finite (s1 s2 : bool) (m1 m2 : positive) (e1 e2 : Z) :
  canonical_mantissa prec emax m1 e1 = true ->
  canonical_mantissa prec emax m2 e2 = true ->
  SFcompare (S754_finite s1 m1 e1) (S754_finite s2 m2 e2) =
  Some (scaled s1 m1 e1 (Z.min e1 e2) ?= scaled s2 m2 e2 (Z.min e1 e2)).
Proof.
  intros H1 H2.
  apply canonical_bounds in H1. destruct H1 as (Hmin1 & Hhi1 & Hlo1).
  apply canonical_bounds in H2. destruct H2 as (Hmin2 & Hhi2 & Hlo2).
  rewrite !scaled_eq by lia.
  unfold SFcompare, P53, emin64 in *. f_equal.
  assert (Hp1 : 0 < 2 ^ (e1 - Z.min e1 e2)) by (apply Z.pow_pos_nonneg; lia).
  assert (Hp2 : 0 < 2 ^ (e2 - Z.min e1 e2)) by (apply Z.pow_pos_nonneg; lia).
  destruct (Z.compare_spec e1 e2) as [He | He | He].
  - subst e2. rewrite Z.min_id, Z.sub_diag in *. rewrite !Z.mul_1_r.
    destruct s1, s2; reflexivity.
  - rewrite Z.min_l in * by lia. rewrite Z.sub_diag, Z.mul_1_r in *.
    assert (Hk : 2 <= 2 ^ (e2 - e1)) by (apply pow2_ge_2; lia).
    assert (Hm2 : 2 ^ 52 <= Zpos m2) by (apply Hlo2; lia).
    assert (Hbig : Zpos m1 < Zpos m2 * 2 ^ (e2 - e1)) by nia.
    destruct s1, s2; cbn [cond_Zopp]; symmetry;
      first [apply Z.compare_lt_iff | apply Z.compare_gt_iff]; lia.
  - rewrite Z.min_r in * by lia. rewrite Z.sub_diag, Z.mul_1_r in *.
    assert (Hk : 2 <= 2 ^ (e1 - e2)) by (apply pow2_ge_2; lia).
    assert (Hm1 : 2 ^ 52 <= Zpos m1) by (apply Hlo1; lia).
    assert (Hbig : Zpos m2 < Zpos m1 * 2 ^ (e1 - e2)) by nia.
    destruct s1, s2; cbn [cond_Zopp]; symmetry;
      first [apply Z.compare_lt_iff | apply Z.compare_gt_iff]; lia.
Qed.

(** Rounding a positive integer never gives zero. *)

Lemma shr_1_m (r : shr_record) :
  0 <= shr_m r -> shr_m (shr_1 r) = shr_m r / 2.
Proof.
  destruct r as [m rb sb]. cbn [shr_m]. intro Hm.
  destruct m as [| [p | p |] | p]; cbn [shr_1 shr_m]; try lia; try reflexivity.
  - apply Z.div_unique with 1; lia.
  - apply Z.div_unique with 0; lia.
Qed.

Lemma shr_1_nonneg (r : shr_record) : 0 <= shr_m r -> 0 <= shr_m (shr_1 r).
Proof.
  intro Hm. rewrite shr_1_m by exact Hm. apply Z.div_pos; lia.
Qed.

Lemma iter_shr_m (p : positive) (r : shr_record) :
  0 <= shr_m r ->
  shr_m (iter_pos shr_1 p r) = shr_m r / 2 ^ Zpos p.
Proof.
  revert r. induction p as [p IH | p IH |]; intros r Hm; cbn [iter_pos].
  - assert (H1 : 0 <= shr_m (shr_1 r)) by (apply shr_1_nonneg, Hm).
    assert (H2 : 0 <= shr_m (iter_pos shr_1 p (shr_1 r)))
      by (rewrite IH by exact H1; apply Z.div_pos; [exact H1 | apply Z.pow_pos_nonneg; lia]).
    rewrite (IH _ H2), (IH _ H1), shr_1_m by exact Hm.
    rewrite !Z.div_div by (try apply Z.pow_pos_nonneg; lia).
    f_equal.
    replace (2 ^ Zpos p~1) with (2 ^ (1 + Zpos p + Zpos p)) by (f_equal; lia).
    rewrite !Z.pow_add_r by lia. lia.
  - assert (H2 : 0 <= shr_m (iter_pos shr_1 p r))
      by (rewrite IH by exact Hm; apply Z.div_pos; [exact Hm | apply Z.pow_pos_nonneg; lia]).
    rewrite (IH _ H2), (IH _ Hm).
    rewrite !Z.div_div by (try apply Z.pow_pos_nonneg; lia).
    f_equal.
    replace (2 ^ Zpos p~0) with (2 ^ (Zpos p + Zpos p)) by (f_equal; lia).
    rewrite !Z.pow_add_r by lia. lia.
  - rewrite shr_1_m by exact Hm. reflexivity.
Qed.

Lemma shr_record_of_loc_m (m : Z) (l : location) : shr_m (shr_record_of_loc m l) = m.
Proof. destruct l as [| []]; reflexivity. Qed.

(** Shifting a positive mantissa to its format exponent leaves it positive,
    as long as the exponent is not below the least one. *)
Lemma shr_fexp_pos (m : positive) (e : Z) (l : location) :
  emin64 <= e ->
  0 < shr_m (fst (shr_fexp prec emax (Zpos m) e l))
  /\ emin64 <= snd (shr_fexp prec emax (Zpos m) e l).
Proof.
  intro He. unfold shr_fexp, shr, fexp, SpecFloat.emin, prec, emax, emin64 in *.
  cbn [Zdigits2].
  pose proof (digits2_pos_bounds m) as [Hlo Hhi].
  set (d := Zpos (digits2_pos m)) in *.
  destruct (Z.max (d + e - 53) (3 - 1024 - 53) - e) as [| p | p] eqn:Hn;
    cbn [fst snd]; try (rewrite shr_record_of_loc_m; lia).
  assert (Hp : Zpos p = d - 53) by lia.
  split; [| lia].
  rewrite iter_shr_m by (rewrite shr_record_of_loc_m; lia).
  rewrite shr_record_of_loc_m.
  apply Z.div_str_pos. split; [apply Z.pow_pos_nonneg; lia |].
  apply Z.le_trans with (2 ^ (d - 1)); [| exact Hlo].
  apply Z.pow_le_mono_r; lia.
Qed.

Lemma round_nearest_even_pos (m : Z) (l : location) :
  0 < m -> 0 < round_nearest_even m l.
Proof.
  intro Hm. destruct l as [| []]; cbn [round_nearest_even]; try lia.
  destruct (Z.even m); lia.
Qed.

Lemma binary_round_aux_pos (m : positive) (e : Z) (l : location) :
  emin64 <= e -> SFpos (binary_round_aux prec emax false (Zpos m) e l) = true.
Proof.
  intro He. unfold binary_round_aux.
  pose proof (shr_fexp_pos m l He) as [Hm1 He1].
  destruct (shr_fexp prec emax (Zpos m) e l) as [mrs1 e1]. cbn [fst snd] in Hm1, He1.
  pose proof (round_nearest_even_pos (loc_of_shr_record mrs1) Hm1) as Hr.
  destruct (round_nearest_even (shr_m mrs1) (loc_of_shr_record mrs1)) as [| m2 | m2];
    try lia.
  pose proof (shr_fexp_pos m2 loc_Exact He1) as [Hm2 _].
  destruct (shr_fexp prec emax (Zpos m2) e1 loc_Exact) as [mrs2 e2]. cbn [fst] in Hm2.
  destruct (shr_m mrs2) as [| m3 | m3]; try lia.
  destruct (e2 <=? emax - prec); reflexivity.
Qed.

Lemma binary_round_pos (m : positive) (e : Z) :
  emin64 <= e -> SFpos (binary_round prec emax false m e) = true.
Proof.
  intro He. unfold binary_round.
  destruct (shl_align m e (fexp prec emax (Zpos (digits2_pos m) + e))) as [mz ez] eqn:Ha.
  apply binary_round_aux_pos.
  unfold shl_align in Ha.
  destruct (fexp prec emax (Zpos (digits2_pos m) + e) - e) as [| p | p] eqn:Hd;
    injection Ha as _ <-; try exact He.
  unfold fexp, SpecFloat.emin, prec, emax, emin64 in *. lia.
Qed.

(** A negative result of rounding is never strictly positive. *)
Lemma binary_round_neg (m : positive) (e : Z) :
  SFpos (binary_round prec emax true m e) = false.
Proof.
  unfold binary_round.
  destruct (shl_align m e _) as [mz ez].
  unfold binary_round_aux.
  destruct (shr_fexp prec emax (Zpos mz) ez loc_Exact) as [mrs1 e1].
  destruct (shr_fexp prec emax _ e1 loc_Exact) as [mrs2 e2].
  destruct (shr_m mrs2); try reflexivity.
  destruct (e2 <=? emax - prec); reflexivity.
Qed.

Lemma valid_canonical (s : bool) (m : positive) (e : Z) :
  valid_binary (S754_finite s m e) = true ->
  canonical_mantissa prec emax m e = true /\ e <= 971.
Proof.
  cbn [valid_binary]. unfold bounded. intro Hv.
  apply andb_prop in Hv. destruct Hv as [Hc He].
  split; [exact Hc |]. apply Z.leb_le in He. exact He.
Qed.

(** The difference [y - x] is strictly positive exactly when [x < y]. *)
Lemma SFsub_pos (x y : spec_float) :
  valid_binary x = true -> valid_binary y = true ->
  not_nan x = true -> not_nan y = true ->
  SFpos (SFsub prec emax y x) = SFltb x y.
Proof.
  intros Vx Vy Nx Ny.
  destruct x as [sx | sx | | sx mx ex], y as [sy | sy | | sy my ey];
    try discriminate;
    try (destruct sx, sy; reflexivity).
  apply valid_canonical in Vx. destruct Vx as [Cx _].
  apply valid_canonical in Vy. destruct Vy as [Cy _].
  unfold SFltb. rewrite (@SFcompare_finite sx sy mx my ex ey Cx Cy).
  cbn [SFsub]. rewrite (Z.min_comm ey ex).
  fold (scaled sy my ey (Z.min ex ey)). fold (scaled sx mx ex (Z.min ex ey)).
  pose proof (@canonical_bounds _ _ Cx) as (Hx & _).
  pose proof (@canonical_bounds _ _ Cy) as (Hy & _).
  unfold binary_normalize.
  destruct (scaled sy my ey (Z.min ex ey) - scaled sx mx ex (Z.min ex ey))
    as [| d | d] eqn:Hd.
  - replace (scaled sx mx ex (Z.min ex ey) ?= scaled sy my ey (Z.min ex ey)) with Eq
      by (symmetry; apply Z.compare_eq_iff; lia).
    reflexivity.
  - replace (scaled sx mx ex (Z.min ex ey) ?= scaled sy my ey (Z.min ex ey)) with Lt
      by (symmetry; apply Z.compare_lt_iff; lia).
    apply binary_round_pos. lia.
  - replace (scaled sx mx ex (Z.min ex ey) ?= scaled sy my ey (Z.min ex ey)) with Gt
      by (symmetry; apply Z.compare_gt_iff; lia).
    apply binary_round_neg.
Qed.

(** The order of the numbers is the order of their keys. *)

Lemma SFcompare_key (x y : spec_float) :
  valid_binary x = true -> valid_binary y = true ->
  not_nan x = true -> not_nan y = true ->
  SFcompare x y = Some (order_key x ?= order_key y).
Proof.
  intros Vx Vy Nx Ny.
  assert (HP : P53 = 9007199254740992) by reflexivity.
  destruct x as [sx | sx | | sx mx ex], y as [sy | sy | | sy my ey];
    try discriminate;
    try (apply valid_canonical in Vx; destruct Vx as [Cx Ex];
         apply canonical_bounds in Cx; destruct Cx as (Lx & Mx & _));
    try (apply valid_canonical in Vy; destruct Vy as [Cy Ey];
         apply canonical_bounds in Cy; destruct Cy as (Ly & My & _));
    unfold emin64 in *; cbn [SFcompare order_key]; f_equal;
    try (destruct sx; destruct sy; cbn [cond_Zopp]; symmetry;
         first [apply Z.compare_eq_iff | apply Z.compare_lt_iff | apply Z.compare_gt_iff];
         lia).
  destruct sx, sy; cbn [cond_Zopp];
    try (symmetry; first [apply Z.compare_lt_iff | apply Z.compare_gt_iff]; lia).
  - destruct (Z.compare_spec ex ey) as [He | He | He].
    + subst ey. change (Pos.compare_cont Eq mx my) with (Zpos mx ?= Zpos my).
      destruct (Z.compare_spec (Zpos mx) (Zpos my)) as [Hm | Hm | Hm]; cbn [CompOpp];
        symmetry;
        first [apply Z.compare_eq_iff | apply Z.compare_lt_iff | apply Z.compare_gt_iff];
        lia.
    + symmetry. apply Z.compare_gt_iff. lia.
    + symmetry. apply Z.compare_lt_iff. lia.
  - destruct (Z.compare_spec ex ey) as [He | He | He].
    + subst ey. change (Pos.compare_cont Eq mx my) with (Zpos mx ?= Zpos my).
      destruct (Z.compare_spec (Zpos mx) (Zpos my)) as [Hm | Hm | Hm];
        symmetry;
        first [apply Z.compare_eq_iff | apply Z.compare_lt_iff | apply Z.compare_gt_iff];
        lia.
    + symmetry. apply Z.compare_lt_iff. lia.
    + symmetry. apply Z.compare_gt_iff. lia.
Qed.

End Binary64Facts.

(** ** The order of numbers that are not NaN *)

Section PrimitiveOrder.

Local Open Scope float_scope.

Lemma is_nan_spec (x : float) : isNaN x = false -> not_nan (Prim2SF x) = true.
Proof.
  unfold isNaN, PrimFloat.is_nan. rewrite FloatAxioms.eqb_spec. intro Hn.
  destruct (Prim2SF x); try reflexivity. discriminate.
Qed.

(** For numbers that are not NaN, [b - a] is positive exactly when [a < b]. *)
Lemma sub_pos_ltb (a b : float) :
  isNaN a = false -> isNaN b = false ->
  (0 <? b - a) = (a <? b).
Proof.
  intros Ha Hb. rewrite !FloatAxioms.ltb_spec, FloatAxioms.sub_spec.
  change (Prim2SF 0) with (S754_zero false).
  exact (@SFsub_pos _ _ (Prim2SF_valid a) (Prim2SF_valid b) (is_nan_spec _ Ha) (is_nan_spec _ Hb)).
Qed.

Lemma ltb_key (a b : float) :
  isNaN a = false -> isNaN b = false ->
  (a <? b) = (order_key (Prim2SF a) <? order_key (Prim2SF b))%Z.
Proof.
  intros Ha Hb. rewrite FloatAxioms.ltb_spec. unfold SFltb.
  rewrite (@SFcompare_key _ _ (Prim2SF_valid a) (Prim2SF_valid b)
             (is_nan_spec _ Ha) (is_nan_spec _ Hb)).
  unfold Z.ltb. destruct (order_key (Prim2SF a) ?= order_key (Prim2SF b))%Z; reflexivity.
Qed.

Lemma leb_key (a b : float) :
  isNaN a = false -> isNaN b = false ->
  (a <=? b) = (order_key (Prim2SF a) <=? order_key (Prim2SF b))%Z.
Proof.
  intros Ha Hb. rewrite FloatAxioms.leb_spec. unfold SFleb.
  rewrite (@SFcompare_key _ _ (Prim2SF_valid a) (Prim2SF_valid b)
             (is_nan_spec _ Ha) (is_nan_spec _ Hb)).
  unfold Z.leb. destruct (order_key (Prim2SF a) ?= order_key (Prim2SF b))%Z; reflexivity.
Qed.

End PrimitiveOrder.

(** ** Prisma calls *)

Section PrismaFacts.

Lemma next_fault_nil (w : World) : faults w = [] -> next_fault w = None.
Proof. unfold next_fault. intros ->. reflexivity. Qed.

Lemma advance_faults_nil (w : World) : faults w = [] -> faults (advance w) = [].
Proof. unfold advance. intros ->. reflexivity. Qed.

(** A Prisma call either meets the scheduled fault and leaves the database
    alone, or runs on the database. *)
Lemma prisma_cases {A} (op : DB -> Outcome A * DB) (w : World) :
  (exists e, next_fault w = Some e /\ prisma op w = (Throw e, advance w))
  \/ (next_fault w = None
      /\ prisma op w = (fst (op (db w)), set_db (advance w) (snd (op (db w))))).
Proof.
  unfold prisma. destruct (next_fault w) as [e |].
  - left. exists e. split; reflexivity.
  - right. split; [reflexivity |]. destruct (op (db w)); reflexivity.
Qed.

Lemma prisma_ok {A} (op : DB -> Outcome A * DB) (w : World) :
  next_fault w = None ->
  prisma op w = (fst (op (db w)), set_db (advance w) (snd (op (db w)))).
Proof.
  intro Hn. destruct (prisma_cases op w) as [[e [He _]] | [_ Hr]]; [congruence | exact Hr].
Qed.

End PrismaFacts.

(** ** Reasoning on computations *)

Section Computations.

Lemma bind_Ok_inv {A B} (m : M A) (k : A -> M B) (w w' : World) (b : B) :
  bind m k w = (Ok b, w') ->
  exists a w1, m w = (Ok a, w1) /\ k a w1 = (Ok b, w').
Proof.
  unfold bind. destruct (m w) as [[a | e] w1]; [| discriminate].
  intro Hk. exists a, w1. split; [reflexivity | exact Hk].
Qed.

Lemma wp_ret {A} (a : A) (Q : A -> World -> Prop) (w : World) :
  Q a w -> wp (ret a) Q w.
Proof. intro HQ. exists a, w. split; [reflexivity | exact HQ]. Qed.

Lemma wp_bind {A B} (m : M A) (k : A -> M B) (Q : B -> World -> Prop) (w : World) :
  wp m (fun a w1 => wp (k a) Q w1) w -> wp (bind m k) Q w.
Proof.
  intros (a & w1 & Hm & b & w2 & Hk & HQ).
  exists b, w2. unfold bind. rewrite Hm. split; assumption.
Qed.

Lemma wp_prisma {A} (op : DB -> Outcome A * DB) (Q : A -> World -> Prop)
    (w : World) (a : A) (d : DB) :
  faults w = [] ->
  op (db w) = (Ok a, d) ->
  Q a (set_db (advance w) d) ->
  wp (prisma op) Q w.
Proof.
  intros Hf Hop HQ. exists a, (set_db (advance w) d).
  split; [| exact HQ].
  rewrite (prisma_ok _ _ (next_fault_nil _ Hf)), Hop. reflexivity.
Qed.

Lemma wp_prisma_create `{Host} {A} (row : jsstring -> Z -> A) (store : A -> DB -> DB)
    (Q : A -> World -> Prop) (w : World) :
  faults w = [] ->
  Q (row (cuid (created w)) (now w))
    (mkWorld (store (row (cuid (created w)) (now w)) (db w)) [] (S (queries w))
             (S (created w)) (uuids w) (now w) (random w) (draws w)) ->
  wp (prisma_create row store) Q w.
Proof.
  intros Hf HQ. eexists. eexists. split; [| exact HQ].
  unfold prisma_create. rewrite (next_fault_nil _ Hf), Hf. reflexivity.
Qed.

End Computations.

Ltac bind_inv Hrun a w1 Ha :=
  apply bind_Ok_inv in Hrun; destruct Hrun as (a & w1 & Ha & Hrun).

(** ** The dashboard *)

Section DashboardFacts.
Context `{Host}.

Local Open Scope float_scope.

(** [extractAmount] never returns NaN. *)
Lemma extractAmount_fields_not_nan (d : json) (fields : list jsstring) (a : number) :
  Dashboard.extractAmount_fields d fields = Some a -> isNaN a = false.
Proof.
  induction fields as [| field rest IH]; simpl; [discriminate |].
  destruct (get d field) as [amount |]; [| exact IH].
  destruct (truthy amount) eqn:Ht; [| exact IH].
  destruct amount as [| b | x | text | items | fs]; try exact IH.
  - intro Hx. injection Hx as <-.
    simpl in Ht. unfold number_truthy in Ht.
    destruct (isNaN x); [| reflexivity].
    rewrite orb_true_r in Ht. discriminate.
  - destruct (isNaN (parseFloat (Dashboard.cleanAmount text))) eqn:Hn; simpl.
    + exact IH.
    + destruct (is_empty (Dashboard.cleanAmount text)); [exact IH |].
      simpl. intro Hx. injection Hx as <-. exact Hn.
Qed.

Lemma extractAmount_not_nan (d : json) (a : number) :
  Dashboard.extractAmount d = Some a -> isNaN a = false.
Proof.
  unfold Dashboard.extractAmount.
  destruct (negb (truthy d)); [discriminate |].
  apply extractAmount_fields_not_nan.
Qed.

(** [amount || 0] is the contribution of the glossary. *)
Lemma or_zero_contribution (i : Invoice) :
  Dashboard.or_zero (Dashboard.extractAmount (invoice_extractedData i)) = contribution i.
Proof.
  unfold contribution, Dashboard.or_zero.
  destruct (Dashboard.extractAmount (invoice_extractedData i)) as [a |] eqn:Ha;
    [| reflexivity].
  unfold number_truthy. rewrite (extractAmount_not_nan _ Ha), orb_false_r.
  destruct (a =? 0); reflexivity.
Qed.

Lemma sum_spend_contributions (found : list Invoice) :
  Dashboard.sum_spend found = fold_left (fun sum i => sum + contribution i) found 0.
Proof.
  unfold Dashboard.sum_spend. generalize 0.
  induction found as [| i found IH]; intro acc; simpl; [reflexivity |].
  rewrite or_zero_contribution. apply IH.
Qed.

(** The contribution of an invoice is its parsed amount, [+0] standing for
    an amount of zero, and it is 0 when nothing could be parsed. *)
Lemma contribution_cases (i : Invoice) :
  match Dashboard.extractAmount (invoice_extractedData i) with
  | Some a => contribution i = a \/ ((a =? 0) = true /\ contribution i = 0)
  | None => contribution i = 0
  end.
Proof.
  unfold contribution.
  destruct (Dashboard.extractAmount (invoice_extractedData i)) as [a |];
    [| reflexivity].
  destruct (a =? 0); [right | left]; auto.
Qed.

End DashboardFacts.

Section DashboardRoute.
Context `{Host}.

(** What the route answers once the user and the invoices are read. *)
Lemma dashboard_GET_run (session : option Session) (email : jsstring) (w : World) :
  session_user_email session = Some email ->
  Dashboard.GET session w =
  match next_fault w with
  | Some _ => (Ok (json_error 500 "Failed to load dashboard data"), advance w)
  | None =>
      match find (fun x => str_eqb (user_email x) email) (users (db w)) with
      | None => (Ok (json_error 404 "User not found"), advance w)
      | Some u =>
          match next_fault (advance w) with
          | Some _ =>
              (Ok (json_error 500 "Failed to load dashboard data"), advance (advance w))
          | None =>
              let found := sort newer (processed_of (db w) (user_id u)) in
              match Dashboard.vendorSpend found, Dashboard.spendCategories found with
              | Throw _, _ | Ok _, Throw _ =>
                  (Ok (json_error 500 "Failed to load dashboard data"),
                   advance (advance w))
              | Ok _, Ok _ =>
                  (Ok (mkResponse 200
                         (BDashboard
                            (mkSummary (length found) (Dashboard.sum_spend found)
                               (if Nat.ltb 0 (length found)
                                then (Dashboard.sum_spend found / of_nat (length found))%float
                                else 0%float)))),
                   advance (advance w))
              end
          end
      end
  end.
Proof.
  intro Hs. unfold Dashboard.GET. rewrite Hs.
  unfold try_catch, bind, user_findUnique, invoice_findMany_desc, prisma, lift, ret.
  destruct (next_fault w) as [e |]; [reflexivity |].
  cbn [fst snd].
  destruct (find _ (users (db w))) as [u |]; [| destruct w; reflexivity].
  replace (next_fault (set_db (advance w) (db w))) with (next_fault (advance w))
    by reflexivity.
  destruct (next_fault (advance w)) as [e |]; [destruct w; reflexivity |].
  fold (processed_of (db w) (user_id u)).
  destruct (Dashboard.vendorSpend _) as [[] | e]; [| destruct w; reflexivity].
  destruct (Dashboard.spendCategories _) as [[] | e]; destruct w; reflexivity.
Qed.

(** C1.  Whenever the dashboard answers 200, [totalInvoices] counts all the
    processed invoices of the user and [totalSpend] is the sum, taken over
    these invoices newest first (the order in which they were fetched), of
    their contributions: the parsed amount, or 0 for an invoice with no
    parsable amount, which is still counted.  And the dashboard does answer
    200 when the session is valid, the user exists, no Prisma call fails,
    the vendor names can be printed and the line items are well formed. *)
Theorem dashboard_total_spend (session : option Session) (w : World) :
  (forall resp w',
      Dashboard.GET session w = (Ok resp, w') ->
      status resp = 200 ->
      exists email u summary,
        session_user_email session = Some email
        /\ find (fun x => str_eqb (user_email x) email) (users (db w)) = Some u
        /\ body resp = BDashboard summary
        /\ totalInvoices summary = length (processed_of (db w) (user_id u))
        /\ Permutation (sort newer (processed_of (db w) (user_id u)))
                       (processed_of (db w) (user_id u))
        /\ totalSpend summary =
           fold_left (fun sum i => (sum + contribution i)%float)
                     (sort newer (processed_of (db w) (user_id u))) 0%float
        /\ (forall i, In i (processed_of (db w) (user_id u)) ->
               Dashboard.extractAmount (invoice_extractedData i) = None ->
               contribution i = 0%float))
  /\ (forall email u,
         session_user_email session = Some email ->
         find (fun x => str_eqb (user_email x) email) (users (db w)) = Some u ->
         faults w = [] ->
         Dashboard.vendorSpend (sort newer (processed_of (db w) (user_id u))) = Ok tt ->
         Dashboard.spendCategories (sort newer (processed_of (db w) (user_id u))) = Ok tt ->
         exists resp w',
           Dashboard.GET session w = (Ok resp, w') /\ status resp = 200 /\ db w' = db w).
Proof.
  split.
  - intros resp w' Hrun Hstatus.
    destruct (session_user_email session) as [email |] eqn:Hs.
    + rewrite (dashboard_GET_run _ _ Hs) in Hrun.
      destruct (next_fault w);
        [injection Hrun as <- _; discriminate |].
      destruct (find _ (users (db w))) as [u |] eqn:Hu;
        [| injection Hrun as <- _; discriminate].
      destruct (next_fault (advance w));
        [injection Hrun as <- _; discriminate |].
      cbv zeta in Hrun.
      destruct (Dashboard.vendorSpend _);
        [| injection Hrun as <- _; discriminate].
      destruct (Dashboard.spendCategories _);
        [| injection Hrun as <- _; discriminate].
      injection Hrun as <- _.
      exists email, u. eexists.
      split; [reflexivity |]. split; [exact Hu |]. split; [reflexivity |].
      split; [simpl; apply sort_length |].
      split; [apply Permutation_sym, sort_perm |].
      split; [simpl; apply sum_spend_contributions |].
      intros i _ Hnone. unfold contribution. rewrite Hnone. reflexivity.
    + unfold Dashboard.GET in Hrun. rewrite Hs in Hrun.
      injection Hrun as <- _. discriminate.
  - intros email u Hs Hu Hf Hvendor Hcat.
    rewrite (dashboard_GET_run _ _ Hs), Hu.
    rewrite (next_fault_nil _ Hf), (next_fault_nil _ (advance_faults_nil _ Hf)).
    cbv zeta. rewrite Hvendor, Hcat.
    eexists. eexists. repeat split.
Qed.

End DashboardRoute.

Lemma dashboard_total_spend_witness :
  exists resp w' summary,
    Dashboard.GET (H := Reference.host) Examples.alice_session Examples.sample_world
      = (Ok resp, w')
    /\ body resp = BDashboard summary
    /\ totalInvoices summary = 3
    /\ totalSpend summary = 8718.5%float.
Proof.
  pose proof (dashboard_total_spend (H := Reference.host)
                Examples.alice_session Examples.sample_world) as [Hsound Hruns].
  destruct (Hruns (lit "alice@example.com") Examples.alice
              eq_refl eq_refl eq_refl eq_refl eq_refl)
    as (resp & w' & Hrun & Hstatus & _).
  destruct (Hsound resp w' Hrun Hstatus)
    as (email & u & summary & Hs & Hu & Hbody & Hcount & _ & Hspend & _).
  injection Hs as <-.
  vm_compute in Hu. injection Hu as <-.
  exists resp, w', summary.
  split; [exact Hrun |]. split; [exact Hbody |].
  split; [rewrite Hcount | rewrite Hspend]; vm_compute; reflexivity.
Defined.

(** ** Authentication *)

(** C8.  The [signIn] callback answers [true] in every case; in particular,
    when the lookup of the existing user throws, the Google sign-in is still
    allowed. *)
Theorem signIn_always_allowed (email provider : option jsstring) (w : World) :
  fst (Auth.signIn email provider w) = Ok true
  /\ (forall e, next_fault w = Some e ->
        Auth.signIn email (Some (lit "google")) w = (Ok true, advance w)).
Proof.
  split.
  - unfold Auth.signIn.
    destruct (Auth.strict_eq provider (lit "google")); [| reflexivity].
    unfold try_catch, bind, user_findUnique, prisma, ret.
    destruct (next_fault w); [reflexivity |].
    destruct email as [e |]; [| reflexivity].
    cbn [fst snd].
    destruct (find _ (users (db w))) as [u |]; [| reflexivity].
    destruct (existsb _ (user_accounts u)); reflexivity.
  - intros e He. unfold Auth.signIn.
    replace (Auth.strict_eq (Some (lit "google")) (lit "google")) with true
      by (vm_compute; reflexivity).
    unfold try_catch, bind, user_findUnique, prisma, ret.
    rewrite He. reflexivity.
Qed.

Lemma signIn_always_allowed_witness :
  Auth.signIn (Some (lit "bob@example.com"))
    (Some (lit "google")) Examples.broken_world
  = (Ok true, advance Examples.broken_world).
Proof.
  exact (proj2 (signIn_always_allowed
                  (Some (lit "bob@example.com")) (Some (lit "google"))
                  Examples.broken_world)
               (lit "Can't reach database server") eq_refl).
Defined.

Section AuthFacts.
Context `{Host}.


End AuthFacts.


(** ** Deleting a chat *)

Section DeleteChat.

Lemma str_eqb_eq (a b : jsstring) : str_eqb a b = true <-> a = b.
Proof.
  unfold str_eqb. destruct (list_eq_dec N.eq_dec a b); split; congruence.
Qed.

Lemma str_eqb_refl (a : jsstring) : str_eqb a a = true.
Proof. apply str_eqb_eq. reflexivity. Qed.

Lemma find_Some_In {A} (f : A -> bool) (l : list A) (x : A) :
  find f l = Some x -> In x l /\ f x = true.
Proof. apply find_some. Qed.

Lemma NoDup_map_inj {A B} (f : A -> B) (l : list A) (a b : A) :
  NoDup (map f l) -> In a l -> In b l -> f a = f b -> a = b.
Proof.
  induction l as [| x l IH]; simpl; [contradiction |].
  intros Hnd [-> | Ha] [-> | Hb] Hf; inversion Hnd as [| ? ? Hx Hnd']; subst.
  - reflexivity.
  - exfalso. apply Hx. rewrite Hf. apply in_map, Hb.
  - exfalso. apply Hx. rewrite <- Hf. apply in_map, Ha.
  - apply IH; assumption.
Qed.

(** The route never throws: whatever goes wrong is answered with a status. *)
Lemma DELETE_total (session : option Session) (chatId : jsstring) (w : World) :
  exists resp w', Chat.DELETE session chatId w = (Ok resp, w').
Proof.
  unfold Chat.DELETE, try_catch.
  match goal with |- context [match ?m w with _ => _ end] => destruct (m w) as [[r | e] w1] end;
    eexists; eexists; reflexivity.
Qed.

Lemma DELETE_run (session : option Session) (email chatId : jsstring) (w : World) :
  session_user_email session = Some email ->
  Chat.DELETE session chatId w =
  let failed := Ok (json_error 500 "Failed to delete chat") in
  match next_fault w with
  | Some _ => (failed, advance w)
  | None =>
      match find (fun x => str_eqb (user_email x) email) (users (db w)) with
      | None => (Ok (json_error 404 "User not found"), advance w)
      | Some u =>
          match next_fault (advance w) with
          | Some _ => (failed, advance (advance w))
          | None =>
              match find (fun x => str_eqb (chat_id x) chatId
                                   && str_eqb (chat_userId x) (user_id u))
                         (chatSessions (db w)) with
              | None => (Ok (json_error 404 "Chat not found"), advance (advance w))
              | Some _ =>
                  match next_fault (advance (advance w)) with
                  | Some _ => (failed, advance (advance (advance w)))
                  | None =>
                      let d := db w in
                      let d1 := mkDB (users d) (chatSessions d)
                                  (filter (fun m => negb (str_eqb (message_chatId m) chatId))
                                          (messages d))
                                  (invoices d) (invoiceSearches d) in
                      let w3 := set_db (advance (advance (advance w))) d1 in
                      match next_fault w3 with
                      | Some _ => (failed, advance w3)
                      | None =>
                          if existsb (fun x => str_eqb (chat_id x) chatId) (chatSessions d)
                          then
                            (Ok (mkResponse 200 (BJson (JObj [(lit "success", JBool true)]))),
                             set_db (advance w3)
                               (mkDB (users d)
                                  (filter (fun x => negb (str_eqb (chat_id x) chatId))
                                          (chatSessions d))
                                  (messages d1) (invoices d) (invoiceSearches d)))
                          else (failed, advance w3)
                      end
                  end
              end
          end
      end
  end.
Proof.
  intro Hs. unfold Chat.DELETE. rewrite Hs.
  unfold try_catch, bind, user_findUnique, chatSession_findFirst, message_deleteMany,
    chatSession_delete, prisma, ret.
  destruct w as [d fs q cr uu t rnd dr].
  unfold next_fault, advance, set_db.
  cbn [db faults queries created uuids now random draws fst snd].
  destruct fs as [| [e1 |] fs]; cbn [tl]; try reflexivity;
    (destruct (find _ (users d)) as [u |]; [| reflexivity]);
    cbn -[lit filter find existsb].
  - destruct (find _ (chatSessions d)); [| reflexivity].
    cbn -[lit filter find existsb].
    destruct (existsb _ (chatSessions d)); reflexivity.
  - destruct fs as [| [e2 |] fs]; cbn -[lit filter find existsb]; try reflexivity;
      (destruct (find _ (chatSessions d)); [| reflexivity]);
      cbn -[lit filter find existsb].
    + destruct (existsb _ (chatSessions d)); reflexivity.
    + destruct fs as [| [e3 |] fs]; cbn -[lit filter find existsb]; try reflexivity.
      * destruct (existsb _ (chatSessions d)); reflexivity.
      * destruct fs as [| [e4 |] fs]; cbn -[lit filter find existsb]; try reflexivity;
          destruct (existsb _ (chatSessions d)); reflexivity.
Qed.

(** C4.  A successful [DELETE] was issued by the owner of the chat; it
    removes every message of that chat and the session itself, and changes
    nothing else: the other tables, the chats with another id, the messages
    of other chats and (chat ids being unique) the chats of other users are
    as before.  When the caller owns no chat with this id nothing is deleted
    and, unless a Prisma call fails, the answer is 404. *)
Theorem delete_chat_spec (session : option Session) (chatId : jsstring)
    (w w' : World) (resp : Response) :
  Chat.DELETE session chatId w = (Ok resp, w') ->
  (status resp = 200 ->
     exists email u c,
       session_user_email session = Some email
       /\ find (fun x => str_eqb (user_email x) email) (users (db w)) = Some u
       /\ In c (chatSessions (db w))
       /\ chat_id c = chatId /\ chat_userId c = user_id u
       /\ messages (db w') =
          filter (fun m => negb (str_eqb (message_chatId m) chatId)) (messages (db w))
       /\ chatSessions (db w') =
          filter (fun x => negb (str_eqb (chat_id x) chatId)) (chatSessions (db w))
       /\ users (db w') = users (db w)
       /\ invoices (db w') = invoices (db w)
       /\ invoiceSearches (db w') = invoiceSearches (db w)
       /\ (forall m, In m (messages (db w')) -> message_chatId m <> chatId)
       /\ (forall x, In x (chatSessions (db w')) -> chat_id x <> chatId)
       /\ (forall m, In m (messages (db w)) -> message_chatId m <> chatId ->
                     In m (messages (db w')))
       /\ (forall x, In x (chatSessions (db w)) -> chat_id x <> chatId ->
                     In x (chatSessions (db w')))
       /\ (NoDup (map chat_id (chatSessions (db w))) ->
           forall x, In x (chatSessions (db w)) -> chat_userId x <> user_id u ->
                     In x (chatSessions (db w'))))
  /\ (forall email u,
         session_user_email session = Some email ->
         find (fun x => str_eqb (user_email x) email) (users (db w)) = Some u ->
         find (fun x => str_eqb (chat_id x) chatId && str_eqb (chat_userId x) (user_id u))
              (chatSessions (db w)) = None ->
         db w' = db w
         /\ status resp <> 200
         /\ (faults w = [] -> status resp = 404)).
Proof.
  intro Hrun.
  destruct (session_user_email session) as [email |] eqn:Hs.
  2: { unfold Chat.DELETE in Hrun. rewrite Hs in Hrun.
       injection Hrun as <- <-. split; [simpl; intro Hn; discriminate Hn | intros ? ? Hn; discriminate Hn]. }
  rewrite (DELETE_run _ _ w Hs) in Hrun. cbv zeta in Hrun.
  destruct (next_fault w) as [e1 |] eqn:F1.
  { injection Hrun as <- <-. split; [simpl; intro Hn; discriminate Hn |].
    intros ? ? _ _ _. split; [reflexivity |]. split; [simpl; intro Hn; discriminate Hn |].
    intro Hf. rewrite (next_fault_nil _ Hf) in F1. discriminate. }
  destruct (find _ (users (db w))) as [u |] eqn:Hu.
  2: { injection Hrun as <- <-. split; [simpl; intro Hn; discriminate Hn |].
       intros e0 u0 He0 Hn. injection He0 as <-. rewrite Hu in Hn. discriminate Hn. }
  destruct (next_fault (advance w)) as [e2 |] eqn:F2.
  { injection Hrun as <- <-. split; [simpl; intro Hn; discriminate Hn |].
    intros ? ? _ _ _. split; [reflexivity |]. split; [simpl; intro Hn; discriminate Hn |].
    intro Hf. rewrite (next_fault_nil _ (advance_faults_nil _ Hf)) in F2. discriminate. }
  destruct (find _ (chatSessions (db w))) as [c |] eqn:Hc.
  2: { injection Hrun as <- <-. split; [simpl; intro Hn; discriminate Hn |].
       intros ? ? _ _ _. split; [reflexivity |].
       split; [simpl; intro Hn; discriminate Hn | reflexivity]. }
  apply find_some in Hc. destruct Hc as [Hin Hc].
  apply andb_prop in Hc. destruct Hc as [Hid Howner].
  apply str_eqb_eq in Hid. apply str_eqb_eq in Howner.
  assert (Hex : existsb (fun x => str_eqb (chat_id x) chatId) (chatSessions (db w)) = true).
  { apply existsb_exists. exists c. split; [exact Hin | apply str_eqb_eq, Hid]. }
  rewrite Hex in Hrun.
  split.
  - intro Hstatus.
    destruct (next_fault (advance (advance w)));
      [injection Hrun as <- _; discriminate |].
    match type of Hrun with
    | match ?f with _ => _ end = _ =>
        destruct f; [injection Hrun as <- _; discriminate |]
    end.
    injection Hrun as _ <-.
    exists email, u, c. cbn [db set_db messages chatSessions users invoices invoiceSearches].
    repeat (split; [first [reflexivity | assumption] |]).
    split; [| split; [| split; [| split]]].
    + intros m Hm. apply filter_In in Hm. destruct Hm as [_ Hm].
      intro Heq. rewrite Heq, str_eqb_refl in Hm. discriminate.
    + intros x Hx. apply filter_In in Hx. destruct Hx as [_ Hx].
      intro Heq. rewrite Heq, str_eqb_refl in Hx. discriminate.
    + intros m Hm Hne. apply filter_In. split; [exact Hm |].
      destruct (str_eqb (message_chatId m) chatId) eqn:E; [| reflexivity].
      apply str_eqb_eq in E. contradiction.
    + intros x Hx Hne. apply filter_In. split; [exact Hx |].
      destruct (str_eqb (chat_id x) chatId) eqn:E; [| reflexivity].
      apply str_eqb_eq in E. contradiction.
    + intros Hnd x Hx Hother. apply filter_In. split; [exact Hx |].
      destruct (str_eqb (chat_id x) chatId) eqn:E; [| reflexivity].
      apply str_eqb_eq in E. exfalso. apply Hother.
      rewrite <- Howner. f_equal.
      apply (NoDup_map_inj chat_id (chatSessions (db w))); congruence.
  - intros email' u' He' Hu' Hnone.
    injection He' as <-. rewrite Hu in Hu'. injection Hu' as <-.
    exfalso.
    apply (find_none _ _ Hnone) in Hin.
    rewrite Hid, Howner, !str_eqb_refl in Hin. discriminate.
Qed.

End DeleteChat.

Lemma delete_chat_spec_witness :
  exists resp w',
    Chat.DELETE Examples.alice_session (lit "c1") Examples.sample_world = (Ok resp, w')
    /\ status resp = 200
    /\ map message_id (messages (db w')) = [lit "m3"; lit "m4"]
    /\ map chat_id (chatSessions (db w')) = [lit "c2"; lit "c3"].
Proof.
  destruct (DELETE_total Examples.alice_session (lit "c1") Examples.sample_world)
    as (resp & w' & Hrun).
  exists resp, w'. split; [exact Hrun |].
  pose proof (f_equal (fun p => match fst p with
                                | Ok r => status r
                                | Throw _ => 0
                                end) Hrun) as Hstatus.
  vm_compute in Hstatus.
  destruct (proj1 (delete_chat_spec _ _ _ Hrun) (eq_sym Hstatus))
    as (email & u & c & _ & _ & _ & _ & _ & Hm & Hc & _).
  split; [symmetry; exact Hstatus |].
  rewrite Hm, Hc. split; vm_compute; reflexivity.
Defined.

(** ** The chat stream *)

Section ChatStream.
Context `{Host}.

(** The loop appends the remaining characters to [fullText] and one chunk
    frame per character to the queue. *)
Lemma stream_chars_spec (rest done chatId fullText : jsstring) (queue : list Frame) :
  Chat.stream_chars (length rest) (length done) (done ++ rest) chatId (fullText, queue) =
  (fullText ++ rest, queue ++ map (fun c => FChunk [c] chatId) rest).
Proof.
  revert done fullText queue.
  induction rest as [| c rest IH]; intros done fullText queue; simpl.
  - rewrite !app_nil_r. reflexivity.
  - rewrite nth_error_app2, Nat.sub_diag by lia. simpl.
    replace (done ++ c :: rest) with ((done ++ [c]) ++ rest)
      by (rewrite <- app_assoc; reflexivity).
    replace (S (length done)) with (length (done ++ [c]))
      by (rewrite length_app; simpl; lia).
    rewrite IH, <- !app_assoc. reflexivity.
Qed.

Lemma chunk_text_chunks (chatId text : jsstring) :
  chunk_text (map (fun c => FChunk [c] chatId) text) = text.
Proof.
  unfold chunk_text. induction text as [| c text IH]; simpl; [reflexivity |].
  f_equal. exact IH.
Qed.

Lemma chunk_text_stream (chatId messageId text : jsstring) (last : Frame) :
  (forall content id, last <> FChunk content id) ->
  chunk_text (FStart chatId messageId :: map (fun c => FChunk [c] chatId) text ++ [last])
  = text.
Proof.
  intro Hlast. unfold chunk_text. simpl. rewrite flat_map_app.
  fold (chunk_text (map (fun c => FChunk [c] chatId) text)).
  rewrite chunk_text_chunks. simpl.
  destruct last; try (rewrite app_nil_r; reflexivity).
  exfalso. eapply Hlast. reflexivity.
Qed.

(** The frames of one stream: [start], a chunk per character, and then
    [done] with the whole text, or [error] when saving the assistant message
    failed. *)
Lemma stream_start_run (chat : ChatSession) (messageId text : jsstring) (w : World) :
  let chunks := map (fun c => FChunk [c] (chat_id chat)) text in
  Chat.stream_start chat messageId text w =
  match next_fault w with
  | Some e =>
      (Ok (FStart (chat_id chat) messageId :: chunks
           ++ [FError (lit "Failed to process message") e]),
       advance w)
  | None =>
      (Ok (FStart (chat_id chat) messageId :: chunks
           ++ [FDone messageId text (chat_id chat)]),
       snd (message_create (chat_id chat) role_assistant text w))
  end.
Proof.
  intro chunks. unfold Chat.stream_start.
  pose proof (stream_chars_spec text [] (chat_id chat) []
                [FStart (chat_id chat) messageId]) as Hloop.
  cbn [app length] in Hloop. cbv zeta.
  unfold jsstring in Hloop |- *. rewrite Hloop.
  unfold try_catch, bind, message_create, prisma_create, ret.
  destruct (next_fault w); reflexivity.
Qed.

(** C6.  A chat stream consists of one [start] frame, then one [chunk] frame
    per character of the generated response, in order, then a last frame:
    [done], carrying the concatenation of all the chunk contents, or, when
    saving the assistant message failed, [error].  Every response of the
    route that carries a stream has status 200, the failed ones included. *)
Theorem chat_stream_spec (text : jsstring) :
  (forall chat messageId w,
      exists last w',
        Chat.stream_start chat messageId text w =
        (Ok (FStart (chat_id chat) messageId
             :: map (fun c => FChunk [c] (chat_id chat)) text ++ [last]), w')
        /\ match next_fault w with
           | None => last = FDone messageId text (chat_id chat)
           | Some e => last = FError (lit "Failed to process message") e
                       /\ db w' = db w
           end)
  /\ (forall session req w resp w' frames,
         Chat.POST session req text w = (Ok resp, w') ->
         body resp = BStream frames ->
         status resp = 200
         /\ exists chatId messageId last,
              frames = FStart chatId messageId
                       :: map (fun c => FChunk [c] chatId) text ++ [last]
              /\ (last = FDone messageId (chunk_text frames) chatId
                  \/ exists e, last = FError (lit "Failed to process message") e)).
Proof.
  split.
  - intros chat messageId w. rewrite stream_start_run.
    destruct (next_fault w) as [e |]; eexists; eexists; split;
      try reflexivity.
    split; reflexivity.
  - intros session req w resp w' frames Hrun Hbody.
    unfold Chat.POST in Hrun.
    destruct (session_user_email session) as [email |];
      [| injection Hrun as <- _; discriminate].
    destruct (Chat.req_prompt req) as [[| b | x | prompt | items | fields] |];
      try discriminate Hrun; try (injection Hrun as <- _; discriminate).
    destruct (is_empty prompt); [injection Hrun as <- _; discriminate |].
    bind_inv Hrun found w1 H1.
    bind_inv Hrun u w2 H2.
    bind_inv Hrun existing w3 H3.
    bind_inv Hrun chat w4 H4.
    bind_inv Hrun saved w5 H5.
    bind_inv Hrun messageId w6 H6.
    bind_inv Hrun streamed w7 H7.
    injection Hrun as <- _. injection Hbody as <-.
    split; [reflexivity |].
    rewrite stream_start_run in H7. cbv zeta in H7.
    exists (chat_id chat), messageId.
    destruct (next_fault w6) as [e |]; injection H7 as <- _.
    + eexists. split; [reflexivity |]. right. exists e. reflexivity.
    + eexists. split; [reflexivity |]. left.
      rewrite chunk_text_stream; [reflexivity | discriminate].
Qed.

End ChatStream.

Lemma chat_stream_spec_witness :
  exists resp w',
    Chat.POST (H := Reference.host) Examples.alice_session Examples.continue_c1
      (lit "Hello!") Examples.save_fails_world = (Ok resp, w')
    /\ status resp = 200
    /\ exists chunks,
         body resp =
         BStream (FStart (lit "c1") (lit "uuid-0") :: chunks
                  ++ [FError (lit "Failed to process message")
                             (lit "Can't reach database server")])
         /\ chunk_text chunks = lit "Hello!".
Proof.
  destruct (Chat.POST (H := Reference.host) Examples.alice_session
              Examples.continue_c1 (lit "Hello!") Examples.save_fails_world)
    as [[resp | e] w'] eqn:Hrun.
  - pose proof (f_equal (fun p => match fst p with
                                  | Ok r => Some r
                                  | Throw _ => None
                                  end) Hrun) as Hresp.
    vm_compute in Hresp. injection Hresp as Hresp. subst resp.
    eexists. exists w'. split; [reflexivity |].
    destruct (proj2 (chat_stream_spec (H := Reference.host) (lit "Hello!"))
                _ _ _ _ _ _ Hrun eq_refl) as (Hstatus & _).
    split; [exact Hstatus |].
    exists (map (fun c => FChunk [c] (lit "c1")) (lit "Hello!")).
    split; vm_compute; reflexivity.
  - vm_compute in Hrun. discriminate Hrun.
Defined.

(** ** Creating a chat *)

Section NewChat.
Context `{Host}.

Lemma wp_stream_start (chat : ChatSession) (messageId text : jsstring)
    (Q : list Frame -> World -> Prop) (w : World) :
  faults w = [] ->
  Q (FStart (chat_id chat) messageId
     :: map (fun c => FChunk [c] (chat_id chat)) text
     ++ [FDone messageId text (chat_id chat)])
    (snd (message_create (chat_id chat) role_assistant text w)) ->
  wp (Chat.stream_start chat messageId text) Q w.
Proof.
  intros Hf HQ. eexists. eexists. split; [| exact HQ].
  rewrite stream_start_run, (next_fault_nil _ Hf). reflexivity.
Qed.

(** C5.  A chat request with a non-empty string prompt and no chat id, or a
    chat id that matches no chat of the user, creates one new session; its
    title is the first 32 characters of the prompt, that is, the whole
    prompt when the prompt has at most 32 characters.  (No Prisma call is
    assumed to fail.) *)
Theorem new_chat_title (session : option Session) (email prompt text : jsstring)
    (req : Chat.ChatRequest) (w : World) :
  session_user_email session = Some email ->
  Chat.req_prompt req = Some (JStr prompt) ->
  prompt <> [] ->
  faults w = [] ->
  let owner :=
    match find (fun x => str_eqb (user_email x) email) (users (db w)) with
    | Some u => user_id u
    | None => cuid (created w)
    end in
  match Chat.req_chatId req with
  | Some chatId =>
      chatId = []
      \/ find (fun c => str_eqb (chat_id c) chatId && str_eqb (chat_userId c) owner)
              (chatSessions (db w)) = None
  | None => True
  end ->
  exists resp w' c,
    Chat.POST session req text w = (Ok resp, w')
    /\ status resp = 200
    /\ chatSessions (db w') = chatSessions (db w) ++ [c]
    /\ chat_userId c = owner
    /\ chat_title c = firstn 32 prompt
    /\ (length prompt <= 32 -> chat_title c = prompt).
Proof.
  intros Hs Hp Hne Hf owner Hnew.
  assert (Htitle : forall t, (if is_empty (slice0 32 prompt) then t else slice0 32 prompt)
                             = firstn 32 prompt).
  { intro t. destruct prompt as [| c p]; [contradiction | reflexivity]. }
  enough (Hwp : wp (Chat.POST session req text)
                   (fun resp w' =>
                      status resp = 200
                      /\ exists c, chatSessions (db w') = chatSessions (db w) ++ [c]
                                   /\ chat_userId c = owner
                                   /\ chat_title c = firstn 32 prompt) w).
  { destruct Hwp as (resp & w' & Hrun & Hst & c & Hc & Ho & Ht).
    exists resp, w', c. repeat split; try assumption.
    intro Hlen. rewrite Ht. apply firstn_all2. exact Hlen. }
  unfold Chat.POST. rewrite Hs, Hp.
  replace (is_empty prompt) with false by (destruct prompt; [contradiction | reflexivity]).
  apply wp_bind. unfold user_findUnique.
  eapply wp_prisma; [exact Hf | reflexivity |].
  apply wp_bind.
  match goal with
  | |- wp _ (fun a w1 => wp (@?k a) ?Q w1) _ =>
      assert (Hrest : forall u w2,
                 faults w2 = [] ->
                 chatSessions (db w2) = chatSessions (db w) ->
                 user_id u = owner ->
                 wp (k u) Q w2)
  end.
  { intros u w2 Hf2 Hchats Hu. cbv beta.
    apply wp_bind.
    assert (Hnone : wp (match Chat.req_chatId req with
                        | Some chatId =>
                            if is_empty chatId then ret None
                            else chatSession_findFirst chatId (user_id u)
                        | None => ret None
                        end)
                       (fun existing w3 =>
                          existing = None /\ faults w3 = []
                          /\ chatSessions (db w3) = chatSessions (db w)) w2).
    { destruct (Chat.req_chatId req) as [chatId |];
        [| apply wp_ret; auto].
      destruct (is_empty chatId) eqn:He; [apply wp_ret; auto |].
      destruct Hnew as [-> | Hnew]; [discriminate |].
      unfold chatSession_findFirst.
      eapply wp_prisma; [exact Hf2 | reflexivity |].
      rewrite Hchats, Hu, Hnew. cbn. rewrite Hf2. auto. }
    destruct Hnone as (existing & w3 & Hrun3 & -> & Hf3 & Hchats3).
    exists None, w3. split; [exact Hrun3 |].
    apply wp_bind. unfold chatSession_create. apply wp_prisma_create; [exact Hf3 |].
    apply wp_bind. unfold message_create at 1. apply wp_prisma_create; [reflexivity |].
    apply wp_bind. eexists. eexists. split; [reflexivity |].
    apply wp_bind. apply wp_stream_start; [reflexivity |].
    apply wp_ret. split; [reflexivity |].
    eexists. split; [cbn; rewrite Hchats3; reflexivity |].
    split; [exact Hu | apply Htitle]. }
  destruct (find (fun u => str_eqb (user_email u) email) (users (db w))) as [u |] eqn:Hfind.
  - apply wp_ret. apply Hrest; [cbn; rewrite Hf; reflexivity | reflexivity | reflexivity].
  - unfold user_create. apply wp_prisma_create; [cbn; rewrite Hf; reflexivity |].
    apply Hrest; reflexivity.
Qed.
End NewChat.

Lemma new_chat_title_witness :
  exists resp w' c,
    Chat.POST (H := Reference.host) Examples.alice_session Examples.open_chat
      (lit "Hello!") Examples.sample_world = (Ok resp, w')
    /\ status resp = 200
    /\ chatSessions (db w') = chatSessions Examples.sample_db ++ [c]
    /\ chat_userId c = lit "u1"
    /\ chat_title c = lit "which invoice has the most expen".
Proof.
  destruct (new_chat_title (H := Reference.host) Examples.alice_session
              (email := lit "alice@example.com") (prompt := Examples.long_prompt)
              (lit "Hello!") Examples.open_chat Examples.sample_world
              eq_refl eq_refl ltac:(discriminate) eq_refl I)
    as (resp & w' & c & Hrun & Hstatus & Hchats & Howner & Htitle & _).
  exists resp, w', c. repeat split; assumption.
Defined.
(** ** Uploading an invoice *)

Section UploadFacts.
Context `{Host}.

Lemma keeps_ret {A} (a : A) : keeps_invoices (ret a).
Proof. intros w r w' Hrun. injection Hrun as _ <-. reflexivity. Qed.

Lemma keeps_throw {A} (e : jsstring) : keeps_invoices (@throw A e).
Proof. intros w r w' Hrun. injection Hrun as _ <-. reflexivity. Qed.

Lemma keeps_lift {A} (o : Outcome A) : keeps_invoices (lift o).
Proof. intros w r w' Hrun. injection Hrun as _ <-. reflexivity. Qed.

Lemma keeps_bind {A B} (m : M A) (k : A -> M B) :
  keeps_invoices m -> (forall a, keeps_invoices (k a)) -> keeps_invoices (bind m k).
Proof.
  intros Hm Hk w r w' Hrun. unfold bind in Hrun.
  destruct (m w) as [[a | e] w1] eqn:E.
  - rewrite (Hk a _ _ _ Hrun). exact (Hm _ _ _ E).
  - injection Hrun as _ <-. exact (Hm _ _ _ E).
Qed.

Lemma keeps_try_catch {A} (m : M A) (h : jsstring -> M A) :
  keeps_invoices m -> (forall e, keeps_invoices (h e)) -> keeps_invoices (try_catch m h).
Proof.
  intros Hm Hh w r w' Hrun. unfold try_catch in Hrun.
  destruct (m w) as [[a | e] w1] eqn:E.
  - injection Hrun as _ <-. exact (Hm _ _ _ E).
  - rewrite (Hh e _ _ _ Hrun). exact (Hm _ _ _ E).
Qed.

Lemma keeps_prisma {A} (op : DB -> Outcome A * DB) :
  (forall d, map invoice_id (invoices (snd (op d))) = map invoice_id (invoices d)) ->
  keeps_invoices (prisma op).
Proof.
  intros Hop w r w' Hrun.
  destruct (prisma_cases op w) as [(e & _ & E) | (_ & E)];
    rewrite E in Hrun; injection Hrun as _ <-; [reflexivity | apply Hop].
Qed.

Lemma keeps_invoice_update (id : jsstring) (data : Invoice -> Invoice) :
  (forall i, invoice_id (data i) = invoice_id i) ->
  keeps_invoices (invoice_update id data).
Proof.
  intro Hdata. apply keeps_prisma. intro d.
  destruct (existsb _ (invoices d)); [| reflexivity].
  cbn [snd invoices]. rewrite map_map. apply map_ext.
  intro i. destruct (str_eqb (invoice_id i) id); [apply Hdata | reflexivity].
Qed.

Lemma keeps_invoice_findUnique (id : jsstring) : keeps_invoices (invoice_findUnique id).
Proof. apply keeps_prisma. reflexivity. Qed.

(** The mock embedding of the upload consumes [n] draws of the random
    source. *)
Lemma upload_mock_embedding_run (n : nat) (w : World) :
  Upload.mock_embedding n w =
  (Ok (map (fun k => (random w k - 0.5)%float) (seq (draws w) n)),
   mkWorld (db w) (faults w) (queries w) (created w) (uuids w) (now w) (random w)
           (n + draws w)).
Proof.
  revert w. induction n as [| n IH]; intro w.
  - destruct w; reflexivity.
  - cbn [Upload.mock_embedding]. unfold bind, Math_random at 1.
    rewrite IH. cbn [random draws db faults queries created uuids now ret seq map].
    rewrite <- plus_n_Sm. reflexivity.
Qed.

(** Assembling the processed data never throws, and all it does to the
    world is to draw random numbers. *)
Lemma realProcessedData_run (invoice : Invoice) (response : Upload.FetchResponse)
    (py : Upload.PythonService) (w : World) :
  exists data n,
    Upload.realProcessedData invoice response py w =
    (Ok data,
     mkWorld (db w) (faults w) (queries w) (created w) (uuids w) (now w) (random w)
             (n + draws w)).
Proof.
  unfold Upload.realProcessedData. cbv zeta.
  destruct (Upload.api_embedding py).
  - eexists. exists 0. destruct w; reflexivity.
  - rewrite upload_mock_embedding_run. eexists. exists 1536. reflexivity.
Qed.

Lemma keeps_realProcessedData (invoice : Invoice) (response : Upload.FetchResponse)
    (py : Upload.PythonService) :
  keeps_invoices (Upload.realProcessedData invoice response py).
Proof.
  intros w r w' Hrun.
  destruct (realProcessedData_run invoice response py w) as (data & n & Hdata).
  rewrite Hdata in Hrun. injection Hrun as _ <-. reflexivity.
Qed.

Lemma keeps_processing (invoice : Invoice) (py : Upload.PythonService) :
  keeps_invoices (Upload.processing invoice py).
Proof.
  unfold Upload.processing.
  apply keeps_bind; [apply keeps_lift |]. intro response.
  destruct (negb (Upload.resp_ok response)).
  { apply keeps_bind; [apply keeps_lift | intro; apply keeps_throw]. }
  match goal with |- keeps_invoices (if ?b then _ else _) => destruct b end.
  - apply keeps_bind; [apply keeps_realProcessedData |]. intro data.
    apply keeps_bind.
    + apply keeps_try_catch; [| intro; apply keeps_ret].
      apply keeps_invoice_update. reflexivity.
    + intros _. apply keeps_bind; [apply keeps_invoice_findUnique |].
      intros [updated |]; [apply keeps_ret | apply keeps_throw].
  - apply keeps_try_catch; [| intro; apply keeps_throw].
    apply keeps_bind; [apply keeps_lift |]. intro pythonResult.
    assert (Hgen : keeps_invoices
              (if otruthy (get pythonResult (lit "error")) then
                 throw (match get pythonResult (lit "error") with
                        | Some (JStr text) => text
                        | _ => []
                        end)
               else
                 invoice_update (invoice_id invoice)
                   (Upload.set_processed
                      (Upload.or_else (get pythonResult (lit "extracted_data")) pythonResult)
                      (Upload.or_else (get pythonResult (lit "classified_data")) pythonResult)
                      (match get pythonResult (lit "embeddings") with
                       | Some e => if truthy e then Some (JSON_stringify e) else None
                       | None => None
                       end)) ;;;
                 ret (@None Response))).
    { destruct (otruthy _); [apply keeps_throw |].
      apply keeps_bind; [| intro; apply keeps_ret].
      apply keeps_invoice_update. reflexivity. }
    destruct pythonResult; try exact Hgen. apply keeps_throw.
Qed.

Lemma existsb_invoice_id (id : jsstring) (l : list Invoice) :
  existsb (fun i => str_eqb (invoice_id i) id) l
  = existsb (fun x => str_eqb x id) (map invoice_id l).
Proof.
  induction l as [| i l IH]; simpl; [reflexivity |]. rewrite IH. reflexivity.
Qed.

(** Once [start] has created the row, the row is in the table. *)
Lemma start_created (email : jsstring) (form : Outcome (option Upload.File))
    (w w1 : World) (invoice : Invoice) (file : Upload.File) :
  Upload.start email form w = (Ok (Upload.Created invoice file), w1) ->
  existsb (fun i => str_eqb (invoice_id i) (invoice_id invoice)) (invoices (db w1)) = true.
Proof.
  intro Hrun. unfold Upload.start in Hrun.
  bind_inv Hrun found w0 H0.
  destruct found as [u |]; [| discriminate].
  bind_inv Hrun formData w0' H1.
  destruct formData as [f |]; [| discriminate].
  bind_inv Hrun created_invoice w2 H2.
  injection Hrun as -> -> <-.
  unfold invoice_create, prisma_create in H2.
  destruct (next_fault w0'); [discriminate |].
  injection H2 as <- <-. cbn [db invoices].
  rewrite existsb_app. cbn [existsb]. rewrite str_eqb_refl, orb_true_r.
  reflexivity.
Qed.

(** The encrypted branch of the [catch] blocks. *)
Lemma fail_invoice_encrypted (invoice : Invoice) (e : jsstring) (w : World) :
  includes e (lit "PDF_ENCRYPTED") = true ->
  next_fault w = None ->
  existsb (fun i => str_eqb (invoice_id i) (invoice_id invoice)) (invoices (db w)) = true ->
  Upload.fail_invoice invoice e w =
  (Ok (Upload.encrypted_response invoice),
   set_db (advance w)
     (mkDB (users (db w)) (chatSessions (db w)) (messages (db w))
        (map (fun i => if str_eqb (invoice_id i) (invoice_id invoice)
                       then Upload.set_status_data st_error Upload.encrypted_data i
                       else i) (invoices (db w)))
        (invoiceSearches (db w)))).
Proof.
  intros He Hf Hex. unfold Upload.fail_invoice. rewrite He.
  unfold bind, invoice_update, ret.
  rewrite (prisma_ok _ _ Hf), Hex. reflexivity.
Qed.

(** C2.  When the processing of an uploaded file fails with an error whose
    message contains [PDF_ENCRYPTED] (thrown while reading the file or inside
    the inner [try]) and the update issued by the [catch] block meets no
    fault, the route answers 400 with the error "PDF file is encrypted or
    password-protected", and the invoice row has status [error] and that same
    message, which contains "encrypted or password-protected", in
    [extractedData.error]. *)
Theorem upload_encrypted_pdf (session : option Session) (email e : jsstring)
    (form : Outcome (option Upload.File)) (py : Upload.PythonService)
    (invoice : Invoice) (file : Upload.File) (w w1 w2 : World) :
  session_user_email session = Some email ->
  Upload.start email form w = (Ok (Upload.Created invoice file), w1) ->
  (lift (Upload.file_arrayBuffer file) ;;; Upload.processing invoice py) w1
    = (Throw e, w2) ->
  includes e (lit "PDF_ENCRYPTED") = true ->
  next_fault w2 = None ->
  exists w',
    Upload.POST session form py w = (Ok (Upload.encrypted_response invoice), w')
    /\ status (Upload.encrypted_response invoice) = 400
    /\ body (Upload.encrypted_response invoice)
       = BJson (JObj [(lit "error", JStr Upload.encrypted_error);
                      (lit "details", JStr Upload.encrypted_details);
                      (lit "id", JStr (invoice_id invoice));
                      (lit "status", JStr (lit "error"))])
    /\ (exists i, In i (invoices (db w')) /\ invoice_id i = invoice_id invoice)
    /\ (forall i, In i (invoices (db w')) -> invoice_id i = invoice_id invoice ->
          invoice_status i = st_error
          /\ get (invoice_extractedData i) (lit "error") = Some (JStr Upload.encrypted_error))
    /\ includes Upload.encrypted_error (lit "encrypted or password-protected") = true.
Proof.
  intros Hs Hstart Hfail He Hf.
  pose proof (start_created _ _ _ Hstart) as Hex1.
  assert (Hex : existsb (fun i => str_eqb (invoice_id i) (invoice_id invoice))
                        (invoices (db w2)) = true).
  { rewrite existsb_invoice_id in Hex1 |- *.
    assert (Hkeeps : keeps_invoices (lift (Upload.file_arrayBuffer file) ;;;
                                     Upload.processing invoice py))
      by (apply keeps_bind; [apply keeps_lift | intro; apply keeps_processing]).
    rewrite (Hkeeps _ _ _ Hfail). exact Hex1. }
  pose proof (fail_invoice_encrypted invoice e w2 He Hf Hex) as Hcatch.
  eexists. split.
  - unfold Upload.POST. rewrite Hs, Hstart.
    unfold try_catch, Upload.finish, Upload.outer_catch.
    unfold bind, lift in Hfail |- *.
    destruct (Upload.file_arrayBuffer file) as [[] | e0].
    + unfold try_catch. rewrite Hfail.
      unfold bind. rewrite Hcatch. reflexivity.
    + injection Hfail as -> ->. exact Hcatch.
  - split; [reflexivity |]. split; [reflexivity |].
    cbn [db set_db invoices]. split; [| split].
    + apply existsb_exists in Hex. destruct Hex as (i & Hin & Hid).
      exists (Upload.set_status_data st_error Upload.encrypted_data i).
      split; [| apply str_eqb_eq in Hid; exact Hid].
      apply in_map_iff. exists i. rewrite Hid. split; [reflexivity | exact Hin].
    + intros i Hin Hid. apply in_map_iff in Hin.
      destruct Hin as (i0 & <- & _).
      destruct (str_eqb (invoice_id i0) (invoice_id invoice)) eqn:E.
      * split; reflexivity.
      * rewrite <- Hid, str_eqb_refl in E. discriminate.
    + vm_compute. reflexivity.
Qed.

End UploadFacts.

Lemma upload_encrypted_pdf_witness :
  exists resp w',
    Upload.POST (H := Reference.host) Examples.alice_session
      (Ok (Some Examples.locked_pdf)) Examples.rejects_encrypted Examples.sample_world
      = (Ok resp, w')
    /\ status resp = 400
    /\ map (fun i => (invoice_filename i, invoice_status i)) (invoices (db w'))
       = [(lit "flight.pdf", st_processed); (lit "scan.pdf", st_processed);
          (lit "locked.pdf", st_error); (lit "hotel.pdf", st_processed);
          (lit "laptop.pdf", st_processed); (lit "locked.pdf", st_error)].
Proof.
  pose proof (fun e invoice file w1 w2 =>
                @upload_encrypted_pdf Reference.host Examples.alice_session
                  (lit "alice@example.com") e (Ok (Some Examples.locked_pdf))
                  Examples.rejects_encrypted invoice file Examples.sample_world
                  w1 w2 eq_refl) as Hthm.
  edestruct Hthm as (w' & Hrun & Hstatus & _).
  - lazy. reflexivity.
  - lazy. reflexivity.
  - vm_compute. reflexivity.
  - reflexivity.
  - eexists. exists w'. split; [exact Hrun |]. split; [exact Hstatus |].
    pose proof (f_equal (fun p => map (fun i => (invoice_filename i, invoice_status i))
                                      (invoices (db (snd p)))) Hrun) as Hrows.
    cbn [snd] in Hrows. rewrite <- Hrows. vm_compute. reflexivity.
Defined.

(** ** Similar invoices *)

Section SimilarInvoices.
Context `{Host}.

Local Open Scope float_scope.

(** On scores that are not NaN, the comparator [b - a] orders as [<] does,
    so it is consistent. *)
Lemma ahead_key (a b : Chat.Scored) :
  isNaN (Chat.similarity_score a) = false ->
  isNaN (Chat.similarity_score b) = false ->
  Chat.ahead b a
  = (order_key (Prim2SF (Chat.similarity_score a))
     <? order_key (Prim2SF (Chat.similarity_score b)))%Z.
Proof.
  intros Ha Hb. unfold Chat.ahead.
  rewrite (sub_pos_ltb _ _ Ha Hb). apply ltb_key; assumption.
Qed.

Lemma ahead_consistent (l : list Chat.Scored) :
  (forall s, In s l -> isNaN (Chat.similarity_score s) = false) ->
  consistent Chat.ahead l.
Proof.
  intro Hnan. split.
  - intros x y Hx Hy.
    rewrite (ahead_key _ _ (Hnan _ Hy) (Hnan _ Hx)), (ahead_key _ _ (Hnan _ Hx) (Hnan _ Hy)).
    rewrite Z.ltb_lt, Z.ltb_ge. lia.
  - intros x y z Hx Hy Hz.
    rewrite (ahead_key _ _ (Hnan _ Hx) (Hnan _ Hy)), (ahead_key _ _ (Hnan _ Hy) (Hnan _ Hz)),
      (ahead_key _ _ (Hnan _ Hx) (Hnan _ Hz)).
    rewrite !Z.ltb_ge. lia.
Qed.

Lemma not_ahead_leb (a b : Chat.Scored) :
  isNaN (Chat.similarity_score a) = false ->
  isNaN (Chat.similarity_score b) = false ->
  Chat.ahead b a = false ->
  (Chat.similarity_score b <=? Chat.similarity_score a) = true.
Proof.
  intros Ha Hb. rewrite (ahead_key _ _ Ha Hb), (leb_key _ _ Hb Ha), Z.ltb_ge, Z.leb_le.
  trivial.
Qed.

Lemma StronglySorted_weaken {A} (R R' : A -> A -> Prop) (l : list A) :
  (forall a b, In a l -> In b l -> R a b -> R' a b) ->
  StronglySorted R l -> StronglySorted R' l.
Proof.
  induction l as [| x l IH]; intros Himp Hs; [constructor |].
  apply StronglySorted_inv in Hs. destruct Hs as [Hs Hx].
  constructor.
  - apply IH; [| exact Hs]. intros a b Ha Hb. apply Himp; simpl; auto.
  - rewrite Forall_forall in Hx |- *. intros y Hy.
    apply Himp; simpl; auto.
Qed.

Lemma status_eqb_eq (a b : InvoiceStatus) : status_eqb a b = true -> a = b.
Proof. destruct a, b; simpl; congruence. Qed.

(** A scored invoice comes from a stored vector that parsed and had the
    length of the query. *)
Lemma score_Some (q : list number) (i : Invoice) (s : Chat.Scored) :
  Chat.score q i = Some s ->
  Chat.scored_invoice s = i
  /\ exists text v vec,
       invoice_embeddings i = Some text
       /\ JSON_parse text = Ok v
       /\ Chat.vector_of (length q) v = Ok vec
       /\ Chat.cosineSimilarity q vec = Ok (Chat.similarity_score s).
Proof.
  unfold Chat.score.
  destruct (invoice_embeddings i) as [text |]; [| discriminate].
  destruct (JSON_parse text) as [v | e] eqn:Hparse; [| discriminate].
  destruct (Chat.vector_of (length q) v) as [vec | e] eqn:Hvec; [| discriminate].
  destruct (Chat.cosineSimilarity q vec) as [x | e] eqn:Hcos; [| discriminate].
  intro Hs. injection Hs as <-. split; [reflexivity |].
  exists text, v, vec. auto.
Qed.

(** An invoice whose stored vector does not parse gets no score. *)
Lemma score_unparsable (q : list number) (i : Invoice) (text e : jsstring) :
  invoice_embeddings i = Some text -> JSON_parse text = Throw e -> Chat.score q i = None.
Proof. intros Ht Hp. unfold Chat.score. rewrite Ht, Hp. reflexivity. Qed.

Lemma similarities_In (q : list number) (found : list Invoice) (s : Chat.Scored) :
  In s (Chat.similarities q found) ->
  In (Chat.scored_invoice s) found /\ Chat.score q (Chat.scored_invoice s) = Some s.
Proof.
  unfold Chat.similarities. intro Hin. apply in_flat_map in Hin.
  destruct Hin as (i & Hi & Hs).
  destruct (Chat.score q i) as [item |] eqn:Hscore; [| contradiction].
  destruct Hs as [<- | []].
  destruct (score_Some _ _ Hscore) as [-> _]. split; assumption.
Qed.

(** Unless the Prisma query fails, [findSimilarInvoices] returns at most 10
    results; each one is a processed invoice of the user with stored
    embeddings that parsed (an invoice whose embeddings do not parse is left
    out, and the search still succeeds); and whenever no computed score is
    NaN, the results come in non-increasing order of [similarity_score]. *)
Theorem findSimilarInvoices_spec (q : list number) (userId : jsstring) (w : World) :
  match next_fault w with
  | Some e => Chat.findSimilarInvoices q userId w = (Throw e, advance w)
  | None =>
      exists results,
        Chat.findSimilarInvoices q userId w = (Ok results, advance w)
        /\ length results <= 10
        /\ (forall s, In s results ->
              let i := Chat.scored_invoice s in
              In i (invoices (db w))
              /\ invoice_userId i = userId
              /\ invoice_status i = st_processed
              /\ exists text v vec,
                   invoice_embeddings i = Some text
                   /\ JSON_parse text = Ok v
                   /\ Chat.vector_of (length q) v = Ok vec
                   /\ Chat.cosineSimilarity q vec = Ok (Chat.similarity_score s))
        /\ ((forall s,
               In s (Chat.similarities q
                       (filter (Chat.searchable userId) (invoices (db w)))) ->
               isNaN (Chat.similarity_score s) = false) ->
            non_increasing results)
  end.
Proof.
  unfold Chat.findSimilarInvoices, bind, invoice_findMany, prisma, ret.
  destruct (next_fault w) as [e |]; [reflexivity |].
  eexists. split; [reflexivity |]. split; [apply firstn_le_length |]. split.
  - intros s Hs. cbv zeta.
    apply firstn_In, sort_In, similarities_In in Hs. destruct Hs as [Hfound Hscore].
    apply filter_In in Hfound. destruct Hfound as [Hin Hwhere].
    unfold Chat.searchable in Hwhere.
    apply andb_prop in Hwhere. destruct Hwhere as [Hwhere _].
    apply andb_prop in Hwhere. destruct Hwhere as [Huser Hstatus].
    apply str_eqb_eq in Huser. apply status_eqb_eq in Hstatus.
    destruct (score_Some _ _ Hscore) as [_ Hparsed].
    repeat split; assumption.
  - intro Hnan. apply firstn_sorted.
    apply (StronglySorted_weaken (R := in_order Chat.ahead)).
    + intros a b Ha Hb. apply sort_In in Ha, Hb.
      apply not_ahead_leb; apply Hnan; assumption.
    + apply sort_sorted, ahead_consistent, Hnan.
Qed.

End SimilarInvoices.

Lemma findSimilarInvoices_spec_witness :
  exists results,
    Chat.findSimilarInvoices (H := Reference.host) [1; 0]%float (lit "u1")
      Examples.sample_world = (Ok results, advance Examples.sample_world)
    /\ map (fun s => invoice_filename (Chat.scored_invoice s)) results
       = [lit "flight.pdf"; lit "laptop.pdf"]
    /\ non_increasing results.
Proof.
  pose proof (findSimilarInvoices_spec (H := Reference.host) [1; 0]%float (lit "u1")
                Examples.sample_world) as Hspec.
  assert (Hn : next_fault Examples.sample_world = None) by reflexivity.
  rewrite Hn in Hspec.
  destruct Hspec as (results & Hrun & _ & _ & Hsorted).
  exists results. split; [exact Hrun |]. split.
  - pose proof (f_equal (fun p => match fst p with
                                  | Ok l => map (fun s => invoice_filename
                                                            (Chat.scored_invoice s)) l
                                  | Throw _ => []
                                  end) Hrun) as Hnames.
    cbn [fst] in Hnames. rewrite <- Hnames. vm_compute. reflexivity.
  - apply Hsorted. intros s Hs.
    assert (Hall : forallb (fun s => negb (isNaN (Chat.similarity_score s)))
                     (Chat.similarities (H := Reference.host) [1; 0]%float
                        (filter (Chat.searchable (lit "u1"))
                           (invoices (db Examples.sample_world)))) = true)
      by (vm_compute; reflexivity).
    rewrite forallb_forall in Hall. apply Hall in Hs.
    destruct (isNaN (Chat.similarity_score s)); [discriminate Hs | reflexivity].
Defined.

(** C9.  The results are not always sorted: for the query [1, 1] over the
    stored vectors [1, 0], [1.7e308, 1.7e308] and [1, 1], the dot product and
    the norm of the second overflow, its score is Infinity / Infinity, which
    is NaN, and the comparator [b - a] is NaN against it.  The search returns
    the three invoices in the order they were read, with the scores 0.707...,
    NaN, 0.999...: the list is not in non-increasing order of
    [similarity_score], and the best match comes last. *)
Theorem findSimilarInvoices_nan_order :
  exists results,
    Chat.findSimilarInvoices (H := Reference.host) [1; 1]%float (lit "u1")
      (Reference.world Examples.overflow_db)
    = (Ok results, advance (Reference.world Examples.overflow_db))
    /\ map (fun s => invoice_filename (Chat.scored_invoice s)) results
       = [lit "flight.pdf"; lit "huge.pdf"; lit "laptop.pdf"]
    /\ map (fun s => isNaN (Chat.similarity_score s)) results = [false; true; false]
    /\ map (fun s => (Chat.similarity_score (hd s results) <? Chat.similarity_score s)%float)
           results = [false; false; true]
    /\ ~ non_increasing results.
Proof.
  eexists. split; [vm_compute; reflexivity |].
  split; [vm_compute; reflexivity |].
  split; [vm_compute; reflexivity |].
  split; [vm_compute; reflexivity |].
  unfold non_increasing. intro Hsorted.
  apply StronglySorted_inv in Hsorted. destruct Hsorted as [_ Hfirst].
  apply Forall_inv_tail, Forall_inv in Hfirst.
  vm_compute in Hfirst. discriminate Hfirst.
Qed.

(** ** Searching invoices *)

Section SearchFacts.
Context `{Host}.

Local Open Scope float_scope.

Lemma wp_try_catch {A} (m : M A) (h : jsstring -> M A) (Q : A -> World -> Prop)
    (w : World) :
  wp m Q w -> wp (try_catch m h) Q w.
Proof.
  intros (a & w' & Hm & HQ). exists a, w'. unfold try_catch. rewrite Hm.
  split; [reflexivity | exact HQ].
Qed.

(** The mock embedding consumes [n] draws of the random source. *)
Lemma mock_embedding_run (n : nat) (w : World) :
  Search.mock_embedding n w =
  (Ok (map (fun k => random w k - 0.5) (seq (draws w) n)),
   mkWorld (db w) (faults w) (queries w) (created w) (uuids w) (now w) (random w)
           (n + draws w)).
Proof.
  revert w. induction n as [| n IH]; intro w.
  - destruct w; reflexivity.
  - cbn [Search.mock_embedding]. unfold bind, Math_random at 1.
    rewrite IH. cbn [random draws db faults queries created uuids now ret seq map].
    rewrite <- plus_n_Sm. reflexivity.
Qed.

Lemma result_ids_format (query : jsstring) (results : list Invoice) (index : nat) :
  flat_map (fun item => match get item (lit "id") with
                        | Some (JStr id) => [id]
                        | _ => []
                        end) (Search.format_from query index results)
  = map invoice_id results.
Proof.
  revert index. induction results as [| i results IH]; intro index; [reflexivity |].
  cbn [Search.format_from flat_map map]. rewrite IH.
  unfold Search.format_result, get, assoc.
  replace (str_eqb (lit "id") (lit "id")) with true by (vm_compute; reflexivity).
  reflexivity.
Qed.

(** A search with a query that is not blank, when no Prisma call fails. *)
Lemma search_GET_run (session : option Session) (email query : jsstring) (u : User)
    (w : World) :
  session_user_email session = Some email ->
  find (fun x => str_eqb (user_email x) email) (users (db w)) = Some u ->
  faults w = [] ->
  negb (is_empty query) && trim_truthy query = true ->
  let mock := map (fun k => random w k - 0.5) (seq (draws w) 1536) in
  let found := sort newer (processed_of (db w) (user_id u)) in
  let searchResults :=
    map Search.invoice
        (firstn 10
           (sort Search.ahead
              (filter (fun item => 0.1 <? Search.similarity item)
                      (map (Search.score_invoice query mock) found)))) in
  exists w',
    Search.GET session query w =
    (Ok (mkResponse 200 (BJson (JArr (Search.format_from query 0 searchResults)))), w').
Proof.
  intros Hs Hu Hf Hq mock found searchResults.
  enough (Hwp : wp (Search.GET session query)
                   (fun resp _ =>
                      resp = mkResponse 200
                               (BJson (JArr (Search.format_from query 0 searchResults)))) w).
  { destruct Hwp as (resp & w' & Hrun & ->). exists w'. exact Hrun. }
  unfold Search.GET. rewrite Hs.
  apply wp_try_catch, wp_bind. unfold user_findUnique.
  eapply wp_prisma; [exact Hf | reflexivity |]. rewrite Hu.
  apply wp_bind. unfold invoice_findMany_desc.
  eapply wp_prisma; [cbn; rewrite Hf; reflexivity | reflexivity |].
  apply wp_bind. rewrite Hq.
  apply wp_bind. eexists. eexists. split; [apply mock_embedding_run |].
  apply wp_ret, wp_bind. unfold invoiceSearch_create.
  eapply wp_prisma; [cbn; rewrite Hf; reflexivity | reflexivity |].
  apply wp_ret. reflexivity.
Qed.

Lemma draws_of_source (a b : number) :
  (0 <=? a) = true -> (a <? 1) = true -> (0 <=? b) = true -> (b <? 1) = true ->
  random_source (Examples.draws_of a b).
Proof.
  intros Ha0 Ha1 Hb0 Hb1 [| [| n]]; simpl; auto.
Qed.

(** The identifiers a search returns on the compass database, for a host
    that parses the two stored vectors and prints the empty object the way
    JavaScript does. *)
Lemma compass_search (a b : number) :
  JSON_parse (lit "[1,0]") = Ok (JArr [JNum 1; JNum 0]) ->
  JSON_parse (lit "[0,1]") = Ok (JArr [JNum 0; JNum 1]) ->
  toLowerCase (JSON_stringify (JObj [])) = lit "{}" ->
  toLowerCase (lit "zzz") = lit "zzz" ->
  Examples.result_ids
    (fst (Search.GET Examples.alice_session (lit "zzz") (Examples.compass_world a b)))
  = map invoice_id
      (map Search.invoice
         (firstn 10
            (sort Search.ahead
               (filter (fun item => 0.1 <? Search.similarity item)
                  (let mock := map (fun k => Examples.draws_of a b k - 0.5) (seq 0 1536) in
                   let queryNorm :=
                     sqrt (fold_left (fun sum val => sum + val * val) mock 0) in
                   let scored (i : Invoice) (x y : number) :=
                     let dotProduct :=
                       0 + x * Search.num_or_zero (nth_error mock 0)
                       + y * Search.num_or_zero (nth_error mock 1) in
                     let invoiceNorm := sqrt (0 + x * x + y * y) in
                     Search.mkScoredInvoice i
                       (if number_truthy invoiceNorm && number_truthy queryNorm
                        then dotProduct / (invoiceNorm * queryNorm) else 0)
                       (lit "Similar invoice: " ++ invoice_filename i) in
                   [scored Examples.east 1 0; scored Examples.north 0 1]))))).
Proof.
  intros Heast Hnorth Hprint Hquery.
  destruct (search_GET_run (email := lit "alice@example.com") (u := Examples.alice)
              Examples.alice_session (lit "zzz")
              (Examples.compass_world a b) eq_refl eq_refl eq_refl eq_refl)
    as (w' & Hrun).
  rewrite Hrun. cbn [fst Examples.result_ids].
  rewrite result_ids_format.
  replace (sort newer (processed_of (db (Examples.compass_world a b))
                                    (user_id Examples.alice)))
    with [Examples.east; Examples.north] by (vm_compute; reflexivity).
  cbn [map random draws Examples.compass_world].
  unfold Search.score_invoice.
  cbn [invoice_embeddings invoice_extractedData Examples.east Examples.north].
  replace (is_empty (lit "[1,0]")) with false by reflexivity.
  replace (is_empty (lit "[0,1]")) with false by reflexivity.
  rewrite Heast, Hnorth.
  replace (Search.data_or_empty JNull) with (JObj []) by reflexivity.
  rewrite Hprint, Hquery.
  replace (includes (lit "{}") (lit "zzz")) with false by (vm_compute; reflexivity).
  reflexivity.
Qed.

(** C10.  The search is not a function of the user, the stored invoices and
    the query: on a host that parses the stored vectors and prints the empty
    object as JavaScript does, there are sources of random draws, all within
    [0, 1), for which the same request on the same database returns
    different sets of invoices, and others for which it returns the same
    invoices in different orders. *)
Theorem search_nondeterministic :
  JSON_parse (lit "[1,0]") = Ok (JArr [JNum 1; JNum 0]) ->
  JSON_parse (lit "[0,1]") = Ok (JArr [JNum 0; JNum 1]) ->
  toLowerCase (JSON_stringify (JObj [])) = lit "{}" ->
  toLowerCase (lit "zzz") = lit "zzz" ->
  let run r :=
    Examples.result_ids
      (fst (Search.GET Examples.alice_session (lit "zzz")
              (mkWorld Examples.compass_db [] 0 0 0 0%Z r 0))) in
  (exists r1 r2,
      random_source r1 /\ random_source r2
      /\ run r1 = [lit "e"] /\ run r2 = [lit "n"])
  /\ (exists r1 r2,
         random_source r1 /\ random_source r2
         /\ run r1 = [lit "e"; lit "n"] /\ run r2 = [lit "n"; lit "e"]).
Proof.
  intros Heast Hnorth Hprint Hquery run.
  split.
  - exists (Examples.draws_of 0.75 0.25), (Examples.draws_of 0.25 0.75).
    split; [apply draws_of_source; reflexivity |].
    split; [apply draws_of_source; reflexivity |].
    unfold run. fold (Examples.compass_world 0.75 0.25).
    fold (Examples.compass_world 0.25 0.75).
    rewrite !compass_search by assumption.
    split; vm_compute; reflexivity.
  - exists (Examples.draws_of 0.875 0.75), (Examples.draws_of 0.75 0.875).
    split; [apply draws_of_source; reflexivity |].
    split; [apply draws_of_source; reflexivity |].
    unfold run. fold (Examples.compass_world 0.875 0.75).
    fold (Examples.compass_world 0.75 0.875).
    rewrite !compass_search by assumption.
    split; vm_compute; reflexivity.
Qed.

End SearchFacts.

Lemma search_nondeterministic_witness :
  exists r1 r2,
    random_source r1 /\ random_source r2
    /\ Examples.result_ids
         (fst (Search.GET (H := Reference.host) Examples.alice_session (lit "zzz")
                 (mkWorld Examples.compass_db [] 0 0 0 0%Z r1 0)))
       = [lit "e"]
    /\ Examples.result_ids
         (fst (Search.GET (H := Reference.host) Examples.alice_session (lit "zzz")
                 (mkWorld Examples.compass_db [] 0 0 0 0%Z r2 0)))
       = [lit "n"].
Proof.
  exact (proj1 (search_nondeterministic (H := Reference.host)
                  eq_refl eq_refl eq_refl eq_refl)).
Defined.

(** * Further properties *)

Section MulComm.
Local Open Scope float_scope.

Lemma SFmul_comm (x y : spec_float) : SFmul prec emax x y = SFmul prec emax y x.
Proof.
  destruct x as [sx | sx | | sx mx ex], y as [sy | sy | | sy my ey]; simpl;
    try reflexivity; try (rewrite (xorb_comm sx sy); reflexivity).
  rewrite (xorb_comm sx sy), (Pos.mul_comm mx my), (Z.add_comm ex ey). reflexivity.
Qed.

Lemma mul_comm (a b : float) : a * b = b * a.
Proof.
  apply Prim2SF_inj. rewrite !FloatAxioms.mul_spec. apply SFmul_comm.
Qed.
End MulComm.

Section CosineSymmetry.
Local Open Scope float_scope.

Lemma cosine_loop_swap (n i : nat) (vecA vecB : list number) (d na nb : number) :
  Chat.cosine_loop n i vecB vecA (d, nb, na) =
  (let '(d', na', nb') := Chat.cosine_loop n i vecA vecB (d, na, nb) in (d', nb', na')).
Proof.
  revert i d na nb. induction n as [| n IH]; intros i d na nb; [reflexivity |].
  cbn [Chat.cosine_loop].
  rewrite (mul_comm (nth i vecB nan) (nth i vecA nan)). apply IH.
Qed.

(** The similarity of two vectors does not depend on their order, errors
    included. *)
Theorem cosineSimilarity_symmetric (vecA vecB : list number) :
  Chat.cosineSimilarity vecA vecB = Chat.cosineSimilarity vecB vecA.
Proof.
  unfold Chat.cosineSimilarity.
  rewrite (Nat.eqb_sym (length vecB) (length vecA)).
  destruct (Nat.eqb_spec (length vecA) (length vecB)) as [Hlen | Hne]; [| reflexivity].
  cbn [negb]. rewrite <- Hlen.
  pose proof (cosine_loop_swap (length vecA) 0 vecA vecB 0 0 0) as Hswap.
  unfold number in Hswap |- *. rewrite Hswap.
  match goal with
  | |- context [Chat.cosine_loop ?n ?i ?a ?b ?acc] =>
      destruct (Chat.cosine_loop n i a b acc) as [[d na] nb]
  end.
  cbv beta iota zeta.
  rewrite (orb_comm (nb =? 0) (na =? 0)), (mul_comm (sqrt nb) (sqrt na)).
  reflexivity.
Qed.

End CosineSymmetry.

Section DashboardExtras.
Context `{Host}.

(** The dashboard never throws and never writes: it answers 200, 401, 404
    or 500, issues at most two Prisma calls and leaves the database as it
    was; without a session email it answers 401 and does nothing at all. *)
Theorem dashboard_read_only (session : option Session) (w : World) :
  exists resp w',
    Dashboard.GET session w = (Ok resp, w')
    /\ db w' = db w
    /\ In (status resp) [200; 401; 404; 500]
    /\ queries w' <= 2 + queries w
    /\ (session_user_email session = None -> status resp = 401 /\ w' = w).
Proof.
  destruct (session_user_email session) as [email |] eqn:Hs.
  - rewrite (dashboard_GET_run _ _ Hs).
    destruct (next_fault w).
    { eexists. eexists. split; [reflexivity |]. simpl. intuition (try discriminate; lia). }
    destruct (find _ (users (db w))).
    2: { eexists. eexists. split; [reflexivity |]. simpl. intuition (try discriminate; lia). }
    destruct (next_fault (advance w)).
    { eexists. eexists. split; [reflexivity |]. simpl. intuition (try discriminate; lia). }
    cbv zeta.
    destruct (Dashboard.vendorSpend _); [destruct (Dashboard.spendCategories _) |];
      eexists; eexists; (split; [reflexivity |]); simpl; intuition (try discriminate; lia).
  - unfold Dashboard.GET. rewrite Hs.
    eexists. eexists. split; [reflexivity |]. simpl. intuition lia.
Qed.

(** A [null] among the line items makes the loop over them throw, whatever
    precedes it. *)
Lemma categories_of_items_null (items : list json) (categories : list jsstring) :
  In JNull items -> exists e, Dashboard.categories_of_items items categories = Throw e.
Proof.
  revert categories. induction items as [| item rest IH]; intros categories Hin;
    [contradiction |].
  destruct Hin as [-> | Hin]; [eexists; reflexivity |].
  destruct item as [| b | x | s | l | fs]; try (eexists; reflexivity);
    cbn [Dashboard.categories_of_items get]; try (apply IH; exact Hin).
  destruct (assoc fs (lit "description")) as [description |]; [| apply IH; exact Hin].
  destruct (truthy description); [| apply IH; exact Hin].
  destruct description; try (eexists; reflexivity). apply IH; exact Hin.
Qed.

Lemma spendCategories_throws (found : list Invoice) (i : Invoice) (e : jsstring) :
  In i found ->
  Dashboard.extractCategories (invoice_extractedData i) = Throw e ->
  exists e', Dashboard.spendCategories found = Throw e'.
Proof.
  induction found as [| j found IH]; intros Hin Hthrow; [contradiction |].
  cbn [Dashboard.spendCategories].
  destruct Hin as [-> | Hin].
  - rewrite Hthrow. eexists. reflexivity.
  - destruct (Dashboard.extractCategories (invoice_extractedData j));
      [apply IH; assumption | eexists; reflexivity].
Qed.

(** One processed invoice with a [null] line item is enough for the whole
    dashboard of its owner to fail with status 500. *)
Theorem dashboard_null_line_item (session : option Session) (email : jsstring)
    (u : User) (i : Invoice) (items : list json) (w : World) :
  session_user_email session = Some email ->
  find (fun x => str_eqb (user_email x) email) (users (db w)) = Some u ->
  faults w = [] ->
  In i (processed_of (db w) (user_id u)) ->
  get (invoice_extractedData i) (lit "line_items") = Some (JArr items) ->
  In JNull items ->
  exists w',
    Dashboard.GET session w = (Ok (json_error 500 "Failed to load dashboard data"), w')
    /\ db w' = db w.
Proof.
  intros Hs Hu Hf Hi Hitems Hnull.
  rewrite (dashboard_GET_run _ _ Hs), Hu.
  rewrite (next_fault_nil _ Hf), (next_fault_nil _ (advance_faults_nil _ Hf)).
  cbv zeta.
  assert (Hthrow : exists e, Dashboard.extractCategories (invoice_extractedData i) = Throw e).
  { unfold Dashboard.extractCategories.
    destruct (invoice_extractedData i) as [| b | x | s | l | fs]; try discriminate Hitems.
    cbn [truthy negb]. rewrite Hitems.
    destruct (categories_of_items_null items [] Hnull) as [e ->].
    exists e. reflexivity. }
  destruct Hthrow as [e Hthrow].
  destruct (spendCategories_throws (sort newer (processed_of (db w) (user_id u)))
              i (proj2 (sort_In newer _ i) Hi) Hthrow) as [e' ->].
  destruct (Dashboard.vendorSpend _); eexists; split; reflexivity.
Qed.

End DashboardExtras.

Lemma dashboard_null_line_item_witness :
  exists w',
    Dashboard.GET (H := Reference.host) Examples.alice_session
      (Reference.world Cases.null_item_db)
    = (Ok (json_error 500 "Failed to load dashboard data"), w')
    /\ db w' = Cases.null_item_db.
Proof.
  apply (dashboard_null_line_item (H := Reference.host) Examples.alice_session
           (email := lit "alice@example.com") (u := Examples.alice)
           (items := [JObj [(lit "description", JStr (lit "Flight to Pune"))]; JNull])
           Cases.invoice_null_item (Reference.world Cases.null_item_db)).
  - reflexivity.
  - reflexivity.
  - reflexivity.
  - vm_compute. right. left. reflexivity.
  - reflexivity.
  - right. left. reflexivity.
Defined.

Section CategoryFacts.
Context `{Host}.

Lemma existsb_str_eqb (c : jsstring) (seen : list jsstring) :
  existsb (str_eqb c) seen = true <-> In c seen.
Proof.
  rewrite existsb_exists. split.
  - intros (x & Hx & Heq). apply str_eqb_eq in Heq. subst x. exact Hx.
  - intro Hin. exists c. split; [exact Hin | apply str_eqb_refl].
Qed.

Lemma dedupe_In (seen categories : list jsstring) (x : jsstring) :
  In x (Dashboard.dedupe seen categories) <-> In x categories /\ ~ In x seen.
Proof.
  revert seen. induction categories as [| c rest IH]; intro seen; simpl; [tauto |].
  destruct (existsb (str_eqb c) seen) eqn:Hc.
  - apply existsb_str_eqb in Hc. rewrite IH. split.
    + intros [Hx Hn]. auto.
    + intros [[<- | Hx] Hn]; [contradiction | auto].
  - assert (Hn : ~ In c seen)
      by (intro Hin; apply existsb_str_eqb in Hin; congruence).
    simpl. rewrite IH. simpl. split.
    + intros [<- | [Hx Hnx]]; [auto | tauto].
    + intros [[<- | Hx] Hnx]; [auto |].
      destruct (list_eq_dec N.eq_dec c x) as [-> | Hne]; [auto | right; tauto].
Qed.

Lemma dedupe_NoDup (seen categories : list jsstring) :
  NoDup (Dashboard.dedupe seen categories).
Proof.
  revert seen. induction categories as [| c rest IH]; intro seen; simpl; [constructor |].
  destruct (existsb (str_eqb c) seen); [apply IH |].
  constructor; [| apply IH].
  rewrite dedupe_In. simpl. tauto.
Qed.

Lemma category_of_names (desc : jsstring) : In (Dashboard.category_of desc) category_names.
Proof.
  unfold Dashboard.category_of, category_names.
  repeat match goal with
         | |- context [if ?b then _ else _] => destruct b
         end; simpl; tauto.
Qed.

Lemma categories_of_items_names (items : list json) (acc categories : list jsstring) :
  Dashboard.categories_of_items items acc = Ok categories ->
  (forall c, In c acc -> In c category_names) ->
  forall c, In c categories -> In c category_names.
Proof.
  revert acc. induction items as [| item rest IH]; intros acc Hrun Hacc.
  - injection Hrun as <-. exact Hacc.
  - cbn [Dashboard.categories_of_items] in Hrun.
    destruct item as [| b | x | s | l | fs]; try discriminate Hrun;
      cbn [get] in Hrun; try (exact (IH _ Hrun Hacc)).
    destruct (assoc fs (lit "description")) as [description |]; [| exact (IH _ Hrun Hacc)].
    destruct (truthy description); [| exact (IH _ Hrun Hacc)].
    destruct description as [| b | x | text | l | fs']; try discriminate Hrun.
    apply (IH _ Hrun). intros c Hc. apply in_app_or in Hc.
    destruct Hc as [Hc | [<- | []]]; [apply Hacc, Hc | apply category_of_names].
Qed.

(** The categories of an invoice are pairwise distinct and are among the
    five names the route knows. *)
Theorem extractCategories_distinct (extractedData : json) (categories : list jsstring) :
  Dashboard.extractCategories extractedData = Ok categories ->
  NoDup categories /\ (forall c, In c categories -> In c category_names).
Proof.
  unfold Dashboard.extractCategories.
  destruct (negb (truthy extractedData)).
  { intro Hrun. injection Hrun as <-. split; [constructor | contradiction]. }
  destruct (get extractedData (lit "line_items")) as [[| b | x | s | items | fs] |];
    try (intro Hrun; injection Hrun as <-; split; [constructor | contradiction]).
  destruct (Dashboard.categories_of_items items []) as [found | e] eqn:Hitems;
    [| discriminate].
  intro Hrun. injection Hrun as <-. split; [apply dedupe_NoDup |].
  intros c Hc. apply dedupe_In in Hc. destruct Hc as [Hc _].
  exact (categories_of_items_names _ _ Hitems (fun _ (F : In _ []) => match F with end) c Hc).
Qed.

End CategoryFacts.

Lemma extractCategories_distinct_witness :
  Dashboard.extractCategories (H := Reference.host) Cases.office_order
  = Ok [lit "Travel"; lit "Office Supplies"; lit "Other"]
  /\ NoDup [lit "Travel"; lit "Office Supplies"; lit "Other"].
Proof.
  assert (Hrun : Dashboard.extractCategories (H := Reference.host) Cases.office_order
                 = Ok [lit "Travel"; lit "Office Supplies"; lit "Other"])
    by (vm_compute; reflexivity).
  split; [exact Hrun |].
  exact (proj1 (extractCategories_distinct (H := Reference.host) _ Hrun)).
Defined.

Section AmountFormatting.
Context `{Host}.

Lemma assoc_same_amount_text (fs fs' : list (jsstring * json)) (k : jsstring) :
  Forall2 same_amount_text fs fs' ->
  match assoc fs k, assoc fs' k with
  | None, None => True
  | Some v, Some v' =>
      v = v' \/ exists s t, v = JStr s /\ v' = JStr t
                            /\ Dashboard.cleanAmount s = Dashboard.cleanAmount t
  | _, _ => False
  end.
Proof.
  induction 1 as [| [ka va] [kb vb] fs fs' [Hk Hv] _ IH]; [exact I |].
  cbn [fst snd] in Hk, Hv. subst kb. cbn [assoc].
  destruct (str_eqb ka k); [exact Hv | exact IH].
Qed.

Lemma extractAmount_fields_same (fs fs' : list (jsstring * json)) (fields : list jsstring) :
  Forall2 same_amount_text fs fs' ->
  Dashboard.extractAmount_fields (JObj fs) fields
  = Dashboard.extractAmount_fields (JObj fs') fields.
Proof.
  intro Hsame. induction fields as [| field rest IH]; [reflexivity |].
  cbn [Dashboard.extractAmount_fields get].
  pose proof (assoc_same_amount_text field Hsame) as Hfield.
  destruct (assoc fs field) as [v |], (assoc fs' field) as [v' |];
    try contradiction; [| exact IH].
  destruct Hfield as [<- | (s & t & -> & -> & Hclean)].
  - rewrite IH. reflexivity.
  - rewrite IH. cbn [truthy].
    destruct s as [| c s], t as [| d t]; cbn [is_empty negb].
    + reflexivity.
    + rewrite <- Hclean. change (Dashboard.cleanAmount []) with (@nil N).
      cbn [is_empty]. rewrite orb_true_r. reflexivity.
    + rewrite Hclean. change (Dashboard.cleanAmount []) with (@nil N).
      cbn [is_empty]. rewrite orb_true_r. reflexivity.
    + rewrite Hclean. reflexivity.
Qed.

(** The amount read from a record depends on its amount texts only through
    what is left of them once currency symbols, commas and white space are
    removed. *)
Theorem extractAmount_ignores_formatting (fs fs' : list (jsstring * json)) :
  Forall2 same_amount_text fs fs' ->
  Dashboard.extractAmount (JObj fs) = Dashboard.extractAmount (JObj fs').
Proof.
  intro Hsame. unfold Dashboard.extractAmount. cbn [truthy negb].
  apply extractAmount_fields_same, Hsame.
Qed.

End AmountFormatting.

Lemma extractAmount_ignores_formatting_witness :
  Dashboard.extractAmount (H := Reference.host)
    (JObj [(lit "total_amount", JStr Examples.rupees)])
  = Dashboard.extractAmount (H := Reference.host)
      (JObj [(lit "total_amount", JStr (lit "7468.00"))]).
Proof.
  apply (extractAmount_ignores_formatting (H := Reference.host)).
  constructor; [| constructor].
  split; [reflexivity |]. right.
  exists Examples.rupees, (lit "7468.00").
  split; [reflexivity |]. split; [reflexivity |]. vm_compute. reflexivity.
Defined.

Section UploadRuns.
Context `{Host}.

Lemma fail_invoice_run (invoice : Invoice) (message : jsstring) (w : World) :
  next_fault w = None ->
  existsb (fun i => str_eqb (invoice_id i) (invoice_id invoice)) (invoices (db w)) = true ->
  Upload.fail_invoice invoice message w =
  (Ok (failure_response invoice message),
   set_db (advance w)
     (update_rows (invoice_id invoice)
        (Upload.set_status_data st_error (failure_data message)) (db w))).
Proof.
  intros Hf Hex. unfold Upload.fail_invoice, failure_response, failure_data.
  destruct (includes message (lit "PDF_ENCRYPTED"));
    unfold bind, invoice_update, ret; rewrite (prisma_ok _ _ Hf), Hex; reflexivity.
Qed.

Lemma existsb_update_rows (id id' : jsstring) (data : Invoice -> Invoice) (d : DB) :
  (forall i, invoice_id (data i) = invoice_id i) ->
  existsb (fun i => str_eqb (invoice_id i) id') (invoices (update_rows id data d))
  = existsb (fun i => str_eqb (invoice_id i) id') (invoices d).
Proof.
  intro Hdata. cbn [update_rows invoices].
  induction (invoices d) as [| i l IH]; [reflexivity |].
  cbn [map existsb]. rewrite IH. f_equal.
  destruct (str_eqb (invoice_id i) id); [rewrite Hdata |]; reflexivity.
Qed.

Lemma find_existsb {A} (f : A -> bool) (l : list A) :
  existsb f l = true -> exists x, find f l = Some x.
Proof.
  induction l as [| a l IH]; [discriminate |].
  cbn [existsb find]. destruct (f a); [eexists; reflexivity | exact IH].
Qed.

(** The processed data are assembled without a Prisma call. *)
Lemma realProcessedData_eq (invoice : Invoice) (response : Upload.FetchResponse)
    (py : Upload.PythonService) (w : World) :
  Upload.realProcessedData invoice response py w
  = (Ok (sheet_data invoice response py w), after_sheet py w).
Proof.
  unfold Upload.realProcessedData, sheet_data, sheet_record, sheet_embedding, sheet_id,
    after_sheet, mock_vector.
  cbv zeta. destruct (Upload.api_embedding py) as [embedding | e]; [reflexivity |].
  rewrite upload_mock_embedding_run. rewrite map_map. reflexivity.
Qed.

Lemma after_sheet_db (py : Upload.PythonService) (w : World) :
  db (after_sheet py w) = db w /\ faults (after_sheet py w) = faults w.
Proof. unfold after_sheet. destruct (Upload.api_embedding py); split; reflexivity. Qed.

(** The route after the row exists, when no Prisma call fails. *)
Lemma finish_run (invoice : Invoice) (file : Upload.File) (py : Upload.PythonService)
    (w : World) :
  faults w = [] ->
  existsb (fun i => str_eqb (invoice_id i) (invoice_id invoice)) (invoices (db w)) = true ->
  match verdict file py invoice w with
  | Failed message =>
      try_catch (Upload.finish invoice file py) (Upload.outer_catch (Some invoice)) w =
      (Ok (failure_response invoice message),
       set_db (advance w)
         (update_rows (invoice_id invoice)
            (Upload.set_status_data st_error (failure_data message)) (db w)))
  | Processed extractedData classifiedData embeddings extra =>
      let d := update_rows (invoice_id invoice)
                 (Upload.set_processed extractedData classifiedData embeddings) (db w) in
      exists updated,
        find (fun i => str_eqb (invoice_id i) (invoice_id invoice)) (invoices d)
        = Some updated
        /\ try_catch (Upload.finish invoice file py) (Upload.outer_catch (Some invoice)) w =
           (Ok (mkResponse 200 (BJson (Upload.invoice_json updated extra))),
            set_db (advance (advance (before_update file py invoice w))) d)
  end.
Proof.
  intros Hf Hex.
  pose proof (next_fault_nil _ Hf) as Hn.
  pose proof (fun m => fail_invoice_run invoice m w Hn Hex) as Hfail.
  assert (Hupdate : forall v data,
             faults v = [] -> db v = db w ->
             (forall i, invoice_id (data i) = invoice_id i) ->
             invoice_update (invoice_id invoice) data v
             = (Ok tt, set_db (advance v) (update_rows (invoice_id invoice) data (db w)))
             /\ exists updated,
                  find (fun i => str_eqb (invoice_id i) (invoice_id invoice))
                       (invoices (update_rows (invoice_id invoice) data (db w)))
                  = Some updated
                  /\ invoice_findUnique (invoice_id invoice)
                       (set_db (advance v) (update_rows (invoice_id invoice) data (db w)))
                     = (Ok (Some updated),
                        set_db (advance (advance v))
                          (update_rows (invoice_id invoice) data (db w)))).
  { intros v data Hfv Hdv Hdata. split.
    - unfold invoice_update. rewrite (prisma_ok _ _ (next_fault_nil _ Hfv)), Hdv, Hex.
      reflexivity.
    - destruct (find_existsb _ _
                  (eq_trans (@existsb_update_rows (invoice_id invoice) (invoice_id invoice)
                               data (db w) Hdata) Hex))
        as [updated Hfind].
      exists updated. split; [exact Hfind |].
      unfold invoice_findUnique. rewrite prisma_ok.
      + cbn [fst snd db set_db]. rewrite Hfind. destruct v; reflexivity.
      + unfold next_fault. cbn. rewrite Hfv. reflexivity. }
  unfold verdict, before_update, Upload.finish, try_catch, bind, lift.
  destruct (Upload.file_arrayBuffer file) as [[] | e]; [| apply Hfail].
  unfold Upload.processing, try_catch, bind, lift. fold (is_sheet).
  destruct (Upload.py_fetch py) as [response | e].
  2: { unfold bind. rewrite Hfail. reflexivity. }
  destruct (Upload.resp_ok response); cbn [negb andb].
  2: { destruct (Upload.resp_text response) as [errorText | e];
       unfold throw, bind; rewrite Hfail; reflexivity. }
  change (match Upload.resp_contentType response with
          | Some contentType =>
              includes contentType (lit "spreadsheet")
              || includes contentType (lit "application/vnd.openxmlformats")
          | None => false
          end) with (is_sheet response).
  destruct (is_sheet response).
  - cbv zeta. rewrite realProcessedData_eq.
    destruct (after_sheet_db py w) as [Hdb Hfaults].
    match goal with
    | |- context [invoice_update _ ?f ?v] =>
        destruct (Hupdate v f (eq_trans Hfaults Hf) Hdb (fun _ => eq_refl))
          as (Hup & updated & Hfind & Hunique)
    end.
    exists updated. split; [exact Hfind |].
    rewrite Hup. cbv beta iota. unfold ret at 1. cbv beta iota.
    rewrite Hunique. reflexivity.
  - destruct (Upload.resp_json response) as [pythonResult | e].
    2: { unfold throw, bind. rewrite Hfail. reflexivity. }
    destruct pythonResult as [| b | x | s | items | fields];
      [unfold throw, bind; rewrite Hfail; reflexivity | ..];
      (destruct (otruthy (get _ (lit "error")));
       [unfold throw, bind; rewrite Hfail; reflexivity |]);
      match goal with
      | |- context [invoice_update _ ?data] =>
          destruct (Hupdate w data Hf eq_refl (fun _ => eq_refl))
            as (Hup & updated & Hfind & Hunique)
      end;
      exists updated; (split; [exact Hfind |]);
      rewrite Hup; unfold ret; cbv beta iota; rewrite Hunique; reflexivity.
Qed.

End UploadRuns.

(** ** Relations kept by every run *)

Section Preservation.
Context `{Host}.
Variable R : DB -> DB -> Prop.
Hypothesis R_refl : forall d, R d d.
Hypothesis R_trans : forall d1 d2 d3, R d1 d2 -> R d2 d3 -> R d1 d3.

Lemma preserves_ret {A} (a : A) : preserves R (ret a).
Proof. intros w r w' Hrun. injection Hrun as _ <-. apply R_refl. Qed.

Lemma preserves_throw {A} (e : jsstring) : preserves R (@throw A e).
Proof. intros w r w' Hrun. injection Hrun as _ <-. apply R_refl. Qed.

Lemma preserves_lift {A} (o : Outcome A) : preserves R (lift o).
Proof. intros w r w' Hrun. injection Hrun as _ <-. apply R_refl. Qed.

Lemma preserves_bind {A B} (m : M A) (k : A -> M B) :
  preserves R m -> (forall a, preserves R (k a)) -> preserves R (bind m k).
Proof.
  intros Hm Hk w r w' Hrun. unfold bind in Hrun.
  destruct (m w) as [[a | e] w1] eqn:E.
  - exact (R_trans (Hm _ _ _ E) (Hk a _ _ _ Hrun)).
  - injection Hrun as _ <-. exact (Hm _ _ _ E).
Qed.

Lemma preserves_try_catch {A} (m : M A) (h : jsstring -> M A) :
  preserves R m -> (forall e, preserves R (h e)) -> preserves R (try_catch m h).
Proof.
  intros Hm Hh w r w' Hrun. unfold try_catch in Hrun.
  destruct (m w) as [[a | e] w1] eqn:E.
  - injection Hrun as _ <-. exact (Hm _ _ _ E).
  - exact (R_trans (Hm _ _ _ E) (Hh e _ _ _ Hrun)).
Qed.

Lemma preserves_prisma {A} (op : DB -> Outcome A * DB) :
  (forall d, R d (snd (op d))) -> preserves R (prisma op).
Proof.
  intros Hop w r w' Hrun.
  destruct (prisma_cases op w) as [(e & _ & E) | (_ & E)];
    rewrite E in Hrun; injection Hrun as _ <-; [apply R_refl | apply Hop].
Qed.

Lemma preserves_prisma_create {A} (row : jsstring -> Z -> A) (store : A -> DB -> DB) :
  (forall a d, R d (store a d)) -> preserves R (prisma_create row store).
Proof.
  intros Hstore w r w' Hrun. unfold prisma_create in Hrun.
  destruct (next_fault w); injection Hrun as _ <-; [apply R_refl | apply Hstore].
Qed.

End Preservation.

Section UploadInvariant.
Context `{Host}.

Lemma same_identities_refl (d : DB) : same_identities d d.
Proof. repeat split. Qed.

Lemma same_identities_trans (d1 d2 d3 : DB) :
  same_identities d1 d2 -> same_identities d2 d3 -> same_identities d1 d3.
Proof.
  intros (U1 & C1 & M1 & S1 & I1) (U2 & C2 & M2 & S2 & I2).
  repeat split; congruence.
Qed.

Lemma same_identities_update (id : jsstring) (data : Invoice -> Invoice) :
  (forall i, identity_of (data i) = identity_of i) ->
  preserves same_identities (invoice_update id data).
Proof.
  intro Hdata. apply preserves_prisma; [apply same_identities_refl |].
  intro d. destruct (existsb _ (invoices d)); [| apply same_identities_refl].
  cbn [snd]. repeat split. cbn [invoices]. rewrite map_map. apply map_ext.
  intro i. destruct (str_eqb (invoice_id i) id); [apply Hdata | reflexivity].
Qed.

Lemma same_identities_findUnique (id : jsstring) :
  preserves same_identities (invoice_findUnique id).
Proof.
  apply preserves_prisma; [apply same_identities_refl |].
  intro d. apply same_identities_refl.
Qed.

Lemma same_identities_fail_invoice (invoice : Invoice) (message : jsstring) :
  preserves same_identities (Upload.fail_invoice invoice message).
Proof.
  unfold Upload.fail_invoice.
  destruct (includes message (lit "PDF_ENCRYPTED"));
    (apply preserves_bind;
     [apply same_identities_trans
     | apply same_identities_update; reflexivity
     | intro; apply preserves_ret, same_identities_refl]).
Qed.

Lemma same_identities_processing (invoice : Invoice) (py : Upload.PythonService) :
  preserves same_identities (Upload.processing invoice py).
Proof.
  pose proof same_identities_refl as Hr. pose proof same_identities_trans as Ht.
  unfold Upload.processing.
  apply preserves_bind; [exact Ht | apply preserves_lift, Hr |]. intro response.
  destruct (negb (Upload.resp_ok response)).
  { apply preserves_bind; [exact Ht | apply preserves_lift, Hr |].
    intro. apply preserves_throw, Hr. }
  match goal with |- preserves _ (if ?b then _ else _) => destruct b end.
  - apply preserves_bind; [exact Ht | |].
    { intros w r w' Hrun.
      destruct (realProcessedData_run invoice response py w) as (data & n & Hdata).
      rewrite Hdata in Hrun. injection Hrun as _ <-. apply Hr. }
    intro data. apply preserves_bind; [exact Ht | |].
    + apply preserves_try_catch; [exact Ht | | intro; apply preserves_ret, Hr].
      apply same_identities_update. reflexivity.
    + intros _. apply preserves_bind; [exact Ht | apply same_identities_findUnique |].
      intros [updated |]; [apply preserves_ret, Hr | apply preserves_throw, Hr].
  - apply preserves_try_catch; [exact Ht | | intro; apply preserves_throw, Hr].
    apply preserves_bind; [exact Ht | apply preserves_lift, Hr |]. intro pythonResult.
    destruct pythonResult; try apply preserves_throw, Hr;
      (destruct (otruthy _); [apply preserves_throw, Hr |]);
      (apply preserves_bind; [exact Ht | | intro; apply preserves_ret, Hr]);
      apply same_identities_update; reflexivity.
Qed.

Lemma same_identities_finish (invoice : Invoice) (file : Upload.File)
    (py : Upload.PythonService) :
  preserves same_identities
    (try_catch (Upload.finish invoice file py) (Upload.outer_catch (Some invoice))).
Proof.
  pose proof same_identities_refl as Hr. pose proof same_identities_trans as Ht.
  apply preserves_try_catch; [exact Ht | | intro; apply same_identities_fail_invoice].
  unfold Upload.finish.
  apply preserves_bind; [exact Ht | apply preserves_lift, Hr |]. intros _.
  apply preserves_bind; [exact Ht | |].
  - apply preserves_try_catch; [exact Ht | apply same_identities_processing |].
    intro message. apply preserves_bind; [exact Ht | apply same_identities_fail_invoice |].
    intro. apply preserves_ret, Hr.
  - intros [r |]; [apply preserves_ret, Hr |].
    apply preserves_bind; [exact Ht | apply same_identities_findUnique |].
    intros [updated |]; [apply preserves_ret, Hr | apply preserves_throw, Hr].
Qed.

(** What [start] does to the database: nothing, or one new row at the end
    of the invoice table. *)
Lemma start_cases (email : jsstring) (form : Outcome (option Upload.File))
    (w w1 : World) (r : Outcome Upload.Started) :
  Upload.start email form w = (r, w1) ->
  match r with
  | Ok (Upload.Created invoice file) =>
      exists u,
        find (fun x => str_eqb (user_email x) email) (users (db w)) = Some u
        /\ form = Ok (Some file)
        /\ invoice = new_row u file w
        /\ db w1 = mkDB (users (db w)) (chatSessions (db w)) (messages (db w))
                        (invoices (db w) ++ [invoice]) (invoiceSearches (db w))
  | _ => db w1 = db w
  end.
Proof.
  unfold Upload.start, bind, user_findUnique, prisma, lift, ret.
  destruct (next_fault w) as [e |] eqn:F1.
  { intro Hrun. injection Hrun as <- <-. reflexivity. }
  cbn [fst snd].
  destruct (find _ (users (db w))) as [u |] eqn:Hu.
  2: { intro Hrun. injection Hrun as <- <-. reflexivity. }
  destruct form as [[file |] | e].
  - unfold invoice_create, prisma_create.
    replace (next_fault (set_db (advance w) (db w))) with (next_fault (advance w))
      by reflexivity.
    destruct (next_fault (advance w)).
    + intro Hrun. injection Hrun as <- <-. reflexivity.
    + intro Hrun. injection Hrun as <- <-.
      exists u. repeat split.
  - intro Hrun. injection Hrun as <- <-. reflexivity.
  - intro Hrun. injection Hrun as <- <-. reflexivity.
Qed.

(** An upload never touches the users, the chats, the messages or the search
    log, and never rewrites the id, the owner, the file name or the creation
    time of an invoice row, nor removes or reorders rows; whatever it
    answers, and even when it throws, it has added at most one row, at the
    end of the table; without a session or without a file in the form it
    leaves the database as it was. *)
Theorem upload_keeps_rows (session : option Session) (form : Outcome (option Upload.File))
    (py : Upload.PythonService) (w w' : World) (r : Outcome Response) :
  Upload.POST session form py w = (r, w') ->
  users (db w') = users (db w)
  /\ chatSessions (db w') = chatSessions (db w)
  /\ messages (db w') = messages (db w)
  /\ invoiceSearches (db w') = invoiceSearches (db w)
  /\ (map identity_of (invoices (db w')) = map identity_of (invoices (db w))
      \/ exists u file,
           form = Ok (Some file)
           /\ map identity_of (invoices (db w'))
              = map identity_of (invoices (db w)) ++ [identity_of (new_row u file w)])
  /\ (session_user_email session = None \/ (forall file, form <> Ok (Some file)) ->
      db w' = db w).
Proof.
  unfold Upload.POST.
  destruct (session_user_email session) as [email |].
  2: { intro Hrun. injection Hrun as <- <-. repeat split; auto. }
  destruct (Upload.start email form w) as [[[resp | invoice file] | e] w1] eqn:Hstart;
    pose proof (start_cases _ _ _ Hstart) as Hdb; cbv beta iota in Hdb.
  - intro Hrun. injection Hrun as <- <-. rewrite Hdb. repeat split; auto.
  - intro Hrun.
    destruct Hdb as (u & Hu & -> & -> & Hdb).
    pose proof (same_identities_finish _ _ _ _ Hrun) as (U & C & M & S & I).
    rewrite Hdb in U, C, M, S, I.
    cbn [users chatSessions messages invoiceSearches invoices] in U, C, M, S, I.
    split; [exact U |]. split; [exact C |]. split; [exact M |]. split; [exact S |].
    split.
    + right. exists u, file. split; [reflexivity |].
      rewrite I, map_app. reflexivity.
    + intros [Hs | Hform]; [discriminate Hs |].
      exfalso. exact (Hform file eq_refl).
  - intro Hrun. unfold Upload.outer_catch, ret in Hrun. injection Hrun as <- <-.
    rewrite Hdb. repeat split; auto.
Qed.

End UploadInvariant.

Lemma upload_keeps_rows_witness :
  let w' := snd (Upload.POST (H := Reference.host) Examples.alice_session
                   (Ok (Some Examples.locked_pdf)) Examples.rejects_encrypted
                   Examples.sample_world) in
  users (db w') = users Examples.sample_db
  /\ messages (db w') = messages Examples.sample_db
  /\ map invoice_id (invoices (db w'))
     = [lit "i1"; lit "i2"; lit "i3"; lit "i4"; lit "i5"; lit "c0"].
Proof.
  intro w'.
  destruct (upload_keeps_rows (H := Reference.host) Examples.alice_session
              (Ok (Some Examples.locked_pdf)) Examples.rejects_encrypted
              Examples.sample_world
              (surjective_pairing _)) as (U & _ & M & _ & _ & _).
  split; [exact U |]. split; [exact M |]. vm_compute. reflexivity.
Defined.

Section UploadOutcomes.
Context `{Host}.

(** The route up to the creation of the row, when no Prisma call fails. *)
Lemma upload_POST_run (session : option Session) (email : jsstring) (u : User)
    (file : Upload.File) (py : Upload.PythonService) (w : World) :
  session_user_email session = Some email ->
  find (fun x => str_eqb (user_email x) email) (users (db w)) = Some u ->
  faults w = [] ->
  let invoice := new_row u file w in
  let w1 := mkWorld (mkDB (users (db w)) (chatSessions (db w)) (messages (db w))
                          (invoices (db w) ++ [invoice]) (invoiceSearches (db w)))
                    [] (S (S (queries w))) (S (created w)) (uuids w) (now w)
                    (random w) (draws w) in
  Upload.POST session (Ok (Some file)) py w
  = try_catch (Upload.finish invoice file py) (Upload.outer_catch (Some invoice)) w1
  /\ existsb (fun i => str_eqb (invoice_id i) (invoice_id invoice)) (invoices (db w1)) = true.
Proof.
  intros Hs Hu Hf invoice w1. split.
  - unfold Upload.POST. rewrite Hs.
    unfold Upload.start, bind, user_findUnique, prisma, lift, ret, invoice_create,
      prisma_create.
    rewrite (next_fault_nil _ Hf). cbn [fst snd]. rewrite Hu.
    replace (next_fault (set_db (advance w) (db w))) with (next_fault (advance w))
      by reflexivity.
    rewrite (next_fault_nil _ (advance_faults_nil _ Hf)).
    cbn [db set_db advance faults queries created uuids now random draws].
    rewrite Hf. reflexivity.
  - unfold w1. cbn [db invoices]. rewrite existsb_app. cbn [existsb].
    rewrite str_eqb_refl, orb_true_r. reflexivity.
Qed.

Lemma In_update_rows (id : jsstring) (data : Invoice -> Invoice) (d : DB) (i : Invoice) :
  (forall j, invoice_id (data j) = invoice_id j) ->
  In i (invoices (update_rows id data d)) ->
  invoice_id i = id ->
  exists j, In j (invoices d) /\ invoice_id j = id /\ i = data j.
Proof.
  intros Hdata Hin Hid. cbn [update_rows invoices] in Hin.
  apply in_map_iff in Hin. destruct Hin as (j & Hj & Hin).
  destruct (str_eqb (invoice_id j) id) eqn:E.
  - exists j. apply str_eqb_eq in E. auto.
  - subst i. rewrite Hid, str_eqb_refl in E. discriminate.
Qed.

(** When no Prisma call fails, the upload of a file always answers, with
    status 200, 400 or 500, and it never leaves the new row in the state
    [processing]: the row is [processed] when the answer is 200 and [error]
    otherwise. *)
Theorem upload_settles (session : option Session) (email : jsstring) (u : User)
    (file : Upload.File) (py : Upload.PythonService) (w : World) :
  session_user_email session = Some email ->
  find (fun x => str_eqb (user_email x) email) (users (db w)) = Some u ->
  faults w = [] ->
  exists resp w',
    Upload.POST session (Ok (Some file)) py w = (Ok resp, w')
    /\ In (status resp) [200; 400; 500]
    /\ (exists i, In i (invoices (db w')) /\ invoice_id i = cuid (created w))
    /\ (forall i, In i (invoices (db w')) -> invoice_id i = cuid (created w) ->
          invoice_status i = if Nat.eqb (status resp) 200 then st_processed else st_error).
Proof.
  intros Hs Hu Hf.
  destruct (@upload_POST_run session email u file py w Hs Hu Hf) as [Hrun Hex].
  cbv zeta in Hrun, Hex. rewrite Hrun.
  match type of Hex with
  | existsb _ (invoices (db ?w1)) = true =>
      pose proof (@finish_run _ (new_row u file w) file py w1 eq_refl Hex) as Hfinish
  end.
  assert (Hrow : forall data,
             (forall j, invoice_id (data j) = invoice_id j) ->
             forall d, existsb (fun i => str_eqb (invoice_id i) (cuid (created w)))
                               (invoices d) = true ->
             exists i, In i (invoices (update_rows (cuid (created w)) data d))
                       /\ invoice_id i = cuid (created w)).
  { intros data Hdata d Hd.
    rewrite <- (@existsb_update_rows (cuid (created w)) (cuid (created w)) data d Hdata)
      in Hd.
    apply existsb_exists in Hd. destruct Hd as (i & Hin & Hid).
    exists i. split; [exact Hin | apply str_eqb_eq, Hid]. }
  destruct (verdict file py _ _) as [e c emb extra | message].
  - destruct Hfinish as (updated & _ & ->). eexists. eexists.
    split; [reflexivity |]. split; [simpl; tauto |]. split.
    + apply Hrow; [reflexivity | exact Hex].
    + intros i Hin Hid. cbn [db set_db] in Hin.
      destruct (@In_update_rows (cuid (created w)) (Upload.set_processed e c emb) _ i
                  (fun _ => eq_refl) Hin Hid) as (j & _ & _ & ->).
      reflexivity.
  - rewrite Hfinish. eexists. eexists. split; [reflexivity |]. split; [| split].
    + unfold failure_response.
      destruct (includes message (lit "PDF_ENCRYPTED")); simpl; tauto.
    + apply Hrow; [reflexivity | exact Hex].
    + intros i Hin Hid. cbn [db set_db] in Hin.
      destruct (@In_update_rows (cuid (created w))
                  (Upload.set_status_data st_error (failure_data message)) _ i
                  (fun _ => eq_refl) Hin Hid) as (j & _ & _ & ->).
      unfold failure_response.
      destruct (includes message (lit "PDF_ENCRYPTED")); reflexivity.
Qed.

End UploadOutcomes.

Section UploadPaths.
Context `{Host}.

Lemma assoc_app (l1 l2 : list (jsstring * json)) (k : jsstring) :
  assoc (l1 ++ l2) k = match assoc l1 k with
                       | Some v => Some v
                       | None => assoc l2 k
                       end.
Proof.
  induction l1 as [| [k' v] l1 IH]; [reflexivity |].
  cbn [app assoc]. destruct (str_eqb k' k); [reflexivity | exact IH].
Qed.

Lemma assoc_raw_field (processedData : json) (name key : string) (k : jsstring) :
  str_eqb (lit name) k = false ->
  assoc (Upload.raw_field processedData name key) k = None.
Proof.
  intro Hk. unfold Upload.raw_field.
  destruct (get processedData (lit key)); [| reflexivity].
  cbn [assoc]. rewrite Hk. reflexivity.
Qed.

(** The record that is stored has no embedding of its own, and it names the
    invoice and its status. *)
Lemma record_fields (id : jsstring) (now : Z) (py : Upload.PythonService) :
  exists fields,
    match Upload.extracted_from_logs id now py with
    | Ok extracted => extracted
    | Throw _ => Upload.basic_data id now
    end = JObj fields
    /\ assoc fields (lit "embeddings") = None
    /\ assoc fields (lit "invoice_id") = Some (JStr id)
    /\ assoc fields (lit "status") = Some (JStr (lit "Successfully processed by AI")).
Proof.
  destruct (Upload.extracted_from_logs id now py) as [extracted | e] eqn:Hlogs.
  2: { eexists. split; [reflexivity |]. repeat split. }
  unfold Upload.extracted_from_logs in Hlogs.
  repeat match type of Hlogs with
         | and_then ?o _ = Ok _ =>
             destruct o; cbn [and_then] in Hlogs; [| discriminate Hlogs]
         | match ?x with _ => _ end = Ok _ => destruct x; try discriminate Hlogs
         end;
    apply (f_equal (fun o => match o with Ok x => x | Throw _ => JNull end)) in Hlogs;
    cbv beta iota in Hlogs; subst extracted; eexists; (split; [reflexivity |]);
    rewrite ?assoc_app, ?assoc_raw_field by reflexivity; repeat split; reflexivity.
Qed.

Ltac use_finish_run Hs Hu Hf :=
  match goal with
  | |- context [Upload.POST ?session (Ok (Some ?file)) ?py ?w] =>
      match type of Hu with
      | find _ _ = Some ?u =>
          let Hrun := fresh "Hrun" in
          let Hex := fresh "Hex" in
          let Hfinish := fresh "Hfinish" in
          destruct (@upload_POST_run _ session _ u file py w Hs Hu Hf) as [Hrun Hex];
          cbv zeta in Hrun, Hex; rewrite Hrun;
          match type of Hex with
          | existsb _ (invoices (db ?w1)) = true =>
              pose proof (@finish_run _ (new_row u file w) file py w1 eq_refl Hex)
                as Hfinish
          end
      end
  end.

(** A file that the invoice service refuses with an HTTP error, other than
    for encryption, is answered with status 500; the row is marked [error],
    and both the answer and the row carry the status line and the body of
    the refusal as [details]. *)
Theorem upload_service_failure (session : option Session) (email errorText : jsstring)
    (u : User) (file : Upload.File) (py : Upload.PythonService)
    (response : Upload.FetchResponse) (w : World) :
  session_user_email session = Some email ->
  find (fun x => str_eqb (user_email x) email) (users (db w)) = Some u ->
  faults w = [] ->
  Upload.file_arrayBuffer file = Ok tt ->
  Upload.py_fetch py = Ok response ->
  Upload.resp_ok response = false ->
  Upload.resp_text response = Ok errorText ->
  let details :=
    lit "Python service returned " ++ decimal (Upload.resp_status response)
    ++ lit ": " ++ Upload.resp_statusText response ++ lit " - " ++ errorText in
  includes details (lit "PDF_ENCRYPTED") = false ->
  exists w',
    Upload.POST session (Ok (Some file)) py w =
    (Ok (mkResponse 500
           (BJson (JObj [(lit "error", JStr (lit "Processing failed"));
                         (lit "details", JStr details);
                         (lit "id", JStr (cuid (created w)));
                         (lit "status", JStr (lit "error"))]))), w')
    /\ forall i, In i (invoices (db w')) -> invoice_id i = cuid (created w) ->
         invoice_status i = st_error
         /\ invoice_extractedData i
            = JObj [(lit "error", JStr (lit "Processing failed"));
                    (lit "details", JStr details)].
Proof.
  intros Hs Hu Hf Hbuffer Hfetch Hok Htext details Hplain.
  use_finish_run Hs Hu Hf.
  unfold verdict in Hfinish. rewrite Hbuffer, Hfetch, Hok, Htext in Hfinish.
  cbn [negb] in Hfinish. fold details in Hfinish. unfold not_ok_message in Hfinish.
  fold details in Hfinish.
  unfold failure_response, failure_data in Hfinish. rewrite Hplain in Hfinish.
  rewrite Hfinish. eexists. split; [reflexivity |].
  intros i Hin Hid. cbn [db set_db] in Hin.
  match type of Hin with
  | In _ (invoices (update_rows _ ?data _)) =>
      destruct (@In_update_rows (cuid (created w)) data _ i (fun _ => eq_refl) Hin Hid)
        as (j & _ & _ & ->)
  end.
  split; reflexivity.
Qed.

(** An error that the invoice service reports inside a JSON body, with an
    HTTP status 2xx, is answered with status 500 and the details "Invalid
    response from Python service", whatever the error says: the special case
    for encrypted PDFs does not apply to it. *)
Theorem upload_inband_error_masked (session : option Session) (email : jsstring)
    (u : User) (file : Upload.File) (py : Upload.PythonService)
    (response : Upload.FetchResponse) (pythonResult : json) (w : World) :
  session_user_email session = Some email ->
  find (fun x => str_eqb (user_email x) email) (users (db w)) = Some u ->
  faults w = [] ->
  Upload.file_arrayBuffer file = Ok tt ->
  Upload.py_fetch py = Ok response ->
  Upload.resp_ok response = true ->
  is_sheet response = false ->
  Upload.resp_json response = Ok pythonResult ->
  otruthy (get pythonResult (lit "error")) = true ->
  exists w',
    Upload.POST session (Ok (Some file)) py w =
    (Ok (mkResponse 500
           (BJson (JObj [(lit "error", JStr (lit "Processing failed"));
                         (lit "details", JStr (lit "Invalid response from Python service"));
                         (lit "id", JStr (cuid (created w)));
                         (lit "status", JStr (lit "error"))]))), w')
    /\ forall i, In i (invoices (db w')) -> invoice_id i = cuid (created w) ->
         invoice_status i = st_error
         /\ invoice_extractedData i
            = JObj [(lit "error", JStr (lit "Processing failed"));
                    (lit "details", JStr (lit "Invalid response from Python service"))].
Proof.
  intros Hs Hu Hf Hbuffer Hfetch Hok Hsheet Hjson Herror.
  use_finish_run Hs Hu Hf.
  assert (Hverdict : forall invoice v, verdict file py invoice v = Failed invalid_response).
  { intros invoice v. unfold verdict. rewrite Hbuffer, Hfetch, Hok, Hsheet, Hjson. cbn [negb].
    destruct pythonResult; try (rewrite Herror; reflexivity). reflexivity. }
  rewrite Hverdict in Hfinish.
  unfold failure_response, failure_data in Hfinish.
  replace (includes invalid_response (lit "PDF_ENCRYPTED")) with false in Hfinish
    by (vm_compute; reflexivity).
  rewrite Hfinish. eexists. split; [reflexivity |].
  intros i Hin Hid. cbn [db set_db] in Hin.
  match type of Hin with
  | In _ (invoices (update_rows _ ?data _)) =>
      destruct (@In_update_rows (cuid (created w)) data _ i (fun _ => eq_refl) Hin Hid)
        as (j & _ & _ & ->)
  end.
  split; reflexivity.
Qed.

(** When the invoice service answers with a spreadsheet, the route answers
    200 with the row as it is stored, and the row is [processed].  Its
    extracted and classified data are one record: the record read from the
    latest log of the service, or the basic record when the log cannot be
    read, with the identifier given by the service or else that of the row,
    and with the embedding given by the embeddings API or else 1536 random
    numbers between -0.5 and 0.5.  Its embeddings column is the JSON text of
    the embedding of that record, or of the empty array when the embedding
    is falsy. *)
Theorem upload_processed_sheet (session : option Session) (email : jsstring)
    (u : User) (file : Upload.File) (py : Upload.PythonService)
    (response : Upload.FetchResponse) (w : World) :
  session_user_email session = Some email ->
  find (fun x => str_eqb (user_email x) email) (users (db w)) = Some u ->
  faults w = [] ->
  Upload.file_arrayBuffer file = Ok tt ->
  Upload.py_fetch py = Ok response ->
  Upload.resp_ok response = true ->
  is_sheet response = true ->
  let id := cuid (created w) in
  let invoiceIdFromPython :=
    match Upload.resp_invoiceId response with
    | Some named => if is_empty named then id else named
    | None => id
    end in
  let record :=
    match Upload.extracted_from_logs invoiceIdFromPython (now w) py with
    | Ok extracted => extracted
    | Throw _ => Upload.basic_data invoiceIdFromPython (now w)
    end in
  let embedding :=
    match Upload.api_embedding py with
    | Ok given => given
    | Throw _ =>
        Some (JArr (map (fun k => JNum (random w k - 0.5)%float) (seq (draws w) 1536)))
    end in
  let realProcessedData := Upload.with_embeddings record embedding in
  exists updated w',
    Upload.POST session (Ok (Some file)) py w =
    (Ok (mkResponse 200
           (BJson (Upload.invoice_json updated
                     [(lit "message", JStr (lit "Invoice processed successfully with AI"))]))),
     w')
    /\ In updated (invoices (db w'))
    /\ invoice_id updated = id
    /\ (forall i, In i (invoices (db w')) -> invoice_id i = id ->
          invoice_status i = st_processed
          /\ invoice_extractedData i = realProcessedData
          /\ invoice_classifiedData i = realProcessedData
          /\ invoice_embeddings i
             = Some (JSON_stringify
                       (Upload.or_else (get realProcessedData (lit "embeddings"))
                                       (JArr []))))
    /\ get realProcessedData (lit "embeddings") = embedding
    /\ get realProcessedData (lit "invoice_id") = Some (JStr invoiceIdFromPython)
    /\ get realProcessedData (lit "status")
       = Some (JStr (lit "Successfully processed by AI")).
Proof.
  intros Hs Hu Hf Hbuffer Hfetch Hok Hsheet id invoiceIdFromPython record embedding
    realProcessedData.
  use_finish_run Hs Hu Hf.
  unfold verdict in Hfinish. rewrite Hbuffer, Hfetch, Hok, Hsheet in Hfinish.
  cbn [negb] in Hfinish. destruct Hfinish as (updated & Hfind & ->).
  exists updated. eexists. split; [reflexivity |].
  apply find_some in Hfind. destruct Hfind as [Hin Hid]. apply str_eqb_eq in Hid.
  split; [exact Hin |]. split; [exact Hid |]. split.
  - intros i Hi Hi_id. cbn [db set_db] in Hi.
    match type of Hi with
    | In _ (invoices (update_rows _ ?data _)) =>
        destruct (@In_update_rows (cuid (created w)) data _ i (fun _ => eq_refl) Hi Hi_id)
          as (j & _ & _ & ->)
    end.
    repeat split.
  - destruct (record_fields invoiceIdFromPython (now w) py)
      as (fields & Hrecord & Hnone & Hnamed & Hstatus).
    fold record in Hrecord. unfold realProcessedData. rewrite Hrecord.
    destruct embedding as [e |]; cbn [Upload.with_embeddings get].
    + rewrite !assoc_app, Hnone, Hnamed, Hstatus. cbn [assoc].
      rewrite str_eqb_refl. repeat split.
    + rewrite Hnone, Hnamed, Hstatus. repeat split.
Qed.

(** A form without a file is answered with status 400 after the lookup of
    the user, the only Prisma call, and nothing is written. *)
Theorem upload_without_file (session : option Session) (email : jsstring) (u : User)
    (py : Upload.PythonService) (w : World) :
  session_user_email session = Some email ->
  find (fun x => str_eqb (user_email x) email) (users (db w)) = Some u ->
  next_fault w = None ->
  Upload.POST session (Ok None) py w
  = (Ok (json_error 400 "No file provided"), advance w)
  /\ db (advance w) = db w.
Proof.
  intros Hs Hu Hf. split; [| reflexivity].
  unfold Upload.POST. rewrite Hs.
  unfold Upload.start, bind, user_findUnique, prisma, lift, ret.
  rewrite Hf. cbn [fst snd]. rewrite Hu. destruct w; reflexivity.
Qed.

End UploadPaths.

Lemma upload_settles_witness :
  exists resp w',
    Upload.POST (H := Reference.host) Examples.alice_session
      (Ok (Some UploadCases.report_pdf)) UploadCases.returns_sheet Examples.sample_world
    = (Ok resp, w')
    /\ In (status resp) [200; 400; 500]
    /\ exists i, In i (invoices (db w')) /\ invoice_id i = lit "c0".
Proof.
  destruct (@upload_settles Reference.host Examples.alice_session
              (lit "alice@example.com") Examples.alice UploadCases.report_pdf
              UploadCases.returns_sheet Examples.sample_world eq_refl eq_refl eq_refl)
    as (resp & w' & Hrun & Hstatus & Hrow & _).
  exists resp, w'. split; [exact Hrun |]. split; [exact Hstatus | exact Hrow].
Defined.

Lemma upload_service_failure_witness :
  exists w',
    Upload.POST (H := Reference.host) Examples.alice_session
      (Ok (Some UploadCases.report_pdf)) UploadCases.service_down Examples.sample_world
    = (Ok (mkResponse 500
             (BJson (JObj [(lit "error", JStr (lit "Processing failed"));
                           (lit "details",
                            JStr (lit "Python service returned 503: Service Unavailable - upstream down"));
                           (lit "id", JStr (lit "c0"));
                           (lit "status", JStr (lit "error"))]))), w').
Proof.
  destruct (@upload_service_failure Reference.host Examples.alice_session
              (lit "alice@example.com") (lit "upstream down") Examples.alice
              UploadCases.report_pdf UploadCases.service_down
              (Upload.mkFetchResponse false 503 (lit "Service Unavailable")
                 (Some (lit "text/plain")) None (Ok (lit "upstream down"))
                 (Throw (lit "Unexpected token")))
              Examples.sample_world
              eq_refl eq_refl eq_refl eq_refl eq_refl eq_refl eq_refl eq_refl)
    as (w' & Hrun & _).
  exists w'. exact Hrun.
Defined.

Lemma upload_inband_error_masked_witness :
  exists w',
    Upload.POST (H := Reference.host) Examples.alice_session
      (Ok (Some UploadCases.report_pdf)) UploadCases.reports_encrypted
      Examples.sample_world
    = (Ok (mkResponse 500
             (BJson (JObj [(lit "error", JStr (lit "Processing failed"));
                           (lit "details",
                            JStr (lit "Invalid response from Python service"));
                           (lit "id", JStr (lit "c0"));
                           (lit "status", JStr (lit "error"))]))), w').
Proof.
  destruct (@upload_inband_error_masked Reference.host Examples.alice_session
              (lit "alice@example.com") Examples.alice
              UploadCases.report_pdf UploadCases.reports_encrypted
              (Upload.mkFetchResponse true 200 (lit "OK")
                 (Some (lit "application/json")) None (Ok [])
                 (Ok (JObj [(lit "error",
                             JStr (lit "PDF_ENCRYPTED: password required"))])))
              (JObj [(lit "error", JStr (lit "PDF_ENCRYPTED: password required"))])
              Examples.sample_world
              eq_refl eq_refl eq_refl eq_refl eq_refl eq_refl eq_refl eq_refl eq_refl)
    as (w' & Hrun & _).
  exists w'. exact Hrun.
Defined.

Lemma upload_processed_sheet_witness :
  exists updated w',
    Upload.POST (H := Reference.host) Examples.alice_session
      (Ok (Some UploadCases.report_pdf)) UploadCases.returns_sheet Examples.sample_world
    = (Ok (mkResponse 200
             (BJson (Upload.invoice_json (H := Reference.host) updated
                       [(lit "message",
                         JStr (lit "Invoice processed successfully with AI"))]))), w')
    /\ invoice_status updated = st_processed
    /\ invoice_extractedData updated = UploadCases.sheet_data
    /\ invoice_classifiedData updated = UploadCases.sheet_data
    /\ invoice_embeddings updated = Some (lit "[0.25,-0.5]").
Proof.
  destruct (@upload_processed_sheet Reference.host Examples.alice_session
              (lit "alice@example.com") Examples.alice
              UploadCases.report_pdf UploadCases.returns_sheet
              UploadCases.sheet_response Examples.sample_world
              eq_refl eq_refl eq_refl eq_refl eq_refl eq_refl eq_refl)
    as (updated & w' & Hrun & Hin & Hid & Hrow & _).
  exists updated, w'. split; [exact Hrun |].
  destruct (Hrow updated Hin Hid) as (Hstatus & Hdata & Hclassified & Hemb).
  split; [exact Hstatus |]. split; [exact Hdata |]. split; [exact Hclassified | exact Hemb].
Defined.

Lemma upload_without_file_witness :
  Upload.POST (H := Reference.host) Examples.alice_session (Ok None)
    UploadCases.returns_sheet Examples.sample_world
  = (Ok (json_error 400 "No file provided"), advance Examples.sample_world).
Proof.
  exact (proj1 (@upload_without_file Reference.host Examples.alice_session
                  (lit "alice@example.com") Examples.alice UploadCases.returns_sheet
                  Examples.sample_world eq_refl eq_refl eq_refl)).
Defined.

Section SearchRuns.
Context `{Host}.
Local Open Scope float_scope.

(** The search route, whatever the faults its three Prisma calls meet. *)
Lemma search_GET_cases (session : option Session) (email query : jsstring) (w : World) :
  session_user_email session = Some email ->
  Search.GET session query w =
  match next_fault w with
  | Some _ => (Ok (json_error 500 "Search failed"), advance w)
  | None =>
      match find (fun x => str_eqb (user_email x) email) (users (db w)) with
      | None => (Ok (json_error 404 "User not found"), advance w)
      | Some u =>
          match next_fault (advance w) with
          | Some _ => (Ok (json_error 500 "Search failed"), advance (advance w))
          | None =>
              let found := sort newer (processed_of (db w) (user_id u)) in
              let results :=
                JArr (Search.format_from query 0 (search_results query found w)) in
              let w3 := after_embedding query (advance (advance w)) in
              match next_fault (advance (advance w)) with
              | Some _ => (Ok (json_error 500 "Search failed"), advance w3)
              | None =>
                  (Ok (mkResponse 200 (BJson results)),
                   set_db (advance w3)
                     (logged (db w) (mkInvoiceSearch (user_id u) query results)))
              end
          end
      end
  end.
Proof.
  intro Hs. unfold Search.GET. rewrite Hs.
  unfold search_results, after_embedding.
  change (negb (is_empty query) && trim_truthy query) with (nonblank query).
  unfold try_catch, bind, user_findUnique, invoice_findMany_desc, invoiceSearch_create,
    prisma, ret.
  destruct w as [d fs q cr uu t rnd dr].
  unfold next_fault, advance, set_db.
  cbn [db faults queries created uuids now random draws fst snd].
  destruct fs as [| [e1 |] fs]; cbn [tl]; try reflexivity;
    (destruct (find _ (users d)) as [u |]; [| reflexivity]);
    cbn [db faults queries created uuids now random draws fst snd tl].
  - fold (processed_of d (user_id u)).
    destruct (nonblank query).
    + rewrite mock_embedding_run.
      cbn [db faults queries created uuids now random draws fst snd tl drawn].
      reflexivity.
    + reflexivity.
  - destruct fs as [| [e2 |] fs]; cbn [tl]; try reflexivity;
      fold (processed_of d (user_id u));
      (destruct (nonblank query);
       [rewrite mock_embedding_run |]);
      cbn [db faults queries created uuids now random draws fst snd tl drawn];
      try reflexivity;
      destruct fs as [| [e3 |] fs]; reflexivity.
Qed.

End SearchRuns.

Section SearchExtras.
Context `{Host}.

(** The search route never throws; it answers 200, 401, 404 or 500.  It
    never touches the users, the chats, the messages or the invoices; an
    answer 200 has added exactly one row to the search log, holding the
    query and the results that were returned, and any other answer has left
    the database as it was. *)
Theorem search_only_logs (session : option Session) (query : jsstring) (w : World) :
  exists resp w',
    Search.GET session query w = (Ok resp, w')
    /\ In (status resp) [200; 401; 404; 500]
    /\ users (db w') = users (db w)
    /\ chatSessions (db w') = chatSessions (db w)
    /\ messages (db w') = messages (db w)
    /\ invoices (db w') = invoices (db w)
    /\ (status resp = 200 ->
        exists userId results,
          body resp = BJson results
          /\ invoiceSearches (db w')
             = invoiceSearches (db w) ++ [mkInvoiceSearch userId query results])
    /\ (status resp <> 200 -> db w' = db w).
Proof.
  destruct (session_user_email session) as [email |] eqn:Hs.
  2: { unfold Search.GET. rewrite Hs. eexists. eexists. split; [reflexivity |].
       simpl. repeat split; auto. intro Hn. discriminate Hn. }
  rewrite (@search_GET_cases _ session email query w Hs).
  destruct (next_fault w).
  { eexists. eexists. split; [reflexivity |]. simpl. repeat split; auto.
    intro Hn. discriminate Hn. }
  destruct (find _ (users (db w))) as [u |].
  2: { eexists. eexists. split; [reflexivity |]. simpl. repeat split; auto.
       intro Hn. discriminate Hn. }
  destruct (next_fault (advance w)).
  { eexists. eexists. split; [reflexivity |]. simpl. repeat split; auto.
    intro Hn. discriminate Hn. }
  cbv zeta.
  destruct (next_fault (advance (advance w))).
  - eexists. eexists. split; [reflexivity |]. unfold after_embedding.
    destruct (nonblank query); simpl; repeat split; auto; intro Hn; discriminate Hn.
  - eexists. eexists. split; [reflexivity |]. cbn [status body db set_db logged users
      chatSessions messages invoices invoiceSearches].
    split; [simpl; tauto |]. repeat split.
    + intros _. eexists. eexists. split; reflexivity.
    + intro Hn. contradiction Hn. reflexivity.
Qed.

Lemma newer_consistent (l : list Invoice) : consistent newer l.
Proof.
  unfold newer. split.
  - intros x y _ _ Hxy. apply Z.ltb_lt in Hxy. apply Z.ltb_ge. lia.
  - intros x y z _ _ _ Hyx Hzy. apply Z.ltb_ge in Hyx, Hzy. apply Z.ltb_ge. lia.
Qed.

Lemma sort_newest_first (l : list Invoice) : newest_first (sort newer l).
Proof.
  unfold newest_first.
  apply (StronglySorted_weaken (R := in_order newer)); [| apply sort_sorted, newer_consistent].
  intros a b _ _ Hab. unfold in_order, newer in Hab. apply Z.ltb_ge in Hab. exact Hab.
Qed.

(** A search with an empty or blank query lists all the processed invoices
    of the user, newest first, and draws no random number: it is a function
    of the database. *)
Theorem search_blank_lists_all (session : option Session) (email query : jsstring)
    (u : User) (w : World) :
  session_user_email session = Some email ->
  find (fun x => str_eqb (user_email x) email) (users (db w)) = Some u ->
  faults w = [] ->
  nonblank query = false ->
  exists found w',
    Search.GET session query w
    = (Ok (mkResponse 200 (BJson (JArr (Search.format_from query 0 found)))), w')
    /\ Permutation found (processed_of (db w) (user_id u))
    /\ newest_first found
    /\ draws w' = draws w.
Proof.
  intros Hs Hu Hf Hblank.
  rewrite (@search_GET_cases _ session email query w Hs), Hu.
  rewrite (next_fault_nil _ Hf), (next_fault_nil _ (advance_faults_nil _ Hf)).
  cbv zeta.
  rewrite (next_fault_nil _ (advance_faults_nil _ (advance_faults_nil _ Hf))).
  unfold search_results, after_embedding. rewrite Hblank.
  eexists. eexists. split; [reflexivity |].
  split; [apply Permutation_sym, sort_perm |].
  split; [apply sort_newest_first | reflexivity].
Qed.

Lemma score_invoice_invoice (query : jsstring) (mock : list number) (i : Invoice) :
  Search.invoice (Search.score_invoice query mock i) = i.
Proof.
  unfold Search.score_invoice.
  destruct (invoice_embeddings i) as [text |]; [| reflexivity].
  destruct (is_empty text); [reflexivity |].
  destruct (JSON_parse text) as [[| b | x | s | items | fs] | e]; try reflexivity.
  destruct (Search.dot_from _ _ _ _); [| reflexivity].
  destruct (Search.squares_from _ _); [| reflexivity].
  cbv zeta. destruct (includes _ _); reflexivity.
Qed.

(** Only an invoice whose stored embeddings parse as an array can score
    above the threshold. *)
Lemma score_invoice_usable (query : jsstring) (mock : list number) (i : Invoice) :
  (0.1 <? Search.similarity (Search.score_invoice query mock i))%float = true ->
  exists text items,
    invoice_embeddings i = Some text /\ text <> [] /\ JSON_parse text = Ok (JArr items).
Proof.
  unfold Search.score_invoice.
  destruct (invoice_embeddings i) as [text |];
    [| intro Hn; vm_compute in Hn; discriminate Hn].
  destruct text as [| c text]; [intro Hn; vm_compute in Hn; discriminate Hn |].
  cbn [is_empty].
  destruct (JSON_parse (c :: text)) as [[| b | x | s | items | fs] | e] eqn:Hparse;
    try (intro Hn; cbn [Search.similarity] in Hn; vm_compute in Hn; discriminate Hn).
  intros _. exists (c :: text), items.
  split; [reflexivity |]. split; [discriminate | exact Hparse].
Qed.

(** A search with a query that is not blank returns at most 10 invoices,
    all of them processed invoices of the user whose stored embeddings parse
    as an array: an invoice without usable embeddings is never returned,
    even when its data contain the query. *)
Theorem search_results_scored (session : option Session) (email query : jsstring)
    (u : User) (w : World) :
  session_user_email session = Some email ->
  find (fun x => str_eqb (user_email x) email) (users (db w)) = Some u ->
  faults w = [] ->
  nonblank query = true ->
  exists results w',
    Search.GET session query w
    = (Ok (mkResponse 200 (BJson (JArr (Search.format_from query 0 results)))), w')
    /\ length results <= 10
    /\ forall i, In i results ->
         In i (processed_of (db w) (user_id u))
         /\ exists text items,
              invoice_embeddings i = Some text /\ text <> []
              /\ JSON_parse text = Ok (JArr items).
Proof.
  intros Hs Hu Hf Hquery.
  rewrite (@search_GET_cases _ session email query w Hs), Hu.
  rewrite (next_fault_nil _ Hf), (next_fault_nil _ (advance_faults_nil _ Hf)).
  cbv zeta.
  rewrite (next_fault_nil _ (advance_faults_nil _ (advance_faults_nil _ Hf))).
  eexists. eexists. split; [reflexivity |].
  unfold search_results. rewrite Hquery. cbv zeta. split.
  - rewrite length_map. apply firstn_le_length.
  - intros i Hi. apply in_map_iff in Hi. destruct Hi as (item & <- & Hitem).
    apply firstn_In, sort_In, filter_In in Hitem. destruct Hitem as [Hitem Hsim].
    apply in_map_iff in Hitem. destruct Hitem as (i0 & <- & Hi0).
    rewrite score_invoice_invoice. split.
    + apply sort_In in Hi0. exact Hi0.
    + exact (score_invoice_usable _ _ _ Hsim).
Qed.

End SearchExtras.

Lemma search_blank_lists_all_witness :
  exists found w',
    Search.GET (H := Reference.host) Examples.alice_session [] Examples.sample_world
    = (Ok (mkResponse 200
             (BJson (JArr (Search.format_from [] 0 found)))), w')
    /\ map invoice_id found = [lit "i1"; lit "i2"; lit "i5"]
    /\ draws w' = 0.
Proof.
  destruct (@search_blank_lists_all Reference.host Examples.alice_session
              (lit "alice@example.com") [] Examples.alice Examples.sample_world
              eq_refl eq_refl eq_refl eq_refl)
    as (found & w' & Hrun & _ & _ & Hdraws).
  pose proof (f_equal (fun p => Examples.result_ids (fst p)) Hrun) as Hids.
  cbn [fst Examples.result_ids] in Hids. rewrite result_ids_format in Hids.
  exists found, w'. split; [exact Hrun |]. split; [| exact Hdraws].
  rewrite <- Hids. vm_compute. reflexivity.
Defined.

Lemma search_results_scored_witness :
  exists results w',
    Search.GET (H := Reference.host) Examples.alice_session (lit "zzz")
      (Examples.compass_world 0.75%float 0.25%float)
    = (Ok (mkResponse 200
             (BJson (JArr (Search.format_from (lit "zzz") 0 results)))),
       w')
    /\ map invoice_id results = [lit "e"].
Proof.
  destruct (@search_results_scored Reference.host Examples.alice_session
              (lit "alice@example.com") (lit "zzz") Examples.alice
              (Examples.compass_world 0.75%float 0.25%float)
              eq_refl eq_refl eq_refl eq_refl)
    as (results & w' & Hrun & _ & _).
  pose proof (f_equal (fun p => Examples.result_ids (fst p)) Hrun) as Hids.
  cbn [fst Examples.result_ids] in Hids. rewrite result_ids_format in Hids.
  exists results, w'. split; [exact Hrun |].
  rewrite <- Hids. vm_compute. reflexivity.
Defined.

Section ChatSteps.
Context `{Host}.

Lemma wp_read {A} (op : DB -> Outcome A * DB) (Q : A -> World -> Prop) (w : World)
    (d : DB) (n k : nat) (a : A) :
  facts w d n k ->
  op d = (Ok a, d) ->
  (forall w', facts w' d n k -> Q a w') ->
  wp (prisma op) Q w.
Proof.
  intros (Hf & Hd & Hn & Hk) Hop HQ.
  eapply wp_prisma; [exact Hf | rewrite Hd; exact Hop |].
  apply HQ. unfold facts. cbn. rewrite Hf. auto.
Qed.

Lemma wp_create {A} (row : jsstring -> Z -> A) (store : A -> DB -> DB)
    (Q : A -> World -> Prop) (w : World) (d : DB) (n k : nat) :
  facts w d n k ->
  (forall w', facts w' (store (row (cuid n) (now w)) d) (S n) k ->
              Q (row (cuid n) (now w)) w') ->
  wp (prisma_create row store) Q w.
Proof.
  intros (Hf & Hd & Hn & Hk) HQ.
  apply wp_prisma_create; [exact Hf |].
  rewrite Hn, Hd. apply HQ. unfold facts. cbn. auto.
Qed.

Lemma wp_uuid (Q : jsstring -> World -> Prop) (w : World) (d : DB) (n k : nat) :
  facts w d n k ->
  (forall w', facts w' d n (S k) -> Q (randomUUID k) w') ->
  wp crypto_randomUUID Q w.
Proof.
  intros (Hf & Hd & Hn & Hk) HQ.
  eexists. eexists. split; [reflexivity |].
  rewrite Hk. apply HQ. unfold facts. cbn. auto.
Qed.

Lemma wp_stream (chat : ChatSession) (messageId text : jsstring)
    (Q : list Frame -> World -> Prop) (w : World) (d : DB) (n k : nat) :
  facts w d n k ->
  (forall w',
      facts w' (mkDB (users d) (chatSessions d)
                     (messages d ++ [mkMessage (cuid n) (chat_id chat) role_assistant text])
                     (invoices d) (invoiceSearches d)) (S n) k ->
      Q (FStart (chat_id chat) messageId
         :: map (fun c => FChunk [c] (chat_id chat)) text
         ++ [FDone messageId text (chat_id chat)]) w') ->
  wp (Chat.stream_start chat messageId text) Q w.
Proof.
  intros (Hf & Hd & Hn & Hk) HQ.
  apply wp_stream_start; [exact Hf |].
  apply HQ. unfold message_create, prisma_create.
  rewrite (next_fault_nil _ Hf). unfold facts. cbn. rewrite Hf, Hd, Hn, Hk. auto.
Qed.

(** A chat request with a non-empty prompt, when no Prisma call fails. *)
Lemma chat_POST_run (session : option Session) (email prompt text : jsstring)
    (req : Chat.ChatRequest) (w : World) :
  session_user_email session = Some email ->
  Chat.req_prompt req = Some (JStr prompt) ->
  prompt <> [] ->
  faults w = [] ->
  let found := find (fun x => str_eqb (user_email x) email) (users (db w)) in
  let u := acting_user session email w in
  let n0 := match found with Some _ => 0 | None => 1 end + created w in
  let existing := requested_chat req u (db w) in
  let c := match existing with
           | Some c => c
           | None => mkChatSession (cuid n0) (user_id u) (firstn 32 prompt)
           end in
  let n1 := match existing with Some _ => 0 | None => 1 end + n0 in
  let messageId := randomUUID (uuids w) in
  exists w',
    Chat.POST session req text w =
    (Ok (mkResponse 200
           (BStream (FStart (chat_id c) messageId
                     :: map (fun ch => FChunk [ch] (chat_id c)) text
                     ++ [FDone messageId text (chat_id c)]))), w')
    /\ db w' =
       mkDB (match found with Some _ => users (db w) | None => users (db w) ++ [u] end)
            (match existing with
                               | Some _ => chatSessions (db w)
                               | None => chatSessions (db w) ++ [c]
                               end)
            (messages (db w)
             ++ [mkMessage (cuid n1) (chat_id c) role_user prompt;
                 mkMessage (cuid (S n1)) (chat_id c) role_assistant text])
            (invoices (db w)) (invoiceSearches (db w)).
Proof.
  intros Hs Hp Hne Hf found u n0 existing c n1 messageId.
  assert (Htitle : (if is_empty (slice0 32 prompt) then lit "New chat" else slice0 32 prompt)
                   = firstn 32 prompt)
    by (destruct prompt as [| ch p]; [contradiction | reflexivity]).
  enough (Hwp : wp (Chat.POST session req text)
                   (fun resp w' =>
                      resp = mkResponse 200
                               (BStream (FStart (chat_id c) messageId
                                         :: map (fun ch => FChunk [ch] (chat_id c)) text
                                         ++ [FDone messageId text (chat_id c)]))
                      /\ db w' =
                         mkDB (match found with Some _ => users (db w) | None => users (db w) ++ [u] end)
                              (match existing with
                               | Some _ => chatSessions (db w)
                               | None => chatSessions (db w) ++ [c]
                               end)
                              (messages (db w)
                               ++ [mkMessage (cuid n1) (chat_id c) role_user prompt;
                                   mkMessage (cuid (S n1)) (chat_id c) role_assistant text])
                              (invoices (db w)) (invoiceSearches (db w))) w).
  { destruct Hwp as (resp & w' & Hrun & -> & Hdb). exists w'. split; assumption. }
  assert (F0 : facts w (db w) (created w) (uuids w)) by (unfold facts; auto).
  unfold Chat.POST. rewrite Hs, Hp.
  replace (is_empty prompt) with false by (destruct prompt; [contradiction | reflexivity]).
  fold (display_name session). rewrite Htitle.
  apply wp_bind. unfold user_findUnique.
  eapply wp_read; [exact F0 | reflexivity |]. fold found. intros w1 F1.
  apply wp_bind.
  set (d1 := mkDB (match found with Some _ => users (db w) | None => users (db w) ++ [u] end)
                  (chatSessions (db w)) (messages (db w)) (invoices (db w))
                  (invoiceSearches (db w))).
  assert (Huser : wp (match found with
                      | Some u0 => ret u0
                      | None => user_create email (display_name session) []
                      end)
                     (fun a w2 => a = u /\ facts w2 d1 n0 (uuids w)) w1).
  { subst u n0 d1. unfold acting_user. fold found. destruct found as [u0 |].
    - apply wp_ret. split; [reflexivity |]. destruct (db w); exact F1.
    - unfold user_create. eapply wp_create; [exact F1 |].
      intros w2 F2. split; [reflexivity | exact F2]. }
  destruct Huser as (a & w2 & Hrun2 & -> & F2).
  exists u, w2. split; [exact Hrun2 |].
  apply wp_bind.
  assert (Hchat : wp (match Chat.req_chatId req with
                      | Some chatId =>
                          if is_empty chatId then ret None
                          else chatSession_findFirst chatId (user_id u)
                      | None => ret None
                      end)
                     (fun a w3 => a = existing /\ facts w3 d1 n0 (uuids w)) w2).
  { subst existing. unfold requested_chat.
    destruct (Chat.req_chatId req) as [chatId |]; [| apply wp_ret; auto].
    destruct (is_empty chatId); [apply wp_ret; auto |].
    unfold chatSession_findFirst.
    eapply wp_read; [exact F2 | reflexivity |]. intros w3 F3. auto. }
  destruct Hchat as (a & w3 & Hrun3 & -> & F3).
  exists existing, w3. split; [exact Hrun3 |].
  apply wp_bind.
  set (d2 := mkDB (users d1)
                  (match existing with
                               | Some _ => chatSessions (db w)
                               | None => chatSessions (db w) ++ [c]
                               end)
                  (messages (db w)) (invoices (db w)) (invoiceSearches (db w))).
  assert (Hopen : wp (match existing with
                      | Some c0 => ret c0
                      | None => chatSession_create (user_id u) (firstn 32 prompt)
                      end)
                     (fun a w4 => a = c /\ facts w4 d2 n1 (uuids w)) w3).
  { subst c n1 d2. destruct existing as [c0 |].
    - apply wp_ret. split; [reflexivity | exact F3].
    - unfold chatSession_create. eapply wp_create; [exact F3 |].
      intros w4 F4. split; [reflexivity | exact F4]. }
  destruct Hopen as (a & w4 & Hrun4 & -> & F4).
  exists c, w4. split; [exact Hrun4 |].
  apply wp_bind. unfold message_create.
  eapply wp_create; [exact F4 |]. intros w5 F5.
  apply wp_bind. eapply wp_uuid; [exact F5 |]. intros w6 F6.
  apply wp_bind. eapply wp_stream; [exact F6 |]. intros w7 F7.
  apply wp_ret. split; [reflexivity |].
  destruct F7 as (_ & -> & _). cbn [users chatSessions messages invoices invoiceSearches d2 d1].
  rewrite <- app_assoc. reflexivity.
Qed.

End ChatSteps.

Section ChatExtras.
Context `{Host}.

(** The chat route answers 200, 400 or 401 when it answers at all.  An
    answer 200 carries a stream and was given to a request with a session
    and a non-empty string prompt; an answer 400 or 401 was given without
    any Prisma call, and the world is as it was. *)
Theorem chat_post_status (session : option Session) (req : Chat.ChatRequest)
    (text : jsstring) (w w' : World) (resp : Response) :
  Chat.POST session req text w = (Ok resp, w') ->
  In (status resp) [200; 400; 401]
  /\ (status resp = 200 ->
      session_user_email session <> None
      /\ (exists prompt, Chat.req_prompt req = Some (JStr prompt) /\ prompt <> [])
      /\ exists frames, body resp = BStream frames)
  /\ (status resp <> 200 -> w' = w).
Proof.
  intro Hrun. unfold Chat.POST in Hrun.
  assert (Hreject : forall code (content : Body),
             code <> 200 -> In code [200; 400; 401] ->
             In (status (mkResponse code content)) [200; 400; 401]
             /\ (status (mkResponse code content) = 200 ->
                 session_user_email session <> None
                 /\ (exists prompt, Chat.req_prompt req = Some (JStr prompt) /\ prompt <> [])
                 /\ exists frames, body (mkResponse code content) = BStream frames)
             /\ (status (mkResponse code content) <> 200 -> w = w)).
  { intros code content Hcode Hin. split; [exact Hin |].
    split; [intro Hn; contradiction (Hcode Hn) | reflexivity]. }
  destruct (session_user_email session) as [email |] eqn:Hs.
  2: { injection Hrun as <- <-. apply Hreject; [discriminate | simpl; tauto]. }
  destruct (Chat.req_prompt req) as [[| b | x | prompt | items | fields] |] eqn:Hp;
    try discriminate Hrun;
    try (injection Hrun as <- <-; apply Hreject; [discriminate | simpl; tauto]).
  destruct prompt as [| ch prompt].
  { injection Hrun as <- <-. apply Hreject; [discriminate | simpl; tauto]. }
  cbn [is_empty] in Hrun.
  bind_inv Hrun found w1 H1.
  bind_inv Hrun u w2 H2.
  bind_inv Hrun existing w3 H3.
  bind_inv Hrun chat w4 H4.
  bind_inv Hrun saved w5 H5.
  bind_inv Hrun messageId w6 H6.
  bind_inv Hrun streamed w7 H7.
  injection Hrun as <- _. simpl. split; [tauto |]. split.
  - intros _. split; [discriminate |]. split.
    + eexists. split; [reflexivity | discriminate].
    + eexists. reflexivity.
  - intro Hn. contradiction Hn. reflexivity.
Qed.

(** A request that names a chat of the user continues it: no session is
    created, and the stream and both new messages carry the id of that
    chat. *)
Theorem chat_post_continues (session : option Session)
    (email prompt text chatId : jsstring) (c : ChatSession)
    (req : Chat.ChatRequest) (w : World) :
  session_user_email session = Some email ->
  Chat.req_prompt req = Some (JStr prompt) ->
  prompt <> [] ->
  faults w = [] ->
  Chat.req_chatId req = Some chatId ->
  chatId <> [] ->
  find (fun x => str_eqb (chat_id x) chatId
                 && str_eqb (chat_userId x) (user_id (acting_user session email w)))
       (chatSessions (db w)) = Some c ->
  exists w' messageId m1 m2,
    Chat.POST session req text w =
    (Ok (mkResponse 200
           (BStream (FStart chatId messageId
                     :: map (fun ch => FChunk [ch] chatId) text
                     ++ [FDone messageId text chatId]))), w')
    /\ chatSessions (db w') = chatSessions (db w)
    /\ messages (db w') = messages (db w) ++ [m1; m2]
    /\ message_chatId m1 = chatId /\ message_chatId m2 = chatId
    /\ message_content m1 = prompt /\ message_content m2 = text.
Proof.
  intros Hs Hp Hne Hf Hid Hid_ne Hc.
  destruct (@chat_POST_run _ session email prompt text req w Hs Hp Hne Hf)
    as (w' & Hrun & Hdb).
  cbv zeta in Hrun, Hdb.
  assert (Hreq : requested_chat req (acting_user session email w) (db w) = Some c).
  { unfold requested_chat. rewrite Hid.
    destruct chatId; [contradiction | exact Hc]. }
  rewrite Hreq in Hrun, Hdb.
  apply find_some in Hc. destruct Hc as [_ Hc].
  apply andb_prop in Hc. destruct Hc as [Hcid _]. apply str_eqb_eq in Hcid.
  rewrite Hcid in Hrun, Hdb.
  exists w'. eexists. eexists. eexists. split; [exact Hrun |].
  rewrite Hdb. cbn [chatSessions messages]. repeat split.
Qed.

(** A chat request of a session whose email has no row creates the user,
    with the name of the session, or "Demo User" when the session has none,
    and an empty password hash; a request of a known user leaves the users
    as they are. *)
Theorem chat_post_provisions_user (session : option Session)
    (email prompt text : jsstring) (req : Chat.ChatRequest) (w : World) :
  session_user_email session = Some email ->
  Chat.req_prompt req = Some (JStr prompt) ->
  prompt <> [] ->
  faults w = [] ->
  exists resp w',
    Chat.POST session req text w = (Ok resp, w')
    /\ users (db w') =
       match find (fun x => str_eqb (user_email x) email) (users (db w)) with
       | Some _ => users (db w)
       | None =>
           users (db w)
           ++ [mkUser (cuid (created w)) email (Some (display_name session)) (Some []) []]
       end
    /\ (forall s, session = Some s ->
          session_name s = None \/ session_name s = Some [] ->
          display_name session = lit "Demo User").
Proof.
  intros Hs Hp Hne Hf.
  destruct (@chat_POST_run _ session email prompt text req w Hs Hp Hne Hf)
    as (w' & Hrun & Hdb).
  cbv zeta in Hrun, Hdb.
  eexists. exists w'. split; [exact Hrun |]. split.
  - rewrite Hdb. cbn [users]. unfold acting_user.
    destruct (find _ (users (db w))); reflexivity.
  - intros s -> [Hn | Hn]; unfold display_name; rewrite Hn; reflexivity.
Qed.

End ChatExtras.

Lemma chat_post_status_witness :
  exists resp w',
    Chat.POST (H := Reference.host) Examples.alice_session ChatCases.no_prompt
      (lit "Hello!") Examples.sample_world = (Ok resp, w')
    /\ In (status resp) [200; 400; 401]
    /\ w' = Examples.sample_world.
Proof.
  exists (mkResponse 400 (BText (lit "Invalid prompt"))), Examples.sample_world.
  split; [reflexivity |].
  destruct (@chat_post_status Reference.host Examples.alice_session ChatCases.no_prompt
              (lit "Hello!") Examples.sample_world Examples.sample_world
              (mkResponse 400 (BText (lit "Invalid prompt"))) eq_refl)
    as (Hstatus & _ & Hsame).
  split; [exact Hstatus |]. apply Hsame. discriminate.
Defined.

Lemma chat_post_continues_witness :
  exists w' messageId m1 m2,
    Chat.POST (H := Reference.host) Examples.alice_session Examples.continue_c1
      (lit "Hello!") Examples.sample_world
    = (Ok (mkResponse 200
             (BStream (FStart (lit "c1") messageId
                       :: map (fun ch => FChunk [ch] (lit "c1")) (lit "Hello!")
                       ++ [FDone messageId (lit "Hello!") (lit "c1")]))), w')
    /\ chatSessions (db w') = chatSessions Examples.sample_db
    /\ messages (db w') = messages Examples.sample_db ++ [m1; m2].
Proof.
  destruct (@chat_post_continues Reference.host Examples.alice_session
              (lit "alice@example.com") (lit "hi") (lit "Hello!") (lit "c1")
              Examples.chat1 Examples.continue_c1 Examples.sample_world
              eq_refl eq_refl ltac:(discriminate) eq_refl eq_refl ltac:(discriminate)
              eq_refl)
    as (w' & messageId & m1 & m2 & Hrun & Hchats & Hm & _).
  exists w', messageId, m1, m2. repeat (split; [assumption |]). exact Hm.
Defined.

Lemma chat_post_provisions_user_witness :
  exists resp w',
    Chat.POST (H := Reference.host) ChatCases.carol_session Examples.open_chat
      (lit "Hello!") Examples.sample_world = (Ok resp, w')
    /\ users (db w')
       = [Examples.alice; Examples.bob;
          mkUser (lit "c0") (lit "carol@example.com") (Some (lit "Demo User"))
                 (Some []) []].
Proof.
  destruct (@chat_post_provisions_user Reference.host ChatCases.carol_session
              (lit "carol@example.com") Examples.long_prompt (lit "Hello!")
              Examples.open_chat Examples.sample_world
              eq_refl eq_refl ltac:(discriminate) eq_refl)
    as (resp & w' & Hrun & Husers & _).
  exists resp, w'. split; [exact Hrun |]. rewrite Husers. reflexivity.
Defined.

Section ReplyChecks.
Local Open Scope float_scope.

Lemma ref_toFixed_examples :
  ReferenceRuntime.ref_toFixed 2 7468 = lit "7468.00"
  /\ ReferenceRuntime.ref_toFixed 2 1250.5 = lit "1250.50"
  /\ ReferenceRuntime.ref_toFixed 2 0 = lit "0.00"
  /\ ReferenceRuntime.ref_toFixed 2 nan = lit "NaN"
  /\ ReferenceRuntime.ref_toFixed 1 96 = lit "96.0"
  /\ ReferenceRuntime.ref_toFixed 2 0.125 = lit "0.13"
  /\ ReferenceRuntime.ref_toFixed 2 (-2.5) = lit "-2.50"
  /\ ReferenceRuntime.ref_toFixed 0 2.5 = lit "3".
Proof. repeat split; vm_compute; reflexivity. Qed.

End ReplyChecks.

(** ** The replies of the chat route *)

Section BasicReply.
Context `{Host} `{Runtime}.
Local Open Scope float_scope.

(** A result of [findSimilarInvoices] has no property [extracted_data] and
    no property [data]: the data the fallback reply reads are empty. *)
Lemma legacy_data_empty (s : Chat.Scored) : legacy_data s = JObj [].
Proof. unfold legacy_data, scored_fields. vm_compute. reflexivity. Qed.

Lemma legacy_amount_zero (s : Chat.Scored) :
  parseFloat (lit "0") = 0 -> legacy_amount s = Ok 0.
Proof.
  intro Hzero. unfold legacy_amount. rewrite legacy_data_empty.
  cbn [get assoc Upload.or_else].
  replace (keep_amount_chars (lit "0")) with (lit "0") by (vm_compute; reflexivity).
  rewrite Hzero. reflexivity.
Qed.

Lemma most_expensive_none (invoices : list Chat.Scored) :
  parseFloat (lit "0") = 0 -> most_expensive invoices (0, None) = Ok (0, None).
Proof.
  intro Hzero. induction invoices as [| s rest IH]; [reflexivity |].
  cbn [most_expensive]. rewrite (legacy_amount_zero s Hzero). exact IH.
Qed.

Lemma spending_nothing (invoices : list Chat.Scored) :
  parseFloat (lit "0") = 0 -> spending invoices (0, O) = Ok (0, O).
Proof.
  intro Hzero. induction invoices as [| s rest IH]; [reflexivity |].
  cbn [spending]. rewrite (legacy_amount_zero s Hzero). exact IH.
Qed.

(** The fallback reply about totals never reflects the invoices it is given:
    whatever they are, a prompt that mentions [total] or [spend] is answered
    with a total of zero over zero valid invoices, and the average 0/0. *)
Theorem basic_summary_ignores_invoices (userPrompt : jsstring)
    (invoices : list Chat.Scored) :
  parseFloat (lit "0") = 0 ->
  includes (toLowerCase userPrompt) (lit "total")
  || includes (toLowerCase userPrompt) (lit "spend") = true ->
  formatBasicInvoiceResponse userPrompt invoices =
  Ok (chart ++ lit " **Spending Summary:**" ++ nl ++ nl
      ++ lit "- Total Amount: $" ++ toFixed 2 0 ++ nl
      ++ lit "- Valid Invoices: 0" ++ nl
      ++ lit "- Average: $" ++ toFixed 2 nan).
Proof.
  intros Hzero Hprompt.
  assert (Hrest : basic_rest (toLowerCase userPrompt) invoices =
                  Ok (chart ++ lit " **Spending Summary:**" ++ nl ++ nl
                      ++ lit "- Total Amount: $" ++ toFixed 2 0 ++ nl
                      ++ lit "- Valid Invoices: 0" ++ nl
                      ++ lit "- Average: $" ++ toFixed 2 nan)).
  { unfold basic_rest. rewrite Hprompt, (spending_nothing invoices Hzero). reflexivity. }
  unfold formatBasicInvoiceResponse. cbv zeta.
  destruct (includes (toLowerCase userPrompt) (lit "most")
            || includes (toLowerCase userPrompt) (lit "highest")
            || includes (toLowerCase userPrompt) (lit "expensive")); [| exact Hrest].
  rewrite (most_expensive_none invoices Hzero). exact Hrest.
Qed.

End BasicReply.

Section NumberOrder.
Local Open Scope float_scope.

Lemma not_nan_isNaN (x : float) : not_nan (Prim2SF x) = true -> isNaN x = false.
Proof.
  intro Hx. unfold isNaN, PrimFloat.is_nan. rewrite FloatAxioms.eqb_spec. unfold SFeqb.
  rewrite (@SFcompare_key (Prim2SF x) (Prim2SF x) (Prim2SF_valid x) (Prim2SF_valid x) Hx Hx).
  rewrite Z.compare_refl. reflexivity.
Qed.

(** A number that compares as smaller or as greater is not NaN. *)
Lemma ltb_true_not_nan (a b : float) :
  (a <? b) = true -> isNaN a = false /\ isNaN b = false.
Proof.
  rewrite FloatAxioms.ltb_spec. unfold SFltb. intro Hlt.
  split; apply not_nan_isNaN.
  - destruct (Prim2SF a); try reflexivity. discriminate Hlt.
  - destruct (Prim2SF a), (Prim2SF b); try reflexivity; discriminate Hlt.
Qed.

End NumberOrder.

Section ExpenseAnalysis.
Context `{Host} `{Runtime}.
Local Open Scope float_scope.

Lemma parse_amount_invoice (invoice : Invoice) (p : Parsed) :
  parse_amount invoice = Ok p -> parsed_invoice p = invoice.
Proof.
  unfold parse_amount, and_then. cbv zeta.
  destruct (ToString _); [| discriminate]. intro Hp. injection Hp as <-. reflexivity.
Qed.

Lemma parse_amounts_In (invoices : list Invoice) (ps : list Parsed) (p : Parsed) :
  parse_amounts invoices = Ok ps -> In p ps -> In (parsed_invoice p) invoices.
Proof.
  revert ps. induction invoices as [| invoice rest IH]; intros ps Hrun Hin.
  - injection Hrun as <-. contradiction.
  - cbn [parse_amounts] in Hrun. unfold and_then in Hrun.
    destruct (parse_amount invoice) as [q | e] eqn:Hq; [| discriminate].
    destruct (parse_amounts rest) as [qs | e]; [| discriminate].
    injection Hrun as <-. destruct Hin as [<- | Hin].
    + left. symmetry. exact (parse_amount_invoice _ Hq).
    + right. exact (IH qs eq_refl Hin).
Qed.

Lemma parse_amount_data (invoice : Invoice) (p : Parsed) :
  parse_amount invoice = Ok p ->
  parsed_data p = Search.data_or_empty (invoice_extractedData invoice).
Proof.
  unfold parse_amount, and_then. cbv zeta.
  destruct (ToString _); [| discriminate]. intro Hp. injection Hp as <-. reflexivity.
Qed.

Lemma parse_amounts_data (invoices : list Invoice) (ps : list Parsed) (p : Parsed) :
  parse_amounts invoices = Ok ps -> In p ps ->
  parsed_data p = Search.data_or_empty (invoice_extractedData (parsed_invoice p)).
Proof.
  revert ps. induction invoices as [| invoice rest IH]; intros ps Hrun Hin.
  - injection Hrun as <-. contradiction.
  - cbn [parse_amounts] in Hrun. unfold and_then in Hrun.
    destruct (parse_amount invoice) as [q | e] eqn:Hq; [| discriminate].
    destruct (parse_amounts rest) as [qs | e]; [| discriminate].
    injection Hrun as <-. destruct Hin as [<- | Hin].
    + rewrite (parse_amount_invoice _ Hq). exact (parse_amount_data _ Hq).
    + exact (IH qs eq_refl Hin).
Qed.

(** The [reduce] ends on an element that no other exceeds. *)
Lemma highest_fold (rest : list Parsed) (first : Parsed) :
  (forall p, In p (first :: rest) -> isNaN (parsedAmount p) = false) ->
  let highest :=
    fold_left (fun max current =>
                 if parsedAmount max <? parsedAmount current then current else max)
              rest first in
  In highest (first :: rest)
  /\ forall p, In p (first :: rest) -> (parsedAmount p <=? parsedAmount highest) = true.
Proof.
  revert first. induction rest as [| current rest IH]; intros first Hnum; cbn [fold_left].
  - split; [left; reflexivity |].
    intros p [<- | []]. rewrite (leb_key _ _ (Hnum _ (or_introl eq_refl))
                                           (Hnum _ (or_introl eq_refl))).
    apply Z.leb_refl.
  - assert (Hfirst : isNaN (parsedAmount first) = false) by (apply Hnum; simpl; auto).
    assert (Hcurrent : isNaN (parsedAmount current) = false) by (apply Hnum; simpl; auto).
    set (next := if parsedAmount first <? parsedAmount current then current else first).
    assert (Hnext : isNaN (parsedAmount next) = false)
      by (unfold next; destruct (parsedAmount first <? parsedAmount current); assumption).
    destruct (IH next) as [Hin Hmax].
    { intros p [<- | Hp]; [exact Hnext | apply Hnum; simpl; auto]. }
    split.
    + destruct Hin as [Hin | Hin]; [| simpl; auto].
      rewrite <- Hin. unfold next.
      destruct (parsedAmount first <? parsedAmount current); simpl; auto.
    + intros p Hp.
      assert (Hhighest : isNaN (parsedAmount
                (fold_left (fun max current0 =>
                              if parsedAmount max <? parsedAmount current0
                              then current0 else max) rest next)) = false).
      { destruct Hin as [<- | Hin]; [exact Hnext | apply Hnum; simpl; auto]. }
      pose proof (Hmax next (or_introl eq_refl)) as Hnext_le.
      rewrite (leb_key _ _ Hnext Hhighest) in Hnext_le. apply Z.leb_le in Hnext_le.
      assert (Hboth : (order_key (Prim2SF (parsedAmount first))
                       <= order_key (Prim2SF (parsedAmount next)))%Z
                      /\ (order_key (Prim2SF (parsedAmount current))
                          <= order_key (Prim2SF (parsedAmount next)))%Z).
      { unfold next.
        destruct (parsedAmount first <? parsedAmount current) eqn:Hlt;
          rewrite (ltb_key _ _ Hfirst Hcurrent) in Hlt;
          [apply Z.ltb_lt in Hlt | apply Z.ltb_ge in Hlt]; lia. }
      destruct Hp as [<- | [<- | Hp]].
      * rewrite (leb_key _ _ Hfirst Hhighest). apply Z.leb_le. lia.
      * rewrite (leb_key _ _ Hcurrent Hhighest). apply Z.leb_le. lia.
      * apply Hmax. right. exact Hp.
Qed.

(** What [invoicesWithAmounts] holds and where its [reduce] ends: every
    element comes from one of the invoices, with the data of that invoice and
    a positive amount, and no amount exceeds the amount of the element the
    [reduce] ends on. *)
Lemma highestInvoice_spec (invoices : list Invoice) (withAmounts : list Parsed) :
  invoicesWithAmounts invoices = Ok withAmounts ->
  (forall p, In p withAmounts ->
     In (parsed_invoice p) invoices
     /\ parsed_data p = Search.data_or_empty (invoice_extractedData (parsed_invoice p))
     /\ (0 <? parsedAmount p) = true)
  /\ match highestInvoice withAmounts with
     | Some highest =>
         In highest withAmounts
         /\ forall p, In p withAmounts -> (parsedAmount p <=? parsedAmount highest) = true
     | None => withAmounts = []
     end.
Proof.
  intro Hrun.
  pose proof Hrun as Hparsed. unfold invoicesWithAmounts, and_then in Hparsed.
  destruct (parse_amounts invoices) as [ps |] eqn:Hps; [| discriminate].
  injection Hparsed as Hfilter.
  assert (Hpositive : forall p, In p withAmounts -> (0 <? parsedAmount p) = true)
    by (intros p Hp; rewrite <- Hfilter in Hp; apply filter_In in Hp; tauto).
  split.
  - intros p Hp. split; [| split; [| exact (Hpositive p Hp)]];
      rewrite <- Hfilter in Hp; apply filter_In in Hp.
    + exact (@parse_amounts_In invoices ps p Hps (proj1 Hp)).
    + exact (@parse_amounts_data invoices ps p Hps (proj1 Hp)).
  - destruct withAmounts as [| first rest]; cbn [highestInvoice]; [reflexivity |].
    assert (Hnum : forall p, In p (first :: rest) -> isNaN (parsedAmount p) = false)
      by (intros p Hp; exact (proj2 (@ltb_true_not_nan _ _ (Hpositive p Hp)))).
    exact (@highest_fold rest first Hnum).
Qed.

(** The reply to a question about the most expensive invoice names an
    invoice that is one of those given, with its file name, its parsed
    amount and the fields of its data; that amount is positive and no
    invoice has a larger parsed amount.  When no invoice has a positive
    parsed amount, the reply says so. *)
Theorem highest_invoice_maximal (now : Z) (userPrompt : jsstring)
    (invoices : list Invoice) (text : jsstring) :
  includes (toLowerCase userPrompt) (lit "most")
  || includes (toLowerCase userPrompt) (lit "highest")
  || includes (toLowerCase userPrompt) (lit "biggest")
  || includes (toLowerCase userPrompt) (lit "which") = true ->
  handleExpenseAnalysisQuery now userPrompt invoices = Ok text ->
  exists withAmounts,
    invoicesWithAmounts invoices = Ok withAmounts
    /\ ((withAmounts = []
         /\ text = lit "I couldn't find any invoices with valid amount data to analyze.")
        \/ exists highest vendor number date,
             In highest withAmounts
             /\ In (parsed_invoice highest) invoices
             /\ parsed_data highest
                = Search.data_or_empty (invoice_extractedData (parsed_invoice highest))
             /\ (0 <? parsedAmount highest) = true
             /\ (forall p, In p withAmounts ->
                   (parsedAmount p <=? parsedAmount highest) = true)
             /\ text_or (get (parsed_data highest) (lit "vendor_name")) "N/A" = Ok vendor
             /\ text_or (get (parsed_data highest) (lit "invoice_number")) "N/A" = Ok number
             /\ text_or (get (parsed_data highest) (lit "date")) "N/A" = Ok date
             /\ text
                = chart ++ lit " **Most Expensive Invoice:**" ++ nl ++ nl
                  ++ lit "**" ++ invoice_filename (parsed_invoice highest) ++ lit "**" ++ nl
                  ++ lit "- Amount: $" ++ toFixed 2 (parsedAmount highest) ++ nl
                  ++ lit "- Vendor: " ++ vendor ++ nl
                  ++ lit "- Invoice: " ++ number ++ nl
                  ++ lit "- Date: " ++ date ++ nl ++ nl
                  ++ lit "This is your highest expense among "
                  ++ decimal (N.of_nat (length withAmounts)) ++ lit " invoices.").
Proof.
  intros Hprompt Hreply. unfold handleExpenseAnalysisQuery in Hreply.
  destruct (invoicesWithAmounts invoices) as [withAmounts | e] eqn:Hrun;
    cbn [and_then] in Hreply; [| discriminate].
  cbv zeta in Hreply. rewrite Hprompt in Hreply.
  exists withAmounts. split; [reflexivity |].
  destruct (highestInvoice_spec invoices Hrun) as [Helements Hhighest].
  destruct (highestInvoice withAmounts) as [highest |].
  - right. destruct Hhighest as [Hin Hmax].
    destruct (Helements highest Hin) as (Hsource & Hdata & Hpositive).
    unfold and_then in Hreply.
    destruct (text_or (get (parsed_data highest) (lit "vendor_name")) "N/A")
      as [vendor |] eqn:Hvendor; [| discriminate].
    destruct (text_or (get (parsed_data highest) (lit "invoice_number")) "N/A")
      as [number |] eqn:Hnumber; [| discriminate].
    destruct (text_or (get (parsed_data highest) (lit "date")) "N/A")
      as [date |] eqn:Hdate; [| discriminate].
    injection Hreply as <-.
    exists highest, vendor, number, date.
    repeat (split; [assumption |]). reflexivity.
  - left. injection Hreply as <-. split; [exact Hhighest | reflexivity].
Qed.

End ExpenseAnalysis.

Section InvoiceReply.
Context `{Host} `{Runtime}.

Lemma unchanged_refl (d : DB) : unchanged d d.
Proof. reflexivity. Qed.

Lemma unchanged_trans (d1 d2 d3 : DB) : unchanged d1 d2 -> unchanged d2 d3 -> unchanged d1 d3.
Proof. unfold unchanged. congruence. Qed.

Lemma unchanged_findSimilarInvoices (q : list number) (userId : jsstring) :
  preserves unchanged (Chat.findSimilarInvoices q userId).
Proof.
  unfold Chat.findSimilarInvoices.
  apply preserves_bind; [exact unchanged_trans | |].
  - apply preserves_prisma; [exact unchanged_refl | reflexivity].
  - intro found. apply preserves_ret, unchanged_refl.
Qed.

Lemma unchanged_fallback_reply (userPrompt : jsstring) (invoices : list Invoice) :
  preserves unchanged (fallback_reply userPrompt invoices).
Proof.
  unfold fallback_reply. destruct invoices as [| i rest];
    [apply preserves_ret, unchanged_refl |].
  cbv zeta.
  repeat match goal with
         | |- preserves _ (if ?b then _ else _) => destruct b
         | |- preserves _ (match ?l with [] => _ | _ :: _ => _ end) => destruct l
         end;
    try (apply preserves_lift, unchanged_refl);
    try (apply preserves_ret, unchanged_refl).
  intros w r w' Hrun. injection Hrun as _ <-. reflexivity.
Qed.

Lemma unchanged_invoice_reply (api : OpenAI) (email userPrompt : jsstring) :
  preserves unchanged (getInvoiceResponse api email userPrompt).
Proof.
  pose proof unchanged_refl as Hr. pose proof unchanged_trans as Ht.
  unfold getInvoiceResponse.
  apply preserves_try_catch; [exact Ht | | intro; apply preserves_ret, Hr].
  apply preserves_bind; [exact Ht | |].
  - apply preserves_prisma; [exact Hr | reflexivity].
  - intros [u |]; [| apply preserves_ret, Hr].
    apply preserves_bind; [exact Ht | |].
    + apply preserves_try_catch; [exact Ht | | intro; apply preserves_ret, Hr].
      apply preserves_bind; [exact Ht | apply preserves_lift, Hr |]. intro q.
      apply preserves_bind; [exact Ht | apply unchanged_findSimilarInvoices |].
      intros [| s rest]; [apply preserves_ret, Hr |].
      apply preserves_bind; [exact Ht | apply preserves_lift, Hr |].
      intro. apply preserves_ret, Hr.
    + intros [response |]; [apply preserves_ret, Hr |].
      apply preserves_bind; [exact Ht | | intro; apply unchanged_fallback_reply].
      apply preserves_prisma; [exact Hr | reflexivity].
Qed.

(** Computing the reply to a prompt never throws and never writes to the
    database; for a prompt without any invoice keyword it does not even read
    the database, and the reply is one of the canned texts. *)
Theorem reply_never_fails (api : OpenAI) (email userPrompt : jsstring) (w : World) :
  exists text w',
    getHardcodedResponse api email userPrompt w = (Ok text, w')
    /\ db w' = db w
    /\ (isInvoiceQuery userPrompt = false ->
        w' = w /\ text = canned (toLowerCase userPrompt)).
Proof.
  unfold getHardcodedResponse. cbv zeta.
  destruct (isInvoiceQuery userPrompt).
  - pose proof (@unchanged_invoice_reply api email userPrompt w) as Hkeeps.
    unfold getInvoiceResponse in Hkeeps |- *.
    unfold try_catch at 1. unfold try_catch at 1 in Hkeeps.
    match goal with
    | |- context [match ?m w with _ => _ end] => destruct (m w) as [[text | e] w1]
    end.
    + exists text, w1. split; [reflexivity |].
      split; [exact (Hkeeps _ _ eq_refl) | discriminate].
    + exists trouble, w1. split; [reflexivity |].
      split; [exact (Hkeeps _ _ eq_refl) | discriminate].
  - eexists. eexists. split; [reflexivity |]. split; [reflexivity |]. auto.
Qed.

(** When the database cannot be reached, or holds no user with the email of
    the session, a prompt about invoices is answered with a fixed apology,
    after a single Prisma call. *)
Theorem reply_when_unavailable (api : OpenAI) (email userPrompt : jsstring) (w : World) :
  isInvoiceQuery userPrompt = true ->
  (forall e, next_fault w = Some e ->
     getHardcodedResponse api email userPrompt w = (Ok trouble, advance w))
  /\ (next_fault w = None ->
      find (fun x => str_eqb (user_email x) email) (users (db w)) = None ->
      getHardcodedResponse api email userPrompt w = (Ok no_account, advance w)).
Proof.
  intro Hquery. unfold getHardcodedResponse. cbv zeta. rewrite Hquery.
  split.
  - intros e He.
    unfold getInvoiceResponse. unfold try_catch at 1. unfold bind at 1.
    unfold user_findUnique.
    destruct (prisma_cases (fun d => (Ok (find (fun x => str_eqb (user_email x) email)
                                               (users d)), d)) w)
      as [(e' & He' & Hrun) | (Hnone & _)]; [| congruence].
    rewrite Hrun. reflexivity.
  - intros Hf Hu.
    unfold getInvoiceResponse. unfold try_catch at 1. unfold bind at 1.
    unfold user_findUnique.
    rewrite (prisma_ok _ _ Hf). cbn [fst snd]. rewrite Hu.
    destruct w; reflexivity.
Qed.

Lemma filter_nil_stronger {A} (p q : A -> bool) (l : list A) :
  (forall x, q x = true -> p x = true) -> filter p l = [] -> filter q l = [].
Proof.
  intros Hpq. induction l as [| x l IH]; [reflexivity |].
  cbn [filter]. destruct (p x) eqn:Hp; [discriminate |].
  intro Hnil. destruct (q x) eqn:Hq; [| exact (IH Hnil)].
  rewrite (Hpq x Hq) in Hp. discriminate.
Qed.

(** A user without any processed invoice who asks about invoices is told
    that there are none yet, whatever the OpenAI API answers. *)
Theorem reply_without_invoices (api : OpenAI) (email userPrompt : jsstring) (u : User)
    (w : World) :
  isInvoiceQuery userPrompt = true ->
  find (fun x => str_eqb (user_email x) email) (users (db w)) = Some u ->
  faults w = [] ->
  processed_of (db w) (user_id u) = [] ->
  exists w',
    getHardcodedResponse api email userPrompt w = (Ok no_invoices, w')
    /\ db w' = db w.
Proof.
  intros Hquery Hu Hf Hnone.
  assert (Hsearchable : filter (Chat.searchable (user_id u)) (invoices (db w)) = []).
  { apply (filter_nil_stronger
             (fun i => str_eqb (invoice_userId i) (user_id u)
                       && status_eqb (invoice_status i) st_processed));
      [| exact Hnone].
    intros i Hi. unfold Chat.searchable in Hi. apply andb_prop in Hi. tauto. }
  enough (Hwp : wp (getHardcodedResponse api email userPrompt)
                   (fun text w' => text = no_invoices /\ db w' = db w) w).
  { destruct Hwp as (text & w' & Hrun & -> & Hdb). exists w'. split; assumption. }
  unfold getHardcodedResponse. cbv zeta. rewrite Hquery.
  unfold getInvoiceResponse.
  assert (F0 : facts w (db w) (created w) (uuids w)) by (unfold facts; auto).
  apply wp_try_catch, wp_bind. unfold user_findUnique.
  eapply wp_read; [exact F0 | reflexivity |]. rewrite Hu. intros w1 F1.
  apply wp_bind.
  assert (Hvector : wp (try_catch
                          (queryEmbedding <- lift (embedding_of api userPrompt) ;;
                           similarInvoices <-
                             Chat.findSimilarInvoices queryEmbedding (user_id u) ;;
                           match similarInvoices with
                           | [] => ret None
                           | _ :: _ =>
                               response <-
                                 lift (generateRAGResponse api userPrompt similarInvoices) ;;
                               ret (Some response)
                           end)
                          (fun _ => ret None))
                       (fun answered w2 =>
                          answered = None /\ facts w2 (db w) (created w) (uuids w)) w1).
  { destruct (embedding_of api userPrompt) as [q | e] eqn:Hembedding.
    - apply wp_try_catch, wp_bind. change (lift (Ok q)) with (ret q). apply wp_ret.
      apply wp_bind. unfold Chat.findSimilarInvoices. apply wp_bind.
      unfold invoice_findMany. eapply wp_read; [exact F1 | reflexivity |].
      intros w2 F2. rewrite Hsearchable. apply wp_ret. cbn. apply wp_ret.
      split; [reflexivity | exact F2].
    - unfold try_catch, bind at 1.
      eexists. eexists. split; [reflexivity |]. split; [reflexivity | exact F1]. }
  destruct Hvector as (answered & w2 & Hrun2 & -> & F2).
  exists None, w2. split; [exact Hrun2 |].
  apply wp_bind. unfold invoice_findMany_desc.
  eapply wp_read; [exact F2 | reflexivity |]. intros w3 F3.
  fold (processed_of (db w) (user_id u)). rewrite Hnone.
  apply wp_ret. split; [reflexivity |]. destruct F3 as (_ & Hd3 & _). exact Hd3.
Qed.

End InvoiceReply.

Section ReplyWitnesses.
Import Reference Examples ReferenceRuntime ReplyCases.

Lemma basic_summary_ignores_invoices_witness :
  formatBasicInvoiceResponse (H := host) (H0 := runtime) (lit "Total spend?")
    [Chat.mkScored invoice1 0.9%float; Chat.mkScored invoice5 0.4%float]
  = Ok (chart ++ lit " **Spending Summary:**" ++ nl ++ nl
        ++ lit "- Total Amount: $0.00" ++ nl
        ++ lit "- Valid Invoices: 0" ++ nl
        ++ lit "- Average: $NaN").
Proof.
  exact (@basic_summary_ignores_invoices host runtime (lit "Total spend?")
           [Chat.mkScored invoice1 0.9%float; Chat.mkScored invoice5 0.4%float]
           eq_refl eq_refl).
Defined.

Lemma highest_invoice_maximal_witness :
  handleExpenseAnalysisQuery (H := host) (H0 := runtime) 0 (lit "Which invoice cost the most?")
    [invoice4; invoice1; invoice2]
  = Ok (chart ++ lit " **Most Expensive Invoice:**" ++ nl ++ nl
        ++ lit "**flight.pdf**" ++ nl
        ++ lit "- Amount: $7468.00" ++ nl
        ++ lit "- Vendor: N/A" ++ nl
        ++ lit "- Invoice: N/A" ++ nl
        ++ lit "- Date: N/A" ++ nl ++ nl
        ++ lit "This is your highest expense among 2 invoices.").
Proof.
  destruct (handleExpenseAnalysisQuery (H := host) (H0 := runtime) 0
              (lit "Which invoice cost the most?") [invoice4; invoice1; invoice2])
    as [text | e] eqn:Hreply; [| vm_compute in Hreply; discriminate].
  destruct (@highest_invoice_maximal host runtime 0 (lit "Which invoice cost the most?")
              [invoice4; invoice1; invoice2] text eq_refl Hreply)
    as (withAmounts & Hrun & [[Hnone _] | Hsome]).
  - rewrite Hnone in Hrun. vm_compute in Hrun. discriminate.
  - rewrite <- Hreply. vm_compute. reflexivity.
Defined.

Lemma reply_when_unavailable_witness :
  getHardcodedResponse (H := host) (H0 := runtime) offline (lit "alice@example.com")
    (lit "Show my invoices") broken_world
  = (Ok trouble, advance broken_world)
  /\ getHardcodedResponse (H := host) (H0 := runtime) offline (lit "erin@example.com")
       (lit "Show my invoices") sample_world
     = (Ok no_account, advance sample_world).
Proof.
  split.
  - exact (proj1 (@reply_when_unavailable host runtime offline (lit "alice@example.com")
                    (lit "Show my invoices") broken_world eq_refl) _ eq_refl).
  - exact (proj2 (@reply_when_unavailable host runtime offline (lit "erin@example.com")
                    (lit "Show my invoices") sample_world eq_refl) eq_refl eq_refl).
Defined.

Lemma reply_without_invoices_witness :
  exists w',
    getHardcodedResponse (H := host) (H0 := runtime) embeds_only (lit "dana@example.com")
      (lit "What did I spend?") (world dana_db) = (Ok no_invoices, w')
    /\ db w' = dana_db.
Proof.
  exact (@reply_without_invoices host runtime embeds_only (lit "dana@example.com")
           (lit "What did I spend?") dana (world dana_db) eq_refl eq_refl eq_refl eq_refl).
Defined.

End ReplyWitnesses.

Section ReplyIsolation.
Context `{Host} `{Runtime}.

Lemma fallback_reply_run (userPrompt : jsstring) (invoices : list Invoice) (w v : World) :
  now v = now w ->
  fallback_reply userPrompt invoices w = (fst (fallback_reply userPrompt invoices v), w).
Proof.
  intro Hnow. unfold fallback_reply.
  destruct invoices as [| i rest]; [reflexivity |]. cbv zeta.
  repeat match goal with
         | |- context [if ?b then _ else _] => destruct b
         | |- context [match ?l with [] => _ | _ :: _ => _ end] => destruct l
         end;
    try reflexivity.
  unfold lift. cbn [fst]. rewrite Hnow. reflexivity.
Qed.

Lemma vector_step (api : OpenAI) (userPrompt userId : jsstring) (w : World) :
  faults w = [] ->
  exists w',
    try_catch
      (queryEmbedding <- lift (embedding_of api userPrompt) ;;
       similarInvoices <- Chat.findSimilarInvoices queryEmbedding userId ;;
       match similarInvoices with
       | [] => ret None
       | _ :: _ =>
           response <- lift (generateRAGResponse api userPrompt similarInvoices) ;;
           ret (Some response)
       end)
      (fun _ => ret None) w
    = (Ok (vector_answer api userPrompt
             (filter (Chat.searchable userId) (invoices (db w)))), w')
    /\ faults w' = [] /\ db w' = db w /\ now w' = now w.
Proof.
  intro Hf. unfold vector_answer, try_catch, bind at 1, lift.
  destruct (embedding_of api userPrompt) as [q | e].
  2: { exists w. repeat split; try reflexivity. exact Hf. }
  unfold Chat.findSimilarInvoices, bind, invoice_findMany.
  rewrite (prisma_ok _ _ (next_fault_nil _ Hf)). cbn [fst snd ret].
  exists (set_db (advance w) (db w)).
  split; [| repeat split; unfold set_db, advance; cbn; rewrite Hf; reflexivity].
  destruct (firstn 10 _) as [| s rest]; [reflexivity |].
  destruct (generateRAGResponse api userPrompt (s :: rest)); reflexivity.
Qed.

Lemma invoice_reply_run (api : OpenAI) (email userPrompt : jsstring) (u : User)
    (w : World) :
  faults w = [] ->
  find (fun x => str_eqb (user_email x) email) (users (db w)) = Some u ->
  fst (getInvoiceResponse api email userPrompt w)
  = Ok (invoice_answer api userPrompt (now w) (user_id u) (invoices (db w))).
Proof.
  intros Hf Hu. unfold getInvoiceResponse. unfold try_catch at 1. unfold bind at 1.
  unfold user_findUnique. rewrite (prisma_ok _ _ (next_fault_nil _ Hf)).
  cbn [fst snd]. rewrite Hu.
  assert (Hf1 : faults (set_db (advance w) (db w)) = [])
    by (unfold set_db, advance; cbn; rewrite Hf; reflexivity).
  destruct (@vector_step api userPrompt (user_id u) _ Hf1) as (w2 & Hrun2 & Hf2 & Hd2 & Hn2).
  unfold bind at 1. rewrite Hrun2.
  change (db (set_db (advance w) (db w))) with (db w).
  unfold invoice_answer.
  destruct (vector_answer api userPrompt _) as [response |]; [reflexivity |].
  unfold bind at 1, invoice_findMany_desc.
  rewrite (prisma_ok _ _ (next_fault_nil _ Hf2)). cbn [fst snd]. rewrite Hd2.
  cbv zeta.
  match goal with
  | |- context [fallback_reply ?p ?l ?x] =>
      rewrite (@fallback_reply_run p l x
                 (mkWorld (mkDB [] [] [] [] []) [] 0 0 0 (now w) (fun _ => 0%float) 0))
  end.
  2: { unfold set_db, advance. cbn. rewrite Hn2. reflexivity. }
  destruct (fst (fallback_reply _ _ _)); reflexivity.
Qed.

(** The reply to a prompt depends on the database only through the row of
    the user of the session and the invoices of that user: two databases that
    agree on these give the same reply, whatever else they hold. *)
Theorem reply_isolated (api : OpenAI) (email userPrompt : jsstring) (u : User)
    (w1 w2 : World) :
  faults w1 = [] -> faults w2 = [] ->
  now w1 = now w2 ->
  find (fun x => str_eqb (user_email x) email) (users (db w1)) = Some u ->
  find (fun x => str_eqb (user_email x) email) (users (db w2)) = Some u ->
  filter (fun i => str_eqb (invoice_userId i) (user_id u)) (invoices (db w1))
  = filter (fun i => str_eqb (invoice_userId i) (user_id u)) (invoices (db w2)) ->
  fst (getHardcodedResponse api email userPrompt w1)
  = fst (getHardcodedResponse api email userPrompt w2).
Proof.
  intros Hf1 Hf2 Hnow Hu1 Hu2 Hown.
  unfold getHardcodedResponse. cbv zeta.
  destruct (isInvoiceQuery userPrompt); [| reflexivity].
  rewrite (@invoice_reply_run api email userPrompt u w1 Hf1 Hu1),
          (@invoice_reply_run api email userPrompt u w2 Hf2 Hu2), Hnow.
  assert (Hsplit : forall (p : Invoice -> bool) l,
             filter (fun i => str_eqb (invoice_userId i) (user_id u) && p i) l
             = filter p (filter (fun i => str_eqb (invoice_userId i) (user_id u)) l)).
  { intros p l. induction l as [| i l IH]; [reflexivity |].
    cbn [filter]. destruct (str_eqb (invoice_userId i) (user_id u)); cbn [andb filter];
      [destruct (p i); rewrite IH; reflexivity | exact IH]. }
  unfold invoice_answer.
  assert (Hsearchable :
            filter (Chat.searchable (user_id u)) (invoices (db w1))
            = filter (Chat.searchable (user_id u)) (invoices (db w2))).
  { unfold Chat.searchable.
    rewrite (filter_ext _ (fun i => str_eqb (invoice_userId i) (user_id u)
                                     && (status_eqb (invoice_status i) st_processed
                                         && Chat.has_embeddings i)))
      by (intro i; symmetry; apply andb_assoc).
    rewrite (filter_ext (fun i => str_eqb (invoice_userId i) (user_id u)
                                  && status_eqb (invoice_status i) st_processed
                                  && Chat.has_embeddings i)
                        (fun i => str_eqb (invoice_userId i) (user_id u)
                                  && (status_eqb (invoice_status i) st_processed
                                      && Chat.has_embeddings i)))
      by (intro i; symmetry; apply andb_assoc).
    rewrite !Hsplit, Hown. reflexivity. }
  rewrite Hsearchable, !Hsplit, Hown. reflexivity.
Qed.

End ReplyIsolation.

Lemma reply_isolated_witness :
  fst (getHardcodedResponse (H := Reference.host) (H0 := ReferenceRuntime.runtime)
         ReferenceRuntime.offline (lit "alice@example.com") (lit "List my invoices")
         Examples.sample_world)
  = fst (getHardcodedResponse (H := Reference.host) (H0 := ReferenceRuntime.runtime)
           ReferenceRuntime.offline (lit "alice@example.com") (lit "List my invoices")
           (Reference.world ReplyCases.alice_db)).
Proof.
  exact (@reply_isolated Reference.host ReferenceRuntime.runtime ReferenceRuntime.offline
           (lit "alice@example.com") (lit "List my invoices") Examples.alice
           Examples.sample_world (Reference.world ReplyCases.alice_db)
           eq_refl eq_refl eq_refl eq_refl eq_refl eq_refl).
Defined.

Lemma reply_never_fails_witness :
  getHardcodedResponse (H := Reference.host) (H0 := ReferenceRuntime.runtime)
    ReferenceRuntime.offline (lit "alice@example.com") (lit "Tell me a JOKE")
    Examples.broken_world
  = (Ok (lit "Why don't scientists trust atoms? Because they make up everything! "
         ++ smile), Examples.broken_world).
Proof.
  destruct (@reply_never_fails Reference.host ReferenceRuntime.runtime
              ReferenceRuntime.offline (lit "alice@example.com") (lit "Tell me a JOKE")
              Examples.broken_world) as (text & w' & Hrun & _ & Hcanned).
  destruct (Hcanned eq_refl) as [Hw Htext].
  rewrite Hrun, Hw, Htext. reflexivity.
Defined.

(** ** Deleting a chat, whatever the outcome *)

Section DeleteOutcomes.

(** Whatever the session, the fault schedule and the answer, [DELETE] leaves
    the users, the invoices and the logged searches as they were, keeps every
    message of another chat and every chat with another id, and removes the
    chat itself only when it answers 200. *)
Theorem delete_confined (session : option Session) (chatId : jsstring)
    (w w' : World) (resp : Response) :
  Chat.DELETE session chatId w = (Ok resp, w') ->
  users (db w') = users (db w)
  /\ invoices (db w') = invoices (db w)
  /\ invoiceSearches (db w') = invoiceSearches (db w)
  /\ (forall m, In m (messages (db w)) -> message_chatId m <> chatId ->
                In m (messages (db w')))
  /\ (forall x, In x (chatSessions (db w)) -> chat_id x <> chatId ->
                In x (chatSessions (db w')))
  /\ (status resp <> 200 -> chatSessions (db w') = chatSessions (db w)).
Proof.
  intro Hrun.
  assert (Hkeep_m : forall m, In m (messages (db w)) -> message_chatId m <> chatId ->
            In m (filter (fun m => negb (str_eqb (message_chatId m) chatId))
                         (messages (db w)))).
  { intros m Hm Hne. apply filter_In. split; [exact Hm |].
    destruct (str_eqb (message_chatId m) chatId) eqn:E; [| reflexivity].
    apply str_eqb_eq in E. contradiction. }
  assert (Hkeep_c : forall x, In x (chatSessions (db w)) -> chat_id x <> chatId ->
            In x (filter (fun x => negb (str_eqb (chat_id x) chatId))
                         (chatSessions (db w)))).
  { intros x Hx Hne. apply filter_In. split; [exact Hx |].
    destruct (str_eqb (chat_id x) chatId) eqn:E; [| reflexivity].
    apply str_eqb_eq in E. contradiction. }
  destruct (session_user_email session) as [email |] eqn:Hs.
  2: { unfold Chat.DELETE in Hrun. rewrite Hs in Hrun. injection Hrun as _ <-.
       repeat split; auto. }
  rewrite (@DELETE_run session email chatId w Hs) in Hrun. cbv zeta in Hrun.
  repeat match type of Hrun with
         | match ?x with _ => _ end = _ => destruct x
         | (if ?b then _ else _) = _ => destruct b
         end;
    injection Hrun as <- <-;
    cbn [db set_db advance users invoices invoiceSearches messages chatSessions status
         json_error];
    repeat split; auto; intro Hn; exfalso; apply Hn; reflexivity.
Qed.

(** The deletion is not atomic: when the database fails at the last call,
    the answer is 500 and the chat is still there, but every message of the
    chat is gone. *)
Theorem delete_interrupted (session : option Session) (email chatId e : jsstring)
    (u : User) (c : ChatSession) (rest : list (option jsstring)) (w : World) :
  session_user_email session = Some email ->
  find (fun x => str_eqb (user_email x) email) (users (db w)) = Some u ->
  find (fun x => str_eqb (chat_id x) chatId && str_eqb (chat_userId x) (user_id u))
       (chatSessions (db w)) = Some c ->
  faults w = None :: None :: None :: Some e :: rest ->
  exists w',
    Chat.DELETE session chatId w = (Ok (json_error 500 "Failed to delete chat"), w')
    /\ chatSessions (db w') = chatSessions (db w)
    /\ In c (chatSessions (db w'))
    /\ messages (db w')
       = filter (fun m => negb (str_eqb (message_chatId m) chatId)) (messages (db w))
    /\ (forall m, In m (messages (db w')) -> message_chatId m <> chatId).
Proof.
  intros Hs Hu Hc Hf.
  rewrite (@DELETE_run session email chatId w Hs). cbv zeta.
  destruct w as [d fs q cr uu t rnd dr]. cbn [faults db] in *. subst fs.
  unfold next_fault, advance, set_db.
  cbn [faults db queries created uuids now random draws tl].
  rewrite Hu, Hc.
  eexists. split; [reflexivity |].
  cbn [db chatSessions messages].
  split; [reflexivity |].
  split; [exact (proj1 (find_some _ _ Hc)) |].
  split; [reflexivity |].
  intros m Hm. apply filter_In in Hm. destruct Hm as [_ Hm].
  intro Heq. rewrite Heq, str_eqb_refl in Hm. discriminate.
Qed.

End DeleteOutcomes.

Lemma delete_interrupted_witness :
  exists w',
    Chat.DELETE Examples.alice_session (lit "c1") DeleteCases.flaky_world
    = (Ok (json_error 500 "Failed to delete chat"), w')
    /\ map chat_id (chatSessions (db w')) = [lit "c1"; lit "c2"; lit "c3"]
    /\ map message_id (messages (db w')) = [lit "m3"; lit "m4"].
Proof.
  destruct (@delete_interrupted Examples.alice_session (lit "alice@example.com")
              (lit "c1") (lit "Can't reach database server") Examples.alice
              Examples.chat1 [] DeleteCases.flaky_world
              eq_refl eq_refl eq_refl eq_refl)
    as (w' & Hrun & Hchats & _ & Hmessages & _).
  exists w'. split; [exact Hrun |].
  rewrite Hchats, Hmessages. split; vm_compute; reflexivity.
Defined.

Lemma delete_confined_witness :
  exists resp w',
    Chat.DELETE Examples.bob_session (lit "c1") Examples.sample_world = (Ok resp, w')
    /\ users (db w') = users Examples.sample_db
    /\ invoices (db w') = invoices Examples.sample_db
    /\ chatSessions (db w') = chatSessions Examples.sample_db.
Proof.
  destruct (DELETE_total Examples.bob_session (lit "c1") Examples.sample_world)
    as (resp & w' & Hrun).
  exists resp, w'. split; [exact Hrun |].
  pose proof (f_equal (fun p => match fst p with
                                | Ok r => status r
                                | Throw _ => 0
                                end) Hrun) as Hstatus.
  vm_compute in Hstatus.
  destruct (@delete_confined _ _ _ _ _ Hrun) as (Hu & Hi & _ & _ & _ & Hc).
  split; [exact Hu |]. split; [exact Hi |].
  apply Hc. intro Hn. change (404 = status resp) in Hstatus.
  rewrite Hn in Hstatus. discriminate.
Defined.

(** ** Signing in *)

Section SigningIn.
Context `{Host}.

(** A user whose row holds a password hash that [bcrypt.compare] accepts for
    the supplied password is signed in as that row: the answer carries the
    id, the name and the email of the row. *)
Theorem authorize_accepts (env : Auth.Env) (creds : option Auth.Credentials)
    (e hash : jsstring) (u : User) (w : World) :
  Auth.is_demo_pair env creds = false ->
  next_fault w = None ->
  Auth.email_of creds = Some e ->
  find (fun x => str_eqb (user_email x) e) (users (db w)) = Some u ->
  user_passwordHash u = Some hash ->
  hash <> [] ->
  bcrypt_compare (Auth.password_of creds) hash = Ok true ->
  Auth.authorize env creds w
  = (Ok (Some (Auth.mkAuthUser (user_id u) (user_name u) (user_email u))), advance w).
Proof.
  intros Hdemo Hf He Hu Hhash Hne Hok.
  unfold Auth.authorize. rewrite Hdemo, He.
  unfold try_catch, bind at 1, user_findUnique.
  rewrite (prisma_ok _ _ Hf). cbn [fst snd]. rewrite Hu, Hhash.
  destruct hash as [| ch hash]; [contradiction |]. cbn [is_empty].
  unfold bind, lift, ret. rewrite Hok. destruct w; reflexivity.
Qed.

Lemma unchanged_authorize (env : Auth.Env) (creds : option Auth.Credentials) :
  preserves unchanged (Auth.authorize env creds).
Proof.
  pose proof unchanged_refl as Hr. pose proof unchanged_trans as Ht.
  unfold Auth.authorize. cbv zeta.
  destruct (Auth.is_demo_pair env creds); [apply preserves_ret, Hr |].
  apply preserves_try_catch; [exact Ht | | intro; apply preserves_ret, Hr].
  apply preserves_bind; [exact Ht | |].
  - apply preserves_prisma; [exact Hr |].
    intro d. destruct (Auth.email_of creds); reflexivity.
  - intros [u |]; [| apply preserves_ret, Hr].
    destruct (user_passwordHash u) as [hash |]; [| apply preserves_ret, Hr].
    destruct (is_empty hash); [apply preserves_ret, Hr |].
    apply preserves_bind; [exact Ht | apply preserves_lift, Hr |].
    intro ok. apply preserves_ret, Hr.
Qed.

Lemma unchanged_signIn (email provider : option jsstring) :
  preserves unchanged (Auth.signIn email provider).
Proof.
  pose proof unchanged_refl as Hr. pose proof unchanged_trans as Ht.
  unfold Auth.signIn.
  destruct (Auth.strict_eq provider (lit "google")); [| apply preserves_ret, Hr].
  apply preserves_try_catch; [exact Ht | | intro; apply preserves_ret, Hr].
  apply preserves_bind; [exact Ht | |].
  - apply preserves_prisma; [exact Hr |].
    intro d. destruct email; reflexivity.
  - intros [u |]; [| apply preserves_ret, Hr].
    cbv zeta. destruct (existsb _ (user_accounts u)); apply preserves_ret, Hr.
Qed.

(** Neither [authorize] nor the [signIn] callback ever writes to the
    database, whatever the credentials and whether or not the calls fail. *)
Theorem auth_never_writes (env : Auth.Env) (creds : option Auth.Credentials)
    (email provider : option jsstring) (w : World) :
  db (snd (Auth.authorize env creds w)) = db w
  /\ db (snd (Auth.signIn email provider w)) = db w.
Proof.
  split.
  - destruct (Auth.authorize env creds w) as [r w'] eqn:Hrun.
    exact (@unchanged_authorize env creds w r w' Hrun).
  - destruct (Auth.signIn email provider w) as [r w'] eqn:Hrun.
    exact (@unchanged_signIn email provider w r w' Hrun).
Qed.

End SigningIn.

Lemma authorize_accepts_witness :
  Auth.authorize (H := Reference.host) (Auth.mkEnv None None) SignInCases.alice_credentials
    Examples.sample_world
  = (Ok (Some (Auth.mkAuthUser (lit "u1") (Some (lit "Alice")) (lit "alice@example.com"))),
     advance Examples.sample_world).
Proof.
  exact (@authorize_accepts Reference.host (Auth.mkEnv None None)
           SignInCases.alice_credentials (lit "alice@example.com") (lit "hash:secret")
           Examples.alice Examples.sample_world
           eq_refl eq_refl eq_refl eq_refl eq_refl ltac:(discriminate) eq_refl).
Defined.

(** ** The chat route with its reply *)

Section SteadyComputations.

Lemma steady_ret {A} (a : A) : steady (ret a).
Proof. intros w r w' Hf Hrun. injection Hrun as _ <-. auto. Qed.

Lemma steady_lift {A} (o : Outcome A) : steady (lift o).
Proof. intros w r w' Hf Hrun. injection Hrun as _ <-. auto. Qed.

Lemma steady_bind {A B} (m : M A) (k : A -> M B) :
  steady m -> (forall a, steady (k a)) -> steady (bind m k).
Proof.
  intros Hm Hk w r w' Hf Hrun. unfold bind in Hrun.
  destruct (m w) as [[a | e] w1] eqn:E.
  - destruct (Hm _ _ _ Hf E) as (Hf1 & Hd1 & Hc1 & Hk1 & Hn1).
    destruct (Hk a _ _ _ Hf1 Hrun) as (Hf2 & Hd2 & Hc2 & Hk2 & Hn2).
    repeat split; congruence.
  - injection Hrun as _ <-. exact (Hm _ _ _ Hf E).
Qed.

Lemma steady_try_catch {A} (m : M A) (h : jsstring -> M A) :
  steady m -> (forall e, steady (h e)) -> steady (try_catch m h).
Proof.
  intros Hm Hh w r w' Hf Hrun. unfold try_catch in Hrun.
  destruct (m w) as [[a | e] w1] eqn:E.
  - injection Hrun as _ <-. exact (Hm _ _ _ Hf E).
  - destruct (Hm _ _ _ Hf E) as (Hf1 & Hd1 & Hc1 & Hk1 & Hn1).
    destruct (Hh e _ _ _ Hf1 Hrun) as (Hf2 & Hd2 & Hc2 & Hk2 & Hn2).
    repeat split; congruence.
Qed.

Lemma steady_read {A} (op : DB -> Outcome A * DB) :
  (forall d, snd (op d) = d) -> steady (prisma op).
Proof.
  intros Hop w r w' Hf Hrun.
  rewrite (prisma_ok op w (next_fault_nil _ Hf)) in Hrun. injection Hrun as _ <-.
  rewrite Hop. unfold set_db, advance. cbn. rewrite Hf. auto.
Qed.

End SteadyComputations.

Section ChatWithReply.
Context `{Host} `{Runtime}.

Lemma steady_fallback_reply (userPrompt : jsstring) (invoices : list Invoice) :
  steady (fallback_reply userPrompt invoices).
Proof.
  unfold fallback_reply. destruct invoices as [| i rest]; [apply steady_ret |].
  cbv zeta.
  repeat match goal with
         | |- steady (if ?b then _ else _) => destruct b
         | |- steady (match ?l with [] => _ | _ :: _ => _ end) => destruct l
         end;
    try apply steady_lift; try apply steady_ret.
  intros w r w' Hf Hrun. injection Hrun as _ <-. auto.
Qed.

Lemma steady_getHardcodedResponse (api : OpenAI) (email userPrompt : jsstring) :
  steady (getHardcodedResponse api email userPrompt).
Proof.
  unfold getHardcodedResponse. cbv zeta.
  destruct (isInvoiceQuery userPrompt); [| apply steady_ret].
  unfold getInvoiceResponse.
  apply steady_try_catch; [| intro; apply steady_ret].
  apply steady_bind; [apply steady_read; reflexivity |].
  intros [u |]; [| apply steady_ret].
  apply steady_bind.
  - apply steady_try_catch; [| intro; apply steady_ret].
    apply steady_bind; [apply steady_lift |]. intro q.
    apply steady_bind.
    + unfold Chat.findSimilarInvoices.
      apply steady_bind; [apply steady_read; reflexivity | intro; apply steady_ret].
    + intros [| s rest]; [apply steady_ret |].
      apply steady_bind; [apply steady_lift | intro; apply steady_ret].
  - intros [response |]; [apply steady_ret |].
    apply steady_bind; [apply steady_read; reflexivity |].
    intro. apply steady_fallback_reply.
Qed.

(** The reply step of the route, when no Prisma call fails. *)
Lemma wp_reply (api : OpenAI) (email userPrompt : jsstring) (u : User)
    (Q : jsstring -> World -> Prop) (t : Z) (w : World) (d : DB) (n k : nat) :
  facts_at t w d n k ->
  find (fun x => str_eqb (user_email x) email) (users d) = Some u ->
  (forall w', facts_at t w' d n k ->
              Q (reply_text api userPrompt t (user_id u) (invoices d)) w') ->
  wp (getHardcodedResponse api email userPrompt) Q w.
Proof.
  intros [(Hf & Hd & Hc & Hk) Hn] Hu HQ.
  assert (Hr : fst (getHardcodedResponse api email userPrompt w)
               = Ok (reply_text api userPrompt t (user_id u) (invoices d))).
  { unfold getHardcodedResponse, reply_text. cbv zeta.
    destruct (isInvoiceQuery userPrompt); [| reflexivity].
    rewrite <- Hd in Hu. rewrite (@invoice_reply_run _ _ api email userPrompt u w Hf Hu).
    rewrite Hd, Hn. reflexivity. }
  destruct (getHardcodedResponse api email userPrompt w) as [r w'] eqn:Hrun.
  cbn [fst] in Hr. subst r.
  destruct (@steady_getHardcodedResponse api email userPrompt w _ w' Hf Hrun)
    as (Hf' & Hd' & Hc' & Hk' & Hn').
  exists (reply_text api userPrompt t (user_id u) (invoices d)), w'.
  split; [exact Hrun |]. apply HQ. unfold facts_at, facts. repeat split; congruence.
Qed.

Lemma wp_read_at {A} (op : DB -> Outcome A * DB) (Q : A -> World -> Prop) (t : Z)
    (w : World) (d : DB) (n k : nat) (a : A) :
  facts_at t w d n k ->
  op d = (Ok a, d) ->
  (forall w', facts_at t w' d n k -> Q a w') ->
  wp (prisma op) Q w.
Proof.
  intros [(Hf & Hd & Hn & Hk) Ht] Hop HQ.
  eapply wp_prisma; [exact Hf | rewrite Hd; exact Hop |].
  apply HQ. unfold facts_at, facts. cbn. rewrite Hf. auto.
Qed.

Lemma wp_create_at {A} (row : jsstring -> Z -> A) (store : A -> DB -> DB)
    (Q : A -> World -> Prop) (t : Z) (w : World) (d : DB) (n k : nat) :
  facts_at t w d n k ->
  (forall w', facts_at t w' (store (row (cuid n) t) d) (S n) k -> Q (row (cuid n) t) w') ->
  wp (prisma_create row store) Q w.
Proof.
  intros [(Hf & Hd & Hn & Hk) Ht] HQ.
  apply wp_prisma_create; [exact Hf |].
  rewrite Hn, Hd, Ht. apply HQ. unfold facts_at, facts. cbn. auto.
Qed.

Lemma wp_uuid_at (Q : jsstring -> World -> Prop) (t : Z) (w : World) (d : DB)
    (n k : nat) :
  facts_at t w d n k ->
  (forall w', facts_at t w' d n (S k) -> Q (randomUUID k) w') ->
  wp crypto_randomUUID Q w.
Proof.
  intros [(Hf & Hd & Hn & Hk) Ht] HQ.
  eexists. eexists. split; [reflexivity |].
  rewrite Hk. apply HQ. unfold facts_at, facts. cbn. auto.
Qed.

Lemma find_app_last {A} (f : A -> bool) (l : list A) (x : A) :
  find f l = None -> f x = true -> find f (l ++ [x]) = Some x.
Proof.
  intros Hnone Hx. induction l as [| y l IH]; cbn [app find].
  - rewrite Hx. reflexivity.
  - cbn [find] in Hnone. destruct (f y); [discriminate | exact (IH Hnone)].
Qed.

(** The row of the acting user is the one a lookup by email finds once the
    request has seen to it that there is one. *)
Lemma acting_user_found (session : option Session) (email : jsstring) (w : World) :
  find (fun x => str_eqb (user_email x) email)
       (match find (fun x => str_eqb (user_email x) email) (users (db w)) with
        | Some _ => users (db w)
        | None => users (db w) ++ [acting_user session email w]
        end)
  = Some (acting_user session email w).
Proof.
  unfold acting_user.
  destruct (find (fun x => str_eqb (user_email x) email) (users (db w))) as [u |] eqn:Hu;
    [exact Hu |].
  apply find_app_last; [exact Hu |]. apply str_eqb_refl.
Qed.

(** A chat request with a non-empty prompt, when no Prisma call fails: the
    route with the reply computed in place. *)
Lemma chat_reply_run (api : OpenAI) (session : option Session) (email prompt : jsstring)
    (req : Chat.ChatRequest) (w : World) :
  session_user_email session = Some email ->
  Chat.req_prompt req = Some (JStr prompt) ->
  prompt <> [] ->
  faults w = [] ->
  let found := find (fun x => str_eqb (user_email x) email) (users (db w)) in
  let u := acting_user session email w in
  let n0 := match found with Some _ => 0 | None => 1 end + created w in
  let existing := requested_chat req u (db w) in
  let c := match existing with
           | Some c => c
           | None => mkChatSession (cuid n0) (user_id u) (firstn 32 prompt)
           end in
  let n1 := match existing with Some _ => 0 | None => 1 end + n0 in
  let messageId := randomUUID (uuids w) in
  let text := reply_text api prompt (now w) (user_id u) (invoices (db w)) in
  exists w',
    Reply.POST api session req w =
    (Ok (mkResponse 200
           (BStream (FStart (chat_id c) messageId
                     :: map (fun ch => FChunk [ch] (chat_id c)) text
                     ++ [FDone messageId text (chat_id c)]))), w')
    /\ db w' =
       mkDB (match found with Some _ => users (db w) | None => users (db w) ++ [u] end)
            (match existing with
             | Some _ => chatSessions (db w)
             | None => chatSessions (db w) ++ [c]
             end)
            (messages (db w)
             ++ [mkMessage (cuid n1) (chat_id c) role_user prompt;
                 mkMessage (cuid (S n1)) (chat_id c) role_assistant text])
            (invoices (db w)) (invoiceSearches (db w)).
Proof.
  intros Hs Hp Hne Hf found u n0 existing c n1 messageId text.
  assert (Htitle : (if is_empty (slice0 32 prompt) then lit "New chat" else slice0 32 prompt)
                   = firstn 32 prompt)
    by (destruct prompt as [| ch p]; [contradiction | reflexivity]).
  enough (Hwp : wp (Reply.POST api session req)
                   (fun resp w' =>
                      resp = mkResponse 200
                               (BStream (FStart (chat_id c) messageId
                                         :: map (fun ch => FChunk [ch] (chat_id c)) text
                                         ++ [FDone messageId text (chat_id c)]))
                      /\ db w' =
                         mkDB (match found with
                               | Some _ => users (db w)
                               | None => users (db w) ++ [u]
                               end)
                              (match existing with
                               | Some _ => chatSessions (db w)
                               | None => chatSessions (db w) ++ [c]
                               end)
                              (messages (db w)
                               ++ [mkMessage (cuid n1) (chat_id c) role_user prompt;
                                   mkMessage (cuid (S n1)) (chat_id c) role_assistant text])
                              (invoices (db w)) (invoiceSearches (db w))) w).
  { destruct Hwp as (resp & w' & Hrun & -> & Hdb). exists w'. split; assumption. }
  assert (F0 : facts_at (now w) w (db w) (created w) (uuids w))
    by (unfold facts_at, facts; auto).
  unfold Reply.POST. rewrite Hs, Hp.
  replace (is_empty prompt) with false by (destruct prompt; [contradiction | reflexivity]).
  fold (display_name session). rewrite Htitle.
  apply wp_bind. unfold user_findUnique.
  eapply wp_read_at; [exact F0 | reflexivity |]. fold found. intros w1 F1.
  apply wp_bind.
  set (d1 := mkDB (match found with Some _ => users (db w) | None => users (db w) ++ [u] end)
                  (chatSessions (db w)) (messages (db w)) (invoices (db w))
                  (invoiceSearches (db w))).
  assert (Huser : wp (match found with
                      | Some u0 => ret u0
                      | None => user_create email (display_name session) []
                      end)
                     (fun a w2 => a = u /\ facts_at (now w) w2 d1 n0 (uuids w)) w1).
  { subst u n0 d1. unfold acting_user. fold found. destruct found as [u0 |].
    - apply wp_ret. split; [reflexivity |]. destruct (db w); exact F1.
    - unfold user_create. eapply wp_create_at; [exact F1 |].
      intros w2 F2. split; [reflexivity | exact F2]. }
  destruct Huser as (a & w2 & Hrun2 & -> & F2).
  exists u, w2. split; [exact Hrun2 |].
  apply wp_bind.
  assert (Hchat : wp (match Chat.req_chatId req with
                      | Some chatId =>
                          if is_empty chatId then ret None
                          else chatSession_findFirst chatId (user_id u)
                      | None => ret None
                      end)
                     (fun a w3 => a = existing /\ facts_at (now w) w3 d1 n0 (uuids w)) w2).
  { subst existing. unfold requested_chat.
    destruct (Chat.req_chatId req) as [chatId |]; [| apply wp_ret; auto].
    destruct (is_empty chatId); [apply wp_ret; auto |].
    unfold chatSession_findFirst.
    eapply wp_read_at; [exact F2 | reflexivity |]. intros w3 F3. auto. }
  destruct Hchat as (a & w3 & Hrun3 & -> & F3).
  exists existing, w3. split; [exact Hrun3 |].
  apply wp_bind.
  set (d2 := mkDB (users d1)
                  (match existing with
                   | Some _ => chatSessions (db w)
                   | None => chatSessions (db w) ++ [c]
                   end)
                  (messages (db w)) (invoices (db w)) (invoiceSearches (db w))).
  assert (Hopen : wp (match existing with
                      | Some c0 => ret c0
                      | None => chatSession_create (user_id u) (firstn 32 prompt)
                      end)
                     (fun a w4 => a = c /\ facts_at (now w) w4 d2 n1 (uuids w)) w3).
  { subst c n1 d2. destruct existing as [c0 |].
    - apply wp_ret. split; [reflexivity | exact F3].
    - unfold chatSession_create. eapply wp_create_at; [exact F3 |].
      intros w4 F4. split; [reflexivity | exact F4]. }
  destruct Hopen as (a & w4 & Hrun4 & -> & F4).
  exists c, w4. split; [exact Hrun4 |].
  apply wp_bind. unfold message_create.
  eapply wp_create_at; [exact F4 |]. intros w5 F5.
  apply wp_bind. eapply wp_uuid_at; [exact F5 |]. intros w6 F6.
  apply wp_bind.
  eapply (@wp_reply api email prompt u); [exact F6 | exact (acting_user_found session email w) |].
  intros w7 F7. cbn [invoices]. fold text.
  apply wp_bind. eapply wp_stream; [exact (proj1 F7) |]. intros w8 F8.
  apply wp_ret. split; [reflexivity |].
  destruct F8 as (_ & -> & _). cbn [users chatSessions messages invoices invoiceSearches d2 d1].
  rewrite <- app_assoc. reflexivity.
Qed.

(** The handler that is given the reply and the handler that computes it
    agree: when no Prisma call fails, a request with a non-empty prompt gets
    the same response and leaves the same database whether the reply is
    computed on the way, between saving the prompt and streaming, or handed
    over beforehand. *)
Theorem chat_post_with_reply (api : OpenAI) (session : option Session)
    (email prompt : jsstring) (req : Chat.ChatRequest) (w : World) :
  session_user_email session = Some email ->
  Chat.req_prompt req = Some (JStr prompt) ->
  prompt <> [] ->
  faults w = [] ->
  let text :=
    reply_text api prompt (now w) (user_id (acting_user session email w))
               (invoices (db w)) in
  exists resp w1 w2,
    Reply.POST api session req w = (Ok resp, w1)
    /\ Chat.POST session req text w = (Ok resp, w2)
    /\ status resp = 200
    /\ db w1 = db w2.
Proof.
  intros Hs Hp Hne Hf text.
  destruct (@chat_reply_run api session email prompt req w Hs Hp Hne Hf)
    as (w1 & Hrun1 & Hdb1).
  destruct (@chat_POST_run _ session email prompt text req w Hs Hp Hne Hf)
    as (w2 & Hrun2 & Hdb2).
  cbv zeta in Hrun1, Hdb1, Hrun2, Hdb2. fold text in Hrun1, Hdb1.
  eexists. exists w1, w2.
  split; [exact Hrun1 |]. split; [exact Hrun2 |]. split; [reflexivity |].
  rewrite Hdb1, Hdb2. reflexivity.
Qed.

(** A chat request with a non-empty prompt, when no Prisma call fails, adds
    exactly two messages, the prompt of the user and then the reply of the
    assistant, both to one chat; that chat is in the database and belongs to
    the user the request runs as, whatever chat id the request named.  When
    the chat ids in the database are distinct and the id given to a new chat
    is not in use, that chat is no chat of another user: no chat with another
    owner has the id the two messages carry. *)
Theorem chat_post_persists (api : OpenAI) (session : option Session)
    (email prompt : jsstring) (req : Chat.ChatRequest) (w : World) :
  session_user_email session = Some email ->
  Chat.req_prompt req = Some (JStr prompt) ->
  prompt <> [] ->
  faults w = [] ->
  NoDup (map chat_id (chatSessions (db w))) ->
  ~ In (new_chat_id email w) (map chat_id (chatSessions (db w))) ->
  let u := acting_user session email w in
  exists resp w' c m1 m2,
    Reply.POST api session req w = (Ok resp, w')
    /\ status resp = 200
    /\ messages (db w') = messages (db w) ++ [m1; m2]
    /\ message_role m1 = role_user /\ message_content m1 = prompt
    /\ message_role m2 = role_assistant
    /\ message_content m2
       = reply_text api prompt (now w) (user_id u) (invoices (db w))
    /\ message_chatId m1 = chat_id c /\ message_chatId m2 = chat_id c
    /\ In c (chatSessions (db w'))
    /\ chat_userId c = user_id u
    /\ NoDup (map chat_id (chatSessions (db w')))
    /\ (forall c', In c' (chatSessions (db w')) ->
          chat_userId c' <> user_id u ->
          message_chatId m1 <> chat_id c' /\ message_chatId m2 <> chat_id c').
Proof.
  intros Hs Hp Hne Hf Hunique Hfresh u.
  destruct (@chat_reply_run api session email prompt req w Hs Hp Hne Hf)
    as (w' & Hrun & Hdb).
  cbv zeta in Hrun, Hdb. fold u in Hrun, Hdb.
  eexists. exists w'.
  eexists. eexists. eexists. split; [exact Hrun |]. split; [reflexivity |].
  rewrite Hdb. cbn [messages chatSessions message_role message_content message_chatId].
  split; [reflexivity |]. repeat (split; [reflexivity |]).
  destruct (requested_chat req u (db w)) as [c0 |] eqn:Hc.
  - unfold requested_chat in Hc.
    destruct (Chat.req_chatId req) as [chatId |]; [| discriminate Hc].
    destruct (is_empty chatId); [discriminate Hc |].
    apply find_some in Hc. destruct Hc as [Hin Hc].
    apply andb_prop in Hc. destruct Hc as [_ Howner]. apply str_eqb_eq in Howner.
    split; [exact Hin |]. split; [exact Howner |]. split; [exact Hunique |].
    intros c' Hin' Hother.
    assert (Hne' : chat_id c0 <> chat_id c').
    { intro Hid. apply Hother. rewrite <- Howner. f_equal. symmetry.
      exact (@NoDup_map_inj _ _ chat_id (chatSessions (db w)) c0 c' Hunique Hin Hin' Hid). }
    split; exact Hne'.
  - cbn [chat_id chat_userId].
    split; [apply in_or_app; right; left; reflexivity |].
    split; [reflexivity |].
    split.
    + rewrite map_app. cbn [map chat_id].
      apply NoDup_app; [exact Hunique | repeat constructor; intros [] | ].
      intros x Hx [<- | []]. exact (Hfresh Hx).
    + intros c' Hin' Hother.
      apply in_app_or in Hin'. destruct Hin' as [Hin' | [<- | []]].
      * assert (Hne' : new_chat_id email w <> chat_id c').
        { intro Hid. apply Hfresh. rewrite Hid. apply in_map. exact Hin'. }
        split; exact Hne'.
      * contradiction Hother. reflexivity.
Qed.

End ChatWithReply.

Lemma chat_post_persists_witness :
  exists resp w' m1 m2,
    Reply.POST (H := Reference.host) (H0 := ReferenceRuntime.runtime)
      ReferenceRuntime.offline Examples.bob_session ChatCases.bob_names_c1
      Examples.sample_world = (Ok resp, w')
    /\ messages (db w') = messages Examples.sample_db ++ [m1; m2]
    /\ map chat_id (chatSessions (db w')) = [lit "c1"; lit "c2"; lit "c3"; lit "c0"]
    /\ message_chatId m1 = lit "c0" /\ message_chatId m2 = lit "c0"
    /\ message_content m2 = canned (lit "show me this chat").
Proof.
  assert (Hunique : NoDup (map chat_id (chatSessions (db Examples.sample_world)))).
  { repeat constructor; cbn; intuition discriminate. }
  destruct (@chat_post_persists Reference.host ReferenceRuntime.runtime
              ReferenceRuntime.offline Examples.bob_session
              (lit "bob@example.com") (lit "show me this chat")
              ChatCases.bob_names_c1 Examples.sample_world
              eq_refl eq_refl ltac:(discriminate) eq_refl Hunique
              ltac:(cbn; intuition discriminate))
    as (resp & w' & c & m1 & m2 & Hrun & _ & Hm & _ & _ & _ & Htext & H1 & H2 & _).
  exists resp, w', m1, m2. split; [exact Hrun |]. split; [exact Hm |].
  pose proof (f_equal (fun p => map chat_id (chatSessions (db (snd p)))) Hrun) as Hchats.
  cbn [snd] in Hchats.
  pose proof (f_equal (fun p => map message_chatId (messages (db (snd p)))) Hrun) as Hids.
  cbn [snd] in Hids. rewrite Hm, map_app in Hids. vm_compute in Hids.
  injection Hids as Hid1 Hid2.
  split; [rewrite <- Hchats; vm_compute; reflexivity |].
  split; [symmetry; exact Hid1 |]. split; [symmetry; exact Hid2 |].
  rewrite Htext. vm_compute. reflexivity.
Defined.

Lemma chat_post_with_reply_witness :
  exists resp w1 w2,
    Reply.POST (H := Reference.host) (H0 := ReferenceRuntime.runtime)
      ReferenceRuntime.offline Examples.alice_session Examples.open_chat
      Examples.sample_world = (Ok resp, w1)
    /\ Chat.POST (H := Reference.host) Examples.alice_session Examples.open_chat
         (reply_text (H := Reference.host) (H0 := ReferenceRuntime.runtime)
            ReferenceRuntime.offline Examples.long_prompt 0 (lit "u1")
            (invoices Examples.sample_db))
         Examples.sample_world = (Ok resp, w2)
    /\ db w1 = db w2.
Proof.
  destruct (@chat_post_with_reply Reference.host ReferenceRuntime.runtime
              ReferenceRuntime.offline Examples.alice_session
              (lit "alice@example.com") Examples.long_prompt Examples.open_chat
              Examples.sample_world eq_refl eq_refl ltac:(discriminate) eq_refl)
    as (resp & w1 & w2 & Hrun1 & Hrun2 & _ & Hdb).
  exists resp, w1, w2. split; [exact Hrun1 |]. split; [exact Hrun2 | exact Hdb].
Defined.
